(** * lonelypss: the websocket session engine

    A shallow embedding of [src/lonelypss/routes/websocket_endpoint.py]
    (and of the refactored subscribe processor in
    [src/lonelypss/ws/handlers/open/processors/process_subscribe_exact.py]),
    together with the properties of the frame codec, the authorization
    url sequencer, the ingress processors, the compression selection and
    the dictionary-training sampler.

    Conventions.
    - Python [bytes] are [list byte]; Python [int] is [Z]; a Python [str]
      is the [string] of its UTF-8 encoding, so that two [str] are equal
      when their code points are, and a [str] is ASCII when all its bytes
      are below 128. A timestamp ([time.time()]) is a number of clock
      ticks, and a function that reads the clock takes the reading as its
      argument [now]; the outcome of [secrets.token_bytes] is an argument
      as well.
    - A function that can raise returns a [result]; a coroutine that
      mutates the session returns the mutated session next to its result,
      because the mutations made before a [raise] stay visible. Coroutines
      run from start to end: the interleavings at their [await]s are not
      modelled.
    - Calls on external collaborators (the websocket, the fanout hub, the
      delivery fanout) and the changes of the local subscriptions are
      recorded, in program order, in the [trace] field of the session. *)

From Stdlib Require Import ZArith NArith Lia.
From Stdlib Require Import Strings.Byte Strings.Ascii Strings.String Strings.HexString.
From stdpp Require Import base option list strings gmap.

Local Open Scope Z_scope.

(** ** Python primitives *)

Module Py.

Definition bytes := list byte.

(** The exception classes the engine raises or lets escape; the payload is
    the message of the [raise] statement (without interpolated values). *)
Inductive exn : Type :=
| ValueError (msg : string)
| KeyError (key : string)
| TypeError (msg : string)
| OverflowError
| UnicodeDecodeError
| UnicodeEncodeError
| UnboundLocalError
| AssertionError
| ZstdError
| Exception (msg : string).

Inductive result (A : Type) : Type :=
| Ok (a : A)
| Raise (e : exn).
Arguments Ok {A} a.
Arguments Raise {A} e.

Definition bind {A B} (k : A → result B) (r : result A) : result B :=
  match r with
  | Ok a => k a
  | Raise e => Raise e
  end.

Definition raises {A} (r : result A) : Prop := ∃ e, r = Raise e.

Definition len {A} (l : list A) : Z := Z.of_nat (length l).

Definition byte_to_Z (b : byte) : Z := Z.of_N (Byte.to_N b).

Definition byte_of_Z (z : Z) : byte :=
  default "000"%byte (Byte.of_N (Z.to_N z)).

(** [int.from_bytes(b, "big")] *)
Definition from_bytes (b : bytes) : Z :=
  fold_left (λ acc x, acc * 256 + byte_to_Z x) b 0.

(** The [size] low base-256 digits of [n], least significant first. *)
Fixpoint digits_le (n : Z) (size : nat) : bytes :=
  match size with
  | O => []
  | S k => byte_of_Z (n mod 256) :: digits_le (n / 256) k
  end.

(** [n.to_bytes(length, "big")]: raises [OverflowError] when [n] is
    negative or does not fit. *)
Definition to_bytes (n : Z) (size : nat) : result bytes :=
  if (n <? 0) || (256 ^ Z.of_nat size <=? n)
  then Raise OverflowError
  else Ok (rev (digits_le n size)).

(** [n.bit_length()] for [n >= 0]. *)
Definition bit_length (n : Z) : Z :=
  match n with
  | Zpos p => Z.pos (Pos.size p)
  | _ => 0
  end.

Definition is_ascii_byte (b : byte) : bool := byte_to_Z b <? 128.

(** [b.decode("ascii")] *)
Definition decode_ascii (b : bytes) : result string :=
  if forallb is_ascii_byte b
  then Ok (string_of_list_byte b)
  else Raise UnicodeDecodeError.

(** [s.encode("ascii")] *)
Definition encode_ascii (s : string) : result bytes :=
  let b := list_byte_of_string s in
  if forallb is_ascii_byte b then Ok b else Raise UnicodeEncodeError.

Definition lower_ascii (c : ascii) : ascii :=
  let n := nat_of_ascii c in
  if (65 <=? n)%nat && (n <=? 90)%nat then ascii_of_nat (n + 32) else c.

(** [s.lower()] on a string of ASCII characters. *)
Fixpoint lower (s : string) : string :=
  match s with
  | EmptyString => EmptyString
  | String c s' => String (lower_ascii c) (lower s')
  end.

(** [f"{z:x}"]: lowercase hexadecimal, no prefix, no padding, a leading
    minus sign for a negative number. *)
Definition format_x (z : Z) : string :=
  match z with
  | Z0 => "0"
  | Zpos p => HexString.Raw.of_pos p ""
  | Zneg p => String "-" (HexString.Raw.of_pos p "")
  end.

(** Modelled from the spec: [read_exact] of [lonelypss.util.sync_io], which
    is not among the sources. It reads exactly [n] bytes from the stream;
    a frame that ends before them is malformed, which is an error
    ([ValueError], the one the request handlers catch around the same
    helper). A stream is the list of the bytes not yet read. *)
Definition read_exact (stream : bytes) (n : Z) : result (bytes * bytes) :=
  if n <=? len stream
  then Ok (take (Z.to_nat n) stream, drop (Z.to_nat n) stream)
  else Raise (ValueError "not enough data").

End Py.

Export Py.

#[global] Instance result_bind : MBind result := @Py.bind.
#[global] Instance result_ret : MRet result := @Ok.

(** ** Frame codec *)

Inductive _ParsedWSMessageType : Type :=
| CONFIGURE
| SUBSCRIBE_EXACT
| SUBSCRIBE_GLOB
| UNSUBSCRIBE_EXACT
| UNSUBSCRIBE_GLOB
| NOTIFY
| NOTIFY_STREAM
| CONTINUE_RECEIVE
| CONFIRM_RECEIVE.

Inductive _OutgoingParsedWSMessageType : Type :=
| CONFIRM_CONFIGURE
| CONFIRM_SUBSCRIBE_EXACT
| CONFIRM_SUBSCRIBE_GLOB
| CONFIRM_UNSUBSCRIBE_EXACT
| CONFIRM_UNSUBSCRIBE_GLOB
| CONFIRM_NOTIFY
| CONTINUE_NOTIFY
| RECEIVE_STREAM
| ENABLE_ZSTD_PRESET
| ENABLE_ZSTD_CUSTOM.

#[global] Instance _ParsedWSMessageType_eq_dec : EqDecision _ParsedWSMessageType.
Proof. solve_decision. Defined.

#[global] Instance _OutgoingParsedWSMessageType_eq_dec :
  EqDecision _OutgoingParsedWSMessageType.
Proof. solve_decision. Defined.

(** The value of an [IntEnum] member ([auto()] counts from 1). *)
Definition parsed_type_value (t : _ParsedWSMessageType) : Z :=
  match t with
  | CONFIGURE => 1
  | SUBSCRIBE_EXACT => 2
  | SUBSCRIBE_GLOB => 3
  | UNSUBSCRIBE_EXACT => 4
  | UNSUBSCRIBE_GLOB => 5
  | NOTIFY => 6
  | NOTIFY_STREAM => 7
  | CONTINUE_RECEIVE => 8
  | CONFIRM_RECEIVE => 9
  end.

Definition outgoing_type_value (t : _OutgoingParsedWSMessageType) : Z :=
  match t with
  | CONFIRM_CONFIGURE => 1
  | CONFIRM_SUBSCRIBE_EXACT => 2
  | CONFIRM_SUBSCRIBE_GLOB => 3
  | CONFIRM_UNSUBSCRIBE_EXACT => 4
  | CONFIRM_UNSUBSCRIBE_GLOB => 5
  | CONFIRM_NOTIFY => 6
  | CONTINUE_NOTIFY => 7
  | RECEIVE_STREAM => 8
  | ENABLE_ZSTD_PRESET => 9
  | ENABLE_ZSTD_CUSTOM => 10
  end.

(** [_ParsedWSMessageType(n)]: the enum lookup raises [ValueError] on a
    number that is no member. *)
Definition parsed_type_of_value (n : Z) : result _ParsedWSMessageType :=
  match n with
  | 1 => Ok CONFIGURE
  | 2 => Ok SUBSCRIBE_EXACT
  | 3 => Ok SUBSCRIBE_GLOB
  | 4 => Ok UNSUBSCRIBE_EXACT
  | 5 => Ok UNSUBSCRIBE_GLOB
  | 6 => Ok NOTIFY
  | 7 => Ok NOTIFY_STREAM
  | 8 => Ok CONTINUE_RECEIVE
  | 9 => Ok CONFIRM_RECEIVE
  | _ => Raise (ValueError "not a valid _ParsedWSMessageType")
  end.

(** [_ParsedWSMessageFlags] is an [IntFlag]: any integer is a value. *)
Definition MINIMAL_HEADERS : Z := Z.shiftl 1 0.

Definition has_minimal_headers (flags : Z) : bool :=
  negb (Z.land flags MINIMAL_HEADERS =? 0).

Record _ParsedWSMessage : Type := mk_ParsedWSMessage {
  msg_flags : Z;
  msg_type : _ParsedWSMessageType;
  msg_headers : gmap string bytes;
  msg_body : bytes;
}.

Definition _STANDARD_MINIMAL_HEADERS_BY_TYPE
    (t : _ParsedWSMessageType) : option (list string) :=
  match t with
  | CONFIGURE =>
      Some ["x-subscriber-nonce"; "x-enable-zstd"; "x-enable-training";
            "x-initial-dict"]
  | SUBSCRIBE_EXACT => Some ["authorization"; "x-topic"]
  | SUBSCRIBE_GLOB => Some ["authorization"; "x-glob"]
  | UNSUBSCRIBE_EXACT => Some ["authorization"; "x-topic"]
  | UNSUBSCRIBE_GLOB => Some ["authorization"; "x-glob"]
  | NOTIFY =>
      Some ["authorization"; "x-identifier"; "x-topic"; "x-compressor";
            "x-compressed-length"; "x-decompressed-length";
            "x-compressed-sha512"]
  | NOTIFY_STREAM => None
  | CONTINUE_RECEIVE => Some ["x-part-id"; "x-identifier"]
  | CONFIRM_RECEIVE => Some ["x-identifier"]
  end%string.

(** One length-prefixed value: [read_exact(stream, 2)], then that many
    bytes. *)
Definition read_value (stream : bytes) : result (bytes * bytes) :=
  '(length_bytes, stream) ← read_exact stream 2;
  read_exact stream (from_bytes length_bytes).

(** [for header in minimal_headers: ...] *)
Fixpoint parse_minimal_headers (minimal_headers : list string)
    (headers : gmap string bytes) (stream : bytes)
    : result (gmap string bytes * bytes) :=
  match minimal_headers with
  | [] => Ok (headers, stream)
  | header :: rest =>
      '(value, stream) ← read_value stream;
      parse_minimal_headers rest (<[header := value]> headers) stream
  end.

(** [for _ in range(num_headers): ...] *)
Fixpoint parse_expanded_headers (num_headers : nat)
    (headers : gmap string bytes) (stream : bytes)
    : result (gmap string bytes * bytes) :=
  match num_headers with
  | O => Ok (headers, stream)
  | S rest =>
      '(name_enc, stream) ← read_value stream;
      name_dec ← decode_ascii name_enc;
      let name := lower name_dec in
      '(value, stream) ← read_value stream;
      parse_expanded_headers rest (<[name := value]> headers) stream
  end.

(** The [NOTIFY_STREAM] prefix of the minimal form; it leaves the list of
    the headers that remain to be read. *)
Definition parse_notify_stream_prefix (stream : bytes)
    : result (gmap string bytes * list string * bytes) :=
  '(length_bytes, stream) ← read_exact stream 2;
  '(authorization, stream) ← read_exact stream (from_bytes length_bytes);
  let headers : gmap string bytes := <["authorization"%string := authorization]> ∅ in
  '(length_bytes, stream) ← read_exact stream 2;
  if 64 <? from_bytes length_bytes
  then Raise (ValueError "message id max 64 bytes")
  else
    '(identifier, stream) ← read_exact stream (from_bytes length_bytes);
    let headers := <["x-identifier"%string := identifier]> headers in
    '(length_bytes, stream) ← read_exact stream 2;
    if 8 <? from_bytes length_bytes
    then Raise (ValueError "part id max 8 bytes")
    else
      '(part_id_bytes, stream) ← read_exact stream (from_bytes length_bytes);
      let headers := <["x-part-id"%string := part_id_bytes]> headers in
      let part_id := from_bytes part_id_bytes in
      if part_id =? 0
      then Ok (headers,
               ["x-topic"; "x-compressor"; "x-compressed-length";
                "x-decompressed-length"; "x-compressed-sha512"]%string,
               stream)
      else Ok (headers, ["x-identifier"%string], stream).

Definition _parse_websocket_message (body : bytes) : result _ParsedWSMessage :=
  let stream := body in
  '(flag_bytes, stream) ← read_exact stream 2;
  let flags := from_bytes flag_bytes in
  '(type_bytes, stream) ← read_exact stream 2;
  message_type ← parsed_type_of_value (from_bytes type_bytes);
  '(headers, stream) ←
    (if has_minimal_headers flags
     then
       let minimal_headers := _STANDARD_MINIMAL_HEADERS_BY_TYPE message_type in
       '(headers, minimal_headers, stream) ←
         (if decide (message_type = NOTIFY_STREAM)
          then
            '(headers, names, stream) ← parse_notify_stream_prefix stream;
            Ok (headers, Some names, stream)
          else Ok (∅, minimal_headers, stream));
       match minimal_headers with
       | Some names => parse_minimal_headers names headers stream
       | None => Raise UnboundLocalError
       end
     else
       '(count_bytes, stream) ← read_exact stream 2;
       parse_expanded_headers (Z.to_nat (from_bytes count_bytes)) ∅ stream);
  Ok (mk_ParsedWSMessage flags message_type headers stream).

(** [for _, value in headers: ...] of the minimal form. *)
Fixpoint write_minimal_headers (headers : list (string * bytes)) : result bytes :=
  match headers with
  | [] => Ok []
  | (_, value) :: rest =>
      value_len ← to_bytes (len value) 2;
      tail ← write_minimal_headers rest;
      Ok (value_len ++ value ++ tail)
  end.

(** [for name, value in headers: ...] of the expanded form. *)
Fixpoint write_expanded_headers (headers : list (string * bytes)) : result bytes :=
  match headers with
  | [] => Ok []
  | (name, value) :: rest =>
      enc_name ← encode_ascii name;
      name_len ← to_bytes (len enc_name) 2;
      value_len ← to_bytes (len value) 2;
      tail ← write_expanded_headers rest;
      Ok (name_len ++ enc_name ++ value_len ++ value ++ tail)
  end.

Definition _make_websocket_message (flags : Z)
    (message_type : _OutgoingParsedWSMessageType)
    (headers : list (string * bytes)) (body : bytes) : result bytes :=
  flag_bytes ← to_bytes flags 2;
  type_bytes ← to_bytes (outgoing_type_value message_type) 2;
  header_bytes ←
    (if has_minimal_headers flags
     then write_minimal_headers headers
     else
       count ← to_bytes (len headers) 2;
       written ← write_expanded_headers headers;
       Ok (count ++ written));
  Ok (flag_bytes ++ type_bytes ++ header_bytes ++ body).

Definition _smallest_unsigned_size (n : Z) : result Z :=
  if n <? 0 then Raise AssertionError
  else Ok ((bit_length n - 1) / 8 + 1).



(** ** hashlib: SHA-256 and SHA-512 (FIPS 180-4) *)

Module SHA2.

(** The largest [r] with [r ^ k <= x], found bit by bit from [2 ^ bits]
    down. *)
Fixpoint iroot_from (k : Z) (x : Z) (bits : nat) (r : Z) : Z :=
  match bits with
  | O => r
  | S bits' =>
      let r' := r + 2 ^ Z.of_nat bits' in
      iroot_from k x bits' (if r' ^ k <=? x then r' else r)
  end.

(** The first [bits] bits of the fractional part of the [k]-th root of
    [p]. *)
Definition root_fraction (k : Z) (bits : nat) (p : Z) : Z :=
  iroot_from k (p * 2 ^ (k * Z.of_nat bits)) (bits + 8) 0 mod 2 ^ Z.of_nat bits.

Definition is_prime (n : Z) : bool :=
  forallb (λ d, negb (n mod Z.of_nat d =? 0)) (seq 2 (Z.to_nat n - 2)).

(** The first 80 primes. *)
Definition primes : list Z :=
  Eval vm_compute in filter (λ n, is_prime n) (Z.of_nat <$> seq 2 408).

(** One of the two functions: the width of a word, the number of rounds,
    the rotation and shift amounts of the four sigma functions, and the
    number of bytes that hold the length of the message. *)
Record variant : Type := mk_variant {
  word_bits : Z;
  rounds : nat;
  big_sigma_0 : Z * Z * Z;
  big_sigma_1 : Z * Z * Z;
  small_sigma_0 : Z * Z * Z;
  small_sigma_1 : Z * Z * Z;
  length_bytes : nat;
}.

Definition SHA256 : variant :=
  mk_variant 32 64 (2, 13, 22) (6, 11, 25) (7, 18, 3) (17, 19, 10) 8.

Definition SHA512 : variant :=
  mk_variant 64 80 (28, 34, 39) (14, 18, 41) (1, 8, 7) (19, 61, 6) 16.

Section variant.

Context (v : variant).

Definition wrap (x : Z) : Z := x mod 2 ^ word_bits v.

Definition rotr (n x : Z) : Z :=
  wrap (Z.lor (Z.shiftr x n) (Z.shiftl x (word_bits v - n))).

Definition Sigma (amounts : Z * Z * Z) (x : Z) : Z :=
  let '(a, b, c) := amounts in
  Z.lxor (rotr a x) (Z.lxor (rotr b x) (rotr c x)).

Definition sigma (amounts : Z * Z * Z) (x : Z) : Z :=
  let '(a, b, c) := amounts in
  Z.lxor (rotr a x) (Z.lxor (rotr b x) (Z.shiftr x c)).

Definition Ch (x y z : Z) : Z :=
  Z.lxor (Z.land x y) (Z.land (Z.lxor x (2 ^ word_bits v - 1)) z).

Definition Maj (x y z : Z) : Z :=
  Z.lxor (Z.land x y) (Z.lxor (Z.land x z) (Z.land y z)).

Definition round_constants : list Z :=
  root_fraction 3 (Z.to_nat (word_bits v)) <$> take (rounds v) primes.

Definition initial_hash : list Z :=
  root_fraction 2 (Z.to_nat (word_bits v)) <$> take 8 primes.

Definition word_bytes : nat := Z.to_nat (word_bits v / 8).

Definition block_bytes : nat := (16 * word_bytes)%nat.

(** The message, the byte [0x80], zeros up to a whole number of blocks,
    and the length of the message in bits. *)
Definition pad (message : bytes) : bytes :=
  let used := (length message + 1 + length_bytes v)%nat in
  let zeros := ((block_bytes - used mod block_bytes) mod block_bytes)%nat in
  message ++ ["128"%byte] ++ repeat "000"%byte zeros
  ++ rev (digits_le (8 * len message) (length_bytes v)).

(** [count] groups of [size] elements. *)
Fixpoint chunks {A} (size count : nat) (l : list A) : list (list A) :=
  match count with
  | O => []
  | S count' => take size l :: chunks size count' (drop size l)
  end.

(** The message schedule, most recent word first. *)
Fixpoint schedule (n : nat) (w : list Z) : list Z :=
  match n with
  | O => w
  | S n' =>
      let at_ i := nth i w 0 in
      schedule n'
        (wrap (sigma (small_sigma_1 v) (at_ 1%nat) + at_ 6%nat
               + sigma (small_sigma_0 v) (at_ 14%nat) + at_ 15%nat) :: w)
  end.

Definition round (h : list Z) (kw : Z * Z) : list Z :=
  match h with
  | [a; b; c; d; e; f; g; hh] =>
      let t1 := hh + Sigma (big_sigma_1 v) e + Ch e f g + kw.1 + kw.2 in
      let t2 := Sigma (big_sigma_0 v) a + Maj a b c in
      [wrap (t1 + t2); a; b; c; wrap (d + t1); e; f; g]
  | _ => h
  end.

Definition compress (K : list Z) (h : list Z) (block : bytes) : list Z :=
  let words := from_bytes <$> chunks word_bytes 16 block in
  let w := rev (schedule (rounds v - 16) (rev words)) in
  let h' := fold_left round (zip K w) h in
  (λ xy : Z * Z, wrap (xy.1 + xy.2)) <$> zip h h'.

Definition hash_words (K H0 : list Z) (message : bytes) : list Z :=
  let padded := pad message in
  fold_left (compress K)
    (chunks block_bytes (length padded / block_bytes) padded) H0.

Definition digest_of_words (words : list Z) : bytes :=
  concat ((λ w, rev (digits_le w word_bytes)) <$> words).

End variant.

(** The constants, computed once. *)
Definition constants_256 : list Z * list Z :=
  Eval vm_compute in (round_constants SHA256, initial_hash SHA256).

Definition constants_512 : list Z * list Z :=
  Eval vm_compute in (round_constants SHA512, initial_hash SHA512).

Definition sha256 (message : bytes) : bytes :=
  digest_of_words SHA256
    (hash_words SHA256 constants_256.1 constants_256.2 message).

Definition sha512 (message : bytes) : bytes :=
  digest_of_words SHA512
    (hash_words SHA512 constants_512.1 constants_512.2 message).

End SHA2.

(** [hashlib.sha256(data).digest()] and [hashlib.sha512(data).digest()];
    a hasher that was fed [a] then [b] holds the digest of [a ++ b]. *)
Definition sha256 (data : bytes) : bytes := SHA2.sha256 data.
Definition sha512 (data : bytes) : bytes := SHA2.sha512 data.

Arguments sha256 : simpl never.
Arguments sha512 : simpl never.


(** ** More Python primitives: UTF-8 and base64 *)

#[global] Instance byte_eq_dec : EqDecision byte := Byte.byte_eq_dec.
#[global] Instance byte_countable : Countable byte :=
  inj_countable Byte.to_N Byte.of_N Byte.of_to_N.

Definition in_range (lo hi : Z) (b : byte) : bool :=
  (lo <=? byte_to_Z b) && (byte_to_Z b <=? hi).

(** Well-formed UTF-8 (the table of RFC 3629, which the strict decoder of
    Python follows: no overlong form, no surrogate, nothing above
    U+10FFFF). *)
Fixpoint valid_utf8 (b : bytes) : bool :=
  match b with
  | [] => true
  | b0 :: r0 =>
      if in_range 0 127 b0 then valid_utf8 r0
      else
        match r0 with
        | [] => false
        | b1 :: r1 =>
            if in_range 194 223 b0 then in_range 128 191 b1 && valid_utf8 r1
            else
              match r1 with
              | [] => false
              | b2 :: r2 =>
                  if in_range 224 239 b0 then
                    (if in_range 224 224 b0 then in_range 160 191 b1
                     else if in_range 237 237 b0 then in_range 128 159 b1
                     else in_range 128 191 b1)
                    && in_range 128 191 b2 && valid_utf8 r2
                  else
                    match r2 with
                    | [] => false
                    | b3 :: r3 =>
                        in_range 240 244 b0
                        && (if in_range 240 240 b0 then in_range 144 191 b1
                            else if in_range 244 244 b0 then in_range 128 143 b1
                            else in_range 128 191 b1)
                        && in_range 128 191 b2 && in_range 128 191 b3
                        && valid_utf8 r3
                    end
              end
        end
  end.

(** [b.decode("utf-8")]. A [str] is represented by its UTF-8 encoding, so
    that equality of strings is equality of their code points. *)
Definition decode_utf8 (b : bytes) : result string :=
  if valid_utf8 b then Ok (string_of_list_byte b) else Raise UnicodeDecodeError.

(** [s.encode("utf-8")] *)
Definition encode_utf8 (s : string) : bytes := list_byte_of_string s.

(** The alphabet of [base64.urlsafe_b64encode]. *)
Definition urlsafe_b64_char (n : Z) : ascii :=
  ascii_of_N (Z.to_N
    (if n <? 26 then 65 + n
     else if n <? 52 then 97 + (n - 26)
     else if n <? 62 then 48 + (n - 52)
     else if n =? 62 then 45
     else 95)).

(** [base64.urlsafe_b64encode(b).decode("ascii")]: three bytes give four
    characters; a last group of one or two bytes is padded with ['=']. *)
Fixpoint urlsafe_b64encode (b : bytes) : string :=
  match b with
  | [] => ""
  | [b0] =>
      let n := byte_to_Z b0 in
      String (urlsafe_b64_char (Z.shiftr n 2))
        (String (urlsafe_b64_char (Z.shiftl (Z.land n 3) 4)) "==")
  | [b0; b1] =>
      let n := Z.lor (Z.shiftl (byte_to_Z b0) 8) (byte_to_Z b1) in
      String (urlsafe_b64_char (Z.shiftr n 10))
        (String (urlsafe_b64_char (Z.land (Z.shiftr n 4) 63))
           (String (urlsafe_b64_char (Z.shiftl (Z.land n 15) 2)) "="))
  | b0 :: b1 :: b2 :: rest =>
      let n := Z.lor (Z.shiftl (byte_to_Z b0) 16)
                 (Z.lor (Z.shiftl (byte_to_Z b1) 8) (byte_to_Z b2)) in
      String (urlsafe_b64_char (Z.shiftr n 18))
        (String (urlsafe_b64_char (Z.land (Z.shiftr n 12) 63))
           (String (urlsafe_b64_char (Z.land (Z.shiftr n 6) 63))
              (String (urlsafe_b64_char (Z.land n 63)) (urlsafe_b64encode rest))))
  end%string.

(** ** External collaborators *)

(** The verdict of the authorization provider; [auth_result_str] is the
    string the source compares with ["ok"] and raises otherwise. *)
Inductive auth_result : Type := ok | unauthorized | forbidden | unavailable.

#[global] Instance auth_result_eq_dec : EqDecision auth_result.
Proof. solve_decision. Defined.

Definition auth_result_str (r : auth_result) : string :=
  match r with
  | ok => "ok"
  | unauthorized => "unauthorized"
  | forbidden => "forbidden"
  | unavailable => "unavailable"
  end.

Inductive TrustedNotifyResultType : Type := UNAVAILABLE | OK.

Record TrustedNotifyResult : Type := mk_TrustedNotifyResult {
  result_type : TrustedNotifyResultType;
  succeeded : Z;
  failed : Z;
}.

(** What a compressor-preparation task returns. *)
Record _CompressorReady : Type := mk_CompressorReady {
  ready_dictionary_id : Z;
  ready_level : Z;
  ready_data : option bytes;
}.

(** The broadcaster configuration ([lonelypss.config.config.Config], a
    protocol whose implementation is supplied by the operator): the
    settings the engine reads and the provider methods it awaits. A
    timestamp ([time.time()]) is a number of clock ticks. *)
Record Config : Type := mk_Config {
  compression_allowed : bool;
  allow_training : bool;
  compression_min_size : Z;
  compression_trained_max_size : Z;
  compression_training_low_watermark : Z;
  compression_training_high_watermark : Z;
  compression_retrain_interval_seconds : Z;
  outgoing_max_ws_message_size : option Z;
  websocket_max_pending_sends : option Z;
  websocket_max_unprocessed_receives : option Z;
  is_subscribe_exact_allowed : string → bytes → Z → option string → auth_result;
  is_subscribe_glob_allowed : string → string → Z → option string → auth_result;
  is_notify_allowed : bytes → bytes → Z → option string → auth_result;
  setup_authorization : string → bytes → bytes → Z → option string;
  get_compression_dictionary_by_id : Z → option (bytes * Z);
  train_compression_dict_low_watermark : list bytes → bytes * Z;
  train_compression_dict_high_watermark : list bytes → bytes * Z;
}.

(** The libraries the module imports besides [hashlib]: [glob.translate]
    with [re], [zstandard], and the delivery fanout [handle_trusted_notify]
    of [lonelypss.routes.notify]. [zstd_stream_reader c data] is the sequence
    of the non-empty chunks that [c.decompressor.stream_reader(data)] gives
    to the successive [read(io.DEFAULT_BUFFER_SIZE)], and the error that
    ends the sequence if there is one. *)
Class Externals : Type := mk_Externals {
  translate : string → string;
  regex_match : string → string → bool;
  zstd_compress : _CompressorReady → bytes → bytes;
  zstd_stream_reader : _CompressorReady → bytes → list bytes * option exn;
  handle_trusted_notify : bytes → bytes → Z → bytes → TrustedNotifyResult;
}.

(** A compiled [re.Pattern] made from a [str]; it remembers its source. *)
Record Pattern : Type := re_compile { pattern_source : string }.

(** The argument of [Pattern.match] is dynamically typed. *)
Inductive subject : Type :=
| PyStr (s : string)
| PyBytes (b : bytes).

(** [pattern.match(subject)] for a pattern compiled from a [str]: on a
    [bytes] subject [re] raises
    [TypeError: cannot use a string pattern on a bytes-like object]. The
    result is the truth value of the match object. *)
Definition Pattern_match `{Externals} (pattern : Pattern) (s : subject)
    : result bool :=
  match s with
  | PyStr s => Ok (regex_match (pattern_source pattern) s)
  | PyBytes _ =>
      Raise (TypeError "cannot use a string pattern on a bytes-like object")
  end.

(** ** Session state *)

Record _Configuration : Type := mk_Configuration {
  enable_zstd : bool;
  enable_training : bool;
  dictionary_id : Z;
  nonce_b64 : string;
}.

(** A [_CompressorPreparing] holds a task; [task] is what awaiting it
    gives. *)
Inductive _Compressor : Type :=
| Ready (c : _CompressorReady)
| Preparing (preparing_dictionary_id : Z) (task : result _CompressorReady).

Definition compressor_dictionary_id (c : _Compressor) : Z :=
  match c with
  | Ready c => ready_dictionary_id c
  | Preparing id _ => id
  end.

Definition is_ready (c : _Compressor) : bool :=
  match c with Ready _ => true | Preparing _ _ => false end.

Record _CompressorTrainingDataCollector : Type := mk_Collector {
  started_at : Z;
  messages : Z;
  collector_length : Z;
  tmpfile : bytes;
}.

Inductive _CompressorTrainingInfo : Type :=
| BeforeLowWatermark (collector : _CompressorTrainingDataCollector) (dirty : bool)
| BeforeHighWatermark (collector : _CompressorTrainingDataCollector) (dirty : bool)
| WaitingToRefresh (last_refreshed_at : Z).

Inductive _Acknowledgement : Type :=
| _ContinueReceive (identifier : bytes) (part_id : Z)
| _ConfirmReceive (identifier : bytes).

(** [body_hasher] is the data fed to the running SHA-512 so far. *)
Record _ReceivingNotify : Type := mk_ReceivingNotify {
  notif_identifier : bytes;
  last_part_id : Z;
  notif_topic : bytes;
  notif_compressor_id : Z;
  notif_compressed_length : Z;
  notif_decompressed_length : Z;
  notif_compressed_sha512 : bytes;
  body_hasher : bytes;
  notif_body : bytes;
}.

Record _SmallMessage : Type := mk_SmallMessage {
  small_data : bytes;
  small_topic : bytes;
  small_sha512 : bytes;
}.

(** A large message: its stream holds [large_stream]. *)
Record _LargeMessage : Type := mk_LargeMessage {
  large_stream : bytes;
  large_topic : bytes;
  large_sha512 : bytes;
  large_length : Z;
}.

Inductive pending_send : Type :=
| PendingSmall (msg : _SmallMessage)
| PendingLargeSpooled (msg : _LargeMessage)
| _FormattedMessage (websocket_data : bytes).

(** The coroutine a [send_task] runs. *)
Inductive send_job : Type :=
| websocket_send_bytes (data : bytes)
| send_small_message (msg : _SmallMessage)
| send_large_message_from_spooled (msg : _LargeMessage)
| send_large_message_optimistically (msg : _LargeMessage).

Record _MyReceiver : Type := mk_MyReceiver {
  exact_subscriptions : gset bytes;
  glob_subscriptions : list (Pattern * string);
}.

(** Calls on the collaborators, and the changes of the local subscription
    view, in program order. *)
Inductive event : Type :=
| EvSendTask (data : bytes)
| EvPendingSend (data : bytes)
| EvWebsocketSend (data : bytes)
| EvExactAdd (topic : bytes)
| EvExactRemove (topic : bytes)
| EvGlobAppend (glob : string)
| EvGlobPop (glob : string)
| EvIncrementExact (topic : bytes)
| EvDecrementExact (topic : bytes)
| EvIncrementGlob (glob : string)
| EvDecrementGlob (glob : string)
| EvTrustedNotify (topic : bytes) (data : bytes) (content_length : Z) (digest : bytes)
| EvCancel (dictionary_id : Z).

(** [_StateOpen]. The asyncio handles that carry no data of their own
    ([websocket], [read_task], [message_task], [backgrounded],
    [client_session]) are left out; [process_task] is the frame its
    processor was started on. *)
Record _StateOpen : Type := mk_StateOpen {
  standard_compressor : option _Compressor;
  socket_level_config : option _Configuration;
  my_receiver : _MyReceiver;
  send_task : option send_job;
  process_task : option _ParsedWSMessage;
  pending_sends : list pending_send;
  unprocessed_receives : list _ParsedWSMessage;
  expecting_acks : list _Acknowledgement;
  incoming_notification : option _ReceivingNotify;
  active_compressor : option _Compressor;
  last_compressor : option _Compressor;
  training_data : option _CompressorTrainingInfo;
  broadcaster_counter : Z;
  subscriber_counter : Z;
  custom_compression_dict_counter : Z;
  trace : list event;
}.

Inductive _State : Type :=
| StateOpen (state : _StateOpen)
| StateClosing (exception : option exn) (log : list event)
| StateClosed.

(** Assignment to one attribute of the session. *)
Definition set_standard_compressor v (s : _StateOpen) : _StateOpen :=
  mk_StateOpen v (socket_level_config s) (my_receiver s) (send_task s)
    (process_task s) (pending_sends s) (unprocessed_receives s)
    (expecting_acks s) (incoming_notification s) (active_compressor s)
    (last_compressor s) (training_data s) (broadcaster_counter s)
    (subscriber_counter s) (custom_compression_dict_counter s) (trace s).
Definition set_socket_level_config v (s : _StateOpen) : _StateOpen :=
  mk_StateOpen (standard_compressor s) v (my_receiver s) (send_task s)
    (process_task s) (pending_sends s) (unprocessed_receives s)
    (expecting_acks s) (incoming_notification s) (active_compressor s)
    (last_compressor s) (training_data s) (broadcaster_counter s)
    (subscriber_counter s) (custom_compression_dict_counter s) (trace s).
Definition set_my_receiver v (s : _StateOpen) : _StateOpen :=
  mk_StateOpen (standard_compressor s) (socket_level_config s) v
    (send_task s) (process_task s) (pending_sends s) (unprocessed_receives s)
    (expecting_acks s) (incoming_notification s) (active_compressor s)
    (last_compressor s) (training_data s) (broadcaster_counter s)
    (subscriber_counter s) (custom_compression_dict_counter s) (trace s).
Definition set_send_task v (s : _StateOpen) : _StateOpen :=
  mk_StateOpen (standard_compressor s) (socket_level_config s)
    (my_receiver s) v (process_task s) (pending_sends s)
    (unprocessed_receives s) (expecting_acks s) (incoming_notification s)
    (active_compressor s) (last_compressor s) (training_data s)
    (broadcaster_counter s) (subscriber_counter s)
    (custom_compression_dict_counter s) (trace s).
Definition set_process_task v (s : _StateOpen) : _StateOpen :=
  mk_StateOpen (standard_compressor s) (socket_level_config s)
    (my_receiver s) (send_task s) v (pending_sends s)
    (unprocessed_receives s) (expecting_acks s) (incoming_notification s)
    (active_compressor s) (last_compressor s) (training_data s)
    (broadcaster_counter s) (subscriber_counter s)
    (custom_compression_dict_counter s) (trace s).
Definition set_pending_sends v (s : _StateOpen) : _StateOpen :=
  mk_StateOpen (standard_compressor s) (socket_level_config s)
    (my_receiver s) (send_task s) (process_task s) v (unprocessed_receives s)
    (expecting_acks s) (incoming_notification s) (active_compressor s)
    (last_compressor s) (training_data s) (broadcaster_counter s)
    (subscriber_counter s) (custom_compression_dict_counter s) (trace s).
Definition set_unprocessed_receives v (s : _StateOpen) : _StateOpen :=
  mk_StateOpen (standard_compressor s) (socket_level_config s)
    (my_receiver s) (send_task s) (process_task s) (pending_sends s) v
    (expecting_acks s) (incoming_notification s) (active_compressor s)
    (last_compressor s) (training_data s) (broadcaster_counter s)
    (subscriber_counter s) (custom_compression_dict_counter s) (trace s).
Definition set_expecting_acks v (s : _StateOpen) : _StateOpen :=
  mk_StateOpen (standard_compressor s) (socket_level_config s)
    (my_receiver s) (send_task s) (process_task s) (pending_sends s)
    (unprocessed_receives s) v (incoming_notification s)
    (active_compressor s) (last_compressor s) (training_data s)
    (broadcaster_counter s) (subscriber_counter s)
    (custom_compression_dict_counter s) (trace s).
Definition set_incoming_notification v (s : _StateOpen) : _StateOpen :=
  mk_StateOpen (standard_compressor s) (socket_level_config s)
    (my_receiver s) (send_task s) (process_task s) (pending_sends s)
    (unprocessed_receives s) (expecting_acks s) v (active_compressor s)
    (last_compressor s) (training_data s) (broadcaster_counter s)
    (subscriber_counter s) (custom_compression_dict_counter s) (trace s).
Definition set_active_compressor v (s : _StateOpen) : _StateOpen :=
  mk_StateOpen (standard_compressor s) (socket_level_config s)
    (my_receiver s) (send_task s) (process_task s) (pending_sends s)
    (unprocessed_receives s) (expecting_acks s) (incoming_notification s) v
    (last_compressor s) (training_data s) (broadcaster_counter s)
    (subscriber_counter s) (custom_compression_dict_counter s) (trace s).
Definition set_last_compressor v (s : _StateOpen) : _StateOpen :=
  mk_StateOpen (standard_compressor s) (socket_level_config s)
    (my_receiver s) (send_task s) (process_task s) (pending_sends s)
    (unprocessed_receives s) (expecting_acks s) (incoming_notification s)
    (active_compressor s) v (training_data s) (broadcaster_counter s)
    (subscriber_counter s) (custom_compression_dict_counter s) (trace s).
Definition set_training_data v (s : _StateOpen) : _StateOpen :=
  mk_StateOpen (standard_compressor s) (socket_level_config s)
    (my_receiver s) (send_task s) (process_task s) (pending_sends s)
    (unprocessed_receives s) (expecting_acks s) (incoming_notification s)
    (active_compressor s) (last_compressor s) v (broadcaster_counter s)
    (subscriber_counter s) (custom_compression_dict_counter s) (trace s).
Definition set_broadcaster_counter v (s : _StateOpen) : _StateOpen :=
  mk_StateOpen (standard_compressor s) (socket_level_config s)
    (my_receiver s) (send_task s) (process_task s) (pending_sends s)
    (unprocessed_receives s) (expecting_acks s) (incoming_notification s)
    (active_compressor s) (last_compressor s) (training_data s) v
    (subscriber_counter s) (custom_compression_dict_counter s) (trace s).
Definition set_subscriber_counter v (s : _StateOpen) : _StateOpen :=
  mk_StateOpen (standard_compressor s) (socket_level_config s)
    (my_receiver s) (send_task s) (process_task s) (pending_sends s)
    (unprocessed_receives s) (expecting_acks s) (incoming_notification s)
    (active_compressor s) (last_compressor s) (training_data s)
    (broadcaster_counter s) v (custom_compression_dict_counter s) (trace s).
Definition set_custom_compression_dict_counter v (s : _StateOpen) : _StateOpen :=
  mk_StateOpen (standard_compressor s) (socket_level_config s)
    (my_receiver s) (send_task s) (process_task s) (pending_sends s)
    (unprocessed_receives s) (expecting_acks s) (incoming_notification s)
    (active_compressor s) (last_compressor s) (training_data s)
    (broadcaster_counter s) (subscriber_counter s) v (trace s).
Definition set_trace v (s : _StateOpen) : _StateOpen :=
  mk_StateOpen (standard_compressor s) (socket_level_config s)
    (my_receiver s) (send_task s) (process_task s) (pending_sends s)
    (unprocessed_receives s) (expecting_acks s) (incoming_notification s)
    (active_compressor s) (last_compressor s) (training_data s)
    (broadcaster_counter s) (subscriber_counter s)
    (custom_compression_dict_counter s) v.


(** ** The session monad *)

(** A piece of the engine that reads and mutates the session and may raise.
    The session comes back in both cases: what was mutated before a
    [raise] stays mutated. *)
Definition Session (A : Type) : Type := _StateOpen → result A * _StateOpen.

#[global] Instance session_ret : MRet Session := λ A a s, (Ok a, s).

#[global] Instance session_bind : MBind Session := λ A B k m s,
  match m s with
  | (Ok a, s') => k a s'
  | (Raise e, s') => (Raise e, s')
  end.

Definition get_state : Session _StateOpen := λ s, (Ok s, s).
Definition modify (f : _StateOpen → _StateOpen) : Session () := λ s, (Ok (), f s).
Definition raise {A} (e : exn) : Session A := λ s, (Raise e, s).
Definition lift {A} (r : result A) : Session A := λ s, (r, s).
Definition emit (e : event) : Session () :=
  modify (λ s, set_trace (trace s ++ [e]) s).

(** [headers[key]] and [headers.get(key)] *)
Definition getitem (headers : gmap string bytes) (key : string) : result bytes :=
  match headers !! key with
  | Some v => Ok v
  | None => Raise (KeyError key)
  end.

(** [deque.append] on a deque made with [maxlen]: a full deque drops its
    oldest element. *)
Definition deque_append {A} (maxlen : option Z) (d : list A) (x : A) : list A :=
  match maxlen with
  | None => d ++ [x]
  | Some m =>
      if m <=? 0 then d
      else if len d <? m then d ++ [x]
      else drop 1 d ++ [x]
  end.

(** The idiom that ends every processor:
    [if state.send_task is None: state.send_task = create_task(send_bytes(m))
     else: state.pending_sends.append(_FormattedMessage(m))]. *)
Definition send_or_enqueue (cfg : Config) (data : bytes) : Session () :=
  state ← get_state;
  match send_task state with
  | None =>
      modify (set_send_task (Some (websocket_send_bytes data)));;
      emit (EvSendTask data)
  | Some _ =>
      modify (λ s, set_pending_sends
        (deque_append (websocket_max_pending_sends cfg) (pending_sends s)
           (_FormattedMessage data)) s);;
      emit (EvPendingSend data)
  end.

(** ** Authorization sequencer *)

Definition _make_for_send_websocket_url_and_change_counter : Session string :=
  state ← get_state;
  match socket_level_config state with
  | None => raise AssertionError
  | Some config =>
      let ctr := broadcaster_counter state in
      modify (set_broadcaster_counter (ctr + 1));;
      mret ("websocket:" +:+ nonce_b64 config +:+ ":" +:+ format_x ctr)
  end.

Definition _make_for_receive_websocket_url_and_change_counter : Session string :=
  state ← get_state;
  match socket_level_config state with
  | None => raise AssertionError
  | Some config =>
      let ctr := subscriber_counter state in
      modify (set_subscriber_counter (ctr - 1));;
      mret ("websocket:" +:+ nonce_b64 config +:+ ":" +:+ format_x ctr)
  end.

(** ** Dictionary trainer: sampling *)

Definition new_collector (now : Z) : _CompressorTrainingDataCollector :=
  mk_Collector now 0 0 [].

Definition is_waiting_to_refresh (t : _CompressorTrainingInfo) : bool :=
  match t with WaitingToRefresh _ => true | _ => false end.

Definition _handle_if_should_start_retraining (cfg : Config) (now : Z)
    : Session () :=
  state ← get_state;
  match training_data state with
  | None => mret ()
  | Some (WaitingToRefresh last_refreshed_at) =>
      let next_refresh :=
        last_refreshed_at + compression_retrain_interval_seconds cfg in
      if now <? next_refresh then mret ()
      else modify (set_training_data
                     (Some (BeforeHighWatermark (new_collector now) false)))
  | Some _ => mret ()
  end.

(** The four statements that feed one sample to the collector of the
    current training state, then [dirty = True]. *)
Definition feed_collector (data : bytes) (length_bytes : bytes)
    (c : _CompressorTrainingDataCollector) : _CompressorTrainingDataCollector :=
  mk_Collector (started_at c) (messages c + 1) (collector_length c + len data)
    (tmpfile c ++ length_bytes ++ data).

Definition _store_small_for_compression_training (cfg : Config) (now : Z)
    (data : bytes) : Session () :=
  state ← get_state;
  match training_data state with
  | None => mret ()
  | Some _ =>
      let length := len data in
      if length <? compression_min_size cfg then mret ()
      else if compression_trained_max_size cfg <=? length then mret ()
      else
        _handle_if_should_start_retraining cfg now;;
        state ← get_state;
        match training_data state with
        | None => raise AssertionError
        | Some (WaitingToRefresh _) => mret ()
        | Some (BeforeLowWatermark c _) =>
            length_bytes ← lift (to_bytes length 4);
            modify (set_training_data
              (Some (BeforeLowWatermark (feed_collector data length_bytes c) true)))
        | Some (BeforeHighWatermark c _) =>
            length_bytes ← lift (to_bytes length 4);
            modify (set_training_data
              (Some (BeforeHighWatermark (feed_collector data length_bytes c) true)))
        end
  end.

Definition _should_store_large_message_for_training (cfg : Config) (now : Z)
    (length : Z) : Session bool :=
  state ← get_state;
  match training_data state with
  | None => mret false
  | Some _ =>
      if compression_trained_max_size cfg <=? length then mret false
      else if length <? compression_min_size cfg then mret false
      else
        _handle_if_should_start_retraining cfg now;;
        state ← get_state;
        match training_data state with
        | None => raise AssertionError
        | Some t => mret (negb (is_waiting_to_refresh t))
        end
  end.

(** [collector.length += length; collector.messages += 1] *)
Definition count_sample (length : Z) (c : _CompressorTrainingDataCollector)
    : _CompressorTrainingDataCollector :=
  mk_Collector (started_at c) (messages c + 1) (collector_length c + length)
    (tmpfile c).

(** [tmpfile.write(chunk)] on the collector of the training state. *)
Definition write_sample (chunk : bytes) (c : _CompressorTrainingDataCollector)
    : _CompressorTrainingDataCollector :=
  mk_Collector (started_at c) (messages c) (collector_length c)
    (tmpfile c ++ chunk).

Definition map_collector
    (f : _CompressorTrainingDataCollector → _CompressorTrainingDataCollector)
    (t : _CompressorTrainingInfo) : _CompressorTrainingInfo :=
  match t with
  | BeforeLowWatermark c d => BeforeLowWatermark (f c) d
  | BeforeHighWatermark c d => BeforeHighWatermark (f c) d
  | WaitingToRefresh at_ => WaitingToRefresh at_
  end.

(** The writer [_make_store_for_training_capturer] returns: a [VoidSyncIO]
    that drops what it is given, or the temporary file of the collector
    behind a close guard. *)
Inductive capturer : Type := VoidSyncIO | CloseGuardedIO.

Definition _make_store_for_training_capturer (cfg : Config) (now : Z)
    (length : Z) : Session capturer :=
  store ← _should_store_large_message_for_training cfg now length;
  if negb store then mret VoidSyncIO
  else
    state ← get_state;
    match training_data state with
    | None => raise AssertionError
    | Some (WaitingToRefresh _) => raise AssertionError
    | Some t =>
        modify (set_training_data (Some (map_collector (count_sample length) t)));;
        length_bytes ← lift (to_bytes length 4);
        modify (set_training_data
          (Some (map_collector (write_sample length_bytes)
                   (map_collector (count_sample length) t))));;
        mret CloseGuardedIO
    end.

(** [capturer.write(chunk)] *)
Definition capturer_write (c : capturer) (chunk : bytes) : Session () :=
  match c with
  | VoidSyncIO => mret ()
  | CloseGuardedIO =>
      modify (λ s, set_training_data
        (map_collector (write_sample chunk) <$> training_data s) s)
  end.


(** ** Egress pipeline: compression selection *)

(** [await compressor.task] when the compressor is still preparing. *)
Definition await_compressor (c : _Compressor) : result _CompressorReady :=
  match c with
  | Ready c => Ok c
  | Preparing _ task => task
  end.

(** How a send function goes on once it has looked at the compressors:
    with [_send_large_compressed_message_optimistically] (or, for a small
    message, the in-memory compression), or without compression. *)
Inductive send_plan : Type :=
| Compressed (compressor : _CompressorReady) (compressor_id : Z)
| Uncompressed.

(** The value the plan puts in the [x-compressor] header. *)
Definition plan_compressor_id (p : send_plan) : Z :=
  match p with
  | Compressed _ compressor_id => compressor_id
  | Uncompressed => 0
  end.

(** The head of [_send_large_message_optimistically] (lines 1007-1034),
    down to the choice between the compressed and the uncompressed
    streaming loop; the loops themselves are not modelled. *)
Definition _send_large_message_optimistically_plan (cfg : Config)
    (state : _StateOpen) (msg : _LargeMessage) : result send_plan :=
  match socket_level_config state with
  | None => Raise AssertionError
  | Some _ =>
      match (if compression_allowed cfg
                && (compression_trained_max_size cfg <=? large_length msg)
             then standard_compressor state else None) with
      | Some std_compressor =>
          std_compressor ← await_compressor std_compressor;
          Ok (Compressed std_compressor 1)
      | None =>
          match active_compressor state with
          | Some (Ready active) =>
              if (compression_min_size cfg <=? large_length msg)
                 && (large_length msg <? compression_trained_max_size cfg)
              then Ok (Compressed active (ready_dictionary_id active))
              else Ok Uncompressed
          | _ => Ok Uncompressed
          end
      end
  end.

(** The head of [_send_large_message_from_spooled] (lines 1172-1195). *)
Definition _send_large_message_from_spooled_plan (cfg : Config)
    (state : _StateOpen) (msg : _LargeMessage) : result send_plan :=
  match (if compression_trained_max_size cfg <=? large_length msg
         then standard_compressor state else None) with
  | Some std_compressor =>
      std_compressor ← await_compressor std_compressor;
      Ok (Compressed std_compressor 1)
  | None =>
      match active_compressor state with
      | Some (Ready active) =>
          if compression_min_size cfg <=? large_length msg
          then Ok (Compressed active (ready_dictionary_id active))
          else Ok Uncompressed
      | _ => Ok Uncompressed
      end
  end.

(** The [if]/[elif] of [_send_small_message] (lines 1292-1308) that sets
    [compressor_id]. *)
Definition _send_small_message_plan (cfg : Config) (state : _StateOpen)
    (remaining : bytes) : send_plan :=
  match (if (compression_min_size cfg <=? len remaining)
            && (len remaining <? compression_trained_max_size cfg)
         then active_compressor state else None) with
  | Some (Ready active) => Compressed active (ready_dictionary_id active)
  | _ =>
      match (if compression_trained_max_size cfg <=? len remaining
             then standard_compressor state else None) with
      | Some (Ready standard) => Compressed standard 1
      | _ => Uncompressed
      end
  end.

(** ** Ingress pipeline *)

Definition _rotate_compressor (new_compressor : _Compressor) : Session () :=
  state ← get_state;
  match last_compressor state with
  | Some (Preparing id _) => emit (EvCancel id)
  | _ => mret ()
  end;;
  modify (λ s, set_last_compressor (active_compressor s) s);;
  modify (set_active_compressor (Some new_compressor)).

(** The task [_make_standard_compressor] of [_process_configure]. *)
Definition _make_standard_compressor : result _CompressorReady :=
  Ok (mk_CompressorReady 1 3 None).

(** The task [_make_compressor] of [_process_configure]. *)
Definition _make_compressor (cfg : Config) (dictionary_id : Z)
    : result _CompressorReady :=
  match get_compression_dictionary_by_id cfg dictionary_id with
  | None => Raise (ValueError "dictionary not found")
  | Some (zdict, level) => Ok (mk_CompressorReady dictionary_id level (Some zdict))
  end.

(** [broadcaster_nonce] is the outcome of [secrets.token_bytes(32)]. *)
Definition _process_configure (cfg : Config)
    (broadcaster_nonce : bytes) (message : _ParsedWSMessage) : Session () :=
  if negb (bool_decide (msg_type message = CONFIGURE)) then raise AssertionError
  else
    state ← get_state;
    if bool_decide (is_Some (socket_level_config state))
    then raise (ValueError "configuration already set")
    else
      subscriber_nonce ← lift (getitem (msg_headers message) "x-subscriber-nonce");
      if negb (len subscriber_nonce =? 32)
      then raise (ValueError "subscriber nonce must be 32 bytes")
      else
        let enable_zstd := bool_decide
          (default ["000"%byte] (msg_headers message !! "x-enable-zstd"%string)
           = ["001"%byte]) in
        let enable_training := bool_decide
          (default ["000"%byte] (msg_headers message !! "x-enable-training"%string)
           = ["001"%byte]) in
        let dictionary_id_bytes :=
          default ["000"%byte] (msg_headers message !! "x-initial-dict"%string) in
        if enable_training && negb enable_zstd
        then raise (ValueError "training requires zstd")
        else if 2 <? len dictionary_id_bytes
        then raise (ValueError "initial dict must be at most 2 bytes")
        else
          let dictionary_id := from_bytes dictionary_id_bytes in
          let connection_nonce := sha256 (subscriber_nonce ++ broadcaster_nonce) in
          modify (set_socket_level_config
            (Some (mk_Configuration enable_zstd enable_training dictionary_id
                     (urlsafe_b64encode connection_nonce))));;
          (if negb enable_training
           then modify (set_training_data None)
           else mret ());;
          (if enable_zstd
           then modify (set_standard_compressor
                          (Some (Preparing 1 _make_standard_compressor)))
           else mret ());;
          state ← get_state;
          (if negb (dictionary_id =? 0) && negb (dictionary_id =? 1)
              && enable_zstd && compression_allowed cfg
              && match active_compressor state with
                 | None => true
                 | Some active =>
                     negb (dictionary_id =? compressor_dictionary_id active)
                 end
           then _rotate_compressor
                  (Preparing dictionary_id (_make_compressor cfg dictionary_id))
           else mret ());;
          response ← lift (_make_websocket_message (msg_flags message)
                             CONFIRM_CONFIGURE
                             [("x-broadcaster-nonce"%string, broadcaster_nonce)] []);
          modify (λ s, set_pending_sends
            (deque_append (websocket_max_pending_sends cfg) (pending_sends s)
               (_FormattedMessage response)) s);;
          emit (EvPendingSend response).

(** [None if not authorization_bytes else authorization_bytes.decode("utf-8")] *)
Definition decode_authorization (headers : gmap string bytes)
    : result (option string) :=
  match headers !! "authorization"%string with
  | None => Ok None
  | Some [] => Ok None
  | Some authorization_bytes =>
      authorization ← decode_utf8 authorization_bytes;
      Ok (Some authorization)
  end.

(** [idx] of the first subscription whose glob is [target_str]. *)
Fixpoint find_glob (target_str : string) (subs : list (Pattern * string))
    : option nat :=
  match subs with
  | [] => None
  | (_, glob) :: rest =>
      if bool_decide (glob = target_str) then Some O
      else S <$> find_glob target_str rest
  end.

Definition set_exact_subscriptions v (s : _StateOpen) : _StateOpen :=
  set_my_receiver (mk_MyReceiver v (glob_subscriptions (my_receiver s))) s.

Definition set_glob_subscriptions v (s : _StateOpen) : _StateOpen :=
  set_my_receiver (mk_MyReceiver (exact_subscriptions (my_receiver s)) v) s.

Definition _process_subscribe_or_unsubscribe `{Externals} (cfg : Config)
    (now : Z) (message : _ParsedWSMessage) : Session () :=
  if negb (bool_decide (msg_type message ∈
             [SUBSCRIBE_EXACT; UNSUBSCRIBE_EXACT; SUBSCRIBE_GLOB; UNSUBSCRIBE_GLOB]))
  then raise AssertionError
  else
    authorization ← lift (decode_authorization (msg_headers message));
    let is_exact :=
      bool_decide (msg_type message ∈ [SUBSCRIBE_EXACT; UNSUBSCRIBE_EXACT]) in
    target_bytes ← lift (getitem (msg_headers message)
                           (if is_exact then "x-topic" else "x-glob"));
    url ← _make_for_receive_websocket_url_and_change_counter;
    let auth_at := now in
    auth_result ←
      (if is_exact
       then mret (is_subscribe_exact_allowed cfg url target_bytes auth_at
                    authorization)
       else
         glob ← lift (decode_utf8 target_bytes);
         mret (is_subscribe_glob_allowed cfg url glob auth_at authorization));
    if negb (bool_decide (auth_result = ok))
    then raise (Exception (auth_result_str auth_result))
    else
      state ← get_state;
      response ←
        match msg_type message with
        | SUBSCRIBE_EXACT =>
            if bool_decide (target_bytes ∈ exact_subscriptions (my_receiver state))
            then raise (Exception "already subscribed")
            else
              modify (λ s, set_exact_subscriptions
                ({[target_bytes]} ∪ exact_subscriptions (my_receiver s)) s);;
              emit (EvExactAdd target_bytes);;
              emit (EvIncrementExact target_bytes);;
              lift (_make_websocket_message (msg_flags message)
                      CONFIRM_SUBSCRIBE_EXACT
                      [("x-topic"%string, target_bytes)] [])
        | UNSUBSCRIBE_EXACT =>
            if negb (bool_decide
                       (target_bytes ∈ exact_subscriptions (my_receiver state)))
            then raise (Exception "not subscribed")
            else
              modify (λ s, set_exact_subscriptions
                (exact_subscriptions (my_receiver s) ∖ {[target_bytes]}) s);;
              emit (EvExactRemove target_bytes);;
              emit (EvDecrementExact target_bytes);;
              lift (_make_websocket_message (msg_flags message)
                      CONFIRM_UNSUBSCRIBE_EXACT
                      [("x-topic"%string, target_bytes)] [])
        | SUBSCRIBE_GLOB =>
            target_str ← lift (decode_utf8 target_bytes);
            if bool_decide (is_Some (find_glob target_str
                                       (glob_subscriptions (my_receiver state))))
            then raise (Exception "already subscribed")
            else
              let glob_regex := re_compile (translate target_str) in
              modify (λ s, set_glob_subscriptions
                (glob_subscriptions (my_receiver s) ++ [(glob_regex, target_str)]) s);;
              emit (EvGlobAppend target_str);;
              emit (EvIncrementGlob target_str);;
              lift (_make_websocket_message (msg_flags message)
                      CONFIRM_SUBSCRIBE_GLOB
                      [("x-glob"%string, encode_utf8 target_str)] [])
        | _ =>
            target_str ← lift (decode_utf8 target_bytes);
            match find_glob target_str (glob_subscriptions (my_receiver state)) with
            | None => raise (Exception "not subscribed")
            | Some subscription_idx =>
                modify (λ s, set_glob_subscriptions
                  (delete subscription_idx (glob_subscriptions (my_receiver s))) s);;
                emit (EvGlobPop target_str);;
                emit (EvDecrementGlob target_str);;
                lift (_make_websocket_message (msg_flags message)
                        CONFIRM_UNSUBSCRIBE_GLOB
                        [("x-glob"%string, encode_utf8 target_str)] [])
            end
        end;
      send_or_enqueue cfg response.

(** [any(pattern.match(topic) for pattern, _ in subs)]: the generator is
    consumed up to the first truthy match; a raising [match] ends it. *)
Fixpoint any_match `{Externals} (subs : list (Pattern * string)) (s : subject)
    : result bool :=
  match subs with
  | [] => Ok false
  | (pattern, _) :: rest =>
      matched ← Pattern_match pattern s;
      if matched : bool then Ok true else any_match rest s
  end.

(** [_MyReceiver.is_relevant]; [topic] is [bytes]. *)
Definition is_relevant `{Externals} (self : _MyReceiver) (topic : bytes)
    : result bool :=
  if bool_decide (topic ∈ exact_subscriptions self) then Ok true
  else any_match (glob_subscriptions self) (PyBytes topic).


(** The three-slot search of a compressor by its dictionary id. *)
Definition find_compressor (state : _StateOpen) (compressor_id : Z)
    : option _Compressor :=
  let has_id (slot : option _Compressor) :=
    match slot with
    | Some c => compressor_id =? compressor_dictionary_id c
    | None => false
    end in
  if has_id (standard_compressor state) then standard_compressor state
  else if has_id (active_compressor state) then active_compressor state
  else if has_id (last_compressor state) then last_compressor state
  else None.

(** [n.to_bytes(_smallest_unsigned_size(n), "big")] *)
Definition smallest_to_bytes (n : Z) : result bytes :=
  size ← _smallest_unsigned_size n;
  to_bytes n (Z.to_nat size).

(** [CONFIRM_NOTIFY] for a delivery result, handed to the send slot. *)
Definition confirm_notify (cfg : Config) (flags : Z) (message_id : bytes)
    (notify_result : TrustedNotifyResult) : Session () :=
  subscribers ← lift (smallest_to_bytes (succeeded notify_result));
  to_send ← lift (_make_websocket_message flags CONFIRM_NOTIFY
                    [("x-identifier"%string, message_id);
                     ("x-subscribers"%string, subscribers)] []);
  send_or_enqueue cfg to_send.

(** [await handle_trusted_notify(...)] *)
Definition call_handle_trusted_notify `{Externals} (topic data : bytes)
    (content_length : Z) (digest : bytes) : Session TrustedNotifyResult :=
  emit (EvTrustedNotify topic data content_length digest);;
  mret (handle_trusted_notify topic data content_length digest).

(** [while True: chunk = data.read(...); ...; capturer.write(chunk)]: the
    copy of a whole payload to the capturer. *)
Definition capture_all (c : capturer) (data : bytes) : Session () :=
  capturer_write c data.

Definition _process_notify `{Externals} (cfg : Config) (now : Z)
    (message : _ParsedWSMessage) : Session () :=
  if negb (bool_decide (msg_type message = NOTIFY)) then raise AssertionError
  else
    state ← get_state;
    match socket_level_config state with
    | None => raise (Exception "notify before configure")
    | Some socket_level_config =>
        authorization ← lift (decode_authorization (msg_headers message));
        message_id ← lift (getitem (msg_headers message) "x-identifier");
        if 64 <? len message_id then raise (ValueError "x-identifier max 64 bytes")
        else
        topic ← lift (getitem (msg_headers message) "x-topic");
        let compressor_id_bytes :=
          default ["000"%byte] (msg_headers message !! "x-compressor"%string) in
        if 8 <? len compressor_id_bytes
        then raise (ValueError "x-compressor max 8 bytes")
        else
        let compressor_id := from_bytes compressor_id_bytes in
        if negb (compressor_id =? 0)
           && (negb (compression_allowed cfg) || negb (enable_zstd socket_level_config))
        then raise (ValueError "compression used but compression is forbidden")
        else
        compressed_length_bytes ←
          lift (getitem (msg_headers message) "x-compressed-length");
        if 8 <? len compressed_length_bytes
        then raise (ValueError "compressed length max 8 bytes")
        else
        let compressed_length := from_bytes compressed_length_bytes in
        decompressed_length_bytes ←
          lift (getitem (msg_headers message) "x-decompressed-length");
        if 8 <? len decompressed_length_bytes
        then raise (ValueError "decompressed length max 8 bytes")
        else
        let decompressed_length := from_bytes decompressed_length_bytes in
        compressed_sha512 ←
          lift (getitem (msg_headers message) "x-compressed-sha512");
        if negb (len compressed_sha512 =? 64)
        then raise (ValueError "compressed sha512 must be 64 bytes")
        else
        let auth_result :=
          is_notify_allowed cfg topic compressed_sha512 now authorization in
        if negb (bool_decide (auth_result = ok))
        then raise (Exception (auth_result_str auth_result))
        else if negb (len (msg_body message) =? compressed_length)
        then raise (ValueError "compressed length is incorrect")
        else
        let real_compressed_sha512 := sha512 (msg_body message) in
        if negb (bool_decide (real_compressed_sha512 = compressed_sha512))
        then raise (Exception "integrity check failed")
        else
        decompressor ←
          (if compressor_id =? 0 then mret None
           else match find_compressor state compressor_id with
                | Some c => mret (Some c)
                | None => raise (ValueError "unrecognized compressor id")
                end);
        '(decompressed_data, decompressed_sha512) ←
          match decompressor with
          | None =>
              _store_small_for_compression_training cfg now (msg_body message);;
              if negb (len (msg_body message) =? decompressed_length)
              then raise (ValueError "decompressed length is incorrect")
              else mret (msg_body message, real_compressed_sha512)
          | Some decompressor =>
              decompressor ← lift (await_compressor decompressor);
              let '(chunks, failure) :=
                zstd_stream_reader decompressor (msg_body message) in
              match failure with
              | Some e => raise e
              | None =>
                  let decompressed_data := concat chunks in
                  if negb (len decompressed_data =? decompressed_length)
                  then raise (ValueError "decompressed length is incorrect")
                  else
                    store ← _should_store_large_message_for_training cfg now
                              decompressed_length;
                    (if store : bool
                     then
                       capturer ← _make_store_for_training_capturer cfg now
                                    decompressed_length;
                       capture_all capturer decompressed_data
                     else mret ());;
                    mret (decompressed_data, sha512 decompressed_data)
              end
          end;
        notify_result ← call_handle_trusted_notify topic decompressed_data
                          decompressed_length decompressed_sha512;
        match result_type notify_result with
        | UNAVAILABLE => raise (Exception "failed to attempt all subscribers")
        | OK => confirm_notify cfg (msg_flags message) message_id notify_result
        end
    end.

(** [notif.body_hasher.update(data); notif.body.write(data)] *)
Definition notif_append (data : bytes) (n : _ReceivingNotify) : _ReceivingNotify :=
  mk_ReceivingNotify (notif_identifier n) (last_part_id n) (notif_topic n)
    (notif_compressor_id n) (notif_compressed_length n)
    (notif_decompressed_length n) (notif_compressed_sha512 n)
    (body_hasher n ++ data) (notif_body n ++ data).

(** The decompression loop of [_process_notify_stream]: every chunk goes to
    the hasher, the target and the capturer, then the running size is
    checked. It returns what was decompressed. *)
Fixpoint decompress_chunks (c : capturer) (decompressed_length : Z)
    (chunks : list bytes) (target : bytes) : Session bytes :=
  match chunks with
  | [] => mret target
  | chunk :: rest =>
      let target := target ++ chunk in
      capturer_write c chunk;;
      if decompressed_length <? len target
      then raise (ValueError "decompresses to larger than indicated")
      else decompress_chunks c decompressed_length rest target
  end.

Definition _process_notify_stream `{Externals} (cfg : Config) (now : Z)
    (message : _ParsedWSMessage) : Session () :=
  if negb (bool_decide (msg_type message = NOTIFY_STREAM))
  then raise AssertionError
  else
    state ← get_state;
    message_id ← lift (getitem (msg_headers message) "x-identifier");
    if match incoming_notification state with
       | Some incoming => negb (bool_decide (notif_identifier incoming = message_id))
       | None => false
       end
    then raise (ValueError "did not finish last message")
    else
    part_id_bytes ← lift (getitem (msg_headers message) "x-part-id");
    if 8 <? len part_id_bytes then raise (ValueError "x-part-id max 8 bytes")
    else
    let part_id := from_bytes part_id_bytes in
    notif ←
      (if part_id =? 0
       then
         match incoming_notification state with
         | Some _ => raise (ValueError "did not complete previous message")
         | None =>
             topic ← lift (getitem (msg_headers message) "x-topic");
             compressor_id_bytes ← lift (getitem (msg_headers message) "x-compressor");
             if 8 <? len compressor_id_bytes
             then raise (ValueError "compressor id max 8 bytes")
             else
             compressed_length_bytes ←
               lift (getitem (msg_headers message) "x-compressed-length");
             if 8 <? len compressed_length_bytes
             then raise (ValueError "compressed length max 8 bytes")
             else
             decompressed_length_bytes ←
               lift (getitem (msg_headers message) "x-decompressed-length");
             if 8 <? len decompressed_length_bytes
             then raise (ValueError "decompressed length max 8 bytes")
             else
             compressed_sha512 ←
               lift (getitem (msg_headers message) "x-compressed-sha512");
             if negb (len compressed_sha512 =? 64)
             then raise (ValueError "sha512 must be exactly 64 bytes")
             else
               let notif :=
                 mk_ReceivingNotify message_id (-1) topic
                   (from_bytes compressor_id_bytes)
                   (from_bytes compressed_length_bytes)
                   (from_bytes decompressed_length_bytes)
                   compressed_sha512 [] [] in
               modify (set_incoming_notification (Some notif));;
               mret notif
         end
       else
         match incoming_notification state with
         | None => raise (ValueError "received part out of order")
         | Some notif =>
             if negb (last_part_id notif + 1 =? part_id)
             then raise (ValueError "received part out of order")
             else mret notif
         end);
    if negb (notif_compressor_id notif =? 0)
       && negb (bool_decide
                  (is_Some (find_compressor state (notif_compressor_id notif))))
    then raise (ValueError "unknown compressor id")
    else
    let notif := notif_append (msg_body message) notif in
    modify (set_incoming_notification (Some notif));;
    let compressed_bytes_so_far := len (notif_body notif) in
    if notif_compressed_length notif <? compressed_bytes_so_far
    then raise (ValueError "compressed message exceeds indicated length")
    else if compressed_bytes_so_far <? notif_compressed_length notif
    then
      ack_message ← lift (_make_websocket_message (msg_flags message)
                            CONTINUE_NOTIFY
                            [("x-identifier"%string, notif_identifier notif);
                             ("x-part-id"%string, part_id_bytes)] []);
      send_or_enqueue cfg ack_message
    else
    let actual_compressed_sha512 := sha512 (body_hasher notif) in
    if negb (bool_decide (actual_compressed_sha512 = notif_compressed_sha512 notif))
    then raise (ValueError "integrity mismatch")
    else
    match find_compressor state (notif_compressor_id notif) with
    | None =>
        if negb (notif_compressor_id notif =? 0)
        then raise (ValueError "unknown compressor id")
        else
          store ← _should_store_large_message_for_training cfg now
                    (notif_decompressed_length notif);
          (if store : bool
           then
             capturer ← _make_store_for_training_capturer cfg now
                          (notif_decompressed_length notif);
             capture_all capturer (notif_body notif)
           else mret ());;
          notify_result ← call_handle_trusted_notify (notif_topic notif)
                            (notif_body notif) (notif_compressed_length notif)
                            (notif_compressed_sha512 notif);
          match result_type notify_result with
          | UNAVAILABLE => raise (ValueError "could not attempt all subscribers")
          | OK =>
              confirm_notify cfg (msg_flags message) (notif_identifier notif)
                notify_result;;
              modify (set_incoming_notification None)
          end
    | Some compressor =>
        compressor ← lift (await_compressor compressor);
        capturer ← _make_store_for_training_capturer cfg now
                     (notif_decompressed_length notif);
        let '(chunks, failure) := zstd_stream_reader compressor (notif_body notif) in
        target ← decompress_chunks capturer (notif_decompressed_length notif)
                   chunks [];
        match failure with
        | Some e => raise e
        | None =>
            if negb (len target =? notif_decompressed_length notif)
            then raise (ValueError "decompresses to less than indicated")
            else
              notify_result ← call_handle_trusted_notify (notif_topic notif)
                                target (notif_decompressed_length notif)
                                (sha512 target);
              match result_type notify_result with
              | UNAVAILABLE => raise (ValueError "failed to attempt all subscribers")
              | OK =>
                  confirm_notify cfg (msg_flags message) (notif_identifier notif)
                    notify_result;;
                  modify (set_incoming_notification None)
              end
        end
    end.

(** [state.expecting_acks.get_nowait()] under its [except asyncio.QueueEmpty]. *)
Definition get_expecting_ack : Session _Acknowledgement :=
  state ← get_state;
  match expecting_acks state with
  | [] => raise (ValueError "not expecting ack right now")
  | expecting_ack :: rest =>
      modify (set_expecting_acks rest);;
      mret expecting_ack
  end.

Definition _process_message_asap (cfg : Config) (message : _ParsedWSMessage)
    : Session () :=
  match msg_type message with
  | CONTINUE_RECEIVE =>
      match msg_headers message !! "x-identifier"%string with
      | None => raise (ValueError "continue receive requires identifier")
      | Some identifier =>
          match msg_headers message !! "x-part-id"%string with
          | None => raise (ValueError "continue receive requires part id")
          | Some part_id_bytes =>
              if 8 <? len part_id_bytes then raise (ValueError "part id too long")
              else
                let part_id := from_bytes part_id_bytes in
                expecting_ack ← get_expecting_ack;
                match expecting_ack with
                | _ConfirmReceive _ => raise (ValueError "expecting other type")
                | _ContinueReceive expected_identifier expected_part_id =>
                    if negb (bool_decide (expected_identifier = identifier))
                    then raise (ValueError "expecting other identifier")
                    else if negb (expected_part_id =? part_id)
                    then raise (ValueError "expecting other part id")
                    else mret ()
                end
          end
      end
  | CONFIRM_RECEIVE =>
      match msg_headers message !! "x-identifier"%string with
      | None => raise (ValueError "confirm receive requires identifier")
      | Some identifier =>
          expecting_ack ← get_expecting_ack;
          match expecting_ack with
          | _ContinueReceive _ _ => raise (ValueError "expecting other type")
          | _ConfirmReceive expected_identifier =>
              if negb (bool_decide (expected_identifier = identifier))
              then raise (ValueError "expecting other identifier")
              else mret ()
          end
      end
  | _ =>
      state ← get_state;
      match process_task state with
      | Some _ =>
          modify (λ s, set_unprocessed_receives
            (deque_append (websocket_max_unprocessed_receives cfg)
               (unprocessed_receives s) message) s)
      | None => modify (set_process_task (Some message))
      end
  end.

(** ** Teardown *)

(** What [_cleanup_open] does to the fanout hub: one decrement for every
    exact and every glob subscription the session still holds. *)
Definition _cleanup_open (state : _StateOpen) (exception : option exn) : _State :=
  StateClosing exception
    (trace state
     ++ (EvDecrementExact <$> elements (exact_subscriptions (my_receiver state)))
     ++ (EvDecrementGlob ∘ snd <$> glob_subscriptions (my_receiver state))).

(** The branch of [_handle_open] that reaps the finished [process_task],
    [state.process_task.result(); state.process_task = None; return state],
    under the [except BaseException as e: return await _cleanup_open(state, e)]
    that wraps the body of [_handle_open]. [outcome] is what the task
    finished with. *)
Definition _handle_open_process_done (outcome : result ()) (state : _StateOpen)
    : _State :=
  match outcome with
  | Ok _ => StateOpen (set_process_task None state)
  | Raise e => _cleanup_open state (Some e)
  end.

(** ** The refactored subscribe processor *)

(** Modelled from the spec: [send_simple_asap] of
    [lonelypss.ws.handlers.open.send_simple_asap], which is not among the
    sources. It enqueues a formatted frame for sending: the idle send slot
    takes it, a busy one leaves it in the queue of unsent messages. *)
Definition send_simple_asap (cfg : Config) (data : bytes) : Session () :=
  send_or_enqueue cfg data.

(** [S2B_SubscribeExact] of [lonelypsp]. *)
Record S2B_SubscribeExact : Type := mk_S2B_SubscribeExact {
  s2b_authorization : option string;
  s2b_topic : bytes;
}.

(** [process_subscribe_exact] of
    [lonelypss/ws/handlers/open/processors/process_subscribe_exact.py].
    [serialize] stands for [serialize_b2s_confirm_subscribe_exact] of
    [lonelypsp] at the configured [minimal_headers]; the url sequencer is
    the one of the session. *)
Definition process_subscribe_exact (cfg : Config) (serialize : bytes → bytes)
    (now : Z) (message : S2B_SubscribeExact) : Session () :=
  url ← _make_for_receive_websocket_url_and_change_counter;
  let auth_at := now in
  let auth_result :=
    is_subscribe_exact_allowed cfg url (s2b_topic message) auth_at
      (s2b_authorization message) in
  if negb (bool_decide (auth_result = ok))
  then raise (Exception ("subscribe exact: " +:+ auth_result_str auth_result))
  else
    state ← get_state;
    if bool_decide (s2b_topic message ∈ exact_subscriptions (my_receiver state))
    then raise (Exception "already subscribed to exact topic")
    else
      send_simple_asap cfg (serialize (s2b_topic message));;
      modify (λ s, set_exact_subscriptions
        ({[s2b_topic message]} ∪ exact_subscriptions (my_receiver s)) s);;
      emit (EvExactAdd (s2b_topic message));;
      emit (EvIncrementExact (s2b_topic message)).


(** ** Frames, as the properties of the codec speak of them *)

(** [dict(headers)]: the mapping a list of pairs denotes (a later pair
    replaces an earlier one of the same name). *)
Definition dict (headers : list (string * bytes)) : gmap string bytes :=
  foldl (λ m kv, <[kv.1 := kv.2]> m) ∅ headers.

Definition fits_u16 {A} (l : list A) : bool := len l <=? 65535.

(** A header name that the expanded form gives back unchanged: ASCII
    without upper-case letters. *)
Definition is_lower_ascii_name (name : string) : bool :=
  forallb is_ascii_byte (list_byte_of_string name)
  && bool_decide (lower name = name).

Definition expanded_header_ok (header : string * bytes) : bool :=
  is_lower_ascii_name header.1
  && fits_u16 (list_byte_of_string header.1)
  && fits_u16 header.2.

(** The names the decoder of the minimal form reads for the first part of
    a [NOTIFY_STREAM]. *)
Definition NOTIFY_STREAM_FIRST_PART_HEADERS : list string :=
  ["authorization"; "x-identifier"; "x-part-id"; "x-topic"; "x-compressor";
   "x-compressed-length"; "x-decompressed-length"; "x-compressed-sha512"]%string.

(** The decoded frame that corresponds to the arguments of the encoder. *)
Definition decoded (flags : Z) (t : _ParsedWSMessageType)
    (headers : list (string * bytes)) (body : bytes) : _ParsedWSMessage :=
  mk_ParsedWSMessage flags t (dict headers) body.

(** ** Strings, as the properties of the url sequencer speak of them *)

Definition is_lower_hex (c : ascii) : bool :=
  match index 0 (String c "") "0123456789abcdef" with
  | Some _ => true
  | None => false
  end.

Fixpoint all_chars (P : ascii → bool) (s : string) : bool :=
  match s with
  | EmptyString => true
  | String c s' => P c && all_chars P s'
  end.

Definition first_char (s : string) : option ascii :=
  match s with
  | EmptyString => None
  | String c _ => Some c
  end.

Definition last_char (s : string) : option ascii :=
  last (list_ascii_of_string s).

(** ** Sampling, as the properties of the trainer speak of it *)

(** The sizes the trainer samples. *)
Definition sample_eligible (cfg : Config) (length : Z) : bool :=
  (compression_min_size cfg <=? length)
  && (length <? compression_trained_max_size cfg).

(** The collector a sample taken at [now] goes to: the one of the current
    training state, or a new one when the cool-down after the last
    training is over; none while the session is cooling down or does not
    train. *)
Definition open_collector (cfg : Config) (now : Z) (state : _StateOpen)
    : option _CompressorTrainingDataCollector :=
  match training_data state with
  | None => None
  | Some (BeforeLowWatermark c _) => Some c
  | Some (BeforeHighWatermark c _) => Some c
  | Some (WaitingToRefresh last_refreshed_at) =>
      if now <? last_refreshed_at + compression_retrain_interval_seconds cfg
      then None
      else Some (new_collector now)
  end.

(** The training state once [f] was applied to the open collector. *)
Definition training_data_with (cfg : Config) (now : Z) (state : _StateOpen)
    (f : _CompressorTrainingDataCollector → _CompressorTrainingDataCollector)
    (dirty : bool → bool) : option _CompressorTrainingInfo :=
  match training_data state with
  | None => None
  | Some (BeforeLowWatermark c d) => Some (BeforeLowWatermark (f c) (dirty d))
  | Some (BeforeHighWatermark c d) => Some (BeforeHighWatermark (f c) (dirty d))
  | Some (WaitingToRefresh _) =>
      Some (BeforeHighWatermark (f (new_collector now)) (dirty false))
  end.

(** ** Compression selection, as the specification words it *)

Inductive selection : Type := SelectStandard | SelectActive | SelectNone.

(** The three rules of the specification, for a payload of [length]
    bytes, given whether the standard compressor counts as present and
    whether the active compressor is ready. *)
Definition selection_rule (cfg : Config) (standard_present active_ready : bool)
    (length : Z) : selection :=
  if (compression_trained_max_size cfg <=? length) && standard_present
  then SelectStandard
  else if (compression_min_size cfg <=? length)
          && (length <? compression_trained_max_size cfg) && active_ready
  then SelectActive
  else SelectNone.

Definition slot_present (slot : option _Compressor) : bool :=
  bool_decide (is_Some slot).

Definition slot_ready (slot : option _Compressor) : bool :=
  match slot with
  | Some (Ready _) => true
  | _ => false
  end.

(** What a plan has to be for a selection, in a session. *)
Definition plan_follows (state : _StateOpen) (sel : selection)
    (plan : result send_plan) : Prop :=
  match sel with
  | SelectStandard =>
      ∃ standard, standard_compressor state = Some standard
        ∧ plan = (c ← await_compressor standard; Ok (Compressed c 1))
  | SelectActive =>
      ∃ active, active_compressor state = Some (Ready active)
        ∧ plan = Ok (Compressed active (ready_dictionary_id active))
  | SelectNone => plan = Ok Uncompressed
  end.

(** ** Streams, as the properties of the ingress pipeline speak of them *)

(** Every stream under reassembly still has the [last_part_id] it was
    created with. *)
Definition last_part_id_untouched (state : _StateOpen) : Prop :=
  ∀ notif, incoming_notification state = Some notif → last_part_id notif = -1.

(** The frames of a stream handed to [_process_notify_stream] one after
    the other, each once the processor of the one before has returned;
    the first exception ends the run. *)
Fixpoint process_stream_frames `{Externals} (cfg : Config) (now : Z)
    (frames : list _ParsedWSMessage) : Session () :=
  match frames with
  | [] => mret ()
  | frame :: rest =>
      _process_notify_stream cfg now frame;;
      process_stream_frames cfg now rest
  end.

(** ** Acknowledgements, as the properties of the ingress pipeline speak
    of them *)

#[global] Instance _Acknowledgement_eq_dec : EqDecision _Acknowledgement.
Proof. solve_decision. Defined.

(** The descriptor an acknowledgement frame answers to: none when the
    frame lacks a header or carries a part id of more than 8 bytes. *)
Definition acknowledged (message : _ParsedWSMessage) : option _Acknowledgement :=
  match msg_type message with
  | CONTINUE_RECEIVE =>
      identifier ← msg_headers message !! "x-identifier"%string;
      part_id_bytes ← msg_headers message !! "x-part-id"%string;
      if 8 <? len part_id_bytes then None
      else Some (_ContinueReceive identifier (from_bytes part_id_bytes))
  | CONFIRM_RECEIVE =>
      identifier ← msg_headers message !! "x-identifier"%string;
      Some (_ConfirmReceive identifier)
  | _ => None
  end.


(** ** Session set-up, and the objects of the examples *)

(** The [_StateOpen] that [_handle_accepting] returns once the websocket
    is accepted. *)
Definition _handle_accepting (cfg : Config) (now : Z) : _StateOpen :=
  mk_StateOpen None None (mk_MyReceiver ∅ []) None None [] [] [] None None None
    (if allow_training cfg
     then Some (BeforeLowWatermark (new_collector now) false)
     else None)
    1 (-1) 65536 [].

(** [_PROCESSOR_BY_TYPE]: the processor of a frame that is not an
    acknowledgement. *)
Definition _PROCESSOR_BY_TYPE `{Externals} (cfg : Config) (now : Z)
    (broadcaster_nonce : bytes) (t : _ParsedWSMessageType)
    : option (_ParsedWSMessage → Session ()) :=
  match t with
  | CONFIGURE => Some (_process_configure cfg broadcaster_nonce)
  | SUBSCRIBE_EXACT | UNSUBSCRIBE_EXACT | SUBSCRIBE_GLOB | UNSUBSCRIBE_GLOB =>
      Some (_process_subscribe_or_unsubscribe cfg now)
  | NOTIFY => Some (_process_notify cfg now)
  | NOTIFY_STREAM => Some (_process_notify_stream cfg now)
  | CONTINUE_RECEIVE | CONFIRM_RECEIVE => None
  end.

(** The sessions the ingress pipeline can produce: the session of a
    websocket that was just accepted, and what a processor or the
    handling of an acknowledgement leaves, whatever the frame and
    whether or not it raised. *)
Inductive ingress_reachable `{Externals} (cfg : Config) : _StateOpen → Prop :=
| reachable_accepted (now : Z) :
    ingress_reachable cfg (_handle_accepting cfg now)
| reachable_processed (state : _StateOpen) (now : Z) (broadcaster_nonce : bytes)
    (message : _ParsedWSMessage) (processor : _ParsedWSMessage → Session ())
    (r : result ()) (state' : _StateOpen) :
    ingress_reachable cfg state →
    _PROCESSOR_BY_TYPE cfg now broadcaster_nonce (msg_type message)
    = Some processor →
    processor message state = (r, state') →
    ingress_reachable cfg state'
| reachable_acknowledged (state : _StateOpen) (message : _ParsedWSMessage)
    (r : result ()) (state' : _StateOpen) :
    ingress_reachable cfg state →
    _process_message_asap cfg message state = (r, state') →
    ingress_reachable cfg state'.

(** A configuration whose providers accept everything, with the typical
    sizes of the documentation of [websocket_endpoint]. *)
Definition example_config : Config :=
  mk_Config true true 32 16384 100000 10000000 86400 (Some 16777216)
    (Some 255) (Some 255)
    (λ _ _ _ _, ok) (λ _ _ _ _, ok) (λ _ _ _ _, ok) (λ _ _ _ _, None)
    (λ _, None) (λ _, ([], 3)) (λ _, ([], 3)).

(** Stand-ins for the libraries, for the examples only: nothing is
    compressed, a pattern matches the topic equal to it, and the delivery
    fanout reaches one subscriber. *)
Definition example_externals : Externals :=
  mk_Externals
    (λ glob, glob)
    String.eqb
    (λ _ data, data)
    (λ _ data, (if bool_decide (data = []) then [] else [data], None))
    (λ _ _ _ _, mk_TrustedNotifyResult OK 1 0).

(** A session that was configured without compression, hence without
    training. *)
Definition example_session : _StateOpen :=
  set_training_data None
    (set_socket_level_config (Some (mk_Configuration false false 0 "abc"))
       (_handle_accepting example_config 0)).

(** The text of a [bytes] literal. *)
Definition b (s : string) : bytes := list_byte_of_string s.

(** The two parts of a stream of 10 bytes, 4 and 6 bytes, in the expanded
    form. *)
Definition example_stream_part_0 : _ParsedWSMessage :=
  mk_ParsedWSMessage 0 NOTIFY_STREAM
    {[ "x-identifier"%string := b "m1";
       "x-part-id"%string := ["000"%byte];
       "x-topic"%string := b "room/1";
       "x-compressor"%string := ["000"%byte];
       "x-compressed-length"%string := ["010"%byte];
       "x-decompressed-length"%string := ["010"%byte];
       "x-compressed-sha512"%string :=
         b "0123456789" ++ repeat "000"%byte 54 ]}
    (b "0123").

Definition example_stream_part_1 : _ParsedWSMessage :=
  mk_ParsedWSMessage 0 NOTIFY_STREAM
    {[ "x-identifier"%string := b "m1";
       "x-part-id"%string := ["001"%byte] ]}
    (b "456789").

(** A [NOTIFY] of the payload [hello] that advertises [digest]. *)
Definition example_notify (digest : bytes) : _ParsedWSMessage :=
  mk_ParsedWSMessage 0 NOTIFY
    {[ "x-identifier"%string := b "m2";
       "x-topic"%string := b "room/1";
       "x-compressor"%string := ["000"%byte];
       "x-compressed-length"%string := ["005"%byte];
       "x-decompressed-length"%string := ["005"%byte];
       "x-compressed-sha512"%string := digest ]}
    (b "hello").

(** The [CONFIGURE] of a subscriber whose nonce is 32 zero bytes, and the
    session it opens when the broadcaster draws 32 bytes [0xAA]. *)
Definition example_configure : _ParsedWSMessage :=
  mk_ParsedWSMessage 0 CONFIGURE
    {[ "x-subscriber-nonce"%string := repeat "000"%byte 32 ]} [].

Definition example_configured_session : _StateOpen :=
  (_process_configure example_config (repeat "170"%byte 32) example_configure
     (_handle_accepting example_config 0)).2.

(** [SUBSCRIBE_GLOB] for [room/*], and [SUBSCRIBE_EXACT] for [room/1]. *)
Definition example_subscribe_glob : _ParsedWSMessage :=
  mk_ParsedWSMessage 0 SUBSCRIBE_GLOB
    {[ "authorization"%string := b "tok"; "x-glob"%string := b "room/*" ]} [].

Definition example_subscribe_exact : _ParsedWSMessage :=
  mk_ParsedWSMessage 0 SUBSCRIBE_EXACT
    {[ "authorization"%string := b "tok"; "x-topic"%string := b "room/1" ]} [].


(** * The rest of the session engine *)

(** ** Dictionary trainer: training *)

(** The loop of [_check_training_data] that reads the samples back:
    [tmpfile.read(4)] gives at most four bytes and nothing at the end of
    the file; a length of one to three bytes fails the [assert]. [fuel]
    bounds the number of turns: a turn that goes on has consumed four
    bytes, so one turn more than the file has bytes is enough. *)
Fixpoint read_samples_loop (fuel : nat) (tmpfile : bytes) (samples : list bytes)
    : option (result (list bytes)) :=
  match fuel with
  | O => None
  | S fuel =>
      let length_bytes := take 4 tmpfile in
      let tmpfile := drop 4 tmpfile in
      if bool_decide (length_bytes = []) then Some (Ok samples)
      else if negb (len length_bytes =? 4) then Some (Raise AssertionError)
      else
        let length := from_bytes length_bytes in
        match read_exact tmpfile length with
        | Raise e => Some (Raise e)
        | Ok (sample, tmpfile) =>
            read_samples_loop fuel tmpfile (samples ++ [sample])
        end
  end.

(** [tmpfile.seek(0)], then the loop. *)
Definition read_samples (tmpfile : bytes) : result (list bytes) :=
  default (Ok []) (read_samples_loop (S (length tmpfile)) tmpfile []).

(** The task [_make_compressor] of [_check_training_data]: the provider
    trains a dictionary on the samples. *)
Definition _make_trained_compressor (train : list bytes → bytes * Z)
    (samples : list bytes) (dictionary_id : Z) : result _CompressorReady :=
  let '(zdict, level) := train samples in
  Ok (mk_CompressorReady dictionary_id level (Some zdict)).

(** [samples = ...; dictionary_id = counter; counter += 1;
     _rotate_compressor(...)], the same in both watermarks. *)
Definition train_and_rotate (train : list bytes → bytes * Z)
    (collector : _CompressorTrainingDataCollector) : Session () :=
  samples ← lift (read_samples (tmpfile collector));
  state ← get_state;
  let dictionary_id := custom_compression_dict_counter state in
  modify (set_custom_compression_dict_counter (dictionary_id + 1));;
  _rotate_compressor
    (Preparing dictionary_id (_make_trained_compressor train samples dictionary_id)).

Definition _check_training_data (cfg : Config) (now : Z) : Session () :=
  state ← get_state;
  match training_data state with
  | None => mret ()
  | Some (BeforeLowWatermark collector _) =>
      if compression_training_high_watermark cfg <=? collector_length collector
      then modify (set_training_data (Some (BeforeHighWatermark collector true)))
      else if collector_length collector <? compression_training_low_watermark cfg
      then modify (set_training_data (Some (BeforeLowWatermark collector false)))
      else
        train_and_rotate (train_compression_dict_low_watermark cfg) collector;;
        modify (set_training_data (Some (BeforeHighWatermark collector false)))
  | Some (BeforeHighWatermark collector _) =>
      if collector_length collector <? compression_training_high_watermark cfg
      then modify (set_training_data (Some (BeforeHighWatermark collector false)))
      else
        train_and_rotate (train_compression_dict_high_watermark cfg) collector;;
        modify (set_training_data (Some (WaitingToRefresh now)))
  | Some (WaitingToRefresh _) => mret ()
  end.

(** ** Egress pipeline: the frames of a notification *)

(** [await state.expecting_acks.put(ack)], on a queue that has room (the
    queue is unbounded unless [websocket_send_max_unacknowledged] is
    set; a full queue suspends the sender). *)
Definition expecting_acks_put (ack : _Acknowledgement) : Session () :=
  modify (λ s, set_expecting_acks (expecting_acks s ++ [ack]) s).

(** [await state.websocket.send_bytes(data)] *)
Definition websocket_send_bytes_now (data : bytes) : Session () :=
  emit (EvWebsocketSend data).

Definition _make_receive_stream_message_prefix (cfg : Config) (now : Z)
    (topic compressed_sha512 msg_identifier : bytes)
    (part_id dictionary_id compressed_length decompressed_length : Z)
    : Session bytes :=
  url ← _make_for_send_websocket_url_and_change_counter;
  let authorization := setup_authorization cfg url topic compressed_sha512 now in
  part_id_bytes ← lift (smallest_to_bytes part_id);
  first_part ←
    (if negb (part_id =? 0) then mret []
     else
       compressor ← lift (smallest_to_bytes dictionary_id);
       compressed ← lift (smallest_to_bytes compressed_length);
       decompressed ← lift (smallest_to_bytes decompressed_length);
       mret [("x-topic", topic);
             ("x-compressor", compressor);
             ("x-compressed-length", compressed);
             ("x-decompressed-length", decompressed);
             ("x-compressed-sha512", compressed_sha512)]%string);
  lift (_make_websocket_message MINIMAL_HEADERS RECEIVE_STREAM
          (match authorization with
           | Some authorization =>
               [("authorization"%string, encode_utf8 authorization)]
           | None => []
           end
           ++ [("x-identifier"%string, msg_identifier);
               ("x-part-id"%string, part_id_bytes)]
           ++ first_part)
          []).

(** The [while remaining:] of [_send_small_message]. [clock part_id] is
    the reading of the clock when the prefix of that part is made. A turn
    takes at least one byte of [remaining], so as many turns as it has
    bytes are enough. *)
Fixpoint send_small_parts (fuel : nat) (cfg : Config) (clock : Z → Z)
    (topic compressed_sha512 msg_identifier : bytes)
    (compressor_id compressed_length decompressed_length : Z)
    (remaining : bytes) (part_id : Z) : Session () :=
  match fuel with
  | O => mret ()
  | S fuel =>
      if bool_decide (remaining = []) then mret ()
      else
        headers ← _make_receive_stream_message_prefix cfg (clock part_id) topic
                    compressed_sha512 msg_identifier part_id compressor_id
                    compressed_length decompressed_length;
        let remaining_space :=
          match outgoing_max_ws_message_size cfg with
          | None => len remaining
          | Some max_size => Z.max 512 (max_size - len headers)
          end in
        let part := take (Z.to_nat remaining_space) remaining in
        let remaining := drop (Z.to_nat remaining_space) remaining in
        expecting_acks_put
          (if bool_decide (remaining = [])
           then _ConfirmReceive msg_identifier
           else _ContinueReceive msg_identifier part_id);;
        websocket_send_bytes_now (headers ++ part);;
        send_small_parts fuel cfg clock topic compressed_sha512 msg_identifier
          compressor_id compressed_length decompressed_length remaining
          (part_id + 1)
  end.

(** [_send_small_message]. [now] is the reading of the clock of the
    sampler, [msg_identifier] the outcome of [secrets.token_bytes(4)]. *)
Definition _send_small_message `{Externals} (cfg : Config) (now : Z)
    (clock : Z → Z) (msg_identifier : bytes) (msg : _SmallMessage) : Session () :=
  state ← get_state;
  match socket_level_config state with
  | None => raise AssertionError
  | Some _ =>
      _store_small_for_compression_training cfg now (small_data msg);;
      state ← get_state;
      let remaining := small_data msg in
      let decompressed_length := len remaining in
      let '(compressor_id, remaining, compressed_sha512) :=
        match _send_small_message_plan cfg state remaining with
        | Compressed compressor compressor_id =>
            let remaining := zstd_compress compressor remaining in
            (compressor_id, remaining, sha512 remaining)
        | Uncompressed => (0, remaining, small_sha512 msg)
        end in
      let compressed_length := len remaining in
      send_small_parts (length remaining) cfg clock (small_topic msg)
        compressed_sha512 msg_identifier compressor_id compressed_length
        decompressed_length remaining 0
  end.

(** The uncompressed loop of [_send_large_message_from_spooled]:
    [stream] is what the spooled file still holds and [tell] its
    position. The turn that reads nothing ends the loop, after its prefix
    was made. *)
Fixpoint send_spooled_parts (fuel : nat) (cfg : Config) (clock : Z → Z)
    (msg : _LargeMessage) (msg_identifier : bytes) (capture_io : capturer)
    (stream : bytes) (tell : Z) (part_id : Z) : Session () :=
  match fuel with
  | O => mret ()
  | S fuel =>
      let max_ws_msg_size :=
        default (2 ^ 64 - 1) (outgoing_max_ws_message_size cfg) in
      headers ← _make_receive_stream_message_prefix cfg (clock part_id)
                  (large_topic msg) (large_sha512 msg) msg_identifier part_id 0
                  (large_length msg) (large_length msg);
      let remaining_ws_msg_space := Z.max 512 (max_ws_msg_size - len headers) in
      let chunk := take (Z.to_nat remaining_ws_msg_space) stream in
      let stream := drop (Z.to_nat remaining_ws_msg_space) stream in
      let tell := tell + len chunk in
      if bool_decide (chunk = []) then mret ()
      else
        capturer_write capture_io chunk;;
        expecting_acks_put
          (if tell <? large_length msg
           then _ContinueReceive msg_identifier part_id
           else _ConfirmReceive msg_identifier);;
        websocket_send_bytes_now (headers ++ chunk);;
        send_spooled_parts fuel cfg clock msg msg_identifier capture_io stream
          tell (part_id + 1)
  end.

(** [io.DEFAULT_BUFFER_SIZE] *)
Definition DEFAULT_BUFFER_SIZE : Z := 8192.

(** [while True: chunk = stream.read(size); if not chunk: break; ...]: the
    chunks the loop sees. *)
Fixpoint read_chunks (fuel : nat) (size : Z) (stream : bytes) : list bytes :=
  match fuel with
  | O => []
  | S fuel =>
      let chunk := take (Z.to_nat size) stream in
      if bool_decide (chunk = []) then []
      else chunk :: read_chunks fuel size (drop (Z.to_nat size) stream)
  end.

(** [zstandard]'s chunker: [zstd_chunker c size chunks] is everything that
    [c.compressor.chunker(size=size, chunk_size=...)] gives for the input
    [chunks], through [compress] and then [finish], in one piece. *)
Class ZstdChunker : Type :=
  zstd_chunker : _CompressorReady → Z → list bytes → bytes.

(** The sending loop of [_send_large_compressed_message_optimistically]
    over the compressed file. *)
Fixpoint send_compressed_parts (fuel : nat) (cfg : Config) (clock : Z → Z)
    (msg : _LargeMessage) (msg_identifier compressed_sha512 : bytes)
    (compressor_id compressed_length : Z)
    (compressed_file : bytes) (tell : Z) (part_id : Z) : Session () :=
  match fuel with
  | O => mret ()
  | S fuel =>
      headers ← _make_receive_stream_message_prefix cfg (clock part_id)
                  (large_topic msg) compressed_sha512 msg_identifier part_id
                  compressor_id compressed_length (large_length msg);
      let remaining_space :=
        match outgoing_max_ws_message_size cfg with
        | Some max_size => Z.max 512 (max_size - len headers)
        | None => compressed_length
        end in
      let part := take (Z.to_nat remaining_space) compressed_file in
      let compressed_file := drop (Z.to_nat remaining_space) compressed_file in
      let tell := tell + len part in
      if bool_decide (part = []) then mret ()
      else
        expecting_acks_put
          (if tell <? compressed_length
           then _ContinueReceive msg_identifier part_id
           else _ConfirmReceive msg_identifier);;
        websocket_send_bytes_now (headers ++ part);;
        send_compressed_parts fuel cfg clock msg msg_identifier
          compressed_sha512 compressor_id compressed_length compressed_file
          tell (part_id + 1)
  end.

(** [capture_io.write(chunk)] for the chunks that are read. *)
Fixpoint capture_chunks (capture_io : capturer) (chunks : list bytes)
    : Session () :=
  match chunks with
  | [] => mret ()
  | chunk :: chunks =>
      capturer_write capture_io chunk;;
      capture_chunks capture_io chunks
  end.

Definition _send_large_compressed_message_optimistically `{ZstdChunker}
    (cfg : Config) (now : Z) (clock : Z → Z) (msg_identifier : bytes)
    (msg : _LargeMessage) (compressor : _CompressorReady) (compressor_id : Z)
    : Session () :=
  capture_io ← _make_store_for_training_capturer cfg now (large_length msg);
  let chunks :=
    read_chunks (length (large_stream msg)) DEFAULT_BUFFER_SIZE (large_stream msg) in
  capture_chunks capture_io chunks;;
  let compressed_file := zstd_chunker compressor (large_length msg) chunks in
  let compressed_sha512 := sha512 compressed_file in
  let compressed_length := len compressed_file in
  send_compressed_parts (S (length compressed_file)) cfg clock msg msg_identifier
    compressed_sha512 compressor_id compressed_length compressed_file 0 0.

(** [_send_large_message_from_spooled]: the spooled file is at its
    start. *)
Definition _send_large_message_from_spooled `{ZstdChunker} (cfg : Config)
    (now : Z) (clock : Z → Z) (msg_identifier : bytes) (msg : _LargeMessage)
    : Session () :=
  state ← get_state;
  plan ← lift (_send_large_message_from_spooled_plan cfg state msg);
  match plan with
  | Compressed compressor compressor_id =>
      _send_large_compressed_message_optimistically cfg now clock msg_identifier
        msg compressor compressor_id
  | Uncompressed =>
      capture_io ← _make_store_for_training_capturer cfg now (large_length msg);
      send_spooled_parts (S (length (large_stream msg))) cfg clock msg
        msg_identifier capture_io (large_stream msg) 0 0
  end.

(** ** Announcing a compressor *)

Definition _acknowledge_compressor_ready (cfg : Config)
    (compressor : _CompressorReady) : Session () :=
  if ready_dictionary_id compressor <=? 1 then mret ()
  else
    let is_preset := ready_dictionary_id compressor <? 65536 in
    identifier ← lift (smallest_to_bytes (ready_dictionary_id compressor));
    level ← lift (smallest_to_bytes (ready_level compressor));
    min_size ← lift (to_bytes (compression_min_size cfg) 4);
    max_size ← lift (smallest_to_bytes (compression_trained_max_size cfg));
    headers ← lift (_make_websocket_message MINIMAL_HEADERS
                      (if is_preset then ENABLE_ZSTD_PRESET else ENABLE_ZSTD_CUSTOM)
                      [("x-identifier", identifier);
                       ("x-compression-level", level);
                       ("x-min-size", min_size);
                       ("x-max-size", max_size)]%string
                      []);
    message ←
      (if is_preset then mret headers
       else
         match ready_data compressor with
         | None => raise AssertionError
         | Some dict_data_bytes =>
             if match outgoing_max_ws_message_size cfg with
                | Some max_size => max_size <? len headers + len dict_data_bytes
                | None => false
                end
             then raise (ValueError "cannot transfer dictionary")
             else mret (headers ++ dict_data_bytes)
         end);
    send_or_enqueue cfg message.

(** ** The sampler and the trainer, as their properties speak of them *)

(** The payloads of a sequence of small messages handed to the sampler
    one after the other, each with the reading of the clock at its
    turn. *)
Fixpoint store_small_samples (cfg : Config) (payloads : list (Z * bytes))
    : Session () :=
  match payloads with
  | [] => mret ()
  | (now, data) :: rest =>
      _store_small_for_compression_training cfg now data;;
      store_small_samples cfg rest
  end.

(** The payloads of a sequence that have a sampled size. *)
Definition sampled (cfg : Config) (payloads : list (Z * bytes)) : list bytes :=
  filter (λ data, sample_eligible cfg (len data) = true) payloads.*2.

Definition total_length (samples : list bytes) : Z :=
  foldr (λ data n, len data + n) 0 samples.

(** What the sampler has written to the temporary file once it has
    stored [samples]: each with its length on four bytes before it. *)
Definition sample_records (samples : list bytes) : bytes :=
  concat ((λ data, rev (digits_le (len data) 4) ++ data) <$> samples).

(** The collector of a session at the low watermark holds [samples]. *)
Definition collects (state : _StateOpen) (samples : list bytes)
    (c : _CompressorTrainingDataCollector) (dirty : bool) : Prop :=
  training_data state = Some (BeforeLowWatermark c dirty)
  ∧ tmpfile c = sample_records samples
  ∧ collector_length c = total_length samples
  ∧ messages c = len samples.

(** A configuration with small sizes, for the examples of the sampler and
    of the trainer: payloads of 2 to 63 bytes are sampled, the watermarks
    are at 8 and 16 bytes, the providers train a dictionary that is the
    concatenation of its samples. *)
Definition example_training_config : Config :=
  mk_Config true true 2 64 8 16 60 (Some 600) None None
    (λ _ _ _ _, ok) (λ _ _ _ _, ok) (λ _ _ _ _, ok) (λ _ _ _ _, None)
    (λ _, None) (λ samples, (concat samples, 3)) (λ samples, (concat samples, 5)).

(** ** The frames of a notification, as their properties speak of them *)



(** The frames of a sending, each a prefix and a part of the payload, as
    the websocket sees them. *)
Definition frames_sent (frames : list (bytes * bytes)) : list event :=
  (λ frame, EvWebsocketSend (frame.1 ++ frame.2)) <$> frames.

(** What [_send_small_message] puts on the wire for a message: its data,
    compressed when a compressor is selected. *)
Definition small_message_payload `{Externals} (cfg : Config) (state : _StateOpen)
    (msg : _SmallMessage) : bytes :=
  match _send_small_message_plan cfg state (small_data msg) with
  | Compressed compressor _ => zstd_compress compressor (small_data msg)
  | Uncompressed => small_data msg
  end.




(** A session configured under [example_training_config] (frames of at most
    600 bytes), and a small message of 1200 bytes. *)
Definition example_sending_session : _StateOpen :=
  (_process_configure example_training_config (repeat "170"%byte 32)
     example_configure (_handle_accepting example_training_config 0)).2.

Definition example_small_message : _SmallMessage :=
  mk_SmallMessage (repeat "097"%byte 1200) (b "room/1") (repeat "000"%byte 64).

(** The acknowledgements of a sending that reads its payload from a file:
    after each part the position of the file is compared with the
    announced [length]. *)
Fixpoint position_acks (msg_identifier : bytes) (length : Z) (tell : Z)
    (part_id : Z) (parts : list bytes) : list _Acknowledgement :=
  match parts with
  | [] => []
  | part :: parts =>
      let tell := tell + len part in
      (if tell <? length
       then _ContinueReceive msg_identifier part_id
       else _ConfirmReceive msg_identifier)
      :: position_acks msg_identifier length tell (part_id + 1) parts
  end.





(** A large message of 1200 bytes in its spooled file. *)
Definition example_large_message : _LargeMessage :=
  mk_LargeMessage (repeat "097"%byte 1200) (b "room/1") (repeat "000"%byte 64) 1200.

(** A chunker for the examples: it gives its input back. *)
Definition example_chunker : ZstdChunker := λ _ _ chunks, concat chunks.


(** ** The fanout hub, as the properties of the subscriptions speak of it *)

(** What the hub counts: the connections that hold an exact topic or a
    glob. *)
Inductive hub_key : Type :=
| ExactKey (topic : bytes)
| GlobKey (glob : string).

(** What a call does to the count of a key. *)
Definition hub_delta (key : hub_key) (e : event) : Z :=
  match e, key with
  | EvIncrementExact topic, ExactKey k => if bool_decide (topic = k) then 1 else 0
  | EvDecrementExact topic, ExactKey k => if bool_decide (topic = k) then -1 else 0
  | EvIncrementGlob glob, GlobKey k => if bool_decide (glob = k) then 1 else 0
  | EvDecrementGlob glob, GlobKey k => if bool_decide (glob = k) then -1 else 0
  | _, _ => 0
  end.

(** The increments less the decrements of a key in a log of calls. *)
Definition hub_balance (key : hub_key) (log : list event) : Z :=
  foldr (λ e n, hub_delta key e + n) 0 log.

(** How many of the glob subscriptions are for a glob. *)
Fixpoint glob_count (glob : string) (subs : list (Pattern * string)) : Z :=
  match subs with
  | [] => 0
  | (_, g) :: subs => (if bool_decide (g = glob) then 1 else 0) + glob_count glob subs
  end.

(** How often the local view of a session holds a key. *)
Definition held (key : hub_key) (self : _MyReceiver) : Z :=
  match key with
  | ExactKey topic => if bool_decide (topic ∈ exact_subscriptions self) then 1 else 0
  | GlobKey glob => glob_count glob (glob_subscriptions self)
  end.

(** The hub has counted a session as often as the session holds each
    key. *)
Definition hub_agrees (state : _StateOpen) : Prop :=
  ∀ key, hub_balance key (trace state) = held key (my_receiver state).

(** A step that leaves the subscriptions and the counts of the hub as
    they are. *)
Definition hub_same (s s' : _StateOpen) : Prop :=
  my_receiver s' = my_receiver s
  ∧ ∀ key, hub_balance key (trace s') = hub_balance key (trace s).

(** A computation of the session that never touches the subscriptions
    nor the counts of the hub, however it ends. *)
Definition hub_quiet {A : Type} (m : Session A) : Prop :=
  ∀ s, hub_same s (m s).2.

(** A computation of the session after which the hub still agrees with
    the session, however it ends. *)
Definition hub_keeps {A : Type} (m : Session A) : Prop :=
  ∀ s, hub_agrees s → hub_agrees (m s).2.

(** ** Egress pipeline: a large message sent while the hub waits *)

(** The first loop of the uncompressed branch of
    [_send_large_message_optimistically]: the stream of the hub is read
    and sent part by part. [timeout_first part_id] says whether the
    timeout [websocket_large_direct_send_timeout] is over before the
    sender of that part is done, which ends the loop; the loop also ends,
    and the function with it, when the stream is at its end. It gives what
    is left for the second loop: the rest of the stream, [sent_so_far]
    and the next part id. *)
Fixpoint send_direct_parts (fuel : nat) (cfg : Config) (clock : Z → Z)
    (timeout_first : Z → bool) (msg : _LargeMessage) (msg_identifier : bytes)
    (capture_io : capturer) (stream : bytes) (sent_so_far part_id : Z)
    : Session (option (bytes * Z * Z)) :=
  match fuel with
  | O => mret None
  | S fuel =>
      let max_ws_msg_size :=
        default (2 ^ 64 - 1) (outgoing_max_ws_message_size cfg) in
      headers ← _make_receive_stream_message_prefix cfg (clock part_id)
                  (large_topic msg) (large_sha512 msg) msg_identifier part_id 0
                  (large_length msg) (large_length msg);
      let remaining_ws_msg_space := Z.max 512 (max_ws_msg_size - len headers) in
      let chunk := take (Z.to_nat remaining_ws_msg_space) stream in
      let stream := drop (Z.to_nat remaining_ws_msg_space) stream in
      if bool_decide (chunk = []) then mret None
      else
        capturer_write capture_io chunk;;
        let sent_so_far := sent_so_far + len chunk in
        if large_length msg <? sent_so_far
        then raise (ValueError "sent too much data")
        else if sent_so_far =? large_length msg
        then
          expecting_acks_put (_ConfirmReceive msg_identifier);;
          websocket_send_bytes_now (headers ++ chunk);;
          mret None
        else
          expecting_acks_put (_ContinueReceive msg_identifier part_id);;
          websocket_send_bytes_now (headers ++ chunk);;
          if timeout_first part_id
          then mret (Some (stream, sent_so_far, part_id + 1))
          else send_direct_parts fuel cfg clock timeout_first msg msg_identifier
                 capture_io stream sent_so_far (part_id + 1)
  end.

(** The second loop, over the respooled rest. [chunk] is the variable of
    that name, which the loop adds to [sent_so_far] at every part and
    does not assign. *)
Fixpoint send_respooled_parts (fuel : nat) (cfg : Config) (clock : Z → Z)
    (msg : _LargeMessage) (msg_identifier : bytes) (chunk : bytes)
    (target : bytes) (sent_so_far part_id : Z) : Session () :=
  match fuel with
  | O => mret ()
  | S fuel =>
      let max_ws_msg_size :=
        default (2 ^ 64 - 1) (outgoing_max_ws_message_size cfg) in
      headers ← _make_receive_stream_message_prefix cfg (clock part_id)
                  (large_topic msg) (large_sha512 msg) msg_identifier part_id 0
                  (large_length msg) (large_length msg);
      let remaining_ws_msg_space := Z.max 512 (max_ws_msg_size - len headers) in
      let part := take (Z.to_nat remaining_ws_msg_space) target in
      let target := drop (Z.to_nat remaining_ws_msg_space) target in
      if bool_decide (part = []) then mret ()
      else
        let sent_so_far := sent_so_far + len chunk in
        if large_length msg <? sent_so_far
        then raise (ValueError "sent too much data")
        else
          expecting_acks_put
            (if sent_so_far =? large_length msg
             then _ConfirmReceive msg_identifier
             else _ContinueReceive msg_identifier part_id);;
          websocket_send_bytes_now (headers ++ part);;
          send_respooled_parts fuel cfg clock msg msg_identifier chunk target
            sent_so_far (part_id + 1)
  end.

(** [_send_large_message_optimistically]. After a timeout the rest of the
    stream is copied to a temporary file, chunk by chunk; the read that
    ends the copy leaves [chunk] empty. *)
Definition _send_large_message_optimistically `{ZstdChunker} (cfg : Config)
    (now : Z) (clock : Z → Z) (timeout_first : Z → bool) (msg_identifier : bytes)
    (msg : _LargeMessage) : Session () :=
  state ← get_state;
  plan ← lift (_send_large_message_optimistically_plan cfg state msg);
  match plan with
  | Compressed compressor compressor_id =>
      _send_large_compressed_message_optimistically cfg now clock msg_identifier
        msg compressor compressor_id
  | Uncompressed =>
      capture_io ← _make_store_for_training_capturer cfg now (large_length msg);
      respool ← send_direct_parts (S (length (large_stream msg))) cfg clock
                  timeout_first msg msg_identifier capture_io (large_stream msg)
                  0 0;
      match respool with
      | None => mret ()
      | Some (stream, sent_so_far, part_id) =>
          let chunks := read_chunks (length stream) DEFAULT_BUFFER_SIZE stream in
          capture_chunks capture_io chunks;;
          let target := concat chunks in
          let chunk : bytes := [] in
          send_respooled_parts (S (length target)) cfg clock msg msg_identifier
            chunk target sent_so_far part_id
      end
  end.

(** [CONTINUE_RECEIVE] for [parts] parts from [part_id] on. *)
Fixpoint continue_acks (msg_identifier : bytes) (part_id : Z) (parts : nat)
    : list _Acknowledgement :=
  match parts with
  | O => []
  | S parts =>
      _ContinueReceive msg_identifier part_id
      :: continue_acks msg_identifier (part_id + 1) parts
  end.

(** ** The open session: one turn of its handler *)

(** What [websocket.receive()] gives: a disconnect, or a frame that holds
    bytes or does not. *)
Inductive WSMessage : Type :=
| websocket_disconnect
| websocket_receive (data : option bytes).

(** What the queue of the receiver gives. *)
Inductive hub_message : Type :=
| QueueSmall (msg : _SmallMessage)
| QueueLarge (msg : _LargeMessage).

(** What a turn of [_handle_open] finds: which tasks are done and, for
    the tasks of the transport and of the hub, with what; and what the
    tasks that run in this turn draw from their environment. A task of
    the session runs, from start to end, in the turn that finds it
    done. *)
Record open_tasks : Type := mk_open_tasks {
  send_task_done : bool;
  process_task_done : bool;
  active_compressor_done : bool;
  standard_compressor_done : bool;
  last_compressor_done : bool;
  message_task_done : option hub_message;
  read_task_done : option WSMessage;
  task_now : Z;
  task_clock : Z → Z;
  task_timeout_first : Z → bool;
  task_msg_identifier : bytes;
  task_broadcaster_nonce : bytes;
}.

(** The coroutine of a send task. *)
Definition run_send_job `{Externals} `{ZstdChunker} (cfg : Config)
    (tasks : open_tasks) (job : send_job) : Session () :=
  match job with
  | websocket_send_bytes data => websocket_send_bytes_now data
  | send_small_message msg =>
      _send_small_message cfg (task_now tasks) (task_clock tasks)
        (task_msg_identifier tasks) msg
  | send_large_message_from_spooled msg =>
      _send_large_message_from_spooled cfg (task_now tasks) (task_clock tasks)
        (task_msg_identifier tasks) msg
  | send_large_message_optimistically msg =>
      _send_large_message_optimistically cfg (task_now tasks) (task_clock tasks)
        (task_timeout_first tasks) (task_msg_identifier tasks) msg
  end.

(** The coroutine of a process task. *)
Definition run_process_job `{Externals} (cfg : Config) (tasks : open_tasks)
    (message : _ParsedWSMessage) : Session () :=
  match _PROCESSOR_BY_TYPE cfg (task_now tasks) (task_broadcaster_nonce tasks)
          (msg_type message) with
  | Some processor => processor message
  | None => raise (KeyError "message.type")
  end.

(** [slot = slot.task.result()] for a compressor that was preparing. *)
Definition compressor_result (c : _Compressor) : result _CompressorReady :=
  await_compressor c.

(** The tests of [_handle_open], from the last to the first; each one
    that does not apply leaves the turn to the next. A turn gives [true]
    when the subscriber has disconnected, which closes the session without
    an exception. *)

(** [if state.training_data is not None and state.training_data.dirty], and
    the wait that ends a turn with nothing to do. *)
Definition _handle_open_training (cfg : Config) (tasks : open_tasks)
    : Session bool :=
  state ← get_state;
  match training_data state with
  | Some (BeforeLowWatermark _ true) | Some (BeforeHighWatermark _ true) =>
      _check_training_data cfg (task_now tasks);;
      mret false
  | _ => mret false
  end.

(** [if state.read_task.done()] *)
Definition _handle_open_read (cfg : Config) (tasks : open_tasks) : Session bool :=
  match read_task_done tasks with
  | Some websocket_disconnect => mret true
  | Some (websocket_receive None) =>
      raise (ValueError "only bytes or close messages expected")
  | Some (websocket_receive (Some data)) =>
      parsed_message ← lift (_parse_websocket_message data);
      _process_message_asap cfg parsed_message;;
      mret false
  | None => _handle_open_training cfg tasks
  end.

(** [if state.last_compressor ... .task.done()] *)
Definition _handle_open_last_compressor (cfg : Config) (tasks : open_tasks)
    : Session bool :=
  state ← get_state;
  match last_compressor state with
  | Some (Preparing _ task) =>
      if last_compressor_done tasks
      then
        ready ← lift task;
        modify (set_last_compressor (Some (Ready ready)));;
        mret false
      else _handle_open_read cfg tasks
  | _ => _handle_open_read cfg tasks
  end.

(** [_spool_large_message_immediately]: the stream is copied to a
    temporary file, which is then at its start. *)
Definition _spool_large_message_immediately (msg : _LargeMessage) : _LargeMessage :=
  mk_LargeMessage
    (concat (read_chunks (length (large_stream msg)) DEFAULT_BUFFER_SIZE
               (large_stream msg)))
    (large_topic msg) (large_sha512 msg) (large_length msg).

(** [state.pending_sends.append(x)] *)
Definition pending_sends_append (cfg : Config) (x : pending_send) : Session () :=
  modify (λ s, set_pending_sends
    (deque_append (websocket_max_pending_sends cfg) (pending_sends s) x) s).

(** [if state.message_task.done()] *)
Definition _handle_open_message (cfg : Config) (tasks : open_tasks)
    : Session bool :=
  match message_task_done tasks with
  | Some msg =>
      state ← get_state;
      match send_task state with
      | None =>
          modify (set_send_task (Some
            match msg with
            | QueueSmall msg => send_small_message msg
            | QueueLarge msg => send_large_message_optimistically msg
            end));;
          mret false
      | Some _ =>
          match msg with
          | QueueSmall msg => pending_sends_append cfg (PendingSmall msg)
          | QueueLarge msg =>
              pending_sends_append cfg
                (PendingLargeSpooled (_spool_large_message_immediately msg))
          end;;
          mret false
      end
  | None => _handle_open_last_compressor cfg tasks
  end.

(** [if state.standard_compressor ... .task.done()] *)
Definition _handle_open_standard_compressor (cfg : Config) (tasks : open_tasks)
    : Session bool :=
  state ← get_state;
  match standard_compressor state with
  | Some (Preparing _ task) =>
      if standard_compressor_done tasks
      then
        ready ← lift task;
        modify (set_standard_compressor (Some (Ready ready)));;
        _acknowledge_compressor_ready cfg ready;;
        mret false
      else _handle_open_message cfg tasks
  | _ => _handle_open_message cfg tasks
  end.

(** [if state.active_compressor ... .task.done()] *)
Definition _handle_open_active_compressor (cfg : Config) (tasks : open_tasks)
    : Session bool :=
  state ← get_state;
  match active_compressor state with
  | Some (Preparing _ task) =>
      if active_compressor_done tasks
      then
        ready ← lift task;
        modify (set_active_compressor (Some (Ready ready)));;
        _acknowledge_compressor_ready cfg ready;;
        mret false
      else _handle_open_standard_compressor cfg tasks
  | _ => _handle_open_standard_compressor cfg tasks
  end.

(** [if state.process_task is not None and state.process_task.done()] *)
Definition _handle_open_process `{Externals} (cfg : Config) (tasks : open_tasks)
    : Session bool :=
  state ← get_state;
  match process_task state with
  | Some message =>
      if process_task_done tasks
      then
        run_process_job cfg tasks message;;
        modify (set_process_task None);;
        mret false
      else _handle_open_active_compressor cfg tasks
  | None => _handle_open_active_compressor cfg tasks
  end.

(** [if state.send_task is not None and state.send_task.done()] *)
Definition _handle_open_send `{Externals} `{ZstdChunker} (cfg : Config)
    (tasks : open_tasks) : Session bool :=
  state ← get_state;
  match send_task state with
  | Some job =>
      if send_task_done tasks
      then
        run_send_job cfg tasks job;;
        modify (set_send_task None);;
        mret false
      else _handle_open_process cfg tasks
  | None => _handle_open_process cfg tasks
  end.

(** [if state.process_task is None and state.unprocessed_receives] *)
Definition _handle_open_unprocessed `{Externals} `{ZstdChunker} (cfg : Config)
    (tasks : open_tasks) : Session bool :=
  state ← get_state;
  match process_task state, unprocessed_receives state with
  | None, message :: rest =>
      modify (set_unprocessed_receives rest);;
      _process_message_asap cfg message;;
      mret false
  | _, _ => _handle_open_send cfg tasks
  end.

(** [if state.send_task is None and state.pending_sends], the first test:
    the body of [_handle_open] under its [try]. *)
Definition _handle_open_body `{Externals} `{ZstdChunker} (cfg : Config)
    (tasks : open_tasks) : Session bool :=
  state ← get_state;
  match send_task state, pending_sends state with
  | None, next_send :: rest =>
      modify (set_pending_sends rest);;
      modify (set_send_task (Some
        match next_send with
        | PendingSmall msg => send_small_message msg
        | PendingLargeSpooled msg => send_large_message_from_spooled msg
        | _FormattedMessage data => websocket_send_bytes data
        end));;
      mret false
  | _, _ => _handle_open_unprocessed cfg tasks
  end.

(** [_handle_open]: an exception of the body, and a disconnect, end in
    [_cleanup_open]. *)
Definition _handle_open `{Externals} `{ZstdChunker} (cfg : Config)
    (tasks : open_tasks) (state : _StateOpen) : _State :=
  match _handle_open_body cfg tasks state with
  | (Ok false, state) => StateOpen state
  | (Ok true, state) => _cleanup_open state None
  | (Raise e, state) => _cleanup_open state (Some e)
  end.

(** [_handle_closing]: the websocket is closed and the exception that
    closed the session, if there is one, is raised again. *)
Definition _handle_closing (exception : option exn) : result _State :=
  match exception with
  | Some e => Raise e
  | None => Ok StateClosed
  end.

(** [_handle_until_closed], from the open session on, for the turns of
    [_handle_open] that [turns] describes. It gives nothing when the
    session is still open after them. *)
Fixpoint _handle_until_closed `{Externals} `{ZstdChunker} (cfg : Config)
    (turns : list open_tasks) (state : _State) : option (result ()) :=
  match state with
  | StateClosed => Some (Ok ())
  | StateClosing exception _ =>
      match _handle_closing exception with
      | Ok _ => Some (Ok ())
      | Raise e => Some (Raise e)
      end
  | StateOpen state =>
      match turns with
      | [] => None
      | tasks :: turns => _handle_until_closed cfg turns (_handle_open cfg tasks state)
      end
  end.

(** A step that neither replaces a send that is in flight nor a
    processor that runs. *)
Definition slots_kept (s s' : _StateOpen) : Prop :=
  (∀ job, send_task s = Some job → send_task s' = Some job)
  ∧ (∀ message, process_task s = Some message → process_task s' = Some message).

(** A computation of the session that keeps the two slots, however it
    ends. *)
Definition keeps_slots {A : Type} (m : Session A) : Prop :=
  ∀ s, slots_kept s (m s).2.

(** What a turn does to the two slots: a task stays in its slot unless
    the turn finds it done, and then the slot is free. *)
Definition slots_turn (tasks : open_tasks) (s s' : _StateOpen) : Prop :=
  (∀ job, send_task s = Some job →
     send_task s' = Some job
     ∨ (send_task_done tasks = true ∧ send_task s' = None))
  ∧ (∀ message, process_task s = Some message →
       process_task s' = Some message
       ∨ (process_task_done tasks = true ∧ process_task s' = None)).

(** The sessions that the turns of [_handle_open] lead to, from the
    session of a websocket that was just accepted. *)
Inductive session_reachable `{Externals} `{ZstdChunker} (cfg : Config)
    : _StateOpen → Prop :=
| session_accepted (now : Z) :
    session_reachable cfg (_handle_accepting cfg now)
| session_turn (state : _StateOpen) (tasks : open_tasks) (state' : _StateOpen) :
    session_reachable cfg state →
    _handle_open cfg tasks state = StateOpen state' →
    session_reachable cfg state'.

(** The state that the turns [turns] lead to; they stop at the turn that
    closes the session. *)
Fixpoint run_turns `{Externals} `{ZstdChunker} (cfg : Config)
    (turns : list open_tasks) (state : _State) : _State :=
  match state, turns with
  | StateOpen s, tasks :: turns => run_turns cfg turns (_handle_open cfg tasks s)
  | _, _ => state
  end.

(** ** Examples of turns *)

(** The frame of a subscriber, in the expanded form. *)
Definition example_frame (t : _ParsedWSMessageType)
    (headers : list (string * bytes)) (body : bytes) : bytes :=
  match to_bytes (parsed_type_value t) 2, to_bytes (len headers) 2,
        write_expanded_headers headers with
  | Ok type_bytes, Ok count, Ok written =>
      ["000"; "000"]%byte ++ type_bytes ++ count ++ written ++ body
  | _, _, _ => []
  end.

(** A turn in which no task is done, one in which the read task has
    [raw], and one in which the tasks of the session are done. *)
Definition example_idle : open_tasks :=
  mk_open_tasks false false false false false None None 0 (λ _, 0) (λ _, false)
    (list_byte_of_string "id01") (repeat "170"%byte 32).

Definition example_read (raw : WSMessage) : open_tasks :=
  mk_open_tasks false false false false false None (Some raw) 0 (λ _, 0)
    (λ _, false) (list_byte_of_string "id01") (repeat "170"%byte 32).

Definition example_done : open_tasks :=
  mk_open_tasks true true true true true None None 0 (λ _, 0) (λ _, false)
    (list_byte_of_string "id01") (repeat "170"%byte 32).

(** A subscriber that configures its session and subscribes to
    [room/1]: a frame is read, the next turn runs its processor; the
    confirmation of the first frame is taken from the queue and sent
    before the second frame is read. *)
Definition example_subscribing : list open_tasks :=
  [ example_read (websocket_receive (Some
      (example_frame CONFIGURE
         [("x-subscriber-nonce"%string, repeat "000"%byte 32)] [])));
    example_done;
    example_idle;
    example_done;
    example_read (websocket_receive (Some
      (example_frame SUBSCRIBE_EXACT
         [("authorization"%string, list_byte_of_string "tok");
          ("x-topic"%string, list_byte_of_string "room/1")] [])));
    example_done ].

Definition example_subscribed_session : _StateOpen :=
  match run_turns (H := example_externals) (H0 := example_chunker) example_config
          example_subscribing (StateOpen (_handle_accepting example_config 0)) with
  | StateOpen state => state
  | _ => _handle_accepting example_config 0
  end.

(** [UNSUBSCRIBE_EXACT] for [room/1]. *)
Definition example_unsubscribe_exact : _ParsedWSMessage :=
  mk_ParsedWSMessage 0 UNSUBSCRIBE_EXACT
    {[ "authorization"%string := b "tok"; "x-topic"%string := b "room/1" ]} [].

(** * The HTTP routes *)

From stdpp Require Import pretty.
Local Open Scope Z_scope.

Module Routes.

(** The alphabet of [base64.b64encode]. *)
Definition b64_char (n : Z) : ascii :=
  ascii_of_N (Z.to_N
    (if n <? 26 then 65 + n
     else if n <? 52 then 97 + (n - 26)
     else if n <? 62 then 48 + (n - 52)
     else if n =? 62 then 43
     else 47)).

(** [base64.b64encode(b).decode("ascii")] *)
Fixpoint b64encode (b : bytes) : string :=
  match b with
  | [] => ""
  | [b0] =>
      let n := byte_to_Z b0 in
      String (b64_char (Z.shiftr n 2))
        (String (b64_char (Z.shiftl (Z.land n 3) 4)) "==")
  | [b0; b1] =>
      let n := Z.lor (Z.shiftl (byte_to_Z b0) 8) (byte_to_Z b1) in
      String (b64_char (Z.shiftr n 10))
        (String (b64_char (Z.land (Z.shiftr n 4) 63))
           (String (b64_char (Z.shiftl (Z.land n 15) 2)) "="))
  | b0 :: b1 :: b2 :: rest =>
      let n := Z.lor (Z.shiftl (byte_to_Z b0) 16)
                 (Z.lor (Z.shiftl (byte_to_Z b1) 8) (byte_to_Z b2)) in
      String (b64_char (Z.shiftr n 18))
        (String (b64_char (Z.land (Z.shiftr n 12) 63))
           (String (b64_char (Z.land (Z.shiftr n 6) 63))
              (String (b64_char (Z.land n 63)) (b64encode rest))))
  end%string.

(** [str(n)] for an [int]. *)
Definition str (n : Z) : string := pretty n.

(** [io.BytesIO.read(n)] for [n >= 0]: at most [n] bytes, fewer at the end
    of the buffer. *)
Definition BytesIO_read (stream : bytes) (n : Z) : bytes * bytes :=
  (take (Z.to_nat n) stream, drop (Z.to_nat n) stream).

(** A subscriber, as [config.get_subscribers] yields them. *)
Inductive subscriber : Type :=
| SubscriberUnavailable
| SubscriberExact (url : string)
| SubscriberGlob (url glob : string).

(** The configuration of [httppubsubserver], as far as the routes use it.
    The verdicts are the strings the routes compare; the subscribers of
    a topic are what the generator yields, from first to last. *)
Record Config : Type := mk_Config {
  is_subscribe_exact_allowed : string → bytes → Z → option string → string;
  is_subscribe_glob_allowed : string → string → Z → option string → string;
  is_notify_allowed : bytes → bytes → Z → option string → string;
  subscribe_glob : string → string → string;
  unsubscribe_exact : string → bytes → string;
  unsubscribe_glob : string → string → string;
  get_subscribers : bytes → list subscriber;
  setup_authorization : string → bytes → bytes → Z → option string;
}.

(** What [await resp.json()] gives: a dictionary whose [unsubscribe] is
    [True], another value, or an exception, of [aiohttp] or of the
    decoding. *)
Inductive json_outcome : Type :=
| JsonUnsubscribe
| JsonOther
| JsonClientError
| JsonDecodeError.

(** What [session.post] gives: an [aiohttp.ClientError], or a response
    with its status, its [Content-Type] and its body read as JSON. *)
Inductive post_outcome : Type :=
| PostClientError
| PostResponse (status : Z) (content_type : option string) (json : json_outcome).

(** The calls of a route on its configuration and on the network, in
    program order. *)
Inductive call : Type :=
| CallIsSubscribeExactAllowed (url : string) (exact : bytes) (now : Z)
    (authorization : option string)
| CallIsSubscribeGlobAllowed (url glob : string) (now : Z)
    (authorization : option string)
| CallIsNotifyAllowed (topic message_sha512 : bytes) (now : Z)
    (authorization : option string)
| CallSubscribeGlob (url glob : string)
| CallUnsubscribeExact (url : string) (exact : bytes)
| CallUnsubscribeGlob (url glob : string)
| CallSetupAuthorization (url : string) (topic message_sha512 : bytes) (now : Z)
| CallPost (url : string) (headers : list (string * string)) (data : bytes).

(** A computation that logs its calls; the log survives a raise. *)
Definition Calls (A : Type) : Type := list call → result A * list call.

#[global] Instance calls_ret : MRet Calls := λ A a log, (Ok a, log).

#[global] Instance calls_bind : MBind Calls := λ A B k m log,
  match m log with
  | (Ok a, log) => k a log
  | (Raise e, log) => (Raise e, log)
  end.

(** A call and its answer. *)
Definition called {A : Type} (c : call) (answer : A) : Calls A :=
  λ log, (Ok answer, log ++ [c]).

Definition raise {A : Type} (e : exn) : Calls A := λ log, (Raise e, log).

Definition lift {A : Type} (r : result A) : Calls A := λ log, (r, log).

(** [fastapi.Response]: the status, and the number of the JSON body of
    [NotifyResponse] when there is one. *)
Record Response : Type := mk_Response {
  status_code : Z;
  notified : option Z;
}.

(** [Response(status_code=n)] *)
Definition status (n : Z) : Response := mk_Response n None.

(** The [if]/[elif] over the verdict of the authorization: the response
    that ends the request, if it does. *)
Definition auth_response (auth_result : string) : option Response :=
  if bool_decide (auth_result = "unauthorized") then Some (status 401)
  else if bool_decide (auth_result = "forbidden") then Some (status 403)
  else if bool_decide (auth_result = "unavailable") then Some (status 503)
  else if negb (bool_decide (auth_result = "ok")) then Some (status 500)
  else None.

(** The same over the verdict of the database, which is [success] when
    all went well. *)
Definition db_response (success db_result : string) : option Response :=
  if bool_decide (db_result = "conflict") then Some (status 409)
  else if bool_decide (db_result = "unavailable") then Some (status 503)
  else if negb (bool_decide (db_result = success)) then Some (status 500)
  else None.

(** [unsubscribe] of [httppubsubserver/routes/unsubscribe.py]. [auth_at]
    is the reading of the clock. *)
Definition unsubscribe (config : Config) (auth_at : Z)
    (authorization : option string) (body : bytes) : Calls Response :=
  if (len body <? 5) || (2 + 65535 + 1 + 2 + 65535 <? len body)
  then mret (status 400)
  else
    let body_io := body in
    let '(url_len_bytes, body_io) := BytesIO_read body_io 2 in
    let url_len := from_bytes url_len_bytes in
    let '(url_bytes, body_io) := BytesIO_read body_io url_len in
    match decode_utf8 url_bytes with
    | Raise _ => mret (status 400)
    | Ok url =>
        let '(match_type_bytes, body_io) := BytesIO_read body_io 1 in
        let match_type := from_bytes match_type_bytes in
        if negb ((match_type =? 0) || (match_type =? 1)) then mret (status 400)
        else
          let is_exact := match_type =? 0 in
          let '(pattern_len_bytes, body_io) := BytesIO_read body_io 2 in
          let pattern_len := from_bytes pattern_len_bytes in
          let '(pattern_bytes, body_io) := BytesIO_read body_io pattern_len in
          if is_exact
          then
            let exact := pattern_bytes in
            auth_result ←
              called (CallIsSubscribeExactAllowed url exact auth_at authorization)
                (is_subscribe_exact_allowed config url exact auth_at authorization);
            match auth_response auth_result with
            | Some response => mret response
            | None =>
                db_result ← called (CallUnsubscribeExact url exact)
                              (unsubscribe_exact config url exact);
                match db_response "ok" db_result with
                | Some response => mret response
                | None => mret (status 200)
                end
            end
          else
            match decode_utf8 pattern_bytes with
            | Raise _ => mret (status 400)
            | Ok pattern =>
                auth_result ←
                  called (CallIsSubscribeGlobAllowed url pattern auth_at
                            authorization)
                    (is_subscribe_glob_allowed config url pattern auth_at
                       authorization);
                match auth_response auth_result with
                | Some response => mret response
                | None =>
                    db_result ← called (CallUnsubscribeGlob url pattern)
                                  (unsubscribe_glob config url pattern);
                    match db_response "ok" db_result with
                    | Some response => mret response
                    | None => mret (status 200)
                    end
                end
            end
    end.

(** [subscribe] of [lonelypss/routes/subscribe_glob.py]. [body] is what
    the stream of the request holds, which [async_read_exact] reads as
    [read_exact] reads a buffer. A [UnicodeDecodeError] is a
    [ValueError]; every exception of the [try] that the model can raise
    is one. *)
Definition subscribe (config : Config) (auth_at : Z)
    (authorization : option string) (body : bytes) : Calls Response :=
  match
    '(url_length_bytes, body) ← read_exact body 2;
    let url_length := from_bytes url_length_bytes in
    '(url_bytes, body) ← read_exact body url_length;
    url ← decode_utf8 url_bytes;
    '(glob_length_bytes, body) ← read_exact body 2;
    let glob_length := from_bytes glob_length_bytes in
    '(glob_bytes, body) ← read_exact body glob_length;
    glob ← decode_utf8 glob_bytes;
    Ok (url, glob)
  with
  | Raise _ => mret (status 400)
  | Ok (url, glob) =>
      auth_result ←
        called (CallIsSubscribeGlobAllowed url glob auth_at authorization)
          (is_subscribe_glob_allowed config url glob auth_at authorization);
      match auth_response auth_result with
      | Some response => mret response
      | None =>
          db_result ← called (CallSubscribeGlob url glob)
                        (subscribe_glob config url glob);
          match db_response "success" db_result with
          | Some response => mret response
          | None => mret (status 202)
          end
      end
  end.

(** The headers of a request, a [dict] from names to values in the order
    of their insertion: [headers[name] = value] and
    [headers.pop(name, None)]. *)
Definition headers_set (headers : list (string * string)) (name value : string)
    : list (string * string) :=
  if bool_decide (name ∈ headers.*1)
  then (λ kv, if bool_decide (kv.1 = name) then (name, value) else kv) <$> headers
  else headers ++ [(name, value)].

Definition headers_pop (headers : list (string * string)) (name : string)
    : list (string * string) :=
  filter (λ kv, kv.1 ≠ name) headers.

(** [session.post] and what the network answers to it. *)
Class Network : Type :=
  post : string → list (string * string) → bytes → post_outcome.

Definition subscriber_url (s : subscriber) : string :=
  match s with
  | SubscriberUnavailable => ""
  | SubscriberExact url | SubscriberGlob url _ => url
  end.

(** The [async for] of [handle_trusted_notify]. [data] is what the
    stream holds from [message_starts_at] on; [clock attempted] is the
    reading of the clock when the authorization of that attempt is set
    up. *)
Fixpoint notify_subscribers `{Network} (config : Config) (clock : Z → Z)
    (topic data sha512 : bytes) (subscribers : list subscriber)
    (headers : list (string * string)) (succeeded attempted : Z)
    : Calls TrustedNotifyResult :=
  match subscribers with
  | [] => mret (mk_TrustedNotifyResult OK succeeded (attempted - succeeded))
  | SubscriberUnavailable :: _ =>
      mret (mk_TrustedNotifyResult UNAVAILABLE succeeded (attempted - succeeded))
  | subscriber :: subscribers =>
      let attempted := attempted + 1 in
      let url := subscriber_url subscriber in
      my_authorization ←
        called (CallSetupAuthorization url topic sha512 (clock attempted))
          (setup_authorization config url topic sha512 (clock attempted));
      let headers :=
        match my_authorization with
        | None => headers_pop headers "Authorization"
        | Some my_authorization =>
            headers_set headers "Authorization" my_authorization
        end in
      resp ← called (CallPost url headers data) (post url headers data);
      succeeded ←
        match resp with
        | PostClientError => mret succeeded
        | PostResponse status content_type json =>
            if status <? 400 then mret (succeeded + 1)
            else
              (if (400 <=? status) && (status <? 500)
               then
                 match content_type with
                 | Some content_type =>
                     if String.prefix "application/json" content_type
                     then
                       match json with
                       | JsonUnsubscribe =>
                           match subscriber with
                           | SubscriberGlob _ glob =>
                               called (CallUnsubscribeGlob url glob)
                                 (unsubscribe_glob config url glob);;
                               mret ()
                           | _ =>
                               called (CallUnsubscribeExact url topic)
                                 (unsubscribe_exact config url topic);;
                               mret ()
                           end
                       | JsonOther | JsonClientError => mret ()
                       | JsonDecodeError => raise (ValueError "JSONDecodeError")
                       end
                     else mret ()
                 | None => mret ()
                 end
               else mret ());;
              mret succeeded
        end;
      notify_subscribers config clock topic data sha512 subscribers headers
        succeeded attempted
  end.

(** [handle_trusted_notify] of [httppubsubserver/routes/notify.py] *)
Definition handle_trusted_notify `{Network} (config : Config) (clock : Z → Z)
    (topic data : bytes) (content_length : Z) (sha512 : bytes)
    : Calls TrustedNotifyResult :=
  let succeeded := 0 in
  let attempted := 0 in
  let headers :=
    [("Content-Type", "application/octet-stream");
     ("Content-Length", str content_length);
     ("Repr-Digest", "sha-512=" +:+ b64encode sha512);
     ("X-Topic", b64encode topic)]%string in
  notify_subscribers config clock topic data sha512 (get_subscribers config topic)
    headers succeeded attempted.

(** The first loop of [notify]: the chunks of the request are written to
    [request_body] until the stream ends or enough of them are there for
    the longest of the heads. It gives the file, [read_length],
    [saw_end] and the chunks that are left. *)
Fixpoint read_head (chunks : list bytes) (request_body : bytes) (read_length : Z)
    : bytes * Z * bool * list bytes :=
  match chunks with
  | [] => (request_body, read_length, true, [])
  | chunk :: chunks =>
      let request_body := request_body ++ chunk in
      let read_length := read_length + len chunk in
      if 2 + 65535 + 64 + 8 <=? read_length
      then (request_body, read_length, false, chunks)
      else read_head chunks request_body read_length
  end.

(** The loop over the rest of the stream: [hashed] is what the hasher was
    fed, which is also what [request_body] holds behind the head. It
    gives nothing when the loop answers 400. *)
Fixpoint read_tail (chunks : list bytes) (hashed : bytes) (read_length : Z)
    (total : Z) : option (bytes * Z) :=
  match chunks with
  | [] => Some (hashed, read_length)
  | chunk :: chunks =>
      let hashed := hashed ++ chunk in
      let read_length := read_length + len chunk in
      if total <? read_length then None
      else read_tail chunks hashed read_length total
  end.

(** [notify] of [httppubsubserver/routes/notify.py]. [chunks] is what the
    stream of the request yields; an exception of [read_exact] leaves the
    route. *)
Definition notify `{Network} (config : Config) (clock : Z → Z) (auth_at : Z)
    (authorization : option string) (chunks : list bytes) : Calls Response :=
  let '(request_body, read_length, saw_end, chunks) := read_head chunks [] 0 in
  '(topic_length_bytes, request_body) ← lift (read_exact request_body 2);
  let topic_length := from_bytes topic_length_bytes in
  '(topic, request_body) ← lift (read_exact request_body topic_length);
  '(message_hash, request_body) ← lift (read_exact request_body 64);
  '(message_length_bytes, request_body) ← lift (read_exact request_body 8);
  let message_length := from_bytes message_length_bytes in
  auth_result ←
    called (CallIsNotifyAllowed topic message_hash auth_at authorization)
      (is_notify_allowed config topic message_hash auth_at authorization);
  match auth_response auth_result with
  | Some response => mret response
  | None =>
      let hashed := request_body in
      let total := 2 + topic_length + 64 + 8 + message_length in
      match (if saw_end : bool then Some (hashed, read_length)
             else read_tail chunks hashed read_length total) with
      | None => mret (status 400)
      | Some (hashed, read_length) =>
          if negb (read_length =? total) then mret (status 400)
          else
            let actual_hash := sha512 hashed in
            if negb (bool_decide (actual_hash = message_hash))
            then mret (status 400)
            else
              notify_result ← handle_trusted_notify config clock topic hashed
                                message_length actual_hash;
              match result_type notify_result with
              | UNAVAILABLE => mret (status 503)
              | OK => mret (mk_Response 200 (Some (succeeded notify_result)))
              end
      end
  end.

(** *** The requests, as the documentation of the routes describes them *)

(** What a request to unsubscribe names: an exact topic, or a glob. *)
Inductive target : Type :=
| ExactTarget (exact : bytes)
| GlobTarget (glob : string).

(** The body of the request to unsubscribe [url] from [t]: the url and
    the topic or glob, each behind its length on two bytes, with the
    byte that tells them apart in between. *)
Definition unsubscribe_body (url : string) (t : target) : result bytes :=
  let url_bytes := encode_utf8 url in
  url_len ← to_bytes (len url_bytes) 2;
  let '(match_type, pattern) :=
    match t with
    | ExactTarget exact => ("000"%byte, exact)
    | GlobTarget glob => ("001"%byte, encode_utf8 glob)
    end in
  pattern_len ← to_bytes (len pattern) 2;
  Ok (url_len ++ url_bytes ++ [match_type] ++ pattern_len ++ pattern).

(** The body of the request to subscribe [url] to [glob]. *)
Definition subscribe_body (url glob : string) : result bytes :=
  url_len ← to_bytes (len (encode_utf8 url)) 2;
  glob_len ← to_bytes (len (encode_utf8 glob)) 2;
  Ok (url_len ++ encode_utf8 url ++ glob_len ++ encode_utf8 glob).

(** A string that is the text of its bytes. *)
Definition is_text (s : string) : Prop := decode_utf8 (encode_utf8 s) = Ok s.

(** The status that answers a verdict of the authorization other than
    ["ok"], and one of the database other than [success]. *)
Definition auth_status (auth_result : string) : Z :=
  if bool_decide (auth_result = "unauthorized") then 401
  else if bool_decide (auth_result = "forbidden") then 403
  else if bool_decide (auth_result = "unavailable") then 503
  else 500.

Definition db_status (db_result : string) : Z :=
  if bool_decide (db_result = "conflict") then 409
  else if bool_decide (db_result = "unavailable") then 503
  else 500.

(** The subscribers that a delivery attempts: those that come before the
    first sign of an unavailable store. *)
Fixpoint attempted_subscribers (subscribers : list subscriber)
    : list subscriber :=
  match subscribers with
  | [] => []
  | SubscriberUnavailable :: _ => []
  | subscriber :: subscribers => subscriber :: attempted_subscribers subscribers
  end.

(** The headers that every request of a delivery carries. *)
Definition delivery_base_headers (topic : bytes) (content_length : Z)
    (sha512 : bytes) : list (string * string) :=
  [("Content-Type", "application/octet-stream");
   ("Content-Length", str content_length);
   ("Repr-Digest", "sha-512=" +:+ b64encode sha512);
   ("X-Topic", b64encode topic)]%string.

(** The headers of the request to a subscriber, the [attempt]-th that is
    attempted: the [Authorization] is the one set up for it, if any. *)
Definition delivery_headers (config : Config) (clock : Z → Z) (topic : bytes)
    (content_length : Z) (sha512 : bytes) (attempt : Z) (s : subscriber)
    : list (string * string) :=
  delivery_base_headers topic content_length sha512
  ++ match setup_authorization config (subscriber_url s) topic sha512
             (clock attempt) with
     | Some my_authorization => [("Authorization"%string, my_authorization)]
     | None => []
     end.

(** The requests of a delivery to [subscribers], the first of which is
    attempt [attempt + 1]; each with the subscriber it goes to. *)
Fixpoint delivery_requests (config : Config) (clock : Z → Z) (topic : bytes)
    (content_length : Z) (sha512 : bytes) (attempt : Z)
    (subscribers : list subscriber)
    : list (subscriber * list (string * string)) :=
  match subscribers with
  | [] => []
  | s :: subscribers =>
      (s, delivery_headers config clock topic content_length sha512
            (attempt + 1) s)
      :: delivery_requests config clock topic content_length sha512
           (attempt + 1) subscribers
  end.

(** Whether the network answers a request with a status below 400, and
    whether it answers with a status from 400 to 499 and a JSON
    dictionary that asks to unsubscribe. *)
Definition reached `{Network} (data : bytes)
    (request : subscriber * list (string * string)) : bool :=
  match post (subscriber_url request.1) request.2 data with
  | PostResponse status _ _ => status <? 400
  | PostClientError => false
  end.

Definition asks_to_unsubscribe `{Network} (data : bytes)
    (request : subscriber * list (string * string)) : bool :=
  match post (subscriber_url request.1) request.2 data with
  | PostResponse status (Some content_type) JsonUnsubscribe =>
      (400 <=? status) && (status <? 500)
      && String.prefix "application/json" content_type
  | _ => false
  end.

(** The call that removes the subscription of a subscriber. *)
Definition unsubscribe_call (topic : bytes) (s : subscriber) : call :=
  match s with
  | SubscriberGlob url glob => CallUnsubscribeGlob url glob
  | _ => CallUnsubscribeExact (subscriber_url s) topic
  end.

(** The requests, and the removals, among the calls of a log. *)
Definition is_post (c : call) : bool :=
  match c with CallPost _ _ _ => true | _ => false end.

Definition is_unsubscribe (c : call) : bool :=
  match c with
  | CallUnsubscribeExact _ _ | CallUnsubscribeGlob _ _ => true
  | _ => false
  end.

(** The body of the request to notify the subscribers of [topic] of
    [message], which announces [message_hash]. *)
Definition notify_body (topic message_hash message : bytes) : result bytes :=
  topic_length ← to_bytes (len topic) 2;
  message_length ← to_bytes (len message) 8;
  Ok (topic_length ++ topic ++ message_hash ++ message_length ++ message).

(** Stand-ins for the examples: a provider that wants the token [tok],
    and a database that holds one subscription. *)
Definition example_config : Config :=
  mk_Config
    (λ _ _ _ authorization,
       match authorization with
       | None => "unauthorized"
       | Some token => if bool_decide (token = "tok") then "ok" else "forbidden"
       end)
    (λ _ _ _ authorization,
       match authorization with
       | None => "unauthorized"
       | Some token => if bool_decide (token = "tok") then "ok" else "forbidden"
       end)
    (λ _ _ _ authorization,
       match authorization with
       | None => "unauthorized"
       | Some token => if bool_decide (token = "tok") then "ok" else "forbidden"
       end)
    (λ url glob, if bool_decide (glob = "room/*") then "conflict" else "success")
    (λ url exact,
       if bool_decide (exact = list_byte_of_string "room/1") then "ok"
       else "conflict")
    (λ url glob, if bool_decide (glob = "room/*") then "ok" else "conflict")
    (λ topic,
       [SubscriberExact "http://a.example/hook";
        SubscriberGlob "http://b.example/hook" "room/*"])
    (λ url _ _ _,
       if bool_decide (url = "http://a.example/hook") then Some "Bearer a"
       else None).

(** A network in which the first subscriber of the examples accepts, and
    the second answers 410 and asks to be removed. *)
Definition example_network : Network :=
  λ url _ _,
    if bool_decide (url = "http://a.example/hook"%string)
    then PostResponse 200 None JsonOther
    else PostResponse 410 (Some "application/json; charset=utf-8"%string)
           JsonUnsubscribe.

End Routes.

(** * Properties *)

(** ** Proof automation for the session monad *)

(** One step of the monad: the binds and the primitive operations are
    unfolded, the attributes of the session are read through the
    assignments. *)
Ltac session_unfold :=
  cbv beta iota zeta delta
    [mbind mret session_bind session_ret get_state modify raise lift emit].

Ltac session_unfold_in H :=
  cbv beta iota zeta delta
    [mbind mret session_bind session_ret get_state modify raise lift emit] in H.

Ltac session_read :=
  cbn [standard_compressor socket_level_config my_receiver send_task
       process_task pending_sends unprocessed_receives expecting_acks
       incoming_notification active_compressor last_compressor training_data
       broadcaster_counter subscriber_counter custom_compression_dict_counter
       trace
       set_standard_compressor set_socket_level_config set_my_receiver
       set_send_task set_process_task set_pending_sends
       set_unprocessed_receives set_expecting_acks set_incoming_notification
       set_active_compressor set_last_compressor set_training_data
       set_broadcaster_counter set_subscriber_counter
       set_custom_compression_dict_counter set_trace
       set_exact_subscriptions set_glob_subscriptions
       exact_subscriptions glob_subscriptions].

Ltac session_read_in H :=
  cbn [standard_compressor socket_level_config my_receiver send_task
       process_task pending_sends unprocessed_receives expecting_acks
       incoming_notification active_compressor last_compressor training_data
       broadcaster_counter subscriber_counter custom_compression_dict_counter
       trace
       set_standard_compressor set_socket_level_config set_my_receiver
       set_send_task set_process_task set_pending_sends
       set_unprocessed_receives set_expecting_acks set_incoming_notification
       set_active_compressor set_last_compressor set_training_data
       set_broadcaster_counter set_subscriber_counter
       set_custom_compression_dict_counter set_trace
       set_exact_subscriptions set_glob_subscriptions
       exact_subscriptions glob_subscriptions] in H.

Ltac session_step := session_unfold; session_read.
Ltac session_step_in H := session_unfold_in H; session_read_in H.

(** The innermost scrutinee of the case analyses of a term. *)
Ltac innermost_scrutinee t :=
  lazymatch t with
  | context [match ?x with _ => _ end] => innermost_scrutinee x
  | _ => t
  end.

(** Case analysis on whatever a run described by [H] branches on; the
    branches that contradict [H] are closed. *)
Ltac session_cases H :=
  repeat (session_step_in H;
          let T := type of H in
          lazymatch T with
          | context [match ?x with _ => _ end] =>
              let y := innermost_scrutinee x in destruct y eqn:?
          end;
          try discriminate H).

(** The same, with [prune] tried on every branch as soon as it appears. *)
Ltac session_cases_with H prune :=
  repeat (session_step_in H;
          let T := type of H in
          lazymatch T with
          | context [match ?x with _ => _ end] =>
              let y := innermost_scrutinee x in destruct y eqn:?
          end;
          try discriminate H; try (exfalso; prune)).

Section codec_lemmas.

Lemma byte_to_Z_range (x : byte) : 0 ≤ byte_to_Z x < 256.
Proof.
  unfold byte_to_Z. pose proof (Byte.to_N_bounded x). lia.
Qed.

Lemma byte_to_of_Z (z : Z) : 0 ≤ z < 256 → byte_to_Z (byte_of_Z z) = z.
Proof.
  intros Hz. unfold byte_to_Z, byte_of_Z.
  pose proof (Byte.to_of_N_option_map (Z.to_N z)) as H.
  destruct (Byte.of_N (Z.to_N z)) as [b|] eqn:E; simpl in *.
  - destruct (N.leb_spec (Z.to_N z) 255); [|discriminate].
    injection H as ->. lia.
  - destruct (N.leb_spec (Z.to_N z) 255); [discriminate|lia].
Qed.

Lemma from_bytes_snoc (b : bytes) (x : byte) :
  from_bytes (b ++ [x]) = from_bytes b * 256 + byte_to_Z x.
Proof. unfold from_bytes. by rewrite fold_left_app. Qed.

Lemma from_bytes_digits (k : nat) (n : Z) :
  0 ≤ n → from_bytes (rev (digits_le n k)) = n mod 256 ^ Z.of_nat k.
Proof.
  revert n. induction k as [|k IH]; intros n Hn.
  - simpl. by rewrite Z.mod_1_r.
  - cbn [digits_le rev]. rewrite from_bytes_snoc.
    assert (0 ≤ n / 256) as Hq by (apply Z.div_pos; lia).
    rewrite (IH _ Hq).
    assert (0 ≤ n mod 256 < 256) as Hr by (apply Z.mod_pos_bound; lia).
    rewrite (byte_to_of_Z _ Hr).
    rewrite Nat2Z.inj_succ, Z.pow_succ_r; [|lia].
    assert (0 < 256 ^ Z.of_nat k) as Hp by (apply Z.pow_pos_nonneg; lia).
    rewrite (Z.rem_mul_r n 256 (256 ^ Z.of_nat k)); lia.
Qed.

Lemma length_digits (k : nat) (n : Z) : length (digits_le n k) = k.
Proof. revert n. induction k; intros; simpl; auto. Qed.

Lemma to_bytes_ok (n : Z) (k : nat) :
  0 ≤ n < 256 ^ Z.of_nat k →
  ∃ b, to_bytes n k = Ok b ∧ from_bytes b = n ∧ length b = k.
Proof.
  intros Hn. exists (rev (digits_le n k)). unfold to_bytes.
  destruct (Z.ltb_spec n 0); [lia|].
  destruct (Z.leb_spec (256 ^ Z.of_nat k) n); [lia|]. simpl.
  split; [done|]. split.
  - rewrite from_bytes_digits by lia. apply Z.mod_small. lia.
  - by rewrite length_rev, length_digits.
Qed.

Lemma to_bytes_raises (n : Z) (k : nat) :
  256 ^ Z.of_nat k ≤ n → to_bytes n k = Raise OverflowError.
Proof.
  intros Hn. unfold to_bytes.
  destruct (Z.leb_spec (256 ^ Z.of_nat k) n); [|lia].
  by rewrite orb_true_r.
Qed.

Lemma read_exact_app (a rest : bytes) :
  read_exact (a ++ rest) (len a) = Ok (a, rest).
Proof.
  unfold read_exact, len. rewrite length_app.
  destruct (Z.leb_spec (Z.of_nat (length a)) (Z.of_nat (length a + length rest)));
    [|lia].
  rewrite Nat2Z.id. by rewrite take_app_length, drop_app_length.
Qed.

Lemma read_exact_app' (a rest : bytes) (n : Z) :
  n = len a → read_exact (a ++ rest) n = Ok (a, rest).
Proof. intros ->. apply read_exact_app. Qed.

(** A value written with its two-byte length is read back. *)
Lemma read_value_written (value length_bytes rest : bytes) :
  to_bytes (len value) 2 = Ok length_bytes →
  read_value (length_bytes ++ value ++ rest) = Ok (value, rest).
Proof.
  intros Hw. unfold to_bytes in Hw.
  destruct (_ || _) eqn:E; [discriminate|].
  apply orb_false_iff in E as [E1 E2].
  apply Z.ltb_ge in E1. apply Z.leb_gt in E2.
  injection Hw as <-. unfold read_value.
  rewrite (read_exact_app' (rev (digits_le (len value) 2)));
    [|by unfold len; rewrite length_rev, length_digits].
  cbv beta iota delta [mbind result_bind Py.bind].
  rewrite from_bytes_digits, Z.mod_small, read_exact_app; [done|lia|lia].
Qed.

Lemma write_minimal_headers_ok (headers : list (string * bytes)) :
  forallb (λ kv, fits_u16 kv.2) headers = true →
  ∃ w, write_minimal_headers headers = Ok w.
Proof.
  induction headers as [|[name value] hs IH]; intros Hok; [by eexists|].
  apply andb_true_iff in Hok as [Hv Hhs]. destruct (IH Hhs) as [w Hw].
  unfold fits_u16 in Hv. apply Z.leb_le in Hv. simpl in Hv.
  destruct (to_bytes_ok (len value) 2) as (b & Hb & _); [unfold len in *; lia|].
  cbn [write_minimal_headers]. rewrite Hb, Hw. by eexists.
Qed.

Lemma parse_minimal_written (headers : list (string * bytes))
    (m : gmap string bytes) (w rest : bytes) :
  write_minimal_headers headers = Ok w →
  parse_minimal_headers headers.*1 m (w ++ rest)
  = Ok (foldl (λ m kv, <[kv.1 := kv.2]> m) m headers, rest).
Proof.
  revert m w. induction headers as [|[name value] hs IH]; intros m w Hw.
  - by injection Hw as <-.
  - cbn [write_minimal_headers] in Hw.
    destruct (to_bytes (len value) 2) as [lb|] eqn:Hlb; [|discriminate].
    destruct (write_minimal_headers hs) as [tl|] eqn:Htl; [|discriminate].
    injection Hw as <-. cbn [fmap list_fmap parse_minimal_headers fst].
    rewrite <- !app_assoc. rewrite (read_value_written _ _ _ Hlb).
    cbv beta iota delta [mbind result_bind Py.bind].
    by rewrite (IH _ _ eq_refl).
Qed.

Lemma decode_encode_ascii (name : string) (enc : bytes) :
  encode_ascii name = Ok enc → decode_ascii enc = Ok name.
Proof.
  unfold encode_ascii, decode_ascii.
  destruct (forallb _ _) eqn:E; [|discriminate]. intros [= <-].
  by rewrite E, string_of_list_byte_of_string.
Qed.

Lemma write_expanded_headers_ok (headers : list (string * bytes)) :
  forallb expanded_header_ok headers = true →
  ∃ w, write_expanded_headers headers = Ok w.
Proof.
  induction headers as [|[name value] hs IH]; intros Hok; [by eexists|].
  apply andb_true_iff in Hok as [Hh Hhs]. destruct (IH Hhs) as [w Hw].
  unfold expanded_header_ok, is_lower_ascii_name, fits_u16 in Hh.
  simpl in Hh.
  apply andb_true_iff in Hh as [Hh Hv].
  apply andb_true_iff in Hh as [Hh Hn].
  apply andb_true_iff in Hh as [Ha _].
  apply Z.leb_le in Hv, Hn.
  destruct (to_bytes_ok (len value) 2) as (b & Hb & _); [unfold len in *; lia|].
  destruct (to_bytes_ok (len (list_byte_of_string name)) 2) as (bn & Hbn & _);
    [unfold len in *; lia|].
  cbn [write_expanded_headers]. unfold encode_ascii. rewrite Ha.
  cbv beta iota zeta delta [mbind result_bind Py.bind].
  rewrite Hbn, Hb, Hw. by eexists.
Qed.

Lemma parse_expanded_written (headers : list (string * bytes))
    (m : gmap string bytes) (w rest : bytes) :
  forallb expanded_header_ok headers = true →
  write_expanded_headers headers = Ok w →
  parse_expanded_headers (length headers) m (w ++ rest)
  = Ok (foldl (λ m kv, <[kv.1 := kv.2]> m) m headers, rest).
Proof.
  revert m w. induction headers as [|[name value] hs IH]; intros m w Hok Hw.
  - by injection Hw as <-.
  - apply andb_true_iff in Hok as [Hh Hhs].
    unfold expanded_header_ok, is_lower_ascii_name in Hh. simpl in Hh.
    apply andb_true_iff in Hh as [Hh _].
    apply andb_true_iff in Hh as [Hh _].
    apply andb_true_iff in Hh as [_ Hl]. apply bool_decide_eq_true in Hl.
    cbn [write_expanded_headers] in Hw.
    destruct (encode_ascii name) as [enc|] eqn:Henc; [|discriminate].
    cbv beta iota delta [mbind result_bind Py.bind] in Hw.
    destruct (to_bytes (len enc) 2) as [nb|] eqn:Hnb; [|discriminate].
    destruct (to_bytes (len value) 2) as [lb|] eqn:Hlb; [|discriminate].
    destruct (write_expanded_headers hs) as [tl|] eqn:Htl; [|discriminate].
    injection Hw as <-. cbn [length parse_expanded_headers].
    rewrite <- !app_assoc. rewrite (read_value_written _ _ _ Hnb).
    cbv beta iota delta [mbind result_bind Py.bind].
    rewrite (decode_encode_ascii _ _ Henc).
    rewrite (read_value_written _ _ _ Hlb). rewrite Hl.
    by rewrite (IH _ _ Hhs eq_refl).
Qed.

End codec_lemmas.

Section codec_roundtrip.

Lemma read_exact_two (a b : byte) (rest : bytes) :
  read_exact (a :: b :: rest) 2 = Ok ([a; b], rest).
Proof. by apply (read_exact_app' [a; b]). Qed.

Lemma type_bytes (t_out : _OutgoingParsedWSMessageType)
    (t_in : _ParsedWSMessageType) :
  outgoing_type_value t_out = parsed_type_value t_in →
  ∃ b, to_bytes (outgoing_type_value t_out) 2 = Ok ["000"%byte; b]
       ∧ parsed_type_of_value (from_bytes ["000"%byte; b]) = Ok t_in.
Proof.
  destruct t_out, t_in; (discriminate || (intros _; eexists; split; reflexivity)).
Qed.

Lemma roundtrip_expanded (t_out : _OutgoingParsedWSMessageType)
    (t_in : _ParsedWSMessageType) (headers : list (string * bytes))
    (body : bytes) :
  outgoing_type_value t_out = parsed_type_value t_in →
  fits_u16 headers = true →
  forallb expanded_header_ok headers = true →
  ∃ w, _make_websocket_message 0 t_out headers body = Ok w
       ∧ _parse_websocket_message w = Ok (decoded 0 t_in headers body).
Proof.
  intros Ht Hn Hok.
  destruct (type_bytes _ _ Ht) as (tb & Htb & Hty).
  destruct (write_expanded_headers_ok _ Hok) as (w & Hw).
  unfold fits_u16 in Hn. apply Z.leb_le in Hn.
  destruct (to_bytes_ok (len headers) 2) as (cb & Hcb & Hcv & Hcl);
    [unfold len in *; lia|].
  destruct cb as [|c0 [|c1 [|]]]; try discriminate.
  eexists. split.
  - unfold _make_websocket_message. rewrite Htb.
    change (to_bytes 0 2) with (Ok ["000"%byte; "000"%byte]).
    change (has_minimal_headers 0) with false.
    cbv beta iota delta [mbind result_bind Py.bind].
    rewrite Hcb, Hw. reflexivity.
  - unfold _parse_websocket_message. cbn [app].
    rewrite read_exact_two.
    cbv beta iota delta [mbind result_bind Py.bind].
    rewrite read_exact_two.
    cbv beta iota delta [mbind result_bind Py.bind].
    rewrite Hty.
    change (has_minimal_headers (from_bytes ["000"%byte; "000"%byte])) with false.
    cbv beta iota delta [mbind result_bind Py.bind].
    rewrite read_exact_two.
    cbv beta iota delta [mbind result_bind Py.bind].
    rewrite Hcv. unfold len. rewrite Nat2Z.id.
    rewrite (parse_expanded_written _ _ _ _ Hok Hw).
    reflexivity.
Qed.

Lemma roundtrip_minimal (t_out : _OutgoingParsedWSMessageType)
    (t_in : _ParsedWSMessageType) (headers : list (string * bytes))
    (body : bytes) :
  outgoing_type_value t_out = parsed_type_value t_in →
  _STANDARD_MINIMAL_HEADERS_BY_TYPE t_in = Some headers.*1 →
  forallb (λ kv, fits_u16 kv.2) headers = true →
  ∃ w, _make_websocket_message 1 t_out headers body = Ok w
       ∧ _parse_websocket_message w = Ok (decoded 1 t_in headers body).
Proof.
  intros Ht Hnames Hok.
  destruct (type_bytes _ _ Ht) as (tb & Htb & Hty).
  destruct (write_minimal_headers_ok _ Hok) as (w & Hw).
  eexists. split.
  - unfold _make_websocket_message. rewrite Htb.
    change (to_bytes 1 2) with (Ok ["000"%byte; "001"%byte]).
    change (has_minimal_headers 1) with true.
    cbv beta iota delta [mbind result_bind Py.bind].
    rewrite Hw. reflexivity.
  - unfold _parse_websocket_message. cbn [app].
    rewrite read_exact_two.
    cbv beta iota delta [mbind result_bind Py.bind].
    rewrite read_exact_two.
    cbv beta iota delta [mbind result_bind Py.bind].
    rewrite Hty.
    change (has_minimal_headers (from_bytes ["000"%byte; "001"%byte])) with true.
    cbv beta iota delta [mbind result_bind Py.bind].
    rewrite Hnames.
    destruct (decide (t_in = NOTIFY_STREAM)) as [->|_]; [discriminate|].
    cbv beta iota delta [mbind result_bind Py.bind].
    rewrite (parse_minimal_written _ _ _ _ Hw).
    reflexivity.
Qed.

End codec_roundtrip.

Section codec_notify_stream.

Lemma read_length_written (value length_bytes rest : bytes) :
  to_bytes (len value) 2 = Ok length_bytes →
  read_exact (length_bytes ++ value ++ rest) 2 = Ok (length_bytes, value ++ rest)
  ∧ from_bytes length_bytes = len value.
Proof.
  intros Hw. unfold to_bytes in Hw.
  destruct (_ || _) eqn:E; [discriminate|].
  apply orb_false_iff in E as [E1 E2].
  apply Z.ltb_ge in E1. apply Z.leb_gt in E2.
  injection Hw as <-. split.
  - apply (read_exact_app' (rev (digits_le (len value) 2))).
    unfold len at 1. by rewrite length_rev, length_digits.
  - change (from_bytes (rev (digits_le (len value) 2)) = len value).
    rewrite from_bytes_digits, Z.mod_small; lia.
Qed.

Lemma roundtrip_minimal_notify_stream (headers : list (string * bytes))
    (body identifier part_id_bytes : bytes) :
  headers.*1 = NOTIFY_STREAM_FIRST_PART_HEADERS →
  forallb (λ kv, fits_u16 kv.2) headers = true →
  dict headers !! "x-identifier"%string = Some identifier →
  dict headers !! "x-part-id"%string = Some part_id_bytes →
  len identifier ≤ 64 → len part_id_bytes ≤ 8 → from_bytes part_id_bytes = 0 →
  ∃ w, _make_websocket_message 1 CONTINUE_NOTIFY headers body = Ok w
       ∧ _parse_websocket_message w = Ok (decoded 1 NOTIFY_STREAM headers body).
Proof.
  intros Hnames Hok Hid Hpart Hidlen Hpartlen Hzero.
  destruct headers as [|[n0 v0] [|[n1 v1] [|[n2 v2] tl]]]; try discriminate.
  injection Hnames as -> -> -> Htl.
  assert (identifier = v1) as ->.
  { destruct tl as [|[? ?] [|[? ?] [|[? ?] [|[? ?] [|[? ?] [|]]]]]];
      try discriminate.
    injection Htl as -> -> -> -> ->. unfold dict in Hid. simpl in Hid.
    repeat (rewrite lookup_insert_ne in Hid by done).
    rewrite lookup_insert_eq in Hid. congruence. }
  assert (part_id_bytes = v2) as ->.
  { destruct tl as [|[? ?] [|[? ?] [|[? ?] [|[? ?] [|[? ?] [|]]]]]];
      try discriminate.
    injection Htl as -> -> -> -> ->. unfold dict in Hpart. simpl in Hpart.
    repeat (rewrite lookup_insert_ne in Hpart by done).
    rewrite lookup_insert_eq in Hpart. congruence. }
  cbn [forallb snd] in Hok.
  apply andb_true_iff in Hok as [Hv0 Hok].
  apply andb_true_iff in Hok as [Hv1 Hok].
  apply andb_true_iff in Hok as [Hv2 Hok].
  unfold fits_u16 in Hv0, Hv1, Hv2. apply Z.leb_le in Hv0, Hv1, Hv2.
  destruct (to_bytes_ok (len v0) 2) as (l0 & Hl0 & _); [unfold len in *; lia|].
  destruct (to_bytes_ok (len v1) 2) as (l1 & Hl1 & _); [unfold len in *; lia|].
  destruct (to_bytes_ok (len v2) 2) as (l2 & Hl2 & _); [unfold len in *; lia|].
  destruct (write_minimal_headers_ok _ Hok) as (w & Hw).
  eexists. split.
  - unfold _make_websocket_message.
    change (to_bytes 1 2) with (Ok ["000"%byte; "001"%byte]).
    change (to_bytes (outgoing_type_value CONTINUE_NOTIFY) 2)
      with (Ok ["000"%byte; "007"%byte]).
    change (has_minimal_headers 1) with true.
    cbn [write_minimal_headers].
    cbv beta iota delta [mbind result_bind Py.bind].
    rewrite Hl0, Hl1, Hl2, Hw. reflexivity.
  - unfold _parse_websocket_message. cbn [app].
    rewrite read_exact_two.
    cbv beta iota delta [mbind result_bind Py.bind].
    rewrite read_exact_two.
    cbv beta iota delta [mbind result_bind Py.bind].
    change (parsed_type_of_value (from_bytes ["000"%byte; "007"%byte]))
      with (Ok NOTIFY_STREAM).
    change (has_minimal_headers (from_bytes ["000"%byte; "001"%byte])) with true.
    cbv beta iota delta [mbind result_bind Py.bind].
    destruct (decide (NOTIFY_STREAM = NOTIFY_STREAM)) as [_|]; [|done].
    unfold parse_notify_stream_prefix.
    rewrite <- !app_assoc.
    destruct (read_length_written v0 l0 (l1 ++ v1 ++ l2 ++ v2 ++ w ++ body) Hl0)
      as [-> Hf0].
    cbv beta iota delta [mbind result_bind Py.bind]. rewrite Hf0.
    rewrite read_exact_app.
    cbv beta iota zeta delta [mbind result_bind Py.bind].
    destruct (read_length_written v1 l1 (l2 ++ v2 ++ w ++ body) Hl1) as [-> Hf1].
    cbv beta iota delta [mbind result_bind Py.bind]. rewrite Hf1.
    destruct (Z.ltb_spec 64 (len v1)); [lia|].
    rewrite read_exact_app.
    cbv beta iota zeta delta [mbind result_bind Py.bind].
    destruct (read_length_written v2 l2 (w ++ body) Hl2) as [-> Hf2].
    cbv beta iota delta [mbind result_bind Py.bind]. rewrite Hf2.
    destruct (Z.ltb_spec 8 (len v2)); [lia|].
    rewrite read_exact_app.
    cbv beta iota zeta delta [mbind result_bind Py.bind].
    rewrite Hzero. change (0 =? 0) with true. cbv iota.
    cbv beta iota zeta delta [mbind result_bind Py.bind].
    rewrite <- Htl.
    rewrite (parse_minimal_written _ _ _ _ Hw).
    reflexivity.
Qed.

End codec_notify_stream.

Section codec_limits.

Lemma write_minimal_headers_long (headers : list (string * bytes)) :
  Exists (λ kv, 65535 < len kv.2) headers →
  raises (write_minimal_headers headers).
Proof.
  induction 1 as [[name value] hs Hlong|[name value] hs _ IH];
    cbn [write_minimal_headers].
  - simpl in Hlong. rewrite to_bytes_raises by (simpl; lia). by eexists.
  - destruct (to_bytes (len value) 2); [|by eexists].
    destruct IH as [e ->]. by eexists.
Qed.

Lemma write_expanded_headers_long (headers : list (string * bytes)) :
  Exists (λ kv, 65535 < len kv.2) headers →
  raises (write_expanded_headers headers).
Proof.
  induction 1 as [[name value] hs Hlong|[name value] hs _ IH];
    cbn [write_expanded_headers].
  - simpl in Hlong. destruct (encode_ascii name); [|by eexists].
    cbv beta iota delta [mbind result_bind Py.bind].
    destruct (to_bytes (len a) 2); [|by eexists].
    rewrite (to_bytes_raises (len value)) by (simpl; lia). by eexists.
  - destruct (encode_ascii name); [|by eexists].
    cbv beta iota delta [mbind result_bind Py.bind].
    destruct (to_bytes (len a) 2); [|by eexists].
    destruct (to_bytes (len value) 2); [|by eexists].
    destruct IH as [e ->]. by eexists.
Qed.

Lemma encoder_rejects_long_value (flags : Z)
    (t : _OutgoingParsedWSMessageType) (headers : list (string * bytes))
    (body : bytes) :
  Exists (λ kv, 65535 < len kv.2) headers →
  raises (_make_websocket_message flags t headers body).
Proof.
  intros Hlong. unfold _make_websocket_message.
  destruct (to_bytes flags 2); [|by eexists].
  cbv beta iota delta [mbind result_bind Py.bind].
  destruct (to_bytes (outgoing_type_value t) 2); [|by eexists].
  destruct (has_minimal_headers flags).
  - destruct (write_minimal_headers_long _ Hlong) as [e ->]. by eexists.
  - destruct (to_bytes (len headers) 2); [|by eexists].
    destruct (write_expanded_headers_long _ Hlong) as [e ->]. by eexists.
Qed.

End codec_limits.

(** C8 (as amended). Decoding the encoding of a frame gives the frame
  again when the type code of the frame is one of the nine codes the
  decoder knows: in the expanded form for at most 65535 headers whose
  names are lower-case ASCII of at most 65535 bytes and whose values have
  at most 65535 bytes; in the minimal form when the names are the fixed
  list of the decoder for that code, and for [NOTIFY_STREAM] the list of
  a first part, with an identifier of at most 64 bytes and a part id of
  at most 8 bytes that is zero. The encoder raises whenever a header
  value has more than 65535 bytes. *)
Theorem frame_codec_roundtrip (t_out : _OutgoingParsedWSMessageType)
  (t_in : _ParsedWSMessageType) (headers : list (string * bytes))
  (body : bytes) :
outgoing_type_value t_out = parsed_type_value t_in →
(fits_u16 headers = true →
 forallb expanded_header_ok headers = true →
 ∃ w, _make_websocket_message 0 t_out headers body = Ok w
      ∧ _parse_websocket_message w = Ok (decoded 0 t_in headers body))
∧ (forallb (λ kv, fits_u16 kv.2) headers = true →
   _STANDARD_MINIMAL_HEADERS_BY_TYPE t_in = Some headers.*1 →
   ∃ w, _make_websocket_message 1 t_out headers body = Ok w
        ∧ _parse_websocket_message w = Ok (decoded 1 t_in headers body))
∧ (forallb (λ kv, fits_u16 kv.2) headers = true →
   t_in = NOTIFY_STREAM →
   headers.*1 = NOTIFY_STREAM_FIRST_PART_HEADERS →
   (∃ identifier part_id_bytes,
      dict headers !! "x-identifier"%string = Some identifier
      ∧ dict headers !! "x-part-id"%string = Some part_id_bytes
      ∧ len identifier ≤ 64 ∧ len part_id_bytes ≤ 8
      ∧ from_bytes part_id_bytes = 0) →
   ∃ w, _make_websocket_message 1 t_out headers body = Ok w
        ∧ _parse_websocket_message w = Ok (decoded 1 t_in headers body))
∧ (∀ flags, Exists (λ kv, 65535 < len kv.2) headers →
   raises (_make_websocket_message flags t_out headers body)).
Proof.
intros Ht. repeat split.
- by apply roundtrip_expanded.
- intros. by apply roundtrip_minimal.
- intros Hok -> Hnames (identifier & part_id_bytes & ? & ? & ? & ? & ?).
  assert (t_out = CONTINUE_NOTIFY) as -> by (by destruct t_out).
  by eapply roundtrip_minimal_notify_stream.
- intros. by apply encoder_rejects_long_value.
Qed.

Lemma frame_codec_roundtrip_witness :
∃ w, _make_websocket_message 0 CONFIRM_NOTIFY
       [("x-identifier"%string, ["a"%byte]); ("x-subscribers"%string, ["002"%byte])]
       ["b"%byte] = Ok w
     ∧ _parse_websocket_message w
       = Ok (decoded 0 NOTIFY
               [("x-identifier"%string, ["a"%byte]);
                ("x-subscribers"%string, ["002"%byte])]
               ["b"%byte]).
Proof.
apply (proj1 (frame_codec_roundtrip CONFIRM_NOTIFY NOTIFY
                [("x-identifier"%string, ["a"%byte]);
                 ("x-subscribers"%string, ["002"%byte])]
                ["b"%byte] eq_refl)); reflexivity.
Defined.

(** C8 (as stated) fails: the encoder writes the ten broadcaster types, the
  decoder reads the nine subscriber types. The frame of type
  [ENABLE_ZSTD_CUSTOM] (code 10) does not decode at all; the minimal form
  of [CONFIRM_CONFIGURE] with its own header list, [x-broadcaster-nonce],
  is read with the four-name list of [CONFIGURE] and does not decode
  either. *)
Lemma frame_codec_roundtrip_counterexample :
(∃ w, _make_websocket_message 0 ENABLE_ZSTD_CUSTOM [] [] = Ok w
      ∧ raises (_parse_websocket_message w))
∧ (∃ w, _make_websocket_message 1 CONFIRM_CONFIGURE
          [("x-broadcaster-nonce"%string, repeat "170"%byte 32)] [] = Ok w
        ∧ raises (_parse_websocket_message w)).
Proof.
split; eexists; (split; [vm_compute; reflexivity|]); vm_compute; by eexists.
Qed.

Section auth_url.

Fixpoint of_pos_lower (p : positive) (rest : string) {struct p} :
  all_chars is_lower_hex rest = true →
  all_chars is_lower_hex (HexString.Raw.of_pos p rest) = true.
Proof.
  intros Hrest.
  do 4 try destruct p as [p|p|]; try (exact Hrest || (cbn; exact Hrest));
    cbn [HexString.Raw.of_pos]; try (apply of_pos_lower; cbn; exact Hrest).
Qed.

Fixpoint of_pos_first (p : positive) (rest : string) {struct p} :
  ∃ c, first_char (HexString.Raw.of_pos p rest) = Some c ∧ c ≠ "0"%char.
Proof.
  do 4 try destruct p as [p|p|];
    cbn [HexString.Raw.of_pos]; try apply of_pos_first;
    (eexists; split; [reflexivity|discriminate]).
Qed.

(** The digits of a positive counter: lower-case hexadecimal, no leading
    zero, and they denote the counter. *)
Lemma format_x_pos (p : positive) :
  all_chars is_lower_hex (format_x (Z.pos p)) = true
  ∧ (∃ c, first_char (format_x (Z.pos p)) = Some c ∧ c ≠ "0"%char)
  ∧ HexString.to_Z (String "0" (String "x" (format_x (Z.pos p)))) = Z.pos p.
Proof.
  split; [by apply of_pos_lower|]. split; [apply of_pos_first|].
  apply (HexString.to_Z_of_Z (Z.pos p)).
Qed.

Lemma mint_send (state : _StateOpen) (config : _Configuration) :
  socket_level_config state = Some config →
  _make_for_send_websocket_url_and_change_counter state
  = (Ok ("websocket:" +:+ nonce_b64 config +:+ ":"
         +:+ format_x (broadcaster_counter state)),
     set_broadcaster_counter (broadcaster_counter state + 1) state).
Proof.
  intros Hc. unfold _make_for_send_websocket_url_and_change_counter.
  session_step. by rewrite Hc.
Qed.

Lemma mint_receive (state : _StateOpen) (config : _Configuration) :
  socket_level_config state = Some config →
  _make_for_receive_websocket_url_and_change_counter state
  = (Ok ("websocket:" +:+ nonce_b64 config +:+ ":"
         +:+ format_x (subscriber_counter state)),
     set_subscriber_counter (subscriber_counter state - 1) state).
Proof.
  intros Hc. unfold _make_for_receive_websocket_url_and_change_counter.
  session_step. by rewrite Hc.
Qed.

(** The encoding of a 32-byte digest: 43 characters and one ['=']. *)
Lemma urlsafe_b64encode_digest (digest : bytes) :
  length digest = 32%nat →
  String.length (urlsafe_b64encode digest) = 44%nat
  ∧ last_char (urlsafe_b64encode digest) = Some "="%char.
Proof.
  intros Hl. do 33 (destruct digest as [|? digest]; try discriminate).
  split; reflexivity.
Qed.

Lemma configure_nonce (cfg : Config) (broadcaster_nonce : bytes)
    (message : _ParsedWSMessage) (s0 s' : _StateOpen) :
  _process_configure cfg broadcaster_nonce message s0 = (Ok (), s') →
  ∃ subscriber_nonce config,
    msg_headers message !! "x-subscriber-nonce"%string = Some subscriber_nonce
    ∧ socket_level_config s' = Some config
    ∧ nonce_b64 config
      = urlsafe_b64encode (sha256 (subscriber_nonce ++ broadcaster_nonce)).
Proof.
  unfold _process_configure.
  destruct (negb _); [discriminate|].
  session_step.
  destruct (bool_decide _); [discriminate|].
  unfold getitem.
  destruct (msg_headers message !! "x-subscriber-nonce"%string) as [sn|] eqn:Hsn;
    [|discriminate].
  destruct (negb (len sn =? 32)); [discriminate|].
  destruct (_ && negb _); [discriminate|].
  destruct (2 <? _); [discriminate|].
  intros Hrun. exists sn. unfold _rotate_compressor in Hrun.
  session_cases Hrun.
  all: injection Hrun as <-; eexists; (split; [done|]); split; reflexivity.
Qed.

End auth_url.

(** C3 (as amended). In a configured session, minting a send-side url
    returns ["websocket:" + nonce_b64 + ":" + hex(broadcaster_counter)] and
    adds one to [broadcaster_counter]; minting a receive-side url returns
    ["websocket:" + nonce_b64 + ":" + hex(subscriber_counter)] and takes one
    from [subscriber_counter]; nothing else changes. The hexadecimal digits
    are lower case, without prefix or leading zero, and a negative counter
    is its magnitude after a minus sign. When [_process_configure] accepts,
    [nonce_b64] is the url-safe base64 encoding, with its padding, of
    SHA-256 of the subscriber nonce followed by the broadcaster nonce: 43
    characters and one ['='] for the 32 bytes of a digest. *)
Theorem auth_url_sequencer (state : _StateOpen)
    (config : _Configuration) :
  socket_level_config state = Some config →
  _make_for_send_websocket_url_and_change_counter state
  = (Ok ("websocket:" +:+ nonce_b64 config +:+ ":"
         +:+ format_x (broadcaster_counter state)),
     set_broadcaster_counter (broadcaster_counter state + 1) state)
  ∧ _make_for_receive_websocket_url_and_change_counter state
    = (Ok ("websocket:" +:+ nonce_b64 config +:+ ":"
           +:+ format_x (subscriber_counter state)),
       set_subscriber_counter (subscriber_counter state - 1) state)
  ∧ (∀ p : positive,
       all_chars is_lower_hex (format_x (Z.pos p)) = true
       ∧ (∃ c, first_char (format_x (Z.pos p)) = Some c ∧ c ≠ "0"%char)
       ∧ HexString.to_Z (String "0" (String "x" (format_x (Z.pos p)))) = Z.pos p
       ∧ format_x (Z.neg p) = String "-" (format_x (Z.pos p)))
  ∧ (∀ cfg broadcaster_nonce message s0,
       _process_configure cfg broadcaster_nonce message s0 = (Ok (), state) →
       ∃ subscriber_nonce,
         msg_headers message !! "x-subscriber-nonce"%string = Some subscriber_nonce
         ∧ nonce_b64 config
           = urlsafe_b64encode (sha256 (subscriber_nonce ++ broadcaster_nonce)))
  ∧ (∀ digest : bytes,
       length digest = 32%nat →
       String.length (urlsafe_b64encode digest) = 44%nat
       ∧ last_char (urlsafe_b64encode digest) = Some "="%char).
Proof.
  intros Hc. split; [by apply mint_send|]. split; [by apply mint_receive|].
  split; [|split].
  - intros p. destruct (format_x_pos p) as (? & ? & ?). by repeat split.
  - intros cfg bn message s0 Hrun.
    destruct (configure_nonce _ _ _ _ _ Hrun) as (sn & c & Hsn & Hc' & Hn).
    exists sn. split; [done|]. congruence.
  - apply urlsafe_b64encode_digest.
Qed.

Lemma auth_url_sequencer_witness :
  _make_for_send_websocket_url_and_change_counter example_session
  = (Ok "websocket:abc:1"%string, set_broadcaster_counter 2 example_session)
  ∧ _make_for_receive_websocket_url_and_change_counter example_session
    = (Ok "websocket:abc:-1"%string, set_subscriber_counter (-2) example_session).
Proof.
  destruct (auth_url_sequencer example_session
              (mk_Configuration false false 0 "abc") eq_refl)
    as (Hsend & Hrecv & _).
  split; [exact Hsend|exact Hrecv].
Defined.

(** C3 (as stated) fails: the scheme of the url is [websocket], not
    [stateful], and the nonce keeps the padding of its base64 encoding.
    The session is the one of the configure handshake with a subscriber
    nonce of 32 zero bytes and a broadcaster nonce of 32 bytes [0xAA]. *)
Lemma auth_url_sequencer_counterexample :
  let nonce := "nvgUtC-gvhLRl8RNPo4DRBpLERgjdlg2i6E1EJDlVu0="%string in
  broadcaster_counter example_configured_session = 1
  ∧ (nonce_b64 <$> socket_level_config example_configured_session) = Some nonce
  ∧ nonce = urlsafe_b64encode (sha256 (repeat "000"%byte 32 ++ repeat "170"%byte 32))
  ∧ (_make_for_send_websocket_url_and_change_counter example_configured_session).1
    ≠ Ok ("stateful:" +:+ "nvgUtC-gvhLRl8RNPo4DRBpLERgjdlg2i6E1EJDlVu0" +:+ ":"
          +:+ format_x 1)
  ∧ (_make_for_send_websocket_url_and_change_counter example_configured_session).1
    = Ok ("websocket:" +:+ nonce +:+ ":" +:+ format_x 1).
Proof. repeat split; vm_compute; (reflexivity || discriminate). Qed.

(** The configure handshake: the connection nonce, the compressors and the
    queued [CONFIRM_CONFIGURE]. *)
Example configure_handshake :
  let run :=
    _process_configure example_config (repeat "170"%byte 32) example_configure
      (_handle_accepting example_config 0) in
  run.1 = Ok ()
  ∧ socket_level_config run.2
    = Some (mk_Configuration false false 0
              "nvgUtC-gvhLRl8RNPo4DRBpLERgjdlg2i6E1EJDlVu0=")
  ∧ training_data run.2 = None
  ∧ standard_compressor run.2 = None
  ∧ (∃ confirm,
       _make_websocket_message 0 CONFIRM_CONFIGURE
         [("x-broadcaster-nonce"%string, repeat "170"%byte 32)] [] = Ok confirm
       ∧ pending_sends run.2 = [_FormattedMessage confirm]).
Proof.
  repeat split; try (vm_compute; reflexivity).
  eexists. split; vm_compute; reflexivity.
Qed.

(** The digests are those of [hashlib]. *)
Example sha2_test_vectors :
  from_bytes (sha256 (b "abc"))
  = 0xba7816bf8f01cfea414140de5dae2223b00361a396177a9cb410ff61f20015ad
  ∧ from_bytes (sha512 (b "abc"))
    = 0xddaf35a193617abacc417349ae20413112e6fa4e89a97ea20a9eeee64b55d39a2192992a274fc1a836ba3c23a3feebbd454d4423643ce80e2a9ac94fa54ca49f
  ∧ length (sha256 []) = 32%nat ∧ length (sha512 []) = 64%nat.
Proof. repeat split; vm_compute; reflexivity. Qed.

(** ** Dictionary trainer: which payloads are sampled *)

Section sampling.

Context (cfg : Config) (now : Z).

Lemma set_training_data_same (state : _StateOpen) :
  set_training_data (training_data state) state = state.
Proof. by destruct state. Qed.

(** Outside the sampled sizes, or without an open collector, the small
    path leaves the session as it is. *)
Lemma store_small_skips (data : bytes) (state : _StateOpen) :
  sample_eligible cfg (len data) = false ∨ open_collector cfg now state = None →
  _store_small_for_compression_training cfg now data state = (Ok (), state).
Proof.
  unfold sample_eligible, open_collector, _store_small_for_compression_training,
    _handle_if_should_start_retraining.
  intros Hskip. session_step.
  destruct (training_data state) as [t|] eqn:Ht; [|done].
  destruct (Z.ltb_spec (len data) (compression_min_size cfg)) as [|Hlo]; [done|].
  destruct (Z.leb_spec (compression_trained_max_size cfg) (len data)) as [|Hhi];
    [done|].
  apply Z.leb_le in Hlo. apply Z.ltb_lt in Hhi. rewrite Hlo, Hhi in Hskip.
  destruct Hskip as [?|Hskip]; [done|].
  destruct t as [c d|c d|last]; try done.
  destruct (now <? _) eqn:Hnow; [|done].
  repeat (session_step; rewrite ?Ht, ?Hnow). done.
Qed.

(** Inside the sampled sizes and with an open collector, the small path
    appends the four-byte length and the payload, counts the sample and
    marks the training state dirty. *)
Lemma store_small_feeds (data : bytes) (state : _StateOpen)
    (c : _CompressorTrainingDataCollector) :
  compression_trained_max_size cfg ≤ 2 ^ 32 →
  sample_eligible cfg (len data) = true →
  open_collector cfg now state = Some c →
  ∃ length_bytes,
    to_bytes (len data) 4 = Ok length_bytes
    ∧ _store_small_for_compression_training cfg now data state
      = (Ok (),
         set_training_data
           (training_data_with cfg now state
              (feed_collector data length_bytes) (λ _, true))
           state).
Proof.
  unfold sample_eligible, open_collector, training_data_with,
    _store_small_for_compression_training, _handle_if_should_start_retraining.
  intros Hmax Hs Hc.
  apply andb_true_iff in Hs as [Hlo Hhi]. apply Z.leb_le in Hlo. apply Z.ltb_lt in Hhi.
  destruct (to_bytes_ok (len data) 4) as (lb & Hlb & _).
  { change (256 ^ Z.of_nat 4) with (2 ^ 32). unfold len in *. lia. }
  exists lb. split; [done|]. session_step.
  destruct (Z.ltb_spec (len data) (compression_min_size cfg)); [lia|].
  destruct (Z.leb_spec (compression_trained_max_size cfg) (len data)); [lia|].
  destruct (training_data state) as [[c' d|c' d|last]|] eqn:Ht; try done.
  - repeat (session_step; rewrite ?Ht, ?Hlb). done.
  - repeat (session_step; rewrite ?Ht, ?Hlb). done.
  - destruct (now <? _) eqn:Hnow; [done|].
    repeat (session_step; rewrite ?Ht, ?Hlb, ?Hnow). done.
Qed.

(** The large path stores exactly under the same condition, and leaves
    the session as it is but for the restart of the sampling after a
    cool-down. *)
Lemma should_store_large (length : Z) (state : _StateOpen) :
  (_should_store_large_message_for_training cfg now length state).1
  = Ok (sample_eligible cfg length
        && bool_decide (is_Some (open_collector cfg now state))).
Proof.
  unfold sample_eligible, open_collector,
    _should_store_large_message_for_training, _handle_if_should_start_retraining.
  session_step.
  destruct (training_data state) as [t|] eqn:Ht; [|by rewrite andb_false_r].
  destruct (Z.leb_spec (compression_trained_max_size cfg) length) as [H1|H1].
  { simpl. apply Z.ltb_ge in H1. rewrite H1. by rewrite andb_false_r. }
  destruct (Z.ltb_spec length (compression_min_size cfg)) as [H2|H2].
  { simpl. apply Z.leb_gt in H2. by rewrite H2. }
  apply Z.leb_le in H2. apply Z.ltb_lt in H1. rewrite H1, H2.
  destruct t as [c d|c d|last].
  - repeat (session_step; rewrite ?Ht). done.
  - repeat (session_step; rewrite ?Ht). done.
  - destruct (now <? _) eqn:Hnow; repeat (session_step; rewrite ?Ht, ?Hnow); done.
Qed.

(** The capturer of the large path is the collector exactly under that
    condition. *)
Lemma make_store_capturer (length : Z) (state : _StateOpen) :
  0 ≤ compression_min_size cfg →
  compression_trained_max_size cfg ≤ 2 ^ 32 →
  (_make_store_for_training_capturer cfg now length state).1
  = Ok (if sample_eligible cfg length
           && bool_decide (is_Some (open_collector cfg now state))
        then CloseGuardedIO else VoidSyncIO).
Proof.
  intros Hmin Hmax.
  unfold sample_eligible, open_collector, _make_store_for_training_capturer,
    _should_store_large_message_for_training, _handle_if_should_start_retraining.
  session_step.
  destruct (training_data state) as [t|] eqn:Ht; [|by rewrite andb_false_r].
  destruct (Z.leb_spec (compression_trained_max_size cfg) length) as [H1|H1].
  { simpl. apply Z.ltb_ge in H1. rewrite H1. by rewrite andb_false_r. }
  destruct (Z.ltb_spec length (compression_min_size cfg)) as [H2|H2].
  { simpl. apply Z.leb_gt in H2. by rewrite H2. }
  destruct (to_bytes_ok length 4) as (lb & Hlb & _).
  { change (256 ^ Z.of_nat 4) with (2 ^ 32). lia. }
  apply Z.leb_le in H2. apply Z.ltb_lt in H1. rewrite H1, H2.
  destruct t as [c d|c d|last].
  - repeat (session_step; rewrite ?Ht, ?Hlb; simpl). done.
  - repeat (session_step; rewrite ?Ht, ?Hlb; simpl). done.
  - destruct (now <? _) eqn:Hnow;
      repeat (session_step; rewrite ?Ht, ?Hnow, ?Hlb; simpl); done.
Qed.

End sampling.

(** C7 (as amended). A payload is fed to the collector if and only if the
    session has a training state that takes samples at that time (it is
    before a watermark, or its cool-down is over, in which case a new
    collector is started) and the length [L] of the payload satisfies
    [compression_min_size <= L < compression_trained_max_size]. A payload
    of exactly [compression_trained_max_size] bytes is not sampled. For a
    small payload being fed is: the four-byte length and the payload are
    appended to the collector, which counts one more message and [L] more
    bytes, and the training state is marked dirty; otherwise the session
    is unchanged. For a large payload being fed is: the capturer is the
    file of the collector. The sizes of the configuration are unsigned 32
    bit numbers. *)
Theorem training_sample_eligibility (cfg : Config) (now : Z) (state : _StateOpen) :
  0 ≤ compression_min_size cfg →
  compression_trained_max_size cfg ≤ 2 ^ 32 →
  (∀ data : bytes,
     if sample_eligible cfg (len data)
        && bool_decide (is_Some (open_collector cfg now state))
     then ∃ length_bytes,
            to_bytes (len data) 4 = Ok length_bytes
            ∧ _store_small_for_compression_training cfg now data state
              = (Ok (),
                 set_training_data
                   (training_data_with cfg now state
                      (feed_collector data length_bytes) (λ _, true))
                   state)
     else _store_small_for_compression_training cfg now data state
          = (Ok (), state))
  ∧ (∀ length : Z,
       (_should_store_large_message_for_training cfg now length state).1
       = Ok (sample_eligible cfg length
             && bool_decide (is_Some (open_collector cfg now state)))
       ∧ (_make_store_for_training_capturer cfg now length state).1
         = Ok (if sample_eligible cfg length
                  && bool_decide (is_Some (open_collector cfg now state))
               then CloseGuardedIO else VoidSyncIO))
  ∧ sample_eligible cfg (compression_trained_max_size cfg) = false.
Proof.
  intros Hmin Hmax. split; [|split].
  - intros data.
    destruct (sample_eligible cfg (len data)) eqn:Hs; simpl.
    + destruct (open_collector cfg now state) as [c|] eqn:Hc.
      * rewrite bool_decide_eq_true_2 by done.
        by apply (store_small_feeds cfg now data state c).
      * rewrite bool_decide_eq_false_2 by (by intros [? ?]).
        apply store_small_skips. by right.
    + apply store_small_skips. by left.
  - intros length. split; [apply should_store_large|by apply make_store_capturer].
  - unfold sample_eligible. by rewrite Z.ltb_irrefl, andb_false_r.
Qed.

Lemma training_sample_eligibility_witness :
  (_store_small_for_compression_training example_config 0
     (repeat "a"%byte 40) (_handle_accepting example_config 0)).2
  ≠ _handle_accepting example_config 0
  ∧ _store_small_for_compression_training example_config 0
      (repeat "a"%byte 16) (_handle_accepting example_config 0)
    = (Ok (), _handle_accepting example_config 0).
Proof.
  destruct (training_sample_eligibility example_config 0
              (_handle_accepting example_config 0)) as (Hsmall & _ & _);
    [done|done|].
  split.
  - destruct (Hsmall (repeat "a"%byte 40)) as (lb & _ & ->). discriminate.
  - exact (Hsmall (repeat "a"%byte 16)).
Defined.

(** C7 (as stated) fails: a payload of exactly
    [compression_trained_max_size] bytes is not sampled, neither on the
    small path nor on the large path, although the session is training
    and [compression_min_size <= L <= compression_trained_max_size]. *)
Lemma training_sample_eligibility_counterexample :
  let state := _handle_accepting example_config 0 in
  let data := repeat "a"%byte (Z.to_nat 16384) in
  is_Some (training_data state)
  ∧ compression_min_size example_config ≤ len data
  ∧ len data ≤ compression_trained_max_size example_config
  ∧ _store_small_for_compression_training example_config 0 data state
    = (Ok (), state)
  ∧ (_should_store_large_message_for_training example_config 0 (len data) state).1
    = Ok false.
Proof.
  repeat split; try (vm_compute; done). by eexists.
Qed.

(** ** Egress pipeline: which compressor a send uses *)

Section selection.

Context (cfg : Config) (state : _StateOpen).

Lemma small_plan_follows (data : bytes) :
  plan_follows state
    (selection_rule cfg (slot_ready (standard_compressor state))
       (slot_ready (active_compressor state)) (len data))
    (Ok (_send_small_message_plan cfg state data)).
Proof.
  unfold plan_follows, selection_rule, _send_small_message_plan, slot_ready.
  destruct (Z.leb_spec (compression_trained_max_size cfg) (len data)) as [Hmax|Hmax].
  - assert ((len data <? compression_trained_max_size cfg) = false) as ->
      by (apply Z.ltb_ge; lia).
    rewrite !andb_false_r. simpl.
    destruct (standard_compressor state) as [[c|id task]|]; simpl; eauto.
  - assert ((len data <? compression_trained_max_size cfg) = true) as ->
      by (apply Z.ltb_lt; lia).
    rewrite andb_true_r. simpl.
    destruct (compression_min_size cfg <=? len data); simpl; [|done].
    destruct (active_compressor state) as [[c|id task]|]; simpl; eauto.
Qed.

Lemma optimistic_plan_follows (msg : _LargeMessage) :
  is_Some (socket_level_config state) →
  plan_follows state
    (selection_rule cfg
       (compression_allowed cfg && slot_present (standard_compressor state))
       (slot_ready (active_compressor state)) (large_length msg))
    (_send_large_message_optimistically_plan cfg state msg).
Proof.
  intros [config Hc].
  unfold plan_follows, selection_rule, _send_large_message_optimistically_plan,
    slot_ready, slot_present.
  rewrite Hc.
  destruct (compression_allowed cfg); simpl.
  - destruct (Z.leb_spec (compression_trained_max_size cfg) (large_length msg))
      as [Hmax|Hmax]; simpl.
    + destruct (standard_compressor state) as [standard|]; simpl; [by eauto|].
      assert ((large_length msg <? compression_trained_max_size cfg) = false) as ->
        by (apply Z.ltb_ge; lia).
      rewrite !andb_false_r. simpl.
      by destruct (active_compressor state) as [[c|id task]|].
    + assert ((large_length msg <? compression_trained_max_size cfg) = true) as ->
        by (apply Z.ltb_lt; lia).
      rewrite andb_true_r.
      destruct (active_compressor state) as [[c|id task]|]; simpl;
        rewrite ?andb_false_r; try done.
      rewrite andb_true_r.
      destruct (compression_min_size cfg <=? large_length msg); simpl; eauto.
  - rewrite andb_false_r. simpl.
    destruct (active_compressor state) as [[c|id task]|]; simpl;
      rewrite ?andb_false_r; try done.
    rewrite andb_true_r.
    destruct ((compression_min_size cfg <=? large_length msg)
              && (large_length msg <? compression_trained_max_size cfg));
      simpl; eauto.
Qed.

Lemma spooled_plan_follows (msg : _LargeMessage) :
  is_Some (standard_compressor state)
  ∨ large_length msg < compression_trained_max_size cfg
  ∨ slot_ready (active_compressor state) = false →
  plan_follows state
    (selection_rule cfg (slot_present (standard_compressor state))
       (slot_ready (active_compressor state)) (large_length msg))
    (_send_large_message_from_spooled_plan cfg state msg).
Proof.
  intros Hinv.
  unfold plan_follows, selection_rule, _send_large_message_from_spooled_plan,
    slot_ready, slot_present in *.
  destruct (Z.leb_spec (compression_trained_max_size cfg) (large_length msg))
    as [Hmax|Hmax]; simpl.
  - destruct (standard_compressor state) as [standard|]; simpl; [by eauto|].
    assert ((large_length msg <? compression_trained_max_size cfg) = false) as ->
      by (apply Z.ltb_ge; lia).
    rewrite !andb_false_r. simpl.
    destruct Hinv as [[? ?]|[?|Hinv]]; [done|lia|].
    by destruct (active_compressor state) as [[c|id task]|].
  - assert ((large_length msg <? compression_trained_max_size cfg) = true) as ->
      by (apply Z.ltb_lt; lia).
    rewrite andb_true_r.
    destruct (active_compressor state) as [[c|id task]|]; simpl;
      rewrite ?andb_false_r; try done.
    rewrite andb_true_r.
    destruct (compression_min_size cfg <=? large_length msg); simpl; eauto.
Qed.

End selection.

(** C5 (as amended). Each send path selects its compressor by the three
    rules of the specification, read as follows. On the small-message path
    the standard compressor counts as present only once it is ready (while
    it is still preparing, a payload at or above
    [compression_trained_max_size] goes out uncompressed). On the
    optimistic large path it counts as present only if the configuration
    allows compression. On the spooled path it counts as present whenever
    the slot is filled; there the rules are followed in every session in
    which the standard slot is filled, the payload is below
    [compression_trained_max_size], or the active compressor is not ready.
    Wherever the rules are followed, the active compressor is not selected
    for a payload of [compression_trained_max_size] bytes or more. *)
Theorem compression_selection (cfg : Config) (state : _StateOpen) :
  (∀ data : bytes,
     plan_follows state
       (selection_rule cfg (slot_ready (standard_compressor state))
          (slot_ready (active_compressor state)) (len data))
       (Ok (_send_small_message_plan cfg state data)))
  ∧ (∀ msg : _LargeMessage,
       is_Some (socket_level_config state) →
       plan_follows state
         (selection_rule cfg
            (compression_allowed cfg && slot_present (standard_compressor state))
            (slot_ready (active_compressor state)) (large_length msg))
         (_send_large_message_optimistically_plan cfg state msg))
  ∧ (∀ msg : _LargeMessage,
       is_Some (standard_compressor state)
       ∨ large_length msg < compression_trained_max_size cfg
       ∨ slot_ready (active_compressor state) = false →
       plan_follows state
         (selection_rule cfg (slot_present (standard_compressor state))
            (slot_ready (active_compressor state)) (large_length msg))
         (_send_large_message_from_spooled_plan cfg state msg))
  ∧ (∀ (standard_present active_ready : bool) (length : Z),
       compression_trained_max_size cfg ≤ length →
       selection_rule cfg standard_present active_ready length ≠ SelectActive).
Proof.
  split; [apply small_plan_follows|].
  split; [apply optimistic_plan_follows|].
  split; [apply spooled_plan_follows|].
  intros sp ar length Hmax. unfold selection_rule.
  assert ((length <? compression_trained_max_size cfg) = false) as ->
    by (apply Z.ltb_ge; lia).
  rewrite andb_false_r. simpl. by destruct (_ && _).
Qed.

(** C5 (as stated) fails on the small-message path while the standard
    compressor is still preparing, and on the optimistic large path when
    the configuration forbids compression: the standard compressor is
    present, the payload has [compression_trained_max_size] bytes, and the
    payload is sent with compressor id 0. *)
Lemma compression_selection_counterexample :
  let state :=
    set_standard_compressor (Some (Preparing 1 _make_standard_compressor))
      example_session in
  let data := repeat "a"%byte (Z.to_nat 16384) in
  let cfg := mk_Config false false 32 16384 100000 10000000 86400 None None None
               (λ _ _ _ _, ok) (λ _ _ _ _, ok) (λ _ _ _ _, ok) (λ _ _ _ _, None)
               (λ _, None) (λ _, ([], 3)) (λ _, ([], 3)) in
  is_Some (standard_compressor state)
  ∧ compression_trained_max_size example_config ≤ len data
  ∧ plan_compressor_id (_send_small_message_plan example_config state data) = 0
  ∧ compression_trained_max_size cfg ≤ len data
  ∧ _send_large_message_optimistically_plan cfg state
      (mk_LargeMessage data [] [] (len data))
    = Ok Uncompressed.
Proof.
  repeat split; try (vm_compute; done). by eexists.
Qed.

Lemma compression_selection_witness :
  _send_large_message_optimistically_plan example_config example_session
    (mk_LargeMessage [] [] [] 20000)
  = Ok Uncompressed.
Proof.
  exact (proj1 (proj2 (compression_selection example_config example_session))
           (mk_LargeMessage [] [] [] 20000) (mk_is_Some _ _ eq_refl)).
Defined.

(** ** Ingress pipeline: unsubscribing from what is not subscribed *)

Section unsubscribe.

Context `{Externals} (cfg : Config) (now : Z).

Lemma find_glob_None (target_str : string) (subs : list (Pattern * string)) :
  find_glob target_str subs = None ↔ target_str ∉ subs.*2.
Proof.
  induction subs as [|[p g] subs IH]; simpl.
  - split; [intros _; apply not_elem_of_nil|done].
  - rewrite not_elem_of_cons. case_bool_decide as Hg.
    + split; [done|]. intros [? _]. congruence.
    + destruct (find_glob target_str subs); simpl.
      * split; [done|]. intros [_ Hin]. by apply IH in Hin.
      * split; [|done]. intros _. split; [congruence|]. by apply IH.
Qed.

Lemma unsubscribe_exact_unknown (message : _ParsedWSMessage) (state : _StateOpen)
    (r : result ()) (s' : _StateOpen) :
  msg_type message = UNSUBSCRIBE_EXACT →
  (∀ topic, msg_headers message !! "x-topic"%string = Some topic →
            topic ∉ exact_subscriptions (my_receiver state)) →
  _process_subscribe_or_unsubscribe cfg now message state = (r, s') →
  (∃ e, r = Raise e)
  ∧ (s' = state
     ∨ s' = set_subscriber_counter (subscriber_counter state - 1) state).
Proof.
  intros Ht Hun Hrun.
  unfold _process_subscribe_or_unsubscribe,
    _make_for_receive_websocket_url_and_change_counter, getitem in Hrun.
  rewrite Ht in Hrun. simpl in Hrun.
  session_cases Hrun.
  all: try (injection Hrun as <- <-; split; [by eexists|by auto]).
  all: match goal with
       | Hin : negb (bool_decide (_ ∈ _)) = false |- _ =>
           apply negb_false_iff, bool_decide_eq_true in Hin;
           exfalso; by eapply Hun
       end.
Qed.

Lemma unsubscribe_glob_unknown (message : _ParsedWSMessage) (state : _StateOpen)
    (r : result ()) (s' : _StateOpen) :
  msg_type message = UNSUBSCRIBE_GLOB →
  (∀ glob_bytes glob,
     msg_headers message !! "x-glob"%string = Some glob_bytes →
     decode_utf8 glob_bytes = Ok glob →
     glob ∉ (glob_subscriptions (my_receiver state)).*2) →
  _process_subscribe_or_unsubscribe cfg now message state = (r, s') →
  (∃ e, r = Raise e)
  ∧ (s' = state
     ∨ s' = set_subscriber_counter (subscriber_counter state - 1) state).
Proof.
  intros Ht Hun Hrun.
  unfold _process_subscribe_or_unsubscribe,
    _make_for_receive_websocket_url_and_change_counter, getitem in Hrun.
  rewrite Ht in Hrun. simpl in Hrun.
  session_cases Hrun.
  all: try (injection Hrun as <- <-; split; [by eexists|by auto]).
  all: match goal with
       | Hfind : find_glob ?g _ = Some _ |- _ =>
           exfalso; assert (find_glob g (glob_subscriptions (my_receiver state))
                            = None) as Hnone
             by (apply find_glob_None; by eapply Hun);
           congruence
       end.
Qed.

End unsubscribe.

(** C10. An [UNSUBSCRIBE_EXACT] for a topic that is not in
    [exact_subscriptions], and an [UNSUBSCRIBE_GLOB] for a pattern that is
    not among the glob subscriptions, make the processor raise. The
    session is left as it was but for the counter of the receive-side url
    (when the url was minted before the failure): the local subscriptions
    are unchanged, no frame is handed to the send slot or queued, and no
    call reaches the fanout hub. [_handle_open] then moves the session to
    [Closing] with that exception. *)
Theorem unsubscribe_unknown_is_fatal `{Externals} (cfg : Config) (now : Z)
    (message : _ParsedWSMessage) (state : _StateOpen) :
  (msg_type message = UNSUBSCRIBE_EXACT
   ∧ ∀ topic, msg_headers message !! "x-topic"%string = Some topic →
              topic ∉ exact_subscriptions (my_receiver state))
  ∨ (msg_type message = UNSUBSCRIBE_GLOB
     ∧ ∀ glob_bytes glob,
         msg_headers message !! "x-glob"%string = Some glob_bytes →
         decode_utf8 glob_bytes = Ok glob →
         glob ∉ (glob_subscriptions (my_receiver state)).*2) →
  ∃ e s',
    _process_subscribe_or_unsubscribe cfg now message state = (Raise e, s')
    ∧ my_receiver s' = my_receiver state
    ∧ send_task s' = send_task state
    ∧ pending_sends s' = pending_sends state
    ∧ trace s' = trace state
    ∧ ∃ log, _handle_open_process_done (Raise e) s' = StateClosing (Some e) log.
Proof.
  intros Hcase.
  destruct (_process_subscribe_or_unsubscribe cfg now message state) as [r s']
    eqn:Hrun.
  assert ((∃ e, r = Raise e)
          ∧ (s' = state
             ∨ s' = set_subscriber_counter (subscriber_counter state - 1) state))
    as [[e ->] Hs'].
  { destruct Hcase as [[Ht Hun]|[Ht Hun]].
    - by eapply unsubscribe_exact_unknown.
    - by eapply unsubscribe_glob_unknown. }
  exists e, s'. split; [done|].
  destruct Hs' as [->| ->]; repeat split; by eexists.
Qed.

Lemma unsubscribe_unknown_is_fatal_witness :
  ∃ e s',
    _process_subscribe_or_unsubscribe (H := example_externals) example_config 0
      (mk_ParsedWSMessage 0 UNSUBSCRIBE_EXACT
         {[ "x-topic"%string := b "room/1" ]} [])
      (set_exact_subscriptions {[ b "room/2" ]} example_session)
    = (Raise e, s')
    ∧ exact_subscriptions (my_receiver s') = {[ b "room/2" ]}
    ∧ trace s' = [].
Proof.
  destruct (@unsubscribe_unknown_is_fatal example_externals example_config 0
              (mk_ParsedWSMessage 0 UNSUBSCRIBE_EXACT
                 {[ "x-topic"%string := b "room/1" ]} [])
              (set_exact_subscriptions {[ b "room/2" ]} example_session))
    as (e & s' & Hrun & Hrecv & _ & _ & Htrace & _).
  - left. split; [reflexivity|]. intros topic Htopic.
    vm_compute in Htopic. injection Htopic as <-.
    intros Hin. apply (bool_decide_pack _) in Hin. vm_compute in Hin. exact Hin.
  - exists e, s'. split; [exact Hrun|]. split; [by rewrite Hrecv|exact Htrace].
Defined.

(** ** Ingress pipeline: integrity of a single-frame notification *)

Section notify_integrity.

Context `{Externals} (cfg : Config) (now : Z).

Lemma notify_length_mismatch (message : _ParsedWSMessage) (state : _StateOpen)
    (r : result ()) (s' : _StateOpen) :
  (∀ compressed_length_bytes,
     msg_headers message !! "x-compressed-length"%string
     = Some compressed_length_bytes →
     len (msg_body message) ≠ from_bytes compressed_length_bytes) →
  _process_notify cfg now message state = (r, s') →
  (∃ e, r = Raise e) ∧ s' = state.
Proof.
  intros Hbad Hrun. unfold _process_notify, getitem in Hrun.
  session_cases_with Hrun
    ltac:(idtac; match goal with
          | Hl : negb (len _ =? from_bytes _) = false |- _ =>
              apply negb_false_iff, Z.eqb_eq in Hl; by eapply Hbad
          end).
  all: injection Hrun as <- <-; split; [by eexists|done].
Qed.

Lemma notify_digest_mismatch (message : _ParsedWSMessage) (state : _StateOpen)
    (r : result ()) (s' : _StateOpen) :
  (∀ compressed_sha512,
     msg_headers message !! "x-compressed-sha512"%string = Some compressed_sha512 →
     sha512 (msg_body message) ≠ compressed_sha512) →
  _process_notify cfg now message state = (r, s') →
  (∃ e, r = Raise e) ∧ s' = state.
Proof.
  intros Hbad Hrun. unfold _process_notify, getitem in Hrun.
  session_cases_with Hrun
    ltac:(idtac; match goal with
          | Hl : negb (bool_decide (sha512 _ = _)) = false |- _ =>
              apply negb_false_iff, bool_decide_eq_true in Hl; by eapply Hbad
          end).
  all: injection Hrun as <- <-; split; [by eexists|done].
Qed.

End notify_integrity.

(** C9. A [NOTIFY] whose body does not have the advertised
    [x-compressed-length], or whose SHA-512 is not the advertised
    [x-compressed-sha512], makes the processor raise; the session is left
    exactly as it was, so no [CONFIRM_NOTIFY] is handed to the send slot or
    queued and the delivery fanout is not called; [_handle_open] then moves
    the session to [Closing] with that exception. *)
Theorem notify_integrity_violation `{Externals} (cfg : Config) (now : Z)
    (message : _ParsedWSMessage) (state : _StateOpen) :
  (∀ compressed_length_bytes,
     msg_headers message !! "x-compressed-length"%string
     = Some compressed_length_bytes →
     len (msg_body message) ≠ from_bytes compressed_length_bytes)
  ∨ (∀ compressed_sha512,
       msg_headers message !! "x-compressed-sha512"%string
       = Some compressed_sha512 →
       sha512 (msg_body message) ≠ compressed_sha512) →
  ∃ e,
    _process_notify cfg now message state = (Raise e, state)
    ∧ ∃ log, _handle_open_process_done (Raise e) state = StateClosing (Some e) log.
Proof.
  intros Hbad.
  destruct (_process_notify cfg now message state) as [r s'] eqn:Hrun.
  assert ((∃ e, r = Raise e) ∧ s' = state) as [[e ->] ->].
  { destruct Hbad as [Hbad|Hbad].
    - by eapply notify_length_mismatch.
    - by eapply notify_digest_mismatch. }
  exists e. split; [done|]. by eexists.
Qed.

Lemma notify_integrity_violation_witness :
  ∃ e,
    _process_notify (H := example_externals) example_config 0
      (example_notify (repeat "000"%byte 64)) example_session
    = (Raise e, example_session)
    ∧ ∃ log, _handle_open_process_done (Raise e) example_session
             = StateClosing (Some e) log.
Proof.
  apply (@notify_integrity_violation example_externals).
  right. intros compressed_sha512 Hd. vm_compute in Hd.
  injection Hd as <-. vm_compute. discriminate.
Defined.

(** The same frame with the digest of its body is delivered and
    confirmed; with a wrong digest it is the integrity check that fails. *)
Example notify_digest_checked :
  (∃ confirm,
     _make_websocket_message 0 CONFIRM_NOTIFY
       [("x-identifier"%string, b "m2"); ("x-subscribers"%string, ["001"%byte])]
       [] = Ok confirm
     ∧ let run :=
         _process_notify (H := example_externals) example_config 0
           (example_notify (sha512 (b "hello"))) example_session in
       run.1 = Ok ()
       ∧ trace run.2
         = [EvTrustedNotify (b "room/1") (b "hello") 5 (sha512 (b "hello"));
            EvSendTask confirm])
  ∧ (_process_notify (H := example_externals) example_config 0
       (example_notify (repeat "000"%byte 64)) example_session).1
    = Raise (Exception "integrity check failed").
Proof.
  split; [|vm_compute; reflexivity].
  eexists. split; [vm_compute; reflexivity|]. split; vm_compute; reflexivity.
Qed.

(** ** Ingress pipeline: the parts of a streamed notification *)

Section notify_stream.

Context `{Externals} (cfg : Config) (now : Z).

Lemma capturer_write_incoming (c : capturer) (chunk : bytes) (s : _StateOpen) :
  incoming_notification (capturer_write c chunk s).2 = incoming_notification s
  ∧ (capturer_write c chunk s).1 = Ok ().
Proof. by destruct c. Qed.

Lemma decompress_chunks_incoming (c : capturer) (length : Z)
    (chunks : list bytes) (target : bytes) (s : _StateOpen) :
  incoming_notification (decompress_chunks c length chunks target s).2
  = incoming_notification s.
Proof.
  revert target s. induction chunks as [|chunk chunks IH]; intros target s; [done|].
  cbn [decompress_chunks]. session_step.
  destruct (capturer_write_incoming c chunk s) as [Hi Hr].
  destruct (capturer_write c chunk s) as [r s1]. simpl in *. subst r.
  destruct (length <? _); [done|]. by rewrite IH.
Qed.

(** A part that is not part 0 is rejected whenever the stream under
    reassembly (if there is one) still has its initial [last_part_id]. *)
Lemma later_part_rejected (message : _ParsedWSMessage) (state : _StateOpen)
    (r : result ()) (s' : _StateOpen) :
  last_part_id_untouched state →
  (∀ part_id_bytes,
     msg_headers message !! "x-part-id"%string = Some part_id_bytes →
     from_bytes part_id_bytes ≠ 0) →
  _process_notify_stream cfg now message state = (r, s') →
  (∃ e, r = Raise e) ∧ s' = state.
Proof.
  intros Hinv Hpart Hrun. unfold _process_notify_stream, getitem in Hrun.
  session_cases_with Hrun
    ltac:(idtac; match goal with
          | Hz : (from_bytes _ =? 0) = true |- _ =>
              apply Z.eqb_eq in Hz; by eapply Hpart
          | Hl : negb (last_part_id ?n + 1 =? from_bytes ?p) = false,
            Hz : (from_bytes ?p =? 0) = false |- _ =>
              apply negb_false_iff, Z.eqb_eq in Hl; apply Z.eqb_neq in Hz;
              rewrite (Hinv n) in Hl by done; lia
          end).
  all: injection Hrun as <- <-; split; [by eexists|done].
Qed.

Lemma send_or_enqueue_incoming (data : bytes) (s : _StateOpen)
    (r : result ()) (s' : _StateOpen) :
  send_or_enqueue cfg data s = (r, s') →
  incoming_notification s' = incoming_notification s.
Proof.
  unfold send_or_enqueue. intros Hrun. session_cases Hrun.
  all: by injection Hrun as <- <-.
Qed.

Lemma confirm_notify_incoming (flags : Z) (message_id : bytes)
    (notify_result : TrustedNotifyResult) (s : _StateOpen)
    (r : result ()) (s' : _StateOpen) :
  confirm_notify cfg flags message_id notify_result s = (r, s') →
  incoming_notification s' = incoming_notification s.
Proof.
  unfold confirm_notify. intros Hrun. session_cases Hrun.
  all: try by injection Hrun as <- <-.
  all: by eapply send_or_enqueue_incoming.
Qed.

Lemma should_store_incoming (length : Z) (s : _StateOpen)
    (r : result bool) (s' : _StateOpen) :
  _should_store_large_message_for_training cfg now length s = (r, s') →
  incoming_notification s' = incoming_notification s.
Proof.
  unfold _should_store_large_message_for_training,
    _handle_if_should_start_retraining.
  intros Hrun. session_cases Hrun.
  all: by injection Hrun as <- <-.
Qed.

Lemma make_store_incoming (length : Z) (s : _StateOpen)
    (r : result capturer) (s' : _StateOpen) :
  _make_store_for_training_capturer cfg now length s = (r, s') →
  incoming_notification s' = incoming_notification s.
Proof.
  unfold _make_store_for_training_capturer. intros Hrun. session_step_in Hrun.
  destruct (_should_store_large_message_for_training cfg now length s)
    as [r0 s0] eqn:Hs.
  apply should_store_incoming in Hs. rewrite <- Hs.
  session_cases Hrun.
  all: by injection Hrun as <- <-.
Qed.

(** No run of [_process_notify_stream] changes the [last_part_id] of the
    stream under reassembly. *)
Lemma last_part_id_never_advances (message : _ParsedWSMessage)
    (state : _StateOpen) (r : result ()) (s' : _StateOpen) :
  last_part_id_untouched state →
  _process_notify_stream cfg now message state = (r, s') →
  last_part_id_untouched s'.
Proof.
  intros Hinv Hrun.
  unfold _process_notify_stream, getitem, capture_all, call_handle_trusted_notify
    in Hrun.
  session_cases Hrun.
  all: repeat match goal with
       | Hq : send_or_enqueue _ _ _ = _ |- _ =>
           apply send_or_enqueue_incoming in Hq; session_read_in Hq
       | Hq : confirm_notify _ _ _ _ _ = _ |- _ =>
           apply confirm_notify_incoming in Hq; session_read_in Hq
       | Hq : _should_store_large_message_for_training _ _ _ _ = _ |- _ =>
           apply should_store_incoming in Hq; session_read_in Hq
       | Hq : _make_store_for_training_capturer _ _ _ _ = _ |- _ =>
           apply make_store_incoming in Hq; session_read_in Hq
       | Hq : decompress_chunks ?c ?l ?ch ?t ?s = _ |- _ =>
           let Hd := fresh "Hd" in
           pose proof (decompress_chunks_incoming c l ch t s) as Hd;
           rewrite Hq in Hd; cbn [snd] in Hd; session_read_in Hd; clear Hq
       | Hq : capturer_write ?c ?ch ?s = _ |- _ =>
           let Hd := fresh "Hd" in
           pose proof (proj1 (capturer_write_incoming c ch s)) as Hd;
           rewrite Hq in Hd; cbn [snd] in Hd; session_read_in Hd; clear Hq
       end.
  all: try injection Hrun as <- <-.
  all: intros n; session_read.
  all: repeat match goal with
       | Hq : incoming_notification ?s = _ |- _ => rewrite Hq
       end.
  all: intros Hn.
  all: try discriminate.
  all: try (by apply Hinv).
  all: try (injection Hn as <-; cbn [last_part_id notif_append]; by eauto).
Qed.

(** The other processors leave the stream under reassembly alone. *)
Lemma store_small_incoming (data : bytes) (s : _StateOpen) (r : result ())
    (s' : _StateOpen) :
  _store_small_for_compression_training cfg now data s = (r, s') →
  incoming_notification s' = incoming_notification s.
Proof.
  unfold _store_small_for_compression_training,
    _handle_if_should_start_retraining.
  intros Hrun. session_cases Hrun.
  all: by injection Hrun as <- <-.
Qed.

Lemma process_configure_incoming (broadcaster_nonce : bytes)
    (message : _ParsedWSMessage) (s : _StateOpen) (r : result ())
    (s' : _StateOpen) :
  _process_configure cfg broadcaster_nonce message s = (r, s') →
  incoming_notification s' = incoming_notification s.
Proof.
  unfold _process_configure, _rotate_compressor, getitem.
  intros Hrun. session_cases Hrun.
  all: by injection Hrun as <- <-.
Qed.

Lemma process_subscribe_incoming (message : _ParsedWSMessage) (s : _StateOpen)
    (r : result ()) (s' : _StateOpen) :
  _process_subscribe_or_unsubscribe cfg now message s = (r, s') →
  incoming_notification s' = incoming_notification s.
Proof.
  unfold _process_subscribe_or_unsubscribe,
    _make_for_receive_websocket_url_and_change_counter, getitem.
  intros Hrun. session_cases Hrun.
  all: try by injection Hrun as <- <-.
  all: by apply send_or_enqueue_incoming in Hrun.
Qed.

Lemma process_notify_incoming (message : _ParsedWSMessage) (s : _StateOpen)
    (r : result ()) (s' : _StateOpen) :
  _process_notify cfg now message s = (r, s') →
  incoming_notification s' = incoming_notification s.
Proof.
  unfold _process_notify, getitem, capture_all, call_handle_trusted_notify.
  intros Hrun. session_cases Hrun.
  all: repeat match goal with
       | Hq : send_or_enqueue _ _ _ = _ |- _ =>
           apply send_or_enqueue_incoming in Hq; session_read_in Hq
       | Hq : confirm_notify _ _ _ _ _ = _ |- _ =>
           apply confirm_notify_incoming in Hq; session_read_in Hq
       | Hq : _store_small_for_compression_training _ _ _ _ = _ |- _ =>
           apply store_small_incoming in Hq; session_read_in Hq
       | Hq : _should_store_large_message_for_training _ _ _ _ = _ |- _ =>
           apply should_store_incoming in Hq; session_read_in Hq
       | Hq : _make_store_for_training_capturer _ _ _ _ = _ |- _ =>
           apply make_store_incoming in Hq; session_read_in Hq
       | Hq : capturer_write ?c ?ch ?s = _ |- _ =>
           let Hd := fresh "Hd" in
           pose proof (proj1 (capturer_write_incoming c ch s)) as Hd;
           rewrite Hq in Hd; cbn [snd] in Hd; session_read_in Hd; clear Hq
       end.
  all: try injection Hrun as <- <-.
  all: session_read; congruence.
Qed.

Lemma process_message_asap_incoming (message : _ParsedWSMessage)
    (s : _StateOpen) (r : result ()) (s' : _StateOpen) :
  _process_message_asap cfg message s = (r, s') →
  incoming_notification s' = incoming_notification s.
Proof.
  unfold _process_message_asap, get_expecting_ack.
  intros Hrun. session_cases Hrun.
  all: by injection Hrun as <- <-.
Qed.

End notify_stream.

(** In every session the ingress pipeline can produce, the stream under
    reassembly still has the [last_part_id] it was created with. *)
Lemma reachable_last_part_id_untouched `{Externals} (cfg : Config)
    (state : _StateOpen) :
  ingress_reachable cfg state → last_part_id_untouched state.
Proof.
  induction 1 as [now|state now nonce message processor r state' _ IH Hp Hrun
                 |state message r state' _ IH Hrun].
  - intros notif Hnotif. by destruct (allow_training cfg).
  - destruct (msg_type message); simplify_eq/=.
    + apply process_configure_incoming in Hrun. intros n Hn. apply IH. congruence.
    + apply process_subscribe_incoming in Hrun. intros n Hn. apply IH. congruence.
    + apply process_subscribe_incoming in Hrun. intros n Hn. apply IH. congruence.
    + apply process_subscribe_incoming in Hrun. intros n Hn. apply IH. congruence.
    + apply process_subscribe_incoming in Hrun. intros n Hn. apply IH. congruence.
    + apply process_notify_incoming in Hrun. intros n Hn. apply IH. congruence.
    + by eapply last_part_id_never_advances.
  - apply process_message_asap_incoming in Hrun. intros n Hn. apply IH. congruence.
Qed.


(** C1, where the code departs from it. [last_part_id] is set to -1 when
    part 0 opens the stream and is never assigned again, so the test
    [last_part_id + 1 != part_id] rejects every later part: in every
    session the ingress pipeline can produce, whatever the first frame
    is, a second frame whose part id is not zero makes the processor
    raise, and the run of a stream of two parts ends with an exception
    although the parts arrive in strict order. *)
Theorem notify_stream_second_part_rejected `{Externals} (cfg : Config) (now : Z)
    (first second : _ParsedWSMessage) (state : _StateOpen) :
  ingress_reachable cfg state →
  (∀ part_id_bytes,
     msg_headers second !! "x-part-id"%string = Some part_id_bytes →
     from_bytes part_id_bytes ≠ 0) →
  ∃ e s', process_stream_frames cfg now [first; second] state = (Raise e, s').
Proof.
  intros Hreach Hpart.
  pose proof (reachable_last_part_id_untouched cfg state Hreach) as Hinv.
  cbn [process_stream_frames]. session_step.
  destruct (_process_notify_stream cfg now first state) as [r1 s1] eqn:Hfirst.
  destruct r1 as [[]|e]; [|by eauto].
  pose proof (last_part_id_never_advances cfg now _ _ _ _ Hinv Hfirst) as Hinv1.
  destruct (_process_notify_stream cfg now second s1) as [r2 s2] eqn:Hsecond.
  destruct (later_part_rejected cfg now _ _ _ _ Hinv1 Hpart Hsecond) as [[e ->] ->].
  by eauto.
Qed.

Lemma notify_stream_second_part_rejected_witness :
  (_process_notify_stream (H := example_externals) example_config 0
     example_stream_part_0 example_configured_session).1 = Ok ()
  ∧ ∃ e s',
      process_stream_frames (H := example_externals) example_config 0
        [example_stream_part_0; example_stream_part_1]
        example_configured_session
      = (Raise e, s').
Proof.
  split; [vm_compute; reflexivity|].
  apply (@notify_stream_second_part_rejected example_externals).
  - exact (reachable_processed example_config _ 0 (repeat "170"%byte 32)
             example_configure _ _ _ (reachable_accepted example_config 0)
             eq_refl eq_refl).
  - intros part_id_bytes Hpart. vm_compute in Hpart. injection Hpart as <-.
    vm_compute. discriminate.
Defined.

(** The same run, evaluated: part 0 is acknowledged with [CONTINUE_NOTIFY],
    part 1 raises. *)
Example stream_of_two_parts :
  let first :=
    _process_notify_stream (H := example_externals) example_config 0
      example_stream_part_0 example_session in
  first.1 = Ok ()
  ∧ (∃ ack, _make_websocket_message 0 CONTINUE_NOTIFY
              [("x-identifier"%string, b "m1"); ("x-part-id"%string, ["000"%byte])]
              [] = Ok ack
            ∧ trace first.2 = [EvSendTask ack])
  ∧ (_process_notify_stream (H := example_externals) example_config 0
       example_stream_part_1 first.2).1
    = Raise (ValueError "received part out of order").
Proof.
  split; [vm_compute; reflexivity|]. split; [|vm_compute; reflexivity].
  eexists. split; vm_compute; reflexivity.
Qed.

(** ** Ingress pipeline: acknowledgements of the peer *)

(** C6 (as amended). For a [CONTINUE_RECEIVE] or [CONFIRM_RECEIVE] frame
    that carries [x-identifier] (and, for [CONTINUE_RECEIVE], an
    [x-part-id] of at most 8 bytes): if [expecting_acks] is empty the
    processing raises and the session is unchanged; otherwise exactly the
    head of [expecting_acks] is removed and nothing else changes, and the
    processing raises unless the kind, the identifier and (for
    [CONTINUE_RECEIVE]) the part id of the frame equal those of the removed
    descriptor. A frame without these headers, or with a longer part id, is
    rejected before the queue is looked at: nothing is removed. *)
Theorem ack_handling (cfg : Config) (message : _ParsedWSMessage)
    (state : _StateOpen) :
  msg_type message = CONTINUE_RECEIVE ∨ msg_type message = CONFIRM_RECEIVE →
  match acknowledged message with
  | None => ∃ e, _process_message_asap cfg message state = (Raise e, state)
  | Some ack =>
      match expecting_acks state with
      | [] => ∃ e, _process_message_asap cfg message state = (Raise e, state)
      | expected :: rest =>
          if decide (expected = ack)
          then _process_message_asap cfg message state
               = (Ok (), set_expecting_acks rest state)
          else ∃ e, _process_message_asap cfg message state
                    = (Raise e, set_expecting_acks rest state)
      end
  end.
Proof.
  intros [Ht|Ht]; unfold acknowledged, _process_message_asap, get_expecting_ack;
    rewrite Ht; simpl.
  - destruct (msg_headers message !! "x-identifier"%string) as [identifier|];
      simpl; [|by eexists].
    destruct (msg_headers message !! "x-part-id"%string) as [part_id_bytes|];
      simpl; [|by eexists].
    destruct (8 <? len part_id_bytes); [by eexists|].
    session_step.
    destruct (expecting_acks state) as [|expected rest]; [by eexists|].
    session_step.
    destruct expected as [expected_identifier expected_part_id|expected_identifier].
    + destruct (decide (_ = _)) as [[= -> ->]|Hne].
      * rewrite bool_decide_eq_true_2 by done. simpl.
        by rewrite Z.eqb_refl.
      * case_bool_decide as Hid; simpl; [|by eexists].
        destruct (Z.eqb_spec expected_part_id (from_bytes part_id_bytes));
          simpl; [|by eexists].
        congruence.
    + destruct (decide (_ = _)); [done|by eexists].
  - destruct (msg_headers message !! "x-identifier"%string) as [identifier|];
      simpl; [|by eexists].
    session_step.
    destruct (expecting_acks state) as [|expected rest]; [by eexists|].
    session_step.
    destruct expected as [expected_identifier expected_part_id|expected_identifier].
    + destruct (decide (_ = _)); [done|by eexists].
    + destruct (decide (_ = _)) as [[= ->]|Hne].
      * by rewrite bool_decide_eq_true_2.
      * case_bool_decide as Hid; simpl; [|by eexists]. congruence.
Qed.

Lemma ack_handling_witness :
  _process_message_asap example_config
    (mk_ParsedWSMessage 0 CONFIRM_RECEIVE {[ "x-identifier"%string := b "id" ]} [])
    (set_expecting_acks [_ConfirmReceive (b "id"); _ContinueReceive (b "n") 0]
       example_session)
  = (Ok (), set_expecting_acks [_ContinueReceive (b "n") 0] example_session).
Proof.
  exact (ack_handling example_config
           (mk_ParsedWSMessage 0 CONFIRM_RECEIVE
              {[ "x-identifier"%string := b "id" ]} [])
           (set_expecting_acks [_ConfirmReceive (b "id"); _ContinueReceive (b "n") 0]
              example_session)
           (or_intror eq_refl)).
Defined.

(** C6 (as stated) fails on a frame of the peer that lacks [x-identifier]:
    [expecting_acks] is not empty, the processing raises, and no
    descriptor is removed. *)
Lemma ack_handling_counterexample :
  let state := set_expecting_acks [_ConfirmReceive (b "id")] example_session in
  let frame := mk_ParsedWSMessage 0 CONFIRM_RECEIVE ∅ [] in
  expecting_acks state ≠ []
  ∧ _process_message_asap example_config frame state
    = (Raise (ValueError "confirm receive requires identifier"), state)
  ∧ expecting_acks (_process_message_asap example_config frame state).2
    = expecting_acks state.
Proof. repeat split. discriminate. Qed.

(** ** Local receiver: matching a topic against the glob subscriptions *)

(** C2, where the code departs from it. [is_relevant] hands the topic, a
    [bytes] object, to [Pattern.match] of patterns compiled from [str]; the
    topic is not decoded. A topic that is an exact subscription is relevant;
    otherwise, without glob subscriptions the answer is [False], and with at
    least one glob subscription the first [match] raises [TypeError],
    whether or not the topic is valid UTF-8. *)
Theorem is_relevant_glob_raises `{Externals} (self : _MyReceiver) (topic : bytes) :
  (topic ∈ exact_subscriptions self → is_relevant self topic = Ok true)
  ∧ (topic ∉ exact_subscriptions self →
     glob_subscriptions self = [] → is_relevant self topic = Ok false)
  ∧ (topic ∉ exact_subscriptions self →
     glob_subscriptions self ≠ [] →
     is_relevant self topic
     = Raise (TypeError "cannot use a string pattern on a bytes-like object")).
Proof.
  unfold is_relevant. repeat split.
  - intros Hin. by rewrite bool_decide_eq_true_2.
  - intros Hnot ->. by rewrite bool_decide_eq_false_2.
  - intros Hnot Hglobs. rewrite bool_decide_eq_false_2 by done.
    by destruct (glob_subscriptions self) as [|[pattern glob] rest].
Qed.

Lemma is_relevant_glob_raises_witness :
  let run :=
    _process_subscribe_or_unsubscribe (H := example_externals) example_config 0
      example_subscribe_glob example_session in
  run.1 = Ok ()
  ∧ (glob_subscriptions (my_receiver run.2)).*2 = ["room/*"%string]
  ∧ valid_utf8 (b "room/1") = true
  ∧ is_relevant (H := example_externals) (my_receiver run.2) (b "room/1")
    = Raise (TypeError "cannot use a string pattern on a bytes-like object").
Proof.
  split; [vm_compute; reflexivity|].
  split; [vm_compute; reflexivity|].
  split; [vm_compute; reflexivity|].
  apply (@is_relevant_glob_raises example_externals).
  - intros Hin. apply (bool_decide_pack _) in Hin. vm_compute in Hin. exact Hin.
  - vm_compute. discriminate.
Defined.

(** ** Ingress pipeline: the order of confirming and registering *)

Section subscribe_order.

Context `{Externals} (cfg : Config) (now : Z).

Lemma send_or_enqueue_trace (data : bytes) (s : _StateOpen) (r : result ())
    (s' : _StateOpen) :
  send_or_enqueue cfg data s = (r, s') →
  r = Ok ()
  ∧ (trace s' = trace s ++ [EvSendTask data]
     ∨ trace s' = trace s ++ [EvPendingSend data]).
Proof.
  unfold send_or_enqueue. intros Hrun. session_cases Hrun.
  all: injection Hrun as <- <-; split; [done|]; session_read; auto.
Qed.

Lemma subscribe_exact_order (message : _ParsedWSMessage) (state s' : _StateOpen) :
  msg_type message = SUBSCRIBE_EXACT →
  _process_subscribe_or_unsubscribe cfg now message state = (Ok (), s') →
  ∃ topic confirm,
    msg_headers message !! "x-topic"%string = Some topic
    ∧ _make_websocket_message (msg_flags message) CONFIRM_SUBSCRIBE_EXACT
        [("x-topic"%string, topic)] [] = Ok confirm
    ∧ (trace s' = trace state
                  ++ [EvExactAdd topic; EvIncrementExact topic; EvSendTask confirm]
       ∨ trace s' = trace state
                    ++ [EvExactAdd topic; EvIncrementExact topic;
                        EvPendingSend confirm]).
Proof.
  intros Ht Hrun.
  unfold _process_subscribe_or_unsubscribe,
    _make_for_receive_websocket_url_and_change_counter, getitem in Hrun.
  rewrite Ht in Hrun. simpl in Hrun.
  session_cases Hrun.
  all: try discriminate.
  all: match goal with
       | Hq : send_or_enqueue _ _ _ = _ |- _ =>
           apply send_or_enqueue_trace in Hq as [_ Hq]; session_read_in Hq
       end.
  all: do 2 eexists; split; [done|]; split; [done|].
  all: rewrite <- !app_assoc in Hrun; exact Hrun.
Qed.

Lemma subscribe_glob_order (message : _ParsedWSMessage) (state s' : _StateOpen) :
  msg_type message = SUBSCRIBE_GLOB →
  _process_subscribe_or_unsubscribe cfg now message state = (Ok (), s') →
  ∃ glob_bytes glob confirm,
    msg_headers message !! "x-glob"%string = Some glob_bytes
    ∧ decode_utf8 glob_bytes = Ok glob
    ∧ _make_websocket_message (msg_flags message) CONFIRM_SUBSCRIBE_GLOB
        [("x-glob"%string, encode_utf8 glob)] [] = Ok confirm
    ∧ (trace s' = trace state
                  ++ [EvGlobAppend glob; EvIncrementGlob glob; EvSendTask confirm]
       ∨ trace s' = trace state
                    ++ [EvGlobAppend glob; EvIncrementGlob glob;
                        EvPendingSend confirm]).
Proof.
  intros Ht Hrun.
  unfold _process_subscribe_or_unsubscribe,
    _make_for_receive_websocket_url_and_change_counter, getitem in Hrun.
  rewrite Ht in Hrun. simpl in Hrun.
  session_cases Hrun.
  all: try discriminate.
  all: match goal with
       | Hq : send_or_enqueue _ _ _ = _ |- _ =>
           apply send_or_enqueue_trace in Hq as [_ Hq]; session_read_in Hq
       end.
  all: do 3 eexists; split; [done|]; split; [done|]; split; [done|].
  all: rewrite <- !app_assoc in Hrun; exact Hrun.
Qed.

(** The refactored processor enqueues the confirmation first. *)
Lemma refactored_subscribe_exact_order (serialize : bytes → bytes)
    (message : S2B_SubscribeExact) (state s' : _StateOpen) :
  process_subscribe_exact cfg serialize now message state = (Ok (), s') →
  (s2b_topic message ∉ exact_subscriptions (my_receiver state))
  ∧ (trace s' = trace state
                ++ [EvSendTask (serialize (s2b_topic message));
                    EvExactAdd (s2b_topic message);
                    EvIncrementExact (s2b_topic message)]
     ∨ trace s' = trace state
                  ++ [EvPendingSend (serialize (s2b_topic message));
                      EvExactAdd (s2b_topic message);
                      EvIncrementExact (s2b_topic message)]).
Proof.
  intros Hrun.
  unfold process_subscribe_exact, send_simple_asap,
    _make_for_receive_websocket_url_and_change_counter in Hrun.
  session_cases Hrun.
  match goal with
  | Hq : send_or_enqueue _ _ _ = _ |- _ =>
      apply send_or_enqueue_trace in Hq as [_ Hq]; session_read_in Hq
  end.
  injection Hrun as <-. session_read.
  split; [by match goal with
             | Hin : bool_decide (_ ∈ _) = false |- _ =>
                 apply bool_decide_eq_false in Hin
             end|].
  match goal with
  | Hq : _ ∨ _ |- _ => destruct Hq as [-> | ->]; rewrite <- !app_assoc; auto
  end.
Qed.

End subscribe_order.

(** C4, where the code departs from it. When
    [_process_subscribe_or_unsubscribe] accepts a [SUBSCRIBE_EXACT] or a
    [SUBSCRIBE_GLOB], it first inserts the subscription into the local set
    or list, then increments the counter of the fanout hub, and only then
    hands the [CONFIRM_SUBSCRIBE] frame to the send slot (or queues it): the
    confirmation is the last of the three steps, not the first. *)
Theorem subscribe_confirms_after_registering `{Externals} (cfg : Config)
    (now : Z) (message : _ParsedWSMessage) (state s' : _StateOpen) :
  msg_type message = SUBSCRIBE_EXACT ∨ msg_type message = SUBSCRIBE_GLOB →
  _process_subscribe_or_unsubscribe cfg now message state = (Ok (), s') →
  ∃ registered incremented confirm,
    (trace s' = trace state ++ [registered; incremented; EvSendTask confirm]
     ∨ trace s' = trace state ++ [registered; incremented; EvPendingSend confirm])
    ∧ ((∃ topic,
          msg_headers message !! "x-topic"%string = Some topic
          ∧ registered = EvExactAdd topic ∧ incremented = EvIncrementExact topic
          ∧ _make_websocket_message (msg_flags message) CONFIRM_SUBSCRIBE_EXACT
              [("x-topic"%string, topic)] [] = Ok confirm)
       ∨ (∃ glob_bytes glob,
            msg_headers message !! "x-glob"%string = Some glob_bytes
            ∧ decode_utf8 glob_bytes = Ok glob
            ∧ registered = EvGlobAppend glob ∧ incremented = EvIncrementGlob glob
            ∧ _make_websocket_message (msg_flags message) CONFIRM_SUBSCRIBE_GLOB
                [("x-glob"%string, encode_utf8 glob)] [] = Ok confirm)).
Proof.
  intros [Ht|Ht] Hrun.
  - destruct (subscribe_exact_order cfg now _ _ _ Ht Hrun)
      as (topic & confirm & Htopic & Hconfirm & Htrace).
    exists (EvExactAdd topic), (EvIncrementExact topic), confirm.
    split; [done|]. left. by exists topic.
  - destruct (subscribe_glob_order cfg now _ _ _ Ht Hrun)
      as (glob_bytes & glob & confirm & Hglob & Hdec & Hconfirm & Htrace).
    exists (EvGlobAppend glob), (EvIncrementGlob glob), confirm.
    split; [done|]. right. by exists glob_bytes, glob.
Qed.

Lemma subscribe_confirms_after_registering_witness :
  ∃ confirm,
    _make_websocket_message 0 CONFIRM_SUBSCRIBE_EXACT
      [("x-topic"%string, b "room/1")] [] = Ok confirm
    ∧ trace (_process_subscribe_or_unsubscribe (H := example_externals)
               example_config 0 example_subscribe_exact example_session).2
      = [EvExactAdd (b "room/1"); EvIncrementExact (b "room/1");
         EvSendTask confirm].
Proof.
  destruct (_process_subscribe_or_unsubscribe (H := example_externals)
              example_config 0 example_subscribe_exact example_session)
    as [r s'] eqn:Hrun.
  assert (r = Ok ()) as -> by (vm_compute in Hrun; congruence).
  destruct (@subscribe_confirms_after_registering example_externals
              example_config 0 example_subscribe_exact example_session s'
              (or_introl eq_refl) Hrun)
    as (registered & incremented & confirm & Htrace & Hwhat).
  destruct Hwhat as [(topic & Htopic & -> & -> & Hconfirm)
                    |(glob_bytes & glob & Hglob & _)];
    [|vm_compute in Hglob; discriminate].
  vm_compute in Htopic. injection Htopic as <-.
  exists confirm. split; [exact Hconfirm|].
  destruct Htrace as [Htrace|Htrace]; [exact Htrace|].
  exfalso. vm_compute in Hrun. injection Hrun as <-.
  vm_compute in Htrace. discriminate.
Defined.

(** The two processors on the same request: the refactored one confirms
    first, the monolithic one confirms last. *)
Example subscribe_exact_both_paths :
  ∃ confirm,
    _make_websocket_message 0 CONFIRM_SUBSCRIBE_EXACT
      [("x-topic"%string, b "room/1")] [] = Ok confirm
    ∧ trace (process_subscribe_exact example_config (λ _, confirm) 0
               (mk_S2B_SubscribeExact (Some "tok"%string) (b "room/1"))
               example_session).2
      = [EvSendTask confirm; EvExactAdd (b "room/1");
         EvIncrementExact (b "room/1")]
    ∧ trace (_process_subscribe_or_unsubscribe (H := example_externals)
               example_config 0 example_subscribe_exact example_session).2
      = [EvExactAdd (b "room/1"); EvIncrementExact (b "room/1");
         EvSendTask confirm].
Proof. eexists. repeat split; vm_compute; reflexivity. Qed.

(** ** Numbers in headers *)

Section numbers.

Lemma bit_length_bounds (n : Z) :
  0 < n → 2 ^ (bit_length n - 1) ≤ n < 2 ^ bit_length n.
Proof.
  destruct n as [|p|p]; try lia. intros _. unfold bit_length.
  pose proof (Pos.size_gt p) as Hgt. pose proof (Pos.size_le p) as Hle.
  apply Pos2Z.pos_lt_pos in Hgt. apply Pos2Z.pos_le_pos in Hle.
  rewrite Pos2Z.inj_pow in Hgt, Hle.
  split; [|done].
  replace (Z.pos (Pos.size p)) with (Z.pos (Pos.size p) - 1 + 1) in Hle by lia.
  rewrite Z.pow_add_r in Hle by lia. lia.
Qed.

Lemma bit_length_nonneg (n : Z) : 0 ≤ bit_length n.
Proof. destruct n; simpl; lia. Qed.

Lemma from_bytes_range (b : bytes) : 0 ≤ from_bytes b < 256 ^ len b.
Proof.
  induction b as [|x b IH] using rev_ind; [done|].
  rewrite from_bytes_snoc. unfold len in *. rewrite length_app. simpl.
  pose proof (byte_to_Z_range x).
  replace (Z.of_nat (length b + 1)) with (Z.of_nat (length b) + 1) by lia.
  rewrite Z.pow_add_r by lia. lia.
Qed.

(** The size [_smallest_unsigned_size] gives is enough for the number. *)
Lemma smallest_size_fits (n : Z) :
  0 ≤ n → n < 256 ^ ((bit_length n - 1) / 8 + 1).
Proof.
  intros Hn. destruct (Z.eq_dec n 0) as [->|Hnz]; [done|].
  pose proof (bit_length_bounds n) as [_ Hlt]; [lia|].
  pose proof (bit_length_nonneg n).
  eapply Z.lt_le_trans; [done|].
  change 256 with (2 ^ 8). rewrite <- Z.pow_mul_r by (try lia; Z.div_mod_to_equations; lia).
  apply Z.pow_le_mono_r; [lia|]. Z.div_mod_to_equations. lia.
Qed.

Lemma smallest_size_nonneg (n : Z) : 0 ≤ (bit_length n - 1) / 8 + 1.
Proof. pose proof (bit_length_nonneg n). Z.div_mod_to_equations. lia. Qed.

(** A number is written in as many bytes as it needs, and read back. *)
Lemma smallest_to_bytes_ok (n : Z) :
  0 ≤ n →
  ∃ b, smallest_to_bytes n = Ok b
       ∧ from_bytes b = n
       ∧ len b = (bit_length n - 1) / 8 + 1.
Proof.
  intros Hn. unfold smallest_to_bytes, _smallest_unsigned_size.
  destruct (Z.ltb_spec n 0); [lia|].
  cbv beta iota delta [mbind result_bind Py.bind].
  pose proof (smallest_size_nonneg n) as Hsz.
  destruct (to_bytes_ok n (Z.to_nat ((bit_length n - 1) / 8 + 1)))
    as (b & Hb & Hfrom & Hlen).
  { rewrite Z2Nat.id by done. split; [done|]. by apply smallest_size_fits. }
  exists b. unfold len. rewrite Hlen, Z2Nat.id by done. done.
Qed.

Lemma smallest_to_bytes_negative (n : Z) :
  n < 0 → smallest_to_bytes n = Raise AssertionError.
Proof.
  intros Hn. unfold smallest_to_bytes, _smallest_unsigned_size.
  by destruct (Z.ltb_spec n 0); [|lia].
Qed.

Lemma smallest_to_bytes_short (n : Z) (b : bytes) :
  0 ≤ n < 2 ^ 64 → smallest_to_bytes n = Ok b → len b ≤ 8.
Proof.
  intros Hn Hb. destruct (smallest_to_bytes_ok n) as (b' & Hb' & _ & Hlen); [lia|].
  rewrite Hb in Hb'. injection Hb' as <-. rewrite Hlen.
  destruct (Z.eq_dec n 0) as [->|Hnz]; [done|].
  pose proof (bit_length_bounds n) as [Hle _]; [lia|].
  assert (bit_length n - 1 < 64).
  { apply (Z.pow_lt_mono_r_iff 2); lia. }
  Z.div_mod_to_equations. lia.
Qed.

End numbers.

(** ** The size of a digest *)

Section digests.

Context (v : SHA2.variant).

Lemma round_length (h : list Z) (kw : Z * Z) :
  length (SHA2.round v h kw) = length h.
Proof.
  unfold SHA2.round.
  by destruct h as [|? [|? [|? [|? [|? [|? [|? [|? [|? ?]]]]]]]]].
Qed.

Lemma rounds_length (kws : list (Z * Z)) (h : list Z) :
  length (fold_left (SHA2.round v) kws h) = length h.
Proof.
  revert h. induction kws as [|kw kws IH]; intros h; [done|].
  simpl. by rewrite IH, round_length.
Qed.

Lemma compress_length (K h : list Z) (block : bytes) :
  length (SHA2.compress v K h block) = length h.
Proof.
  unfold SHA2.compress. rewrite length_fmap, length_zip_with, rounds_length. lia.
Qed.

Lemma hash_words_length (K H0 : list Z) (message : bytes) :
  length (SHA2.hash_words v K H0 message) = length H0.
Proof.
  unfold SHA2.hash_words. generalize (SHA2.chunks (SHA2.block_bytes v)
    (length (SHA2.pad v message) / SHA2.block_bytes v) (SHA2.pad v message)).
  intros blocks. revert H0. induction blocks as [|b blocks IH]; intros H0; [done|].
  simpl. by rewrite IH, compress_length.
Qed.

Lemma digest_of_words_length (words : list Z) :
  length (SHA2.digest_of_words v words)
  = (length words * SHA2.word_bytes v)%nat.
Proof.
  unfold SHA2.digest_of_words. induction words as [|w words IH]; [done|].
  rewrite fmap_cons, concat_cons, length_app, IH, length_rev, length_digits.
  simpl. lia.
Qed.

End digests.


Lemma sha256_length (data : bytes) : length (sha256 data) = 32%nat.
Proof.
  unfold sha256, SHA2.sha256.
  by rewrite digest_of_words_length, hash_words_length.
Qed.

(** X1. Numbers in headers. [n.to_bytes(_smallest_unsigned_size(n), "big")]
    never overflows for a number that is not negative: it gives bytes
    that read back as the number with [int.from_bytes], and no byte
    string that reads as the number is shorter (zero is written as the
    empty string). On a negative number the [assert] of
    [_smallest_unsigned_size] fails. *)
Theorem smallest_unsigned_encoding (n : Z) :
  (n < 0 → smallest_to_bytes n = Raise AssertionError)
  ∧ (0 ≤ n →
     ∃ b, smallest_to_bytes n = Ok b
          ∧ from_bytes b = n
          ∧ (n = 0 → b = [])
          ∧ ∀ b', from_bytes b' = n → len b ≤ len b').
Proof.
  split; [apply smallest_to_bytes_negative|].
  intros Hn. destruct (smallest_to_bytes_ok n Hn) as (b & Hb & Hfrom & Hlen).
  exists b. split; [done|]. split; [done|]. split.
  - intros ->. destruct b; [done|].
    change ((bit_length 0 - 1) / 8 + 1) with 0 in Hlen.
    unfold len in Hlen. cbn [length] in Hlen. lia.
  - intros b' Hb'. rewrite Hlen.
    pose proof (from_bytes_range b') as [_ Hlt]. rewrite Hb' in Hlt.
    assert (0 ≤ len b') by (unfold len; lia).
    destruct (Z.eq_dec n 0) as [->|Hnz];
      [change ((bit_length 0 - 1) / 8 + 1) with 0; lia|].
    pose proof (bit_length_bounds n) as [Hle _]; [lia|].
    pose proof (bit_length_nonneg n).
    change 256 with (2 ^ 8) in Hlt. rewrite <- Z.pow_mul_r in Hlt by lia.
    assert (bit_length n - 1 < 8 * len b').
    { apply (Z.pow_lt_mono_r_iff 2); lia. }
    Z.div_mod_to_equations. lia.
Qed.

Lemma smallest_unsigned_encoding_witness :
  smallest_to_bytes (-1) = Raise AssertionError
  ∧ ∃ b, smallest_to_bytes 65536 = Ok b
         ∧ from_bytes b = 65536
         ∧ (65536 = 0 → b = [])
         ∧ ∀ b', from_bytes b' = 65536 → len b ≤ len b'.
Proof.
  split.
  - apply (proj1 (smallest_unsigned_encoding (-1))). lia.
  - apply (proj2 (smallest_unsigned_encoding 65536)). lia.
Defined.

(** ** Dictionary trainer: the samples that reach the provider *)

Section trainer.

Context (cfg : Config).

Lemma set_training_data_twice (a b : option _CompressorTrainingInfo)
    (state : _StateOpen) :
  set_training_data a (set_training_data b state) = set_training_data a state.
Proof. by destruct state. Qed.

(** The records of the sampler are read back, whatever the fuel above the
    size of the file. *)
Lemma read_samples_loop_records (samples acc : list bytes) (fuel : nat) :
  Forall (λ data, len data < 2 ^ 32) samples →
  (length (sample_records samples) < fuel)%nat →
  read_samples_loop fuel (sample_records samples) acc = Some (Ok (acc ++ samples)).
Proof.
  revert acc fuel. induction samples as [|data samples IH]; intros acc fuel Hs Hf.
  - destruct fuel; [lia|]. by rewrite app_nil_r.
  - apply Forall_cons in Hs as [Hd Hs].
    destruct fuel as [|fuel]; [lia|].
    unfold sample_records in *. rewrite fmap_cons, concat_cons in *.
    set (length_bytes := rev (digits_le (len data) 4)) in *.
    assert (length length_bytes = 4%nat) as Hl
      by (unfold length_bytes; by rewrite length_rev, length_digits).
    rewrite !length_app, Hl in Hf.
    cbn [read_samples_loop]. rewrite <- !app_assoc.
    rewrite (take_app_length' _ _ 4 (eq_sym Hl)), (drop_app_length' _ _ 4 (eq_sym Hl)).
    rewrite bool_decide_eq_false_2 by (by destruct length_bytes).
    unfold len at 1. rewrite Hl. cbn [Z.of_nat Pos.of_succ_nat Pos.succ Z.eqb
      Pos.eqb negb].
    unfold length_bytes at 1. rewrite from_bytes_digits by (unfold len; lia).
    change (256 ^ Z.of_nat 4) with (2 ^ 32).
    rewrite Z.mod_small by (unfold len in *; lia).
    rewrite read_exact_app, IH by (done || lia).
    by rewrite <- app_assoc.
Qed.

Lemma read_samples_records (samples : list bytes) :
  Forall (λ data, len data < 2 ^ 32) samples →
  read_samples (sample_records samples) = Ok samples.
Proof.
  intros Hs. unfold read_samples.
  by rewrite (read_samples_loop_records samples []) by (done || lia).
Qed.

Lemma total_length_snoc (samples : list bytes) (data : bytes) :
  total_length (samples ++ [data]) = total_length samples + len data.
Proof.
  unfold total_length. induction samples as [|d s IH]; simpl; [lia|].
  rewrite IH. lia.
Qed.

Lemma sample_records_snoc (samples : list bytes) (data : bytes) :
  sample_records (samples ++ [data])
  = sample_records samples ++ rev (digits_le (len data) 4) ++ data.
Proof.
  unfold sample_records. rewrite fmap_app, concat_app. simpl.
  by rewrite app_nil_r.
Qed.

(** One payload: it is added to the samples when its size is sampled. *)
Lemma store_small_collects (now : Z) (data : bytes) (state : _StateOpen)
    (samples : list bytes) (c : _CompressorTrainingDataCollector) (dirty : bool) :
  compression_trained_max_size cfg ≤ 2 ^ 32 →
  collects state samples c dirty →
  ∃ c' dirty',
    _store_small_for_compression_training cfg now data state
    = (Ok (), set_training_data (Some (BeforeLowWatermark c' dirty')) state)
    ∧ collects (set_training_data (Some (BeforeLowWatermark c' dirty')) state)
        (samples ++ (if sample_eligible cfg (len data) then [data] else []))
        c' dirty'.
Proof.
  intros Hmax (Ht & Hfile & Hlen & Hmsg).
  destruct (sample_eligible cfg (len data)) eqn:He.
  - destruct (store_small_feeds cfg now data state c Hmax He) as (lb & Hlb & ->).
    { unfold open_collector. by rewrite Ht. }
    unfold training_data_with. rewrite Ht.
    eexists _, _. split; [done|]. split; [done|].
    unfold to_bytes in Hlb. destruct (_ || _); [discriminate|].
    injection Hlb as <-. cbn [feed_collector tmpfile collector_length messages].
    rewrite sample_records_snoc, total_length_snoc, Hfile, Hlen, Hmsg.
    unfold len. rewrite length_app. simpl. repeat split; lia.
  - rewrite store_small_skips by (by left).
    exists c, dirty. rewrite <- Ht, set_training_data_same, app_nil_r.
    by repeat split.
Qed.

Lemma sampled_cons (now : Z) (data : bytes) (payloads : list (Z * bytes)) :
  sampled cfg ((now, data) :: payloads)
  = (if sample_eligible cfg (len data) then [data] else []) ++ sampled cfg payloads.
Proof.
  unfold sampled. rewrite fmap_cons. cbn [snd].
  rewrite filter_cons. by destruct (sample_eligible cfg (len data)); case_decide.
Qed.

(** A sequence of payloads: the samples are those of a sampled size, in
    the order of the sequence. *)
Lemma store_small_samples_collects (payloads : list (Z * bytes))
    (state : _StateOpen) (samples : list bytes)
    (c : _CompressorTrainingDataCollector) (dirty : bool) :
  compression_trained_max_size cfg ≤ 2 ^ 32 →
  collects state samples c dirty →
  ∃ c' dirty',
    store_small_samples cfg payloads state
    = (Ok (), set_training_data (Some (BeforeLowWatermark c' dirty')) state)
    ∧ collects (set_training_data (Some (BeforeLowWatermark c' dirty')) state)
        (samples ++ sampled cfg payloads) c' dirty'.
Proof.
  intros Hmax. revert state samples c dirty.
  induction payloads as [|[now data] payloads IH]; intros state samples c dirty Hc.
  - exists c, dirty. cbn [store_small_samples]. session_step.
    pose proof Hc as (Ht & _). rewrite <- Ht, set_training_data_same.
    unfold sampled. by rewrite app_nil_r.
  - destruct (store_small_collects now data state samples c dirty Hmax Hc)
      as (c1 & d1 & Hrun & Hc1).
    destruct (IH _ _ _ _ Hc1) as (c2 & d2 & Hrest & Hc2).
    exists c2, d2. cbn [store_small_samples]. session_step.
    rewrite Hrun, Hrest, set_training_data_twice in *.
    split; [done|]. by rewrite sampled_cons, app_assoc.
Qed.

Lemma sampled_sizes (payloads : list (Z * bytes)) :
  compression_trained_max_size cfg ≤ 2 ^ 32 →
  Forall (λ data, len data < 2 ^ 32) (sampled cfg payloads).
Proof.
  intros Hmax. unfold sampled. apply Forall_forall. intros data Hin.
  apply list_elem_of_filter in Hin as [He _].
  unfold sample_eligible in He. apply andb_true_iff in He as [_ He].
  apply Z.ltb_lt in He. lia.
Qed.

(** Training on a collector that holds [samples]: the provider gets them,
    the dictionary gets the id of the counter, which advances, and goes
    to the active slot. *)
Lemma train_and_rotate_records (train : list bytes → bytes * Z)
    (c : _CompressorTrainingDataCollector) (samples : list bytes)
    (state : _StateOpen) :
  Forall (λ data, len data < 2 ^ 32) samples →
  tmpfile c = sample_records samples →
  ∃ state',
    train_and_rotate train c state = (Ok (), state')
    ∧ active_compressor state'
      = Some (Preparing (custom_compression_dict_counter state)
                (_make_trained_compressor train samples
                   (custom_compression_dict_counter state)))
    ∧ last_compressor state' = active_compressor state
    ∧ custom_compression_dict_counter state'
      = custom_compression_dict_counter state + 1
    ∧ training_data state' = training_data state.
Proof.
  intros Hs Hfile. unfold train_and_rotate, _rotate_compressor.
  rewrite Hfile, read_samples_records by done. session_step.
  destruct (last_compressor state) as [[?|? ?]|]; session_step;
    eexists; by repeat split.
Qed.

End trainer.

(** X2. The dictionary of the low watermark is trained on what the
    sampler stored. When small payloads are handed to the sampler of a
    session whose collector is new, and the sizes of those it samples add
    up to at least the low and less than the high watermark,
    [_check_training_data] reads back exactly the payloads of a sampled
    size, in their order, and hands them to the low-watermark provider;
    the dictionary gets the id of the session's dictionary counter, which
    advances by one, and is rotated into the active slot; the training
    goes on to the high watermark with the same collector, marked
    clean. *)
Theorem trainer_uses_stored_samples (cfg : Config) (now : Z)
    (payloads : list (Z * bytes)) (state : _StateOpen) (started_at : Z)
    (dirty : bool) :
  compression_trained_max_size cfg ≤ 2 ^ 32 →
  training_data state = Some (BeforeLowWatermark (new_collector started_at) dirty) →
  compression_training_low_watermark cfg ≤ total_length (sampled cfg payloads)
    < compression_training_high_watermark cfg →
  ∃ state1 state2 collector,
    store_small_samples cfg payloads state = (Ok (), state1)
    ∧ _check_training_data cfg now state1 = (Ok (), state2)
    ∧ active_compressor state2
      = Some (Preparing (custom_compression_dict_counter state)
                (_make_trained_compressor (train_compression_dict_low_watermark cfg)
                   (sampled cfg payloads) (custom_compression_dict_counter state)))
    ∧ last_compressor state2 = active_compressor state
    ∧ custom_compression_dict_counter state2
      = custom_compression_dict_counter state + 1
    ∧ training_data state2 = Some (BeforeHighWatermark collector false)
    ∧ read_samples (tmpfile collector) = Ok (sampled cfg payloads)
    ∧ collector_length collector = total_length (sampled cfg payloads)
    ∧ messages collector = len (sampled cfg payloads).
Proof.
  intros Hmax Ht Hmarks.
  destruct (store_small_samples_collects cfg payloads state []
              (new_collector started_at) dirty Hmax)
    as (c & d & Hstore & Hc); [by repeat split|].
  rewrite app_nil_l in Hc. destruct Hc as (Ht1 & Hfile & Hlen & Hmsg).
  pose proof (sampled_sizes cfg payloads Hmax) as Hsizes.
  set (state1 := set_training_data _ state) in *.
  destruct (train_and_rotate_records (train_compression_dict_low_watermark cfg)
              c _ state1 Hsizes Hfile) as (s' & Hrun & Ha & Hl & Hctr & _).
  exists state1, (set_training_data (Some (BeforeHighWatermark c false)) s'), c.
  split; [done|]. split.
  - unfold _check_training_data. session_step. rewrite Ht1, Hlen.
    destruct (Z.leb_spec (compression_training_high_watermark cfg)
                (total_length (sampled cfg payloads))); [lia|].
    destruct (Z.ltb_spec (total_length (sampled cfg payloads))
                (compression_training_low_watermark cfg)); [lia|].
    session_step. by rewrite Hrun.
  - session_read. rewrite Ha, Hl, Hctr, Hfile.
    rewrite read_samples_records by done. by destruct state.
Qed.

Lemma trainer_uses_stored_samples_witness :
  let payloads := [(1, b "hello"); (2, b "x"); (3, b "world!")] in
  let state := _handle_accepting example_training_config 0 in
  sampled example_training_config payloads = [b "hello"; b "world!"]
  ∧ ∃ state1 state2 collector,
      store_small_samples example_training_config payloads state = (Ok (), state1)
      ∧ _check_training_data example_training_config 4 state1 = (Ok (), state2)
      ∧ active_compressor state2
        = Some (Preparing (custom_compression_dict_counter state)
                  (_make_trained_compressor
                     (train_compression_dict_low_watermark example_training_config)
                     (sampled example_training_config payloads)
                     (custom_compression_dict_counter state)))
      ∧ last_compressor state2 = active_compressor state
      ∧ custom_compression_dict_counter state2
        = custom_compression_dict_counter state + 1
      ∧ training_data state2 = Some (BeforeHighWatermark collector false)
      ∧ read_samples (tmpfile collector)
        = Ok (sampled example_training_config payloads)
      ∧ collector_length collector
        = total_length (sampled example_training_config payloads)
      ∧ messages collector = len (sampled example_training_config payloads).
Proof.
  split; [vm_compute; reflexivity|].
  apply (trainer_uses_stored_samples example_training_config 4 _ _ 0 false).
  - vm_compute. discriminate.
  - reflexivity.
  - vm_compute. split; [discriminate|reflexivity].
Defined.

(** X3. The low watermark is skipped when the samples have already
    reached the high one. With sampled sizes that add up to the high
    watermark or more, a first [_check_training_data] trains nothing: it
    moves the training to the high watermark and leaves it marked dirty;
    the next one hands the samples to the high-watermark provider, rotates
    that dictionary into the active slot under the id of the counter,
    which has advanced once in all, and the session waits for the next
    refresh, timed from the second check. *)
Theorem trainer_skips_low_watermark (cfg : Config) (now1 now2 : Z)
    (payloads : list (Z * bytes)) (state : _StateOpen) (started_at : Z)
    (dirty : bool) :
  compression_trained_max_size cfg ≤ 2 ^ 32 →
  training_data state = Some (BeforeLowWatermark (new_collector started_at) dirty) →
  compression_training_high_watermark cfg ≤ total_length (sampled cfg payloads) →
  ∃ state1 state2 state3 collector,
    store_small_samples cfg payloads state = (Ok (), state1)
    ∧ _check_training_data cfg now1 state1 = (Ok (), state2)
    ∧ state2 = set_training_data (Some (BeforeHighWatermark collector true)) state
    ∧ _check_training_data cfg now2 state2 = (Ok (), state3)
    ∧ active_compressor state3
      = Some (Preparing (custom_compression_dict_counter state)
                (_make_trained_compressor (train_compression_dict_high_watermark cfg)
                   (sampled cfg payloads) (custom_compression_dict_counter state)))
    ∧ last_compressor state3 = active_compressor state
    ∧ custom_compression_dict_counter state3
      = custom_compression_dict_counter state + 1
    ∧ training_data state3 = Some (WaitingToRefresh now2).
Proof.
  intros Hmax Ht Hmark.
  destruct (store_small_samples_collects cfg payloads state []
              (new_collector started_at) dirty Hmax)
    as (c & d & Hstore & Hc); [by repeat split|].
  rewrite app_nil_l in Hc. destruct Hc as (Ht1 & Hfile & Hlen & Hmsg).
  pose proof (sampled_sizes cfg payloads Hmax) as Hsizes.
  set (state1 := set_training_data _ state) in *.
  remember (set_training_data (Some (BeforeHighWatermark c true)) state)
    as state2 eqn:Hs2.
  assert (training_data state2 = Some (BeforeHighWatermark c true)) as Ht2
    by (by rewrite Hs2).
  destruct (train_and_rotate_records (train_compression_dict_high_watermark cfg)
              c _ state2 Hsizes Hfile) as (s' & Hrun & Ha & Hl & Hctr & _).
  exists state1, state2, (set_training_data (Some (WaitingToRefresh now2)) s'), c.
  split; [done|]. split; [|split; [done|split]].
  - unfold _check_training_data. session_step. rewrite Ht1, Hlen.
    destruct (Z.leb_spec (compression_training_high_watermark cfg)
                (total_length (sampled cfg payloads))); [|lia].
    session_step. unfold state1. by rewrite Hs2, set_training_data_twice.
  - unfold _check_training_data. session_step. rewrite Ht2, Hlen.
    destruct (Z.ltb_spec (total_length (sampled cfg payloads))
                (compression_training_high_watermark cfg)); [lia|].
    session_step. by rewrite Hrun.
  - session_read. rewrite Ha, Hl, Hctr, Hs2. by destruct state.
Qed.

Lemma trainer_skips_low_watermark_witness :
  let payloads := [(1, b "hello, "); (2, b "x"); (3, b "world! 123")] in
  let state := _handle_accepting example_training_config 0 in
  ∃ state1 state2 state3 collector,
    store_small_samples example_training_config payloads state = (Ok (), state1)
    ∧ _check_training_data example_training_config 4 state1 = (Ok (), state2)
    ∧ state2 = set_training_data (Some (BeforeHighWatermark collector true)) state
    ∧ _check_training_data example_training_config 5 state2 = (Ok (), state3)
    ∧ active_compressor state3
      = Some (Preparing (custom_compression_dict_counter state)
                (_make_trained_compressor
                   (train_compression_dict_high_watermark example_training_config)
                   (sampled example_training_config payloads)
                   (custom_compression_dict_counter state)))
    ∧ last_compressor state3 = active_compressor state
    ∧ custom_compression_dict_counter state3
      = custom_compression_dict_counter state + 1
    ∧ training_data state3 = Some (WaitingToRefresh 5).
Proof.
  apply (trainer_skips_low_watermark example_training_config 4 5 _ _ 0 false).
  - vm_compute. discriminate.
  - reflexivity.
  - vm_compute. discriminate.
Defined.

(** ** Egress pipeline: what a sending puts on the wire *)

Section egress.

Context (cfg : Config).

(** Case analysis on whatever the goal branches on. *)
Ltac goal_cases :=
  repeat (session_step;
          lazymatch goal with
          | |- context [match ?x with _ => _ end] =>
              let y := innermost_scrutinee x in destruct y eqn:?
          end).

(** Making a prefix advances the counter of the urls, and nothing else;
    without a configuration it fails at once. *)
Lemma make_prefix_state (now : Z) (topic sha id : bytes) (part dict clen dlen : Z)
    (s : _StateOpen) :
  (_make_receive_stream_message_prefix cfg now topic sha id part dict clen dlen s).2
  = match socket_level_config s with
    | Some _ => set_broadcaster_counter (broadcaster_counter s + 1) s
    | None => s
    end.
Proof.
  unfold _make_receive_stream_message_prefix,
    _make_for_send_websocket_url_and_change_counter.
  goal_cases; done.
Qed.





Lemma length_drop_lt {A} (n : nat) (l : list A) :
  l ≠ [] → (0 < n)%nat → (length (drop n l) < length l)%nat.
Proof. intros Hl Hn. rewrite length_drop. destruct l; [done|]. simpl. lia. Qed.


Lemma make_websocket_message_minimal_ok (t : _OutgoingParsedWSMessageType)
    (headers : list (string * bytes)) (body : bytes) :
  forallb (λ kv, fits_u16 kv.2) headers = true →
  ∃ w, _make_websocket_message MINIMAL_HEADERS t headers body = Ok w.
Proof.
  intros Hfit. destruct (write_minimal_headers_ok headers Hfit) as (w & Hw).
  unfold _make_websocket_message.
  change (to_bytes MINIMAL_HEADERS 2) with (Ok ["000"; "001"]%byte).
  change (has_minimal_headers MINIMAL_HEADERS) with true.
  cbv beta iota delta [mbind result_bind Py.bind]. rewrite Hw.
  destruct t; by eexists.
Qed.



(** The sampler changes the training state only, and it does not raise
    when the lengths it writes fit four bytes. *)
Lemma store_small_state (now : Z) (data : bytes) (s : _StateOpen)
    (r : result ()) (s1 : _StateOpen) :
  _store_small_for_compression_training cfg now data s = (r, s1) →
  s1 = set_training_data (training_data s1) s.
Proof.
  unfold _store_small_for_compression_training,
    _handle_if_should_start_retraining.
  intros Hrun. session_cases Hrun.
  all: injection Hrun as <- <-; by destruct s.
Qed.

Lemma store_small_ok (now : Z) (data : bytes) (s : _StateOpen) :
  compression_trained_max_size cfg ≤ 2 ^ 32 →
  (_store_small_for_compression_training cfg now data s).1 = Ok ().
Proof.
  intros Hmax.
  destruct (sample_eligible cfg (len data)) eqn:He;
    [destruct (open_collector cfg now s) as [c|] eqn:Hc|].
  - by destruct (store_small_feeds cfg now data s c Hmax He Hc) as (lb & _ & ->).
  - by rewrite store_small_skips by (by right).
  - by rewrite store_small_skips by (by left).
Qed.

End egress.



(** The example, evaluated: three frames, of 512, 512 and 176 bytes of
    payload, and the three acknowledgements. *)
Example small_message_in_three_frames :
  let run :=
    _send_small_message (H := example_externals) example_training_config 0
      (λ part_id, part_id) (b "abcd") example_small_message
      example_sending_session in
  length (trace run.2) = (length (trace example_sending_session) + 3)%nat
  ∧ expecting_acks run.2
    = [_ContinueReceive (b "abcd") 0; _ContinueReceive (b "abcd") 1;
       _ConfirmReceive (b "abcd")]
  ∧ broadcaster_counter run.2 = 4.
Proof. vm_compute. by repeat split. Qed.

(** X5. An empty small message is dropped in silence. When the
    payload [_send_small_message] would put on the wire is empty (the
    data is empty and no compressor is selected for it), the sending
    returns at once: no frame is sent, no acknowledgement is expected,
    no url is made, and the session is as it was but for what the
    sampler did to the training state. *)
Theorem empty_small_message_is_dropped `{Externals} (cfg : Config) (now : Z)
    (clock : Z → Z) (msg_identifier : bytes) (msg : _SmallMessage)
    (state : _StateOpen) :
  is_Some (socket_level_config state) →
  compression_trained_max_size cfg ≤ 2 ^ 32 →
  small_message_payload cfg state msg = [] →
  ∃ state',
    _send_small_message cfg now clock msg_identifier msg state = (Ok (), state')
    ∧ state' = set_training_data (training_data state') state.
Proof.
  intros [config Hc] Hmax Hempty. unfold _send_small_message. session_step.
  rewrite Hc. session_step.
  pose proof (store_small_state cfg now (small_data msg) state) as Hs1.
  pose proof (store_small_ok cfg now (small_data msg) state Hmax) as Hok1.
  destruct (_store_small_for_compression_training cfg now (small_data msg) state)
    as [r1 s1]. specialize (Hs1 _ _ eq_refl). cbn [fst] in Hok1. subst r1.
  assert (_send_small_message_plan cfg s1 (small_data msg)
          = _send_small_message_plan cfg state (small_data msg)) as ->
    by (rewrite Hs1; by destruct state).
  unfold small_message_payload in Hempty. exists s1.
  destruct (_send_small_message_plan cfg state (small_data msg));
    rewrite Hempty; by cbn.
Qed.

Lemma empty_small_message_is_dropped_witness :
  ∃ state',
    _send_small_message (H := example_externals) example_config 7
      (λ part_id, part_id) (b "abcd")
      (mk_SmallMessage [] (b "room/1") (sha512 [])) example_configured_session
    = (Ok (), state')
    ∧ state' = set_training_data (training_data state') example_configured_session.
Proof.
  apply (empty_small_message_is_dropped (H := example_externals)).
  - by eexists.
  - vm_compute. discriminate.
  - reflexivity.
Defined.

(** ** Egress pipeline: a large message sent from its spooled file *)

Section spooled.

Context (cfg : Config).

Lemma capturer_write_run (c : capturer) (chunk : bytes) (s : _StateOpen) :
  ∃ t, capturer_write c chunk s = (Ok (), set_training_data t s).
Proof.
  destruct c.
  - exists (training_data s). by rewrite set_training_data_same.
  - by eexists.
Qed.

Lemma make_store_state (now length : Z) (s : _StateOpen) (r : result capturer)
    (s1 : _StateOpen) :
  _make_store_for_training_capturer cfg now length s = (r, s1) →
  s1 = set_training_data (training_data s1) s.
Proof.
  unfold _make_store_for_training_capturer,
    _should_store_large_message_for_training, _handle_if_should_start_retraining.
  intros Hrun. session_cases Hrun.
  all: injection Hrun as <- <-; by destruct s.
Qed.






Lemma capture_chunks_run (c : capturer) (chunks : list bytes) (s : _StateOpen) :
  ∃ t, capture_chunks c chunks s = (Ok (), set_training_data t s).
Proof.
  revert s. induction chunks as [|chunk chunks IH]; intros s.
  - exists (training_data s). by rewrite set_training_data_same.
  - cbn [capture_chunks]. session_step.
    destruct (capturer_write_run c chunk s) as (t & ->).
    destruct (IH (set_training_data t s)) as (t' & ->).
    exists t'. by rewrite set_training_data_twice.
Qed.

End spooled.



(** The example, evaluated: three frames and their acknowledgements, and a
    counter that has advanced four times. *)
Example spooled_message_in_three_frames :
  let run :=
    _send_large_message_from_spooled (H := example_chunker)
      example_training_config 0 (λ part_id, part_id) (b "abcd")
      example_large_message example_sending_session in
  length (trace run.2) = (length (trace example_sending_session) + 3)%nat
  ∧ expecting_acks run.2
    = [_ContinueReceive (b "abcd") 0; _ContinueReceive (b "abcd") 1;
       _ConfirmReceive (b "abcd")]
  ∧ broadcaster_counter example_sending_session = 1
  ∧ broadcaster_counter run.2 = 5.
Proof. vm_compute. by repeat split. Qed.

(** ** Announcing a compressor *)

Lemma send_or_enqueue_ok (cfg : Config) (data : bytes) (s : _StateOpen) :
  (send_or_enqueue cfg data s).1 = Ok ().
Proof. unfold send_or_enqueue. session_step. by destruct (send_task s). Qed.

(** X7. Which compressors [_acknowledge_compressor_ready]
    announces, and how. The compressors 0 and 1 are never announced: the
    session stays as it is. For an id above 1 the announcement is one
    frame in the minimal form, [ENABLE_ZSTD_PRESET] below 65536 and
    [ENABLE_ZSTD_CUSTOM] from 65536 on, whose four values read back as
    the id, the level, [compression_min_size] (on four bytes) and
    [compression_trained_max_size]; the frame of a custom compressor
    carries the dictionary after the headers and is never longer than
    [outgoing_max_ws_message_size]. The frame goes to the send slot, or
    to the pending sends when the slot is taken. When the announcement
    cannot be made the function raises and the session stays as it is:
    so with a negative level ([AssertionError]), and with a custom
    compressor that has no dictionary. A preset compressor whose level
    and sizes are not negative and fit their fields is announced. *)
Theorem compressor_announcement (cfg : Config) (compressor : _CompressorReady)
    (state : _StateOpen) (r : result ()) (state' : _StateOpen) :
  _acknowledge_compressor_ready cfg compressor state = (r, state') →
  let id := ready_dictionary_id compressor in
  (id ≤ 1 → r = Ok () ∧ state' = state)
  ∧ (r ≠ Ok () → state' = state)
  ∧ (1 < id → ready_level compressor < 0 → r = Raise AssertionError)
  ∧ (65536 ≤ id → ready_data compressor = None → r ≠ Ok ())
  ∧ (1 < id → r = Ok () →
     ∃ identifier level min_size max_size headers message,
       from_bytes identifier = id
       ∧ from_bytes level = ready_level compressor
       ∧ from_bytes min_size = compression_min_size cfg ∧ len min_size = 4
       ∧ from_bytes max_size = compression_trained_max_size cfg
       ∧ _make_websocket_message MINIMAL_HEADERS
           (if id <? 65536 then ENABLE_ZSTD_PRESET else ENABLE_ZSTD_CUSTOM)
           [("x-identifier", identifier); ("x-compression-level", level);
            ("x-min-size", min_size); ("x-max-size", max_size)]%string []
         = Ok headers
       ∧ message
         = headers ++ (if id <? 65536 then []
                       else default [] (ready_data compressor))
       ∧ (65536 ≤ id → ∀ m, outgoing_max_ws_message_size cfg = Some m →
                              len message ≤ m)
       ∧ send_or_enqueue cfg message state = (Ok (), state'))
  ∧ (1 < id < 65536 → 0 ≤ ready_level compressor < 2 ^ 64 →
     0 ≤ compression_min_size cfg < 2 ^ 32 →
     0 ≤ compression_trained_max_size cfg < 2 ^ 64 → r = Ok ()).
Proof.
  intros Hrun id. subst id. unfold _acknowledge_compressor_ready in Hrun.
  destruct (Z.leb_spec (ready_dictionary_id compressor) 1) as [Hid|Hid].
  { session_step_in Hrun. injection Hrun as <- <-.
    repeat split; try done; lia. }
  split; [lia|]. session_step_in Hrun.
  destruct (smallest_to_bytes_ok (ready_dictionary_id compressor))
    as (identifier & Hidentifier & Hfrom_id & Hlen_id); [lia|].
  rewrite Hidentifier in Hrun. session_step_in Hrun.
  destruct (Z.lt_ge_cases (ready_level compressor) 0) as [Hneg|Hlevel].
  { rewrite (smallest_to_bytes_negative _ Hneg) in Hrun.
    injection Hrun as <- <-. repeat split; try done; lia. }
  destruct (smallest_to_bytes_ok (ready_level compressor) Hlevel)
    as (level & Hl & Hfrom_level & Hlen_level).
  rewrite Hl in Hrun. session_step_in Hrun.
  destruct (to_bytes (compression_min_size cfg) 4) as [min_size|e] eqn:Hmin.
  2:{ injection Hrun as <- <-. repeat split; try done; try lia.
      intros _ _ Hmin' _. destruct (to_bytes_ok (compression_min_size cfg) 4)
        as (? & ? & _); [done|congruence]. }
  assert (from_bytes min_size = compression_min_size cfg ∧ len min_size = 4)
    as [Hfrom_min Hlen_min].
  { assert (0 ≤ compression_min_size cfg < 256 ^ Z.of_nat 4) as Hrange.
    { unfold to_bytes in Hmin. destruct (_ || _) eqn:E; [discriminate|].
      apply orb_false_iff in E as [E1 E2].
      apply Z.ltb_ge in E1. apply Z.leb_gt in E2. done. }
    destruct (to_bytes_ok _ 4 Hrange) as (b & Hb & Hfrom & Hlen).
    rewrite Hmin in Hb. injection Hb as <-. unfold len. rewrite Hlen. done. }
  session_step_in Hrun.
  destruct (smallest_to_bytes (compression_trained_max_size cfg))
    as [max_size|e] eqn:Hmax.
  2:{ injection Hrun as <- <-. repeat split; try done; try lia.
      intros _ _ _ [Hmax' _].
      destruct (smallest_to_bytes_ok _ Hmax') as (? & ? & _). congruence. }
  assert (from_bytes max_size = compression_trained_max_size cfg) as Hfrom_max.
  { destruct (Z.lt_ge_cases (compression_trained_max_size cfg) 0) as [Hn|Hn].
    - by rewrite (smallest_to_bytes_negative _ Hn) in Hmax.
    - destruct (smallest_to_bytes_ok _ Hn) as (? & ? & ? & _). congruence. }
  session_step_in Hrun.
  destruct (_make_websocket_message _ _ _ _) as [headers|e] eqn:Hheaders.
  2:{ injection Hrun as <- <-. repeat split; try done; try lia.
      intros Hpreset [_ Hlevel'] _ [Hmax0 Hmax']. exfalso.
      destruct (make_websocket_message_minimal_ok
                  (if ready_dictionary_id compressor <? 65536
                   then ENABLE_ZSTD_PRESET else ENABLE_ZSTD_CUSTOM)
                  [("x-identifier", identifier); ("x-compression-level", level);
                   ("x-min-size", min_size); ("x-max-size", max_size)]%string [])
        as (w & Hw); [|congruence].
      assert (len identifier ≤ 8)
        by (apply (smallest_to_bytes_short (ready_dictionary_id compressor));
            [lia|done]).
      assert (len level ≤ 8)
        by (apply (smallest_to_bytes_short (ready_level compressor)); [lia|done]).
      assert (len max_size ≤ 8)
        by (apply (smallest_to_bytes_short (compression_trained_max_size cfg));
            [lia|done]).
      unfold fits_u16. simpl.
      repeat (rewrite (proj2 (Z.leb_le _ _)) by lia). done. }
  session_step_in Hrun.
  destruct (Z.ltb_spec (ready_dictionary_id compressor) 65536) as [Hpreset|Hcustom].
  - session_step_in Hrun.
    pose proof (send_or_enqueue_ok cfg headers state) as Hsend.
    rewrite Hrun in Hsend. cbn [fst] in Hsend. subst r.
    split; [done|]. split; [lia|]. split; [lia|]. split; [|done].
    intros _ _. exists identifier, level, min_size, max_size, headers, headers.
    rewrite app_nil_r. repeat split; try done. lia.
  - destruct (ready_data compressor) as [dict_data_bytes|] eqn:Hdata.
    2:{ session_step_in Hrun. injection Hrun as <- <-.
        repeat split; try done; lia. }
    session_step_in Hrun.
    destruct (match outgoing_max_ws_message_size cfg with
              | Some max_size => max_size <? len headers + len dict_data_bytes
              | None => false
              end) eqn:Hfits.
    { session_step_in Hrun. injection Hrun as <- <-.
      repeat split; try done; lia. }
    session_step_in Hrun.
    pose proof (send_or_enqueue_ok cfg (headers ++ dict_data_bytes) state) as Hsend.
    rewrite Hrun in Hsend. cbn [fst] in Hsend. subst r.
    split; [done|]. split; [lia|]. split; [done|]. split; [|lia].
    intros _ _.
    exists identifier, level, min_size, max_size, headers,
      (headers ++ dict_data_bytes).
    repeat split; try done.
    intros _ m Hm. rewrite Hm in Hfits. apply Z.ltb_ge in Hfits.
    unfold len in *. rewrite length_app. lia.
Qed.

Lemma compressor_announcement_witness :
  let compressor := mk_CompressorReady 7 3 (Some (b "dictionary")) in
  let run :=
    _acknowledge_compressor_ready example_config compressor
      example_configured_session in
  run.1 = Ok ()
  ∧ ∃ identifier level min_size max_size headers message,
      from_bytes identifier = 7
      ∧ from_bytes level = 3
      ∧ from_bytes min_size = compression_min_size example_config
      ∧ len min_size = 4
      ∧ from_bytes max_size = compression_trained_max_size example_config
      ∧ _make_websocket_message MINIMAL_HEADERS ENABLE_ZSTD_PRESET
          [("x-identifier", identifier); ("x-compression-level", level);
           ("x-min-size", min_size); ("x-max-size", max_size)]%string []
        = Ok headers
      ∧ message = headers ++ []
      ∧ (65536 ≤ 7 → ∀ m, outgoing_max_ws_message_size example_config = Some m →
                            len message ≤ m)
      ∧ send_or_enqueue example_config message example_configured_session
        = (Ok (), run.2).
Proof.
  intros compressor run.
  destruct (compressor_announcement example_config compressor
              example_configured_session run.1 run.2 (surjective_pairing run))
    as (_ & _ & _ & _ & Hframe & Hok).
  assert (run.1 = Ok ()) as Hrun.
  { apply Hok; vm_compute; split; (reflexivity || discriminate). }
  split; [done|]. apply Hframe; [reflexivity|done].
Defined.

(** A dictionary trained at level -1 cannot be announced. *)
Example negative_level_is_not_announced :
  _acknowledge_compressor_ready example_config
    (mk_CompressorReady 65536 (-1) (Some (b "dictionary")))
    example_configured_session
  = (Raise AssertionError, example_configured_session).
Proof. vm_compute. reflexivity. Qed.

(** ** The subscriptions and the fanout hub *)

Create HintDb hub.

Section hub.

Context `{Externals} `{ZstdChunker} (cfg : Config).

Lemma hub_balance_app (key : hub_key) (l1 l2 : list event) :
  hub_balance key (l1 ++ l2) = hub_balance key l1 + hub_balance key l2.
Proof.
  unfold hub_balance. induction l1 as [|e l1 IH]; simpl; [done|]. rewrite IH. lia.
Qed.

Lemma hub_same_refl (s : _StateOpen) : hub_same s s.
Proof. by split. Qed.

(** From the runs of the helpers among the hypotheses to what they keep,
    then to the goal. *)
Ltac hub_read :=
  repeat match goal with
  | Hq : hub_same _ _ |- _ =>
      let H1 := fresh "Hm" in let H2 := fresh "Hb" in
      destruct Hq as [H1 H2]; session_read_in H1; session_read_in H2
  end.

Ltac hub_close :=
  hub_read;
  split; [session_read|intros ?key; session_read];
  repeat (rewrite ?hub_balance_app;
          match goal with
          | H : my_receiver ?x = _ |- _ => rewrite H; clear H
          | H : ∀ key, hub_balance key (trace ?x) = _ |- _ => rewrite H; clear H
          end);
  rewrite ?hub_balance_app; cbn [hub_balance foldr hub_delta];
  try done; try lia.

Lemma send_or_enqueue_hub (data : bytes) (s : _StateOpen)
    (r : result ()) (s' : _StateOpen) :
  send_or_enqueue cfg data s = (r, s') → hub_same s s'.
Proof.
  unfold send_or_enqueue. intros Hrun. session_cases Hrun.
  all: injection Hrun as <- <-; hub_close.
Qed.

Lemma confirm_notify_hub (flags : Z) (message_id : bytes)
    (notify_result : TrustedNotifyResult) (s : _StateOpen)
    (r : result ()) (s' : _StateOpen) :
  confirm_notify cfg flags message_id notify_result s = (r, s') → hub_same s s'.
Proof.
  unfold confirm_notify. intros Hrun. session_cases Hrun.
  all: try (injection Hrun as <- <-; hub_close).
  all: by eapply send_or_enqueue_hub.
Qed.

Lemma store_small_hub (now : Z) (data : bytes) (s : _StateOpen) (r : result ())
    (s' : _StateOpen) :
  _store_small_for_compression_training cfg now data s = (r, s') → hub_same s s'.
Proof.
  intros Hrun. apply store_small_state in Hrun. rewrite Hrun. hub_close.
Qed.

Lemma make_store_hub (now length : Z) (s : _StateOpen) (r : result capturer)
    (s' : _StateOpen) :
  _make_store_for_training_capturer cfg now length s = (r, s') → hub_same s s'.
Proof.
  intros Hrun. apply make_store_state in Hrun. rewrite Hrun. hub_close.
Qed.

Lemma should_store_hub (now length : Z) (s : _StateOpen) (r : result bool)
    (s' : _StateOpen) :
  _should_store_large_message_for_training cfg now length s = (r, s') →
  hub_same s s'.
Proof.
  unfold _should_store_large_message_for_training,
    _handle_if_should_start_retraining.
  intros Hrun. session_cases Hrun.
  all: injection Hrun as <- <-; hub_close.
Qed.

Lemma capturer_write_hub (c : capturer) (chunk : bytes) (s : _StateOpen) :
  hub_same s (capturer_write c chunk s).2.
Proof. destruct (capturer_write_run c chunk s) as (t & ->). hub_close. Qed.

Lemma decompress_chunks_hub (c : capturer) (length : Z) (chunks : list bytes)
    (target : bytes) (s : _StateOpen) :
  hub_same s (decompress_chunks c length chunks target s).2.
Proof.
  revert target s. induction chunks as [|chunk chunks IH]; intros target s;
    [apply hub_same_refl|].
  cbn [decompress_chunks]. session_step.
  destruct (capturer_write_run c chunk s) as (t & ->).
  destruct (length <? _); [hub_close|].
  specialize (IH (target ++ chunk) (set_training_data t s)). hub_close.
Qed.

(** The runs of the helpers among the hypotheses, as what they keep. *)
Ltac hub_runs :=
  repeat match goal with
  | Hq : send_or_enqueue _ _ _ = _ |- _ => apply send_or_enqueue_hub in Hq
  | Hq : confirm_notify _ _ _ _ _ = _ |- _ => apply confirm_notify_hub in Hq
  | Hq : _store_small_for_compression_training _ _ _ _ = _ |- _ =>
      apply store_small_hub in Hq
  | Hq : _should_store_large_message_for_training _ _ _ _ = _ |- _ =>
      apply should_store_hub in Hq
  | Hq : _make_store_for_training_capturer _ _ _ _ = _ |- _ =>
      apply make_store_hub in Hq
  | Hq : decompress_chunks ?c ?l ?ch ?t ?s = _ |- _ =>
      let Hd := fresh "Hd" in
      pose proof (decompress_chunks_hub c l ch t s) as Hd;
      rewrite Hq in Hd; cbn [snd] in Hd; clear Hq
  | Hq : capturer_write ?c ?ch ?s = _ |- _ =>
      let Hd := fresh "Hd" in
      pose proof (capturer_write_hub c ch s) as Hd;
      rewrite Hq in Hd; cbn [snd] in Hd; clear Hq
  end.

Lemma process_configure_hub (broadcaster_nonce : bytes)
    (message : _ParsedWSMessage) (s : _StateOpen) (r : result ())
    (s' : _StateOpen) :
  _process_configure cfg broadcaster_nonce message s = (r, s') → hub_same s s'.
Proof.
  unfold _process_configure, _rotate_compressor, getitem.
  intros Hrun. session_cases Hrun.
  all: injection Hrun as <- <-; hub_close.
Qed.

Lemma process_message_asap_hub (message : _ParsedWSMessage) (s : _StateOpen)
    (r : result ()) (s' : _StateOpen) :
  _process_message_asap cfg message s = (r, s') → hub_same s s'.
Proof.
  unfold _process_message_asap, get_expecting_ack.
  intros Hrun. session_cases Hrun.
  all: injection Hrun as <- <-; hub_close.
Qed.

Lemma process_notify_hub (now : Z) (message : _ParsedWSMessage) (s : _StateOpen)
    (r : result ()) (s' : _StateOpen) :
  _process_notify cfg now message s = (r, s') → hub_same s s'.
Proof.
  unfold _process_notify, getitem, capture_all, call_handle_trusted_notify.
  intros Hrun. session_cases Hrun.
  all: hub_runs.
  all: try injection Hrun as <- <-.
  all: hub_close.
Qed.

Lemma process_notify_stream_hub (now : Z) (message : _ParsedWSMessage)
    (s : _StateOpen) (r : result ()) (s' : _StateOpen) :
  _process_notify_stream cfg now message s = (r, s') → hub_same s s'.
Proof.
  unfold _process_notify_stream, getitem, capture_all, call_handle_trusted_notify.
  intros Hrun. session_cases Hrun.
  all: hub_runs.
  all: try injection Hrun as <- <-.
  all: hub_close.
Qed.

Lemma glob_count_delete (target : string) (subs : list (Pattern * string))
    (idx : nat) (k : string) :
  find_glob target subs = Some idx →
  glob_count k (delete idx subs)
  = glob_count k subs - (if bool_decide (target = k) then 1 else 0).
Proof.
  revert idx. induction subs as [|[pattern glob] subs IH]; intros idx Hfind;
    [done|].
  cbn [find_glob] in Hfind. case_bool_decide as Hglob.
  - injection Hfind as <-. subst glob. simpl. lia.
  - destruct (find_glob target subs) as [i|]; [|done].
    injection Hfind as <-. simpl. rewrite (IH i eq_refl). lia.
Qed.

Lemma glob_count_snoc (k : string) (subs : list (Pattern * string))
    (pattern : Pattern) (glob : string) :
  glob_count k (subs ++ [(pattern, glob)])
  = glob_count k subs + (if bool_decide (glob = k) then 1 else 0).
Proof.
  induction subs as [|[p g] subs IH]; cbn [app glob_count]; [lia|].
  rewrite IH. lia.
Qed.

Lemma glob_count_find (target : string) (subs : list (Pattern * string)) :
  find_glob target subs = None → glob_count target subs = 0.
Proof.
  induction subs as [|[p g] subs IH]; [done|]. cbn [find_glob glob_count].
  case_bool_decide; [done|]. destruct (find_glob target subs); [done|].
  intros _. rewrite IH by done. lia.
Qed.

Lemma process_subscribe_hub (now : Z) (message : _ParsedWSMessage)
    (s : _StateOpen) (r : result ()) (s' : _StateOpen) :
  hub_agrees s →
  _process_subscribe_or_unsubscribe cfg now message s = (r, s') →
  hub_agrees s'.
Proof.
  unfold _process_subscribe_or_unsubscribe,
    _make_for_receive_websocket_url_and_change_counter, getitem.
  intros Hinv Hrun. session_cases Hrun.
  all: hub_runs.
  all: try injection Hrun as <- <-.
  all: hub_read.
  all: intros key; specialize (Hinv key); session_read.
  all: repeat (rewrite ?hub_balance_app;
               match goal with
               | H : my_receiver ?x = _ |- _ => rewrite H; clear H
               | H : ∀ key, hub_balance key (trace ?x) = _ |- _ =>
                   rewrite H; clear H
               end).
  all: rewrite ?hub_balance_app; try done.
  all: repeat match goal with
       | Hd : bool_decide _ = false |- _ => apply bool_decide_eq_false in Hd
       | Hd : negb (bool_decide _) = false |- _ =>
           apply negb_false_iff, bool_decide_eq_true in Hd
       end.
  all: rewrite Hinv; destruct key as [k|k];
    cbn [hub_balance foldr hub_delta held exact_subscriptions glob_subscriptions];
    rewrite ?glob_count_snoc; try (erewrite glob_count_delete by eassumption);
    repeat case_bool_decide; try lia; exfalso; set_unfold; intuition congruence.
Qed.

(** *** Computations that leave the hub alone *)

Lemma hub_same_trans (s1 s2 s3 : _StateOpen) :
  hub_same s1 s2 → hub_same s2 s3 → hub_same s1 s3.
Proof.
  intros [Hm1 Hb1] [Hm2 Hb2]. split; [congruence|].
  intros key. by rewrite Hb2.
Qed.

Lemma hub_same_agrees (s s' : _StateOpen) :
  hub_same s s' → hub_agrees s → hub_agrees s'.
Proof. intros [Hm Hb] Hinv key. by rewrite Hb, Hm. Qed.

Lemma hub_quiet_runs {A : Type} (m : Session A) :
  (∀ s r s', m s = (r, s') → hub_same s s') → hub_quiet m.
Proof. intros Hm s. destruct (m s) as [r s'] eqn:Hrun. by eapply Hm. Qed.

Lemma hub_quiet_run {A : Type} (m : Session A) (s : _StateOpen) (r : result A)
    (s' : _StateOpen) :
  hub_quiet m → m s = (r, s') → hub_same s s'.
Proof. intros Hm Hrun. specialize (Hm s). by rewrite Hrun in Hm. Qed.

Lemma hub_quiet_bind {A B : Type} (m : Session A) (f : A → Session B) :
  hub_quiet m → (∀ a, hub_quiet (f a)) → hub_quiet (m ≫= f).
Proof.
  intros Hm Hf s. unfold mbind, session_bind.
  specialize (Hm s). destruct (m s) as [[a|e] s1]; [|exact Hm].
  eapply hub_same_trans; [exact Hm|apply Hf].
Qed.

Lemma hub_quiet_ret {A : Type} (a : A) : hub_quiet (mret a).
Proof. intros s. apply hub_same_refl. Qed.

Lemma hub_quiet_raise {A : Type} (e : exn) : hub_quiet (@raise A e).
Proof. intros s. apply hub_same_refl. Qed.

Lemma hub_quiet_lift {A : Type} (r : result A) : hub_quiet (lift r).
Proof. intros s. apply hub_same_refl. Qed.

Lemma hub_quiet_get : hub_quiet get_state.
Proof. intros s. apply hub_same_refl. Qed.

Lemma hub_quiet_modify (f : _StateOpen → _StateOpen) :
  (∀ s, hub_same s (f s)) → hub_quiet (modify f).
Proof. intros Hf s. apply Hf. Qed.

Lemma hub_quiet_emit (e : event) :
  (∀ key, hub_delta key e = 0) → hub_quiet (emit e).
Proof.
  intros He s. unfold emit, modify. cbn [snd]. split; session_read; [done|].
  intros key. rewrite hub_balance_app. cbn [hub_balance foldr]. rewrite He. lia.
Qed.

#[local] Hint Resolve hub_quiet_ret hub_quiet_raise hub_quiet_lift hub_quiet_get
  : hub.

(** The computation of the goal, taken apart along its binds and its case
    analyses. *)
Ltac hub_quiet_step :=
  lazymatch goal with
  | |- hub_quiet (mbind _ _) => apply hub_quiet_bind; [|intros ?]
  | |- hub_quiet (mret _) => apply hub_quiet_ret
  | |- hub_quiet (raise _) => apply hub_quiet_raise
  | |- hub_quiet (lift _) => apply hub_quiet_lift
  | |- hub_quiet get_state => apply hub_quiet_get
  | |- hub_quiet (emit _) => apply hub_quiet_emit; by intros [?|?]
  | |- hub_quiet (modify _) => apply hub_quiet_modify; intros ?; hub_close
  | |- hub_quiet (match ?x with _ => _ end) => destruct x
  end.

Ltac hub_quiet_go := repeat first [solve [eauto with hub]|hub_quiet_step].

Lemma send_or_enqueue_quiet (data : bytes) : hub_quiet (send_or_enqueue cfg data).
Proof. apply hub_quiet_runs. apply send_or_enqueue_hub. Qed.

Lemma store_small_quiet (now : Z) (data : bytes) :
  hub_quiet (_store_small_for_compression_training cfg now data).
Proof. apply hub_quiet_runs. apply store_small_hub. Qed.

Lemma make_store_quiet (now length : Z) :
  hub_quiet (_make_store_for_training_capturer cfg now length).
Proof. apply hub_quiet_runs. apply make_store_hub. Qed.

Lemma capturer_write_quiet (c : capturer) (chunk : bytes) :
  hub_quiet (capturer_write c chunk).
Proof. intros s. apply capturer_write_hub. Qed.

Lemma process_message_asap_quiet (message : _ParsedWSMessage) :
  hub_quiet (_process_message_asap cfg message).
Proof. apply hub_quiet_runs. apply process_message_asap_hub. Qed.

#[local] Hint Resolve send_or_enqueue_quiet store_small_quiet make_store_quiet
  capturer_write_quiet process_message_asap_quiet : hub.

Lemma expecting_acks_put_quiet (ack : _Acknowledgement) :
  hub_quiet (expecting_acks_put ack).
Proof. unfold expecting_acks_put. hub_quiet_go. Qed.

Lemma websocket_send_bytes_now_quiet (data : bytes) :
  hub_quiet (websocket_send_bytes_now data).
Proof. unfold websocket_send_bytes_now. hub_quiet_go. Qed.

Lemma make_prefix_quiet (now : Z) (topic sha id : bytes)
    (part_id dictionary_id compressed_length decompressed_length : Z) :
  hub_quiet (_make_receive_stream_message_prefix cfg now topic sha id part_id
               dictionary_id compressed_length decompressed_length).
Proof.
  unfold _make_receive_stream_message_prefix,
    _make_for_send_websocket_url_and_change_counter.
  hub_quiet_go.
Qed.

#[local] Hint Resolve expecting_acks_put_quiet websocket_send_bytes_now_quiet
  make_prefix_quiet : hub.

Lemma send_small_parts_quiet (fuel : nat) (clock : Z → Z)
    (topic sha id : bytes) (compressor_id compressed_length decompressed_length : Z)
    (remaining : bytes) (part_id : Z) :
  hub_quiet (send_small_parts fuel cfg clock topic sha id compressor_id
               compressed_length decompressed_length remaining part_id).
Proof.
  revert remaining part_id.
  induction fuel as [|fuel IH]; intros remaining part_id;
    cbn [send_small_parts]; hub_quiet_go.
Qed.

Lemma send_spooled_parts_quiet (fuel : nat) (clock : Z → Z) (msg : _LargeMessage)
    (id : bytes) (capture_io : capturer) (stream : bytes) (tell part_id : Z) :
  hub_quiet (send_spooled_parts fuel cfg clock msg id capture_io stream tell
               part_id).
Proof.
  revert stream tell part_id.
  induction fuel as [|fuel IH]; intros stream tell part_id;
    cbn [send_spooled_parts]; hub_quiet_go.
Qed.

Lemma send_compressed_parts_quiet (fuel : nat) (clock : Z → Z)
    (msg : _LargeMessage) (id sha : bytes) (compressor_id compressed_length : Z)
    (compressed_file : bytes) (tell part_id : Z) :
  hub_quiet (send_compressed_parts fuel cfg clock msg id sha compressor_id
               compressed_length compressed_file tell part_id).
Proof.
  revert compressed_file tell part_id.
  induction fuel as [|fuel IH]; intros compressed_file tell part_id;
    cbn [send_compressed_parts]; hub_quiet_go.
Qed.

Lemma capture_chunks_quiet (capture_io : capturer) (chunks : list bytes) :
  hub_quiet (capture_chunks capture_io chunks).
Proof.
  induction chunks as [|chunk chunks IH]; cbn [capture_chunks]; hub_quiet_go.
Qed.

Lemma send_direct_parts_quiet (fuel : nat) (clock : Z → Z)
    (timeout_first : Z → bool) (msg : _LargeMessage) (id : bytes)
    (capture_io : capturer) (stream : bytes) (sent_so_far part_id : Z) :
  hub_quiet (send_direct_parts fuel cfg clock timeout_first msg id capture_io
               stream sent_so_far part_id).
Proof.
  revert stream sent_so_far part_id.
  induction fuel as [|fuel IH]; intros stream sent_so_far part_id;
    cbn [send_direct_parts]; hub_quiet_go.
Qed.

Lemma send_respooled_parts_quiet (fuel : nat) (clock : Z → Z)
    (msg : _LargeMessage) (id chunk target : bytes) (sent_so_far part_id : Z) :
  hub_quiet (send_respooled_parts fuel cfg clock msg id chunk target sent_so_far
               part_id).
Proof.
  revert target sent_so_far part_id.
  induction fuel as [|fuel IH]; intros target sent_so_far part_id;
    cbn [send_respooled_parts]; hub_quiet_go.
Qed.

#[local] Hint Resolve send_small_parts_quiet send_spooled_parts_quiet
  send_compressed_parts_quiet capture_chunks_quiet send_direct_parts_quiet
  send_respooled_parts_quiet : hub.

Lemma send_small_message_quiet (now : Z) (clock : Z → Z) (id : bytes)
    (msg : _SmallMessage) :
  hub_quiet (_send_small_message cfg now clock id msg).
Proof. unfold _send_small_message. hub_quiet_go. Qed.

Lemma send_large_compressed_quiet (now : Z) (clock : Z → Z) (id : bytes)
    (msg : _LargeMessage) (compressor : _CompressorReady) (compressor_id : Z) :
  hub_quiet (_send_large_compressed_message_optimistically cfg now clock id msg
               compressor compressor_id).
Proof. unfold _send_large_compressed_message_optimistically. hub_quiet_go. Qed.

#[local] Hint Resolve send_small_message_quiet send_large_compressed_quiet : hub.

Lemma send_large_from_spooled_quiet (now : Z) (clock : Z → Z) (id : bytes)
    (msg : _LargeMessage) :
  hub_quiet (_send_large_message_from_spooled cfg now clock id msg).
Proof. unfold _send_large_message_from_spooled. hub_quiet_go. Qed.

Lemma send_large_optimistically_quiet (now : Z) (clock : Z → Z)
    (timeout_first : Z → bool) (id : bytes) (msg : _LargeMessage) :
  hub_quiet (_send_large_message_optimistically cfg now clock timeout_first id
               msg).
Proof. unfold _send_large_message_optimistically. hub_quiet_go. Qed.

Lemma rotate_compressor_quiet (c : _Compressor) : hub_quiet (_rotate_compressor c).
Proof. unfold _rotate_compressor. hub_quiet_go. Qed.

#[local] Hint Resolve send_large_from_spooled_quiet
  send_large_optimistically_quiet rotate_compressor_quiet : hub.

Lemma check_training_data_quiet (now : Z) :
  hub_quiet (_check_training_data cfg now).
Proof. unfold _check_training_data, train_and_rotate. hub_quiet_go. Qed.

Lemma acknowledge_compressor_ready_quiet (compressor : _CompressorReady) :
  hub_quiet (_acknowledge_compressor_ready cfg compressor).
Proof. unfold _acknowledge_compressor_ready. hub_quiet_go. Qed.

Lemma run_send_job_quiet (tasks : open_tasks) (job : send_job) :
  hub_quiet (run_send_job cfg tasks job).
Proof. unfold run_send_job. hub_quiet_go. Qed.

#[local] Hint Resolve check_training_data_quiet
  acknowledge_compressor_ready_quiet run_send_job_quiet : hub.

(** *** The turns of the open session *)

Lemma hub_quiet_keeps {A : Type} (m : Session A) : hub_quiet m → hub_keeps m.
Proof. intros Hm s. apply hub_same_agrees, Hm. Qed.

Lemma hub_keeps_bind {A B : Type} (m : Session A) (f : A → Session B) :
  hub_keeps m → (∀ a, hub_keeps (f a)) → hub_keeps (m ≫= f).
Proof.
  intros Hm Hf s Hinv. unfold mbind, session_bind.
  specialize (Hm s Hinv). destruct (m s) as [[a|e] s1]; [|exact Hm].
  by apply Hf.
Qed.

Lemma run_process_job_keeps (tasks : open_tasks) (message : _ParsedWSMessage) :
  hub_keeps (run_process_job cfg tasks message).
Proof.
  unfold run_process_job, _PROCESSOR_BY_TYPE.
  destruct (msg_type message).
  1: apply hub_quiet_keeps, hub_quiet_runs, process_configure_hub.
  5: apply hub_quiet_keeps, hub_quiet_runs, process_notify_hub.
  5: apply hub_quiet_keeps, hub_quiet_runs, process_notify_stream_hub.
  5, 6: apply hub_quiet_keeps, hub_quiet_raise.
  all: intros s Hinv;
    destruct (_process_subscribe_or_unsubscribe _ _ _ s) as [r s'] eqn:Hrun;
    by eapply process_subscribe_hub.
Qed.

(** The computation of the goal, taken apart as far as it may touch the
    hub. *)
Ltac hub_keeps_go :=
  repeat first
    [ solve [apply hub_quiet_keeps; hub_quiet_go]
    | apply run_process_job_keeps
    | assumption
    | lazymatch goal with
      | |- hub_keeps (mbind _ _) => apply hub_keeps_bind; [|intros ?]
      | |- hub_keeps (match ?x with _ => _ end) => destruct x
      end ].

Lemma handle_open_body_keeps (tasks : open_tasks) :
  hub_keeps (_handle_open_body cfg tasks).
Proof.
  assert (hub_keeps (_handle_open_training cfg tasks)) as Htraining
    by (unfold _handle_open_training; hub_keeps_go).
  assert (hub_keeps (_handle_open_read cfg tasks)) as Hread
    by (unfold _handle_open_read; hub_keeps_go).
  assert (hub_keeps (_handle_open_last_compressor cfg tasks)) as Hlast
    by (unfold _handle_open_last_compressor; hub_keeps_go).
  assert (hub_keeps (_handle_open_message cfg tasks)) as Hmessage
    by (unfold _handle_open_message, pending_sends_append; hub_keeps_go).
  assert (hub_keeps (_handle_open_standard_compressor cfg tasks)) as Hstandard
    by (unfold _handle_open_standard_compressor; hub_keeps_go).
  assert (hub_keeps (_handle_open_active_compressor cfg tasks)) as Hactive
    by (unfold _handle_open_active_compressor; hub_keeps_go).
  assert (hub_keeps (_handle_open_process cfg tasks)) as Hprocess
    by (unfold _handle_open_process; hub_keeps_go).
  assert (hub_keeps (_handle_open_send cfg tasks)) as Hsend
    by (unfold _handle_open_send; hub_keeps_go).
  assert (hub_keeps (_handle_open_unprocessed cfg tasks)) as Hunprocessed
    by (unfold _handle_open_unprocessed; hub_keeps_go).
  unfold _handle_open_body; hub_keeps_go.
Qed.

Lemma hub_balance_cons (key : hub_key) (e : event) (log : list event) :
  hub_balance key (e :: log) = hub_delta key e + hub_balance key log.
Proof. done. Qed.

Lemma hub_balance_decrement_exact (key : hub_key) (topics : list bytes) :
  NoDup topics →
  hub_balance key (EvDecrementExact <$> topics)
  = - match key with
      | ExactKey k => if bool_decide (k ∈ topics) then 1 else 0
      | GlobKey _ => 0
      end.
Proof.
  induction 1 as [|topic topics Hnotin Hnodup IH]; [by destruct key|].
  rewrite fmap_cons, hub_balance_cons, IH. destruct key as [k|k]; [|done].
  cbn [hub_delta]. repeat case_bool_decide; try lia; exfalso; set_unfold; intuition congruence.
Qed.

Lemma hub_balance_decrement_glob (key : hub_key)
    (subs : list (Pattern * string)) :
  hub_balance key (EvDecrementGlob ∘ snd <$> subs)
  = - match key with
      | ExactKey _ => 0
      | GlobKey k => glob_count k subs
      end.
Proof.
  induction subs as [|[pattern glob] subs IH]; [by destruct key|].
  rewrite fmap_cons, hub_balance_cons, IH. destruct key as [k|k]; [done|].
  cbn [compose snd hub_delta glob_count]. case_bool_decide; lia.
Qed.

Lemma cleanup_open_balanced (state : _StateOpen) (exception exception' : option exn)
    (log : list event) (key : hub_key) :
  hub_agrees state →
  _cleanup_open state exception = StateClosing exception' log →
  hub_balance key log = 0.
Proof.
  intros Hinv [= _ <-]. rewrite !hub_balance_app, (Hinv key).
  rewrite hub_balance_decrement_exact by apply NoDup_elements.
  rewrite hub_balance_decrement_glob.
  destruct key as [k|k]; cbn [held]; [|lia].
  repeat case_bool_decide; try lia; exfalso; set_unfold; intuition congruence.
Qed.

Lemma handle_accepting_agrees (now : Z) : hub_agrees (_handle_accepting cfg now).
Proof.
  intros [k|k]; cbn; [|done]. by rewrite bool_decide_eq_false_2 by set_solver.
Qed.

Lemma session_reachable_agrees (state : _StateOpen) :
  session_reachable cfg state → hub_agrees state.
Proof.
  induction 1 as [now|state tasks state' _ IH Hturn];
    [apply handle_accepting_agrees|].
  unfold _handle_open in Hturn.
  pose proof (handle_open_body_keeps tasks state IH) as Hkeeps.
  destruct (_handle_open_body cfg tasks state) as [[[]|e] s1]; try done.
  by injection Hturn as <-.
Qed.

Lemma run_turns_reachable (turns : list open_tasks) (state state' : _StateOpen) :
  session_reachable cfg state →
  run_turns cfg turns (StateOpen state) = StateOpen state' →
  session_reachable cfg state'.
Proof.
  revert state. induction turns as [|tasks turns IH]; intros state Hreach Hrun.
  - by injection Hrun as <-.
  - cbn [run_turns] in Hrun.
    destruct (_handle_open cfg tasks state) as [s1|e log|] eqn:Hturn.
    + eapply IH; [|exact Hrun]. by eapply session_turn.
    + by destruct turns.
    + by destruct turns.
Qed.

End hub.

(** X8. When a turn of [_handle_open] closes a session that the turns
    before it have led to, whatever the reason, the log of the calls of
    the session holds, for every exact topic and every glob, as many
    decrements of the hub as increments: the hub is left as if the session
    had never subscribed. The tasks of the session are taken to run from
    start to end. *)
Theorem closing_releases_every_subscription `{Externals} `{ZstdChunker}
    (cfg : Config) (state : _StateOpen) (tasks : open_tasks)
    (exception : option exn) (log : list event) (key : hub_key) :
  session_reachable cfg state →
  _handle_open cfg tasks state = StateClosing exception log →
  hub_balance key log = 0.
Proof.
  intros Hreach Hturn. apply session_reachable_agrees in Hreach.
  unfold _handle_open in Hturn.
  pose proof (handle_open_body_keeps cfg tasks state Hreach) as Hkeeps.
  destruct (_handle_open_body cfg tasks state) as [[[]|e] s1]; try done.
  all: by eapply cleanup_open_balanced.
Qed.

Lemma closing_releases_every_subscription_witness :
  ∃ log,
    _handle_open (H := example_externals) (H0 := example_chunker) example_config
      (example_read websocket_disconnect) example_subscribed_session
    = StateClosing None log
    ∧ log !! 3%nat = Some (EvIncrementExact (b "room/1"))
    ∧ hub_balance (ExactKey (b "room/1")) log = 0.
Proof.
  eexists. split; [vm_compute; reflexivity|]. split; [reflexivity|].
  eapply (closing_releases_every_subscription (H := example_externals)
            (H0 := example_chunker) example_config example_subscribed_session
            (example_read websocket_disconnect) None).
  - eapply (run_turns_reachable example_config example_subscribing).
    + apply (session_accepted example_config 0).
    + vm_compute. reflexivity.
  - vm_compute. reflexivity.
Defined.

(** ** Egress pipeline: a large message sent while the hub waits *)

Section optimistic.

Context `{ZstdChunker} (cfg : Config).

Lemma continue_acks_app (id : bytes) (part_id : Z) (m n : nat) :
  continue_acks id part_id (m + n)
  = continue_acks id part_id m ++ continue_acks id (part_id + Z.of_nat m) n.
Proof.
  revert part_id. induction m as [|m IH]; intros part_id.
  - by rewrite Z.add_0_r.
  - cbn [Nat.add continue_acks app]. rewrite IH. do 3 f_equal. lia.
Qed.

Lemma read_chunks_concat (fuel : nat) (size : Z) (stream : bytes) :
  0 < size → (length stream ≤ fuel)%nat →
  concat (read_chunks fuel size stream) = stream.
Proof.
  intros Hsize. revert stream.
  induction fuel as [|fuel IH]; intros stream Hfuel.
  - by destruct stream; [|simpl in Hfuel; lia].
  - cbn [read_chunks]. case_bool_decide as Hchunk.
    + destruct stream as [|x stream]; [done|].
      destruct (Z.to_nat size) eqn:Hn; [lia|done].
    + rewrite concat_cons, IH, take_drop; [done|].
      assert (stream ≠ []) as Hne by (intros ->; by rewrite take_nil in Hchunk).
      pose proof (length_drop_lt (Z.to_nat size) stream Hne). lia.
Qed.

(** What making a prefix leaves of the session. *)
Lemma make_prefix_keeps (now : Z) (topic sha id : bytes)
    (part dict clen dlen : Z) (s : _StateOpen) (r : result bytes)
    (s1 : _StateOpen) :
  _make_receive_stream_message_prefix cfg now topic sha id part dict clen dlen s
  = (r, s1) →
  trace s1 = trace s ∧ expecting_acks s1 = expecting_acks s.
Proof.
  intros Hrun.
  pose proof (make_prefix_state cfg now topic sha id part dict clen dlen s) as Hs.
  rewrite Hrun in Hs. cbn [snd] in Hs. subst s1.
  by destruct (socket_level_config s).
Qed.

(** The second loop of the uncompressed branch, entered below the
    announced length with its stale [chunk]: every part is expected to
    be continued. *)
Lemma send_respooled_parts_frames (clock : Z → Z) (msg : _LargeMessage)
    (id : bytes) (fuel : nat) (target : bytes) (sent_so_far part_id : Z)
    (s : _StateOpen) (r : result ()) (s' : _StateOpen) :
  (length target < fuel)%nat →
  sent_so_far < large_length msg →
  send_respooled_parts fuel cfg clock msg id [] target sent_so_far part_id s
  = (r, s') →
  ∃ (frames : list (bytes * bytes)) (rest : bytes),
    target = concat frames.*2 ++ rest
    ∧ Forall (λ frame, frame.2 ≠ []) frames
    ∧ trace s' = trace s ++ frames_sent frames
    ∧ expecting_acks s'
      = expecting_acks s ++ continue_acks id part_id (length frames)
    ∧ (r = Ok () → rest = []).
Proof.
  intros Hfuel Hsent. revert target part_id s Hfuel.
  induction fuel as [|fuel IH]; intros target part_id s Hfuel Hrun; [lia|].
  cbn [send_respooled_parts] in Hrun. session_step_in Hrun.
  destruct (_make_receive_stream_message_prefix _ _ _ _ _ _ _ _ _ s)
    as [[headers|e] s1] eqn:Hp;
    apply make_prefix_keeps in Hp as [Htr1 Hacks1].
  2:{ injection Hrun as <- <-. exists [], target.
      repeat split; try done; simpl; by rewrite app_nil_r. }
  set (space := Z.max 512 (default (2 ^ 64 - 1) (outgoing_max_ws_message_size cfg)
                           - len headers)) in *.
  assert (0 < Z.to_nat space)%nat as Hspace by (unfold space; lia).
  case_bool_decide as Hpart.
  { injection Hrun as <- <-. exists [], target.
    repeat split; try done; try (simpl; by rewrite app_nil_r).
    intros _. destruct target; [done|]. by destruct (Z.to_nat space); [lia|]. }
  assert (target ≠ []) as Htarget by (intros ->; by rewrite take_nil in Hpart).
  change (len (@nil byte)) with 0 in Hrun. rewrite Z.add_0_r in Hrun.
  destruct (Z.ltb_spec (large_length msg) sent_so_far); [lia|].
  destruct (Z.eqb_spec sent_so_far (large_length msg)); [lia|].
  unfold expecting_acks_put, websocket_send_bytes_now in Hrun.
  session_step_in Hrun.
  apply IH in Hrun as (frames & rest & Hcat & Hall & Htr & Hacks & Hok).
  2:{ pose proof (length_drop_lt (Z.to_nat space) target Htarget Hspace). lia. }
  exists ((headers, take (Z.to_nat space) target) :: frames), rest.
  split; [|split; [|split; [|split]]].
  - rewrite fmap_cons, concat_cons. cbn [snd]. rewrite <- app_assoc, <- Hcat.
    by rewrite take_drop.
  - by apply Forall_cons.
  - rewrite Htr. session_read. rewrite Htr1. unfold frames_sent.
    by rewrite fmap_cons, <- app_assoc.
  - rewrite Hacks. session_read. rewrite Hacks1. by rewrite <- app_assoc.
  - done.
Qed.

(** The first loop of the uncompressed branch. When it ends the sending
    (no rest to respool), no part before the last has seen the timeout
    and the acknowledgements follow the position in the stream; when it
    leaves a rest, its last part has seen the timeout, every part is
    expected to be continued and less than the announced length was
    sent. *)
Lemma send_direct_parts_frames (clock : Z → Z) (timeout_first : Z → bool)
    (msg : _LargeMessage) (id : bytes) (capture_io : capturer) (fuel : nat)
    (stream : bytes) (sent_so_far part_id : Z) (s : _StateOpen)
    (respool : option (bytes * Z * Z)) (s' : _StateOpen) :
  (length stream < fuel)%nat →
  send_direct_parts fuel cfg clock timeout_first msg id capture_io stream
    sent_so_far part_id s = (Ok respool, s') →
  ∃ (frames : list (bytes * bytes)) (rest : bytes),
    stream = concat frames.*2 ++ rest
    ∧ Forall (λ frame, frame.2 ≠ []) frames
    ∧ trace s' = trace s ++ frames_sent frames
    ∧ (∀ k : nat, (S k < length frames)%nat →
         timeout_first (part_id + Z.of_nat k) = false)
    ∧ match respool with
      | None =>
          expecting_acks s'
          = expecting_acks s
            ++ position_acks id (large_length msg) sent_so_far part_id frames.*2
          ∧ (rest = []
             ∨ sent_so_far + len (concat frames.*2) = large_length msg)
      | Some (stream', sent_so_far', part_id') =>
          stream' = rest
          ∧ sent_so_far' < large_length msg
          ∧ part_id' = part_id + len frames
          ∧ expecting_acks s'
            = expecting_acks s ++ continue_acks id part_id (length frames)
          ∧ ∃ k : nat, length frames = S k
                       ∧ timeout_first (part_id + Z.of_nat k) = true
      end.
Proof.
  revert stream sent_so_far part_id s.
  induction fuel as [|fuel IH]; intros stream sent_so_far part_id s Hfuel Hrun;
    [lia|].
  cbn [send_direct_parts] in Hrun. session_step_in Hrun.
  destruct (_make_receive_stream_message_prefix _ _ _ _ _ _ _ _ _ s)
    as [[headers|e] s1] eqn:Hp; [|done].
  apply make_prefix_keeps in Hp as [Htr1 Hacks1].
  set (space := Z.max 512 (default (2 ^ 64 - 1) (outgoing_max_ws_message_size cfg)
                           - len headers)) in *.
  assert (0 < Z.to_nat space)%nat as Hspace by (unfold space; lia).
  case_bool_decide as Hchunk.
  { injection Hrun as <- <-. exists [], stream.
    assert (stream = []) as ->.
    { destruct stream; [done|]. by destruct (Z.to_nat space); [lia|]. }
    repeat split; try done; try (simpl; by rewrite app_nil_r).
    - intros k Hk. simpl in Hk. lia.
    - by left. }
  assert (stream ≠ []) as Hstream by (intros ->; by rewrite take_nil in Hchunk).
  session_step_in Hrun.
  destruct (capturer_write_run capture_io (take (Z.to_nat space) stream) s1)
    as (t & Hcap). rewrite Hcap in Hrun.
  set (chunk := take (Z.to_nat space) stream) in *.
  destruct (Z.ltb_spec (large_length msg) (sent_so_far + len chunk)) as [|Hle];
    [done|].
  unfold expecting_acks_put, websocket_send_bytes_now in Hrun.
  destruct (Z.eqb_spec (sent_so_far + len chunk) (large_length msg)) as [Heq|Hne].
  { session_step_in Hrun. injection Hrun as <- <-.
    exists [(headers, chunk)], (drop (Z.to_nat space) stream).
    split; [|split; [|split; [|split; [|split]]]].
    - simpl. rewrite app_nil_r. unfold chunk. by rewrite take_drop.
    - by apply Forall_cons.
    - session_read. by rewrite Htr1.
    - intros k Hk. simpl in Hk. lia.
    - session_read. rewrite Hacks1. cbn [fmap list_fmap snd position_acks].
      destruct (Z.ltb_spec (sent_so_far + len chunk) (large_length msg)); [lia|done].
    - right. simpl. by rewrite app_nil_r. }
  session_step_in Hrun.
  destruct (timeout_first part_id) eqn:Htimeout.
  { injection Hrun as <- <-.
    exists [(headers, chunk)], (drop (Z.to_nat space) stream).
    split; [|split; [|split; [|split; [|split; [|split; [|split; [|split]]]]]]].
    - simpl. rewrite app_nil_r. unfold chunk. by rewrite take_drop.
    - by apply Forall_cons.
    - session_read. by rewrite Htr1.
    - intros k Hk. simpl in Hk. lia.
    - done.
    - lia.
    - unfold len. simpl. lia.
    - session_read. by rewrite Hacks1.
    - exists 0%nat. by rewrite Z.add_0_r. }
  apply IH in Hrun as (frames & rest & Hcat & Hall & Htr & Hno & Hend).
  2:{ pose proof (length_drop_lt (Z.to_nat space) stream Hstream Hspace). lia. }
  exists ((headers, chunk) :: frames), rest.
  split; [|split; [|split; [|split]]].
  - rewrite fmap_cons, concat_cons. cbn [snd]. rewrite <- app_assoc, <- Hcat.
    unfold chunk. by rewrite take_drop.
  - by apply Forall_cons.
  - rewrite Htr. session_read. rewrite Htr1. unfold frames_sent.
    by rewrite fmap_cons, <- app_assoc.
  - intros [|k] Hk; [by rewrite Z.add_0_r|].
    replace (part_id + Z.of_nat (S k)) with (part_id + 1 + Z.of_nat k) by lia.
    apply Hno. simpl in Hk. lia.
  - destruct respool as [[[stream' sent'] part']|].
    + destruct Hend as (-> & Hsent & -> & Hacks & k & Hk & Htime).
      split; [done|]. split; [done|]. split; [unfold len; simpl; lia|]. split.
      * rewrite Hacks. session_read. rewrite Hacks1. by rewrite <- app_assoc.
      * exists (S k). split; [simpl; lia|].
        by replace (part_id + Z.of_nat (S k)) with (part_id + 1 + Z.of_nat k)
          by lia.
    + destruct Hend as (Hacks & Hdone). split.
      * rewrite Hacks. session_read. rewrite Hacks1.
        rewrite <- app_assoc. f_equal. cbn [fmap list_fmap snd position_acks].
        destruct (Z.ltb_spec (sent_so_far + len chunk) (large_length msg)); [done|lia].
      * destruct Hdone as [->|Hdone]; [by left|right].
        rewrite fmap_cons, concat_cons. cbn [snd]. unfold len in *.
        rewrite length_app. lia.
Qed.

End optimistic.

(** X9. The acknowledgements of a large message that is sent
    without compression while the hub waits. When
    [_send_large_message_optimistically] returns, the frames it has sent
    carry consecutive non-empty pieces of the stream, from its start.
    When no timeout is seen, an acknowledgement is expected for every
    frame according to the bytes sent so far, [CONFIRM_RECEIVE] for the
    frame that reaches the announced length and [CONTINUE_RECEIVE] before
    it, and the sending has stopped at the end of the stream or at the
    announced length. When the timeout is seen while a frame other than
    the last one is sent, the rest of the stream is sent from a temporary
    file, all of it, and every frame of the message is expected to be
    acknowledged by [CONTINUE_RECEIVE]: no [CONFIRM_RECEIVE] is expected,
    since the second loop counts the bytes sent with the empty chunk that
    ended the copy. *)
Theorem optimistic_message_acknowledgements `{ZstdChunker} (cfg : Config)
    (now : Z) (clock : Z → Z) (timeout_first : Z → bool) (msg_identifier : bytes)
    (msg : _LargeMessage) (state state' : _StateOpen) :
  _send_large_message_optimistically_plan cfg state msg = Ok Uncompressed →
  _send_large_message_optimistically cfg now clock timeout_first msg_identifier
    msg state = (Ok (), state') →
  ∃ (frames : list (bytes * bytes)) (rest : bytes),
    large_stream msg = concat frames.*2 ++ rest
    ∧ Forall (λ frame, frame.2 ≠ []) frames
    ∧ trace state' = trace state ++ frames_sent frames
    ∧ ((∀ k : nat, timeout_first (Z.of_nat k) = false) →
       expecting_acks state'
       = expecting_acks state
         ++ position_acks msg_identifier (large_length msg) 0 0 frames.*2
       ∧ (rest = [] ∨ len (concat frames.*2) = large_length msg))
    ∧ (∀ k : nat, (S k < length frames)%nat →
         timeout_first (Z.of_nat k) = true →
         expecting_acks state'
         = expecting_acks state
           ++ continue_acks msg_identifier 0 (length frames)
         ∧ rest = []).
Proof.
  intros Hplan Hrun. unfold _send_large_message_optimistically in Hrun.
  session_step_in Hrun. rewrite Hplan in Hrun. session_step_in Hrun.
  destruct (_make_store_for_training_capturer cfg now (large_length msg) state)
    as [[capture_io|e] s1] eqn:Hstore; [|done].
  apply make_store_state in Hstore.
  destruct (send_direct_parts _ _ _ _ _ _ _ _ _ _ s1) as [[respool|e] s2]
    eqn:Hdirect; [|done].
  apply send_direct_parts_frames in Hdirect
    as (frames & rest & Hcat & Hall & Htr & Hno & Hend); [|lia].
  rewrite Hstore in Htr, Hend. session_read_in Htr. session_read_in Hend.
  destruct respool as [[[stream' sent'] part']|].
  - destruct Hend as (-> & Hsent & -> & Hacks & k0 & Hk0 & Htime).
    session_step_in Hrun.
    destruct (capture_chunks_run capture_io
                (read_chunks (length rest) DEFAULT_BUFFER_SIZE rest) s2)
      as (t & Hcap). rewrite Hcap in Hrun.
    rewrite read_chunks_concat in Hrun by done.
    apply send_respooled_parts_frames in Hrun
      as (frames2 & rest2 & Hcat2 & Hall2 & Htr2 & Hacks2 & Hok2);
      [|lia|done].
    session_read_in Htr2. session_read_in Hacks2.
    specialize (Hok2 eq_refl). subst rest2. rewrite app_nil_r in Hcat2.
    exists (frames ++ frames2), []. split; [|split; [|split; [|split]]].
    + by rewrite app_nil_r, fmap_app, concat_app, <- Hcat2.
    + by apply Forall_app.
    + rewrite Htr2, Htr. unfold frames_sent. by rewrite fmap_app, app_assoc.
    + intros Hnever. rewrite Z.add_0_l in Htime. by rewrite Hnever in Htime.
    + intros k Hk Hk'. split; [|done].
      by rewrite Hacks2, Hacks, length_app, continue_acks_app, app_assoc.
  - injection Hrun as <-. destruct Hend as (Hacks & Hdone).
    exists frames, rest. split; [done|]. split; [done|]. split; [done|]. split.
    + intros _. split; [done|]. destruct Hdone as [->|Hdone]; [by left|right]. lia.
    + intros k Hk Htime. specialize (Hno k Hk). rewrite Z.add_0_l in Hno.
      by rewrite Hno in Htime.
Qed.

Lemma optimistic_message_acknowledgements_witness :
  let timeout_first := λ part_id, part_id =? 0 in
  let run :=
    _send_large_message_optimistically (H := example_chunker)
      example_training_config 0 (λ part_id, part_id) timeout_first (b "abcd")
      example_large_message example_sending_session in
  run.1 = Ok ()
  ∧ ∃ (frames : list (bytes * bytes)) (rest : bytes),
      large_stream example_large_message = concat frames.*2 ++ rest
      ∧ Forall (λ frame, frame.2 ≠ []) frames
      ∧ trace run.2 = trace example_sending_session ++ frames_sent frames
      ∧ ((∀ k : nat, timeout_first (Z.of_nat k) = false) →
         expecting_acks run.2
         = expecting_acks example_sending_session
           ++ position_acks (b "abcd") (large_length example_large_message) 0 0
                frames.*2
         ∧ (rest = []
            ∨ len (concat frames.*2) = large_length example_large_message))
      ∧ (∀ k : nat, (S k < length frames)%nat →
           timeout_first (Z.of_nat k) = true →
           expecting_acks run.2
           = expecting_acks example_sending_session
             ++ continue_acks (b "abcd") 0 (length frames)
           ∧ rest = []).
Proof.
  intros timeout_first run. split; [vm_compute; reflexivity|].
  apply (optimistic_message_acknowledgements (H := example_chunker)
           example_training_config 0 (λ part_id, part_id) timeout_first (b "abcd")
           example_large_message example_sending_session run.2).
  - vm_compute. reflexivity.
  - vm_compute. reflexivity.
Defined.

(** The example, evaluated: the message of 1200 bytes goes out in three
    frames; with a timeout during the first one, the session expects
    three [CONTINUE_RECEIVE]; without, the last is [CONFIRM_RECEIVE]. *)
Example respooled_message_is_never_confirmed :
  let run timeout_first :=
    _send_large_message_optimistically (H := example_chunker)
      example_training_config 0 (λ part_id, part_id) timeout_first (b "abcd")
      example_large_message example_sending_session in
  expecting_acks (run (λ part_id, part_id =? 0)).2
  = [_ContinueReceive (b "abcd") 0; _ContinueReceive (b "abcd") 1;
     _ContinueReceive (b "abcd") 2]
  ∧ expecting_acks (run (λ _, false)).2
    = [_ContinueReceive (b "abcd") 0; _ContinueReceive (b "abcd") 1;
       _ConfirmReceive (b "abcd")].
Proof. vm_compute. by split. Qed.

(** ** Subscriptions: subscribe, then unsubscribe *)

Section round_trip.

Context `{Externals} (cfg : Config).

Lemma find_glob_snoc (glob : string) (subs : list (Pattern * string))
    (pattern : Pattern) :
  find_glob glob subs = None →
  find_glob glob (subs ++ [(pattern, glob)]) = Some (length subs).
Proof.
  induction subs as [|[p g] subs IH]; cbn [find_glob app length].
  - by rewrite bool_decide_eq_true_2.
  - case_bool_decide; [done|]. destruct (find_glob glob subs); [done|].
    intros _. by rewrite IH.
Qed.

Lemma delete_snoc {A : Type} (l : list A) (x : A) : delete (length l) (l ++ [x]) = l.
Proof. induction l as [|y l IH]; [done|]. simpl. by rewrite IH. Qed.

Lemma subscribe_run (now : Z) (message : _ParsedWSMessage) (s s1 : _StateOpen) :
  msg_type message = SUBSCRIBE_EXACT ∨ msg_type message = SUBSCRIBE_GLOB →
  _process_subscribe_or_unsubscribe cfg now message s = (Ok (), s1) →
  (∃ topic,
     msg_type message = SUBSCRIBE_EXACT
     ∧ msg_headers message !! "x-topic"%string = Some topic
     ∧ (topic ∉ exact_subscriptions (my_receiver s))
     ∧ my_receiver s1
       = mk_MyReceiver ({[topic]} ∪ exact_subscriptions (my_receiver s))
           (glob_subscriptions (my_receiver s))
     ∧ ∀ key, hub_balance key (trace s1)
              = hub_balance key (trace s) + hub_delta key (EvIncrementExact topic))
  ∨ (∃ glob_bytes glob,
       msg_type message = SUBSCRIBE_GLOB
       ∧ msg_headers message !! "x-glob"%string = Some glob_bytes
       ∧ decode_utf8 glob_bytes = Ok glob
       ∧ find_glob glob (glob_subscriptions (my_receiver s)) = None
       ∧ my_receiver s1
         = mk_MyReceiver (exact_subscriptions (my_receiver s))
             (glob_subscriptions (my_receiver s)
              ++ [(re_compile (translate glob), glob)])
       ∧ ∀ key, hub_balance key (trace s1)
                = hub_balance key (trace s) + hub_delta key (EvIncrementGlob glob)).
Proof.
  unfold _process_subscribe_or_unsubscribe,
    _make_for_receive_websocket_url_and_change_counter, getitem.
  intros Htype Hrun. session_cases Hrun.
  all: try (destruct Htype; congruence).
  all: apply send_or_enqueue_hub in Hrun as [Hm Hb]; session_read_in Hm;
    session_read_in Hb.
  all: repeat match goal with
       | Hd : bool_decide _ = false |- _ => apply bool_decide_eq_false in Hd
       | Hd : bool_decide _ = true |- _ => apply bool_decide_eq_true in Hd
       end.
  all: try (exfalso;
            match goal with
            | Hd : _ ∈ [_; _] |- _ => by (set_unfold in Hd; intuition congruence)
            | Hd : ¬ (_ ∈ [_; _]) |- _ => by (set_unfold in Hd; intuition congruence)
            end).
  all: rewrite Hm.
  all: assert (∀ key e1 e2,
         hub_balance key ((trace s ++ [e1]) ++ [e2])
         = hub_balance key (trace s) + hub_delta key e1 + hub_delta key e2)
       as Hsum
       by (intros; rewrite !hub_balance_app; cbn [hub_balance foldr]; lia).
  all: first
    [ left; eexists; repeat split; try done;
      intros key; rewrite Hb, Hsum; destruct key; cbn [hub_delta]; lia
    | right; do 2 eexists; repeat split; try done;
      [ match goal with
        | Hn : ¬ is_Some ?x |- ?x = None =>
            destruct x; [destruct Hn; by eexists|done]
        end
      | intros key; rewrite Hb, Hsum; destruct key; cbn [hub_delta]; lia ] ].
Qed.

Lemma unsubscribe_run (now : Z) (message : _ParsedWSMessage) (s s1 : _StateOpen) :
  msg_type message = UNSUBSCRIBE_EXACT ∨ msg_type message = UNSUBSCRIBE_GLOB →
  _process_subscribe_or_unsubscribe cfg now message s = (Ok (), s1) →
  (∃ topic,
     msg_type message = UNSUBSCRIBE_EXACT
     ∧ msg_headers message !! "x-topic"%string = Some topic
     ∧ my_receiver s1
       = mk_MyReceiver (exact_subscriptions (my_receiver s) ∖ {[topic]})
           (glob_subscriptions (my_receiver s))
     ∧ ∀ key, hub_balance key (trace s1)
              = hub_balance key (trace s) + hub_delta key (EvDecrementExact topic))
  ∨ (∃ glob_bytes glob idx,
       msg_type message = UNSUBSCRIBE_GLOB
       ∧ msg_headers message !! "x-glob"%string = Some glob_bytes
       ∧ decode_utf8 glob_bytes = Ok glob
       ∧ find_glob glob (glob_subscriptions (my_receiver s)) = Some idx
       ∧ my_receiver s1
         = mk_MyReceiver (exact_subscriptions (my_receiver s))
             (delete idx (glob_subscriptions (my_receiver s)))
       ∧ ∀ key, hub_balance key (trace s1)
                = hub_balance key (trace s) + hub_delta key (EvDecrementGlob glob)).
Proof.
  unfold _process_subscribe_or_unsubscribe,
    _make_for_receive_websocket_url_and_change_counter, getitem.
  intros Htype Hrun. session_cases Hrun.
  all: try (destruct Htype; congruence).
  all: apply send_or_enqueue_hub in Hrun as [Hm Hb]; session_read_in Hm;
    session_read_in Hb.
  all: repeat match goal with
       | Hd : bool_decide _ = false |- _ => apply bool_decide_eq_false in Hd
       | Hd : bool_decide _ = true |- _ => apply bool_decide_eq_true in Hd
       end.
  all: try (exfalso;
            match goal with
            | Hd : _ ∈ [_; _] |- _ => by (set_unfold in Hd; intuition congruence)
            | Hd : ¬ (_ ∈ [_; _]) |- _ => by (set_unfold in Hd; intuition congruence)
            end).
  all: rewrite Hm.
  all: assert (∀ key e1 e2,
         hub_balance key ((trace s ++ [e1]) ++ [e2])
         = hub_balance key (trace s) + hub_delta key e1 + hub_delta key e2)
       as Hsum
       by (intros; rewrite !hub_balance_app; cbn [hub_balance foldr]; lia).
  all: first
    [ left; eexists; repeat split; try done;
      intros key; rewrite Hb, Hsum; destruct key; cbn [hub_delta]; lia
    | right; do 3 eexists; repeat split; try done;
      intros key; rewrite Hb, Hsum; destruct key; cbn [hub_delta]; lia ].
Qed.

(** A subscription that is held is not taken twice: the processor
    raises, and the subscriptions and the calls made stay as they
    are. *)
Lemma subscribe_held (now : Z) (message : _ParsedWSMessage) (s : _StateOpen)
    (r : result ()) (s' : _StateOpen) :
  (msg_type message = SUBSCRIBE_EXACT
   ∧ ∃ topic, msg_headers message !! "x-topic"%string = Some topic
              ∧ topic ∈ exact_subscriptions (my_receiver s))
  ∨ (msg_type message = SUBSCRIBE_GLOB
     ∧ ∃ glob_bytes glob,
         msg_headers message !! "x-glob"%string = Some glob_bytes
         ∧ decode_utf8 glob_bytes = Ok glob
         ∧ is_Some (find_glob glob (glob_subscriptions (my_receiver s)))) →
  _process_subscribe_or_unsubscribe cfg now message s = (r, s') →
  r ≠ Ok () ∧ my_receiver s' = my_receiver s ∧ trace s' = trace s.
Proof.
  unfold _process_subscribe_or_unsubscribe,
    _make_for_receive_websocket_url_and_change_counter, getitem.
  intros Hheld Hrun. session_cases Hrun.
  all: try (injection Hrun as <- <-; by session_read).
  all: exfalso.
  all: repeat match goal with
       | Hd : bool_decide _ = false |- _ => apply bool_decide_eq_false in Hd
       | Hd : bool_decide _ = true |- _ => apply bool_decide_eq_true in Hd
       end.
  all: destruct Hheld as [[Ht (topic & Hh & Hin)]|[Ht (gb & g & Hh & Hd & Hin)]];
    try congruence.
  all: try (match goal with
            | Hd : _ ∈ [_; _] |- _ => by (set_unfold in Hd; intuition congruence)
            | Hd : ¬ (_ ∈ [_; _]) |- _ => by (set_unfold in Hd; intuition congruence)
            end).
  all: try (rewrite Hh in *; simplify_eq; done).
Qed.

End round_trip.

(** X10. Subscribing and unsubscribing undo each other. Once a
    [SUBSCRIBE_EXACT] or a [SUBSCRIBE_GLOB] was accepted, the same
    request is refused for as long as the subscription is held, and
    leaves the subscriptions and the calls made as they are; the
    [UNSUBSCRIBE_EXACT] or [UNSUBSCRIBE_GLOB] for the same topic or glob,
    when it is accepted, gives back the subscriptions the session had
    before it subscribed, the glob subscriptions in their order, and
    brings the count of every topic and glob at the hub back to what it
    was. *)
Theorem subscribe_unsubscribe_round_trip `{Externals} (cfg : Config)
    (now now' : Z) (subscribe unsubscribe : _ParsedWSMessage)
    (state s1 : _StateOpen) :
  (msg_type subscribe = SUBSCRIBE_EXACT ∧ msg_type unsubscribe = UNSUBSCRIBE_EXACT
   ∧ msg_headers unsubscribe !! "x-topic"%string
     = msg_headers subscribe !! "x-topic"%string)
  ∨ (msg_type subscribe = SUBSCRIBE_GLOB ∧ msg_type unsubscribe = UNSUBSCRIBE_GLOB
     ∧ msg_headers unsubscribe !! "x-glob"%string
       = msg_headers subscribe !! "x-glob"%string) →
  _process_subscribe_or_unsubscribe cfg now subscribe state = (Ok (), s1) →
  (∀ r s2,
     _process_subscribe_or_unsubscribe cfg now' subscribe s1 = (r, s2) →
     r ≠ Ok () ∧ my_receiver s2 = my_receiver s1 ∧ trace s2 = trace s1)
  ∧ (∀ s2,
       _process_subscribe_or_unsubscribe cfg now' unsubscribe s1 = (Ok (), s2) →
       my_receiver s2 = my_receiver state
       ∧ ∀ key, hub_balance key (trace s2) = hub_balance key (trace state)).
Proof.
  intros Hpair Hsub.
  pose proof Hsub as Hsub'. apply subscribe_run in Hsub'.
  2:{ destruct Hpair as [[-> _]|[-> _]]; [by left|by right]. }
  split.
  - intros r s2 Hagain. eapply subscribe_held; [|exact Hagain].
    destruct Hsub' as [(topic & Ht & Hh & Hnew & Hm & _)
                      |(gb & glob & Ht & Hh & Hd & Hnew & Hm & _)].
    + left. split; [done|]. exists topic. split; [done|]. rewrite Hm. simpl.
      apply elem_of_union_l. by apply elem_of_singleton.
    + right. split; [done|]. exists gb, glob. repeat split; try done.
      rewrite Hm. simpl. erewrite find_glob_snoc by done. by eexists.
  - intros s2 Hun. apply unsubscribe_run in Hun.
    2:{ destruct Hpair as [(_ & -> & _)|(_ & -> & _)]; [by left|by right]. }
    destruct Hsub' as [(topic & Ht & Hh & Hnew & Hm & Hb)
                      |(gb & glob & Ht & Hh & Hd & Hnew & Hm & Hb)];
      destruct Hun as [(topic' & Ht' & Hh' & Hm' & Hb')
                      |(gb' & glob' & idx & Ht' & Hh' & Hd' & Hidx & Hm' & Hb')];
      destruct Hpair as [(? & ? & Hsame)|(? & ? & Hsame)]; try congruence.
    + rewrite Hsame, Hh in Hh'. injection Hh' as <-. split.
      * rewrite Hm', Hm. simpl. destruct (my_receiver state) as [exact globs].
        simpl in *. f_equal. apply set_eq. intros x. set_unfold.
        split; [by intros [[->|?] ?]|]. intros Hx. split; [by right|].
        by intros ->.
      * intros key. rewrite Hb', Hb. destruct key; cbn [hub_delta]; [|lia].
        case_bool_decide; lia.
    + rewrite Hsame, Hh in Hh'. injection Hh' as <-.
      rewrite Hd in Hd'. injection Hd' as <-. split.
      * rewrite Hm', Hm in *. simpl in *.
        rewrite (find_glob_snoc _ _ _ Hnew) in Hidx. injection Hidx as <-.
        rewrite delete_snoc. by destruct (my_receiver state).
      * intros key. rewrite Hb', Hb. destruct key; cbn [hub_delta]; [lia|].
        case_bool_decide; lia.
Qed.

Lemma subscribe_unsubscribe_round_trip_witness :
  let subscribed :=
    _process_subscribe_or_unsubscribe (H := example_externals) example_config 0
      example_subscribe_exact example_session in
  let unsubscribed :=
    _process_subscribe_or_unsubscribe (H := example_externals) example_config 1
      example_unsubscribe_exact subscribed.2 in
  subscribed.1 = Ok ()
  ∧ unsubscribed.1 = Ok ()
  ∧ b "room/1" ∈ exact_subscriptions (my_receiver subscribed.2)
  ∧ my_receiver unsubscribed.2 = my_receiver example_session
  ∧ ∀ key, hub_balance key (trace unsubscribed.2)
           = hub_balance key (trace example_session).
Proof.
  intros subscribed unsubscribed.
  assert (subscribed = (Ok (), subscribed.2)) as Hsub by (vm_compute; reflexivity).
  assert (unsubscribed = (Ok (), unsubscribed.2)) as Hun
    by (vm_compute; reflexivity).
  split; [by rewrite Hsub|]. split; [by rewrite Hun|].
  split; [by apply elem_of_union_l, elem_of_singleton|].
  destruct (subscribe_unsubscribe_round_trip (H := example_externals)
              example_config 0 1 example_subscribe_exact
              example_unsubscribe_exact example_session subscribed.2
              (or_introl (conj eq_refl (conj eq_refl eq_refl))) Hsub)
    as [_ Hround].
  exact (Hround unsubscribed.2 Hun).
Defined.

(** ** The configure handshake *)

(** The flags of a frame that was parsed fit the two bytes they were read
    from. *)
Lemma parse_flags_range (frame : bytes) (message : _ParsedWSMessage) :
  _parse_websocket_message frame = Ok message → 0 ≤ msg_flags message < 65536.
Proof.
  unfold _parse_websocket_message.
  destruct (read_exact frame 2) as [[flag_bytes stream]|e] eqn:Hread; [|done].
  assert (0 ≤ from_bytes flag_bytes < 65536) as Hflags.
  { unfold read_exact in Hread. destruct (2 <=? len frame); [|done].
    injection Hread as <- _.
    pose proof (from_bytes_range (take (Z.to_nat 2) frame)) as Hr.
    assert (256 ^ len (take (Z.to_nat 2) frame) ≤ 256 ^ 2)
      by (apply Z.pow_le_mono_r; unfold len; rewrite ?length_take; lia).
    lia. }
  cbv beta iota delta [mbind result_bind Py.bind]. intros Hparse.
  repeat match type of Hparse with
         | context [match ?x with _ => _ end] =>
             let y := innermost_scrutinee x in destruct y eqn:?
         end; try done.
  all: by injection Hparse as <-.
Qed.

Lemma from_bytes_two (value : bytes) :
  (2 <? len value) = false → 0 ≤ from_bytes value < 65536.
Proof.
  intros Hlen%Z.ltb_ge. pose proof (from_bytes_range value) as Hr.
  assert (256 ^ len value ≤ 256 ^ 2)
    by (apply Z.pow_le_mono_r; unfold len in *; lia).
  lia.
Qed.

(** The confirmation of a configuration can always be written. *)
Lemma confirm_configure_ok (flags : Z) (broadcaster_nonce : bytes) :
  0 ≤ flags < 65536 → len broadcaster_nonce = 32 →
  ∃ confirm,
    _make_websocket_message flags CONFIRM_CONFIGURE
      [("x-broadcaster-nonce"%string, broadcaster_nonce)] [] = Ok confirm.
Proof.
  intros Hflags Hlen. unfold _make_websocket_message.
  destruct (to_bytes_ok flags 2) as (flag_bytes & -> & _); [lia|].
  cbv beta iota delta [mbind result_bind Py.bind].
  change (to_bytes (outgoing_type_value CONFIRM_CONFIGURE) 2)
    with (Ok ["000"; "001"]%byte).
  cbn [write_minimal_headers write_expanded_headers].
  rewrite Hlen.
  destruct (has_minimal_headers flags); vm_compute; by eexists.
Qed.

(** X11. [CONFIGURE] is taken once and as a whole. For a frame
    as the parser gives it and a broadcaster nonce of 32 bytes: when
    [_process_configure] raises, the session is exactly as it was; on a
    session that is configured it raises [ValueError]; when it returns,
    the subscriber nonce had 32 bytes, the session has its
    configuration, in which training is only enabled together with zstd
    and the initial dictionary is below 65536, the training state is
    dropped unless training was asked for, the compressors are untouched
    unless zstd was asked for, and exactly one frame,
    [CONFIRM_CONFIGURE] with the broadcaster nonce in the form of
    headers of the request, is appended to the pending sends, also when
    the send slot is free. *)
Theorem configure_once_and_whole (cfg : Config) (frame broadcaster_nonce : bytes)
    (message : _ParsedWSMessage) (state : _StateOpen) (r : result ())
    (state' : _StateOpen) :
  _parse_websocket_message frame = Ok message →
  len broadcaster_nonce = 32 →
  _process_configure cfg broadcaster_nonce message state = (r, state') →
  (r ≠ Ok () → state' = state)
  ∧ (msg_type message = CONFIGURE → is_Some (socket_level_config state) →
     r = Raise (ValueError "configuration already set"))
  ∧ (r = Ok () →
     ∃ subscriber_nonce config confirm,
       msg_headers message !! "x-subscriber-nonce"%string = Some subscriber_nonce
       ∧ len subscriber_nonce = 32
       ∧ socket_level_config state = None
       ∧ socket_level_config state' = Some config
       ∧ (enable_training config = true → enable_zstd config = true)
       ∧ 0 ≤ dictionary_id config < 65536
       ∧ (enable_training config = false → training_data state' = None)
       ∧ (enable_training config = true →
          training_data state' = training_data state)
       ∧ (enable_zstd config = false →
          standard_compressor state' = standard_compressor state
          ∧ active_compressor state' = active_compressor state
          ∧ last_compressor state' = last_compressor state)
       ∧ _make_websocket_message (msg_flags message) CONFIRM_CONFIGURE
           [("x-broadcaster-nonce"%string, broadcaster_nonce)] [] = Ok confirm
       ∧ pending_sends state'
         = deque_append (websocket_max_pending_sends cfg) (pending_sends state)
             (_FormattedMessage confirm)
       ∧ send_task state' = send_task state
       ∧ my_receiver state' = my_receiver state).
Proof.
  intros Hparse Hnonce Hrun. apply parse_flags_range in Hparse.
  destruct (confirm_configure_ok (msg_flags message) broadcaster_nonce Hparse
              Hnonce) as (confirm & Hconfirm).
  unfold _process_configure, _rotate_compressor, getitem in Hrun.
  rewrite Hconfirm in Hrun.
  split; [|split].
  - session_cases Hrun.
    all: try (injection Hrun as <- <-; done).
  - intros Htype Hset. session_cases Hrun.
    all: try (injection Hrun as <- <-).
    all: try done.
    all: repeat match goal with
         | Hd : bool_decide _ = false |- _ => apply bool_decide_eq_false in Hd
         | Hd : negb (bool_decide _) = true |- _ =>
             apply negb_true_iff, bool_decide_eq_false in Hd
         end; try done.
  - intros ->. session_cases Hrun.
    all: injection Hrun as <-.
    all: repeat match goal with
         | Hd : negb _ = false |- _ => apply negb_false_iff in Hd
         | Hd : negb _ = true |- _ => apply negb_true_iff in Hd
         | Hd : bool_decide (is_Some _) = false |- _ =>
             apply bool_decide_eq_false in Hd
         end.
    all: do 3 eexists; session_read.
    all: repeat match goal with
         | |- _ ∧ _ => split
         end; try done.
    all: cbn [enable_training enable_zstd dictionary_id].
    all: try (by apply Z.eqb_eq).
    all: try (by match goal with
                 | Hn : ¬ is_Some ?x |- ?x = None =>
                     destruct x; [destruct Hn; by eexists|done]
                 end).
    all: try (by apply from_bytes_two).
    all: try congruence.
    all: try (exfalso;
              match goal with
              | Hd : _ && _ = true |- _ =>
                  rewrite ?andb_false_r, ?andb_false_l in Hd; simpl in Hd
              end; done).
    all: intros _.
    all: match goal with
         | Ht : ?x = true, Hd : ?x && _ = false |- _ => by rewrite Ht in Hd
         end.
Qed.

Lemma configure_once_and_whole_witness :
  let frame :=
    example_frame CONFIGURE
      [("x-subscriber-nonce"%string, repeat "000"%byte 32)] [] in
  ∃ message,
    _parse_websocket_message frame = Ok message
    ∧ let first :=
        _process_configure example_config (repeat "170"%byte 32) message
          (_handle_accepting example_config 0) in
      let second :=
        _process_configure example_config (repeat "085"%byte 32) message
          first.2 in
      first.1 = Ok ()
      ∧ is_Some (socket_level_config first.2)
      ∧ second.1 = Raise (ValueError "configuration already set")
      ∧ second.2 = first.2.
Proof.
  intros frame. eexists. split; [vm_compute; reflexivity|].
  intros first second.
  assert (first.1 = Ok ()) as Hfirst by (vm_compute; reflexivity).
  assert (is_Some (socket_level_config first.2)) as Hset
    by (vm_compute; by eexists).
  destruct (configure_once_and_whole example_config frame
              (repeat "085"%byte 32) _ first.2 second.1 second.2
              ltac:(vm_compute; reflexivity) eq_refl (surjective_pairing second))
    as (Hsame & Honce & _).
  specialize (Honce eq_refl Hset).
  split; [done|]. split; [done|]. split; [done|].
  apply Hsame. by rewrite Honce.
Defined.

(** ** Ingress pipeline: the delivery of a notification *)

Section delivery.

Context `{Externals} (cfg : Config).

Lemma smallest_to_bytes_reads (n : Z) (value : bytes) :
  smallest_to_bytes n = Ok value → from_bytes value = n.
Proof.
  intros Hvalue. destruct (Z.ltb_spec n 0) as [Hneg|Hpos].
  - by rewrite smallest_to_bytes_negative in Hvalue.
  - destruct (smallest_to_bytes_ok n Hpos) as (value' & Hvalue' & Hread & _).
    congruence.
Qed.

Lemma store_small_trace (now : Z) (data : bytes) (s : _StateOpen)
    (r : result ()) (s1 : _StateOpen) :
  _store_small_for_compression_training cfg now data s = (r, s1) →
  trace s1 = trace s ∧ send_task s1 = send_task s.
Proof. intros Hrun%store_small_state. by rewrite Hrun. Qed.

Lemma make_store_trace (now length : Z) (s : _StateOpen) (r : result capturer)
    (s1 : _StateOpen) :
  _make_store_for_training_capturer cfg now length s = (r, s1) →
  trace s1 = trace s ∧ send_task s1 = send_task s.
Proof. intros Hrun%make_store_state. by rewrite Hrun. Qed.

Lemma should_store_trace (now length : Z) (s : _StateOpen) (r : result bool)
    (s1 : _StateOpen) :
  _should_store_large_message_for_training cfg now length s = (r, s1) →
  trace s1 = trace s ∧ send_task s1 = send_task s.
Proof.
  unfold _should_store_large_message_for_training,
    _handle_if_should_start_retraining.
  intros Hrun. session_cases Hrun.
  all: by injection Hrun as <- <-.
Qed.

Lemma capture_all_trace (c : capturer) (data : bytes) (s : _StateOpen)
    (r : result ()) (s1 : _StateOpen) :
  capture_all c data s = (r, s1) →
  trace s1 = trace s ∧ send_task s1 = send_task s.
Proof.
  unfold capture_all. destruct (capturer_write_run c data s) as (t & ->).
  by intros [= _ <-].
Qed.

(** [CONFIRM_NOTIFY]: one frame for the send slot, with the number of
    subscribers reached; nothing when it cannot be written. *)
Lemma confirm_notify_run (flags : Z) (message_id : bytes)
    (notify_result : TrustedNotifyResult) (s : _StateOpen) (r : result ())
    (s' : _StateOpen) :
  confirm_notify cfg flags message_id notify_result s = (r, s') →
  match r with
  | Ok _ =>
      ∃ subscribers confirm,
        from_bytes subscribers = succeeded notify_result
        ∧ _make_websocket_message flags CONFIRM_NOTIFY
            [("x-identifier"%string, message_id);
             ("x-subscribers"%string, subscribers)] [] = Ok confirm
        ∧ (trace s' = trace s ++ [EvSendTask confirm]
           ∨ trace s' = trace s ++ [EvPendingSend confirm])
  | Raise _ => trace s' = trace s
  end.
Proof.
  unfold confirm_notify. intros Hrun. session_step_in Hrun.
  destruct (smallest_to_bytes (succeeded notify_result)) as [subscribers|e]
    eqn:Hsub; [|by injection Hrun as <- <-].
  destruct (_make_websocket_message _ _ _ _) as [confirm|e] eqn:Hconfirm;
    [|by injection Hrun as <- <-].
  apply send_or_enqueue_trace in Hrun as [-> Htrace].
  exists subscribers, confirm. split; [|done].
  by apply smallest_to_bytes_reads.
Qed.


End delivery.

(** X12. What [_process_notify] delivers. The delivery fanout is
    called at most once, and only for a frame that passed every check:
    the topic and the digest are those of the headers, the body has the
    advertised compressed length and SHA-512, the provider has allowed
    the notification for that topic and digest, and the data handed over
    has the advertised decompressed length and goes with its own
    SHA-512; without compression the data is the body. When the
    processor returns, the fanout has answered [OK] and exactly one
    frame follows the delivery: [CONFIRM_NOTIFY] with the identifier of
    the request and the number of subscribers reached, handed to the
    send slot or queued. When it raises after the delivery (the fanout
    was unavailable, or the confirmation could not be written), nothing
    is sent; when it raises before, nothing was delivered. *)
Theorem notify_delivery `{Externals} (cfg : Config) (now : Z)
    (message : _ParsedWSMessage) (state : _StateOpen) (r : result ())
    (state' : _StateOpen) :
  _process_notify cfg now message state = (r, state') →
  (r ≠ Ok () ∧ trace state' = trace state)
  ∨ ∃ topic compressed_sha512 data authorization,
      msg_headers message !! "x-topic"%string = Some topic
      ∧ msg_headers message !! "x-compressed-sha512"%string
        = Some compressed_sha512
      ∧ sha512 (msg_body message) = compressed_sha512
      ∧ (∃ value, msg_headers message !! "x-compressed-length"%string = Some value
                  ∧ from_bytes value = len (msg_body message))
      ∧ (∃ value, msg_headers message !! "x-decompressed-length"%string = Some value
                  ∧ from_bytes value = len data)
      ∧ decode_authorization (msg_headers message) = Ok authorization
      ∧ is_notify_allowed cfg topic compressed_sha512 now authorization = ok
      ∧ (from_bytes (default ["000"%byte]
                       (msg_headers message !! "x-compressor"%string)) = 0 →
         data = msg_body message)
      ∧ let notify_result :=
          handle_trusted_notify topic data (len data) (sha512 data) in
        let delivered := EvTrustedNotify topic data (len data) (sha512 data) in
        match r with
        | Ok _ =>
            result_type notify_result = OK
            ∧ ∃ message_id subscribers confirm,
                msg_headers message !! "x-identifier"%string = Some message_id
                ∧ from_bytes subscribers = succeeded notify_result
                ∧ _make_websocket_message (msg_flags message) CONFIRM_NOTIFY
                    [("x-identifier"%string, message_id);
                     ("x-subscribers"%string, subscribers)] [] = Ok confirm
                ∧ (trace state' = trace state ++ [delivered; EvSendTask confirm]
                   ∨ trace state'
                     = trace state ++ [delivered; EvPendingSend confirm])
        | Raise _ => trace state' = trace state ++ [delivered]
        end.
Proof.
  unfold _process_notify, getitem, call_handle_trusted_notify.
  intros Hrun. session_cases Hrun.
  all: repeat match goal with
       | Hq : _store_small_for_compression_training _ _ _ _ = _ |- _ =>
           apply store_small_trace in Hq as [? ?]
       | Hq : _should_store_large_message_for_training _ _ _ _ = _ |- _ =>
           apply should_store_trace in Hq as [? ?]
       | Hq : _make_store_for_training_capturer _ _ _ _ = _ |- _ =>
           apply make_store_trace in Hq as [? ?]
       | Hq : capture_all _ _ _ = _ |- _ => apply capture_all_trace in Hq as [? ?]
       end.
  all: try (left; injection Hrun as <- <-; split; [done|congruence]).
  all: repeat match goal with
       | Hd : negb _ = false |- _ => apply negb_false_iff in Hd
       | Hd : bool_decide _ = true |- _ => apply bool_decide_eq_true in Hd
       | Hd : (_ =? _) = true |- _ => apply Z.eqb_eq in Hd
       | Hd : (_ =? _) = false |- _ => apply Z.eqb_neq in Hd
       end.
  all: repeat match goal with
       | Hl : len _ = from_bytes _ |- _ => rewrite <- Hl in *; revert Hl
       end; intros.
  all: right.
  all: match type of Hrun with
       | context [EvTrustedNotify ?t ?d _ _] =>
           match goal with
           | Ha : decode_authorization _ = Ok ?a,
             Hs : _ !! "x-compressed-sha512"%string = Some ?h |- _ =>
               exists t, h, d, a
           end
       end.
  all: split; [done|]. all: split; [done|]. all: split; [done|].
  all: split; [by eexists|]. all: split; [by eexists|].
  all: split; [done|]. all: split; [done|]. all: split; [done|].
  all: first
    [ injection Hrun as <- <-; session_read; congruence
    | apply confirm_notify_run in Hrun; session_read_in Hrun;
      destruct r as [[]|e];
      [ destruct Hrun as (subscribers & confirm & Hsub & Hconfirm & Htrace);
        split; [done|];
        eexists _, subscribers, confirm; repeat split; try done;
        destruct Htrace as [Htrace|Htrace]; [left|right];
        rewrite Htrace, <- app_assoc; cbn [app]; congruence
      | rewrite Hrun; congruence ] ].
Qed.


Lemma notify_delivery_witness :
  let now := 0 in
  let message := example_notify (sha512 (b "hello")) in
  let state := example_session in
  let run := _process_notify (H := example_externals) example_config now message
               state in
  let r := run.1 in
  let state' := run.2 in
  r = Ok ()
  ∧ ((r ≠ Ok () ∧ trace state' = trace state)
    ∨ ∃ topic compressed_sha512 data authorization,
        msg_headers message !! "x-topic"%string = Some topic
        ∧ msg_headers message !! "x-compressed-sha512"%string
          = Some compressed_sha512
        ∧ sha512 (msg_body message) = compressed_sha512
        ∧ (∃ value, msg_headers message !! "x-compressed-length"%string = Some value
                    ∧ from_bytes value = len (msg_body message))
        ∧ (∃ value, msg_headers message !! "x-decompressed-length"%string = Some value
                    ∧ from_bytes value = len data)
        ∧ decode_authorization (msg_headers message) = Ok authorization
        ∧ is_notify_allowed example_config topic compressed_sha512 now authorization = ok
        ∧ (from_bytes (default ["000"%byte]
                         (msg_headers message !! "x-compressor"%string)) = 0 →
           data = msg_body message)
        ∧ let notify_result :=
            handle_trusted_notify (Externals := example_externals) topic data (len data) (sha512 data) in
          let delivered := EvTrustedNotify topic data (len data) (sha512 data) in
          match r with
          | Ok _ =>
              result_type notify_result = OK
              ∧ ∃ message_id subscribers confirm,
                  msg_headers message !! "x-identifier"%string = Some message_id
                  ∧ from_bytes subscribers = succeeded notify_result
                  ∧ _make_websocket_message (msg_flags message) CONFIRM_NOTIFY
                      [("x-identifier"%string, message_id);
                       ("x-subscribers"%string, subscribers)] [] = Ok confirm
                  ∧ (trace state' = trace state ++ [delivered; EvSendTask confirm]
                     ∨ trace state'
                       = trace state ++ [delivered; EvPendingSend confirm])
          | Raise _ => trace state' = trace state ++ [delivered]
          end).
Proof.
  intros now message state run r state'. split; [vm_compute; reflexivity|].
  exact (notify_delivery (H := example_externals) example_config now message
           state r state' (surjective_pairing run)).
Defined.

(** ** The two slots of the open session *)

Create HintDb slots.

Section slots.

Context `{Externals} `{ZstdChunker} (cfg : Config).

Lemma slots_kept_refl (s : _StateOpen) : slots_kept s s.
Proof. by split. Qed.

Lemma slots_kept_trans (s1 s2 s3 : _StateOpen) :
  slots_kept s1 s2 → slots_kept s2 s3 → slots_kept s1 s3.
Proof. intros [Hs1 Hp1] [Hs2 Hp2]. split; eauto. Qed.

Lemma keeps_slots_run {A : Type} (m : Session A) (s : _StateOpen) (r : result A)
    (s' : _StateOpen) :
  keeps_slots m → m s = (r, s') → slots_kept s s'.
Proof. intros Hm Hrun. specialize (Hm s). by rewrite Hrun in Hm. Qed.

Lemma keeps_slots_bind {A B : Type} (m : Session A) (f : A → Session B) :
  keeps_slots m → (∀ a, keeps_slots (f a)) → keeps_slots (m ≫= f).
Proof.
  intros Hm Hf s. unfold mbind, session_bind.
  specialize (Hm s). destruct (m s) as [[a|e] s1]; [|exact Hm].
  eapply slots_kept_trans; [exact Hm|apply Hf].
Qed.

Lemma keeps_slots_ret {A : Type} (a : A) : keeps_slots (mret a).
Proof. intros s. apply slots_kept_refl. Qed.

Lemma keeps_slots_raise {A : Type} (e : exn) : keeps_slots (@raise A e).
Proof. intros s. apply slots_kept_refl. Qed.

Lemma keeps_slots_lift {A : Type} (r : result A) : keeps_slots (lift r).
Proof. intros s. apply slots_kept_refl. Qed.

Lemma keeps_slots_get : keeps_slots get_state.
Proof. intros s. apply slots_kept_refl. Qed.

Lemma keeps_slots_emit (e : event) : keeps_slots (emit e).
Proof. intros s. by split. Qed.

Lemma keeps_slots_modify (f : _StateOpen → _StateOpen) :
  (∀ s, send_task (f s) = send_task s ∧ process_task (f s) = process_task s) →
  keeps_slots (modify f).
Proof.
  intros Hf s. destruct (Hf s) as [Hs Hp]. split; intros x Hx; cbn [modify snd].
  - by rewrite Hs.
  - by rewrite Hp.
Qed.

#[local] Hint Resolve keeps_slots_ret keeps_slots_raise keeps_slots_lift
  keeps_slots_get keeps_slots_emit : slots.

(** The computation of the goal, taken apart along its binds and its case
    analyses; an assignment must leave the slots alone. *)
Ltac keeps_slots_step :=
  lazymatch goal with
  | |- keeps_slots (mbind _ _) => apply keeps_slots_bind; [|intros ?]
  | |- keeps_slots (modify _) =>
      apply keeps_slots_modify; intros ?; by session_read
  | |- keeps_slots (match ?x with _ => _ end) => destruct x
  end.

Ltac keeps_slots_go := repeat first [solve [eauto with slots]|keeps_slots_step].

(** The send slot is taken only when it is free. *)
Lemma send_or_enqueue_slots (data : bytes) : keeps_slots (send_or_enqueue cfg data).
Proof.
  intros s. unfold send_or_enqueue. session_step.
  destruct (send_task s) eqn:Hsend; session_step.
  all: split; intros x Hx; cbn [snd]; session_read; congruence.
Qed.

(** A processor is started only when none runs. *)
Lemma process_message_asap_slots (message : _ParsedWSMessage) :
  keeps_slots (_process_message_asap cfg message).
Proof.
  intros s. unfold _process_message_asap, get_expecting_ack. session_step.
  repeat match goal with
         | |- context [match ?x with _ => _ end] =>
             let y := innermost_scrutinee x in destruct y eqn:?; session_step
         end.
  all: split; intros x Hx; cbn [snd]; session_read; congruence.
Qed.

#[local] Hint Resolve send_or_enqueue_slots process_message_asap_slots : slots.

Lemma slots_of_state (s s' : _StateOpen) :
  send_task s' = send_task s → process_task s' = process_task s →
  slots_kept s s'.
Proof. intros Hs Hp. split; intros x Hx; congruence. Qed.

Lemma store_small_slots (now : Z) (data : bytes) :
  keeps_slots (_store_small_for_compression_training cfg now data).
Proof.
  intros s.
  destruct (_store_small_for_compression_training cfg now data s) as [r s1]
    eqn:Hrun.
  apply store_small_state in Hrun. rewrite Hrun. by apply slots_of_state.
Qed.

Lemma make_store_slots (now length : Z) :
  keeps_slots (_make_store_for_training_capturer cfg now length).
Proof.
  intros s.
  destruct (_make_store_for_training_capturer cfg now length s) as [r s1]
    eqn:Hrun.
  apply make_store_state in Hrun. rewrite Hrun. by apply slots_of_state.
Qed.

Lemma capturer_write_slots (c : capturer) (chunk : bytes) :
  keeps_slots (capturer_write c chunk).
Proof.
  intros s. destruct (capturer_write_run c chunk s) as (t & ->).
  by apply slots_of_state.
Qed.

#[local] Hint Resolve store_small_slots make_store_slots capturer_write_slots
  : slots.

Lemma should_store_slots (now length : Z) :
  keeps_slots (_should_store_large_message_for_training cfg now length).
Proof.
  unfold _should_store_large_message_for_training,
    _handle_if_should_start_retraining.
  keeps_slots_go.
Qed.

Lemma decompress_chunks_slots (c : capturer) (length : Z) (chunks : list bytes)
    (target : bytes) :
  keeps_slots (decompress_chunks c length chunks target).
Proof.
  revert target. induction chunks as [|chunk chunks IH]; intros target;
    cbn [decompress_chunks]; keeps_slots_go.
Qed.

Lemma confirm_notify_slots (flags : Z) (message_id : bytes)
    (notify_result : TrustedNotifyResult) :
  keeps_slots (confirm_notify cfg flags message_id notify_result).
Proof. unfold confirm_notify. keeps_slots_go. Qed.

Lemma rotate_compressor_slots (c : _Compressor) : keeps_slots (_rotate_compressor c).
Proof. unfold _rotate_compressor. keeps_slots_go. Qed.

#[local] Hint Resolve should_store_slots decompress_chunks_slots
  confirm_notify_slots rotate_compressor_slots : slots.

Lemma process_configure_slots (broadcaster_nonce : bytes)
    (message : _ParsedWSMessage) :
  keeps_slots (_process_configure cfg broadcaster_nonce message).
Proof. unfold _process_configure. keeps_slots_go. Qed.

Lemma process_subscribe_slots (now : Z) (message : _ParsedWSMessage) :
  keeps_slots (_process_subscribe_or_unsubscribe cfg now message).
Proof.
  unfold _process_subscribe_or_unsubscribe,
    _make_for_receive_websocket_url_and_change_counter.
  keeps_slots_go.
Qed.

Lemma process_notify_slots (now : Z) (message : _ParsedWSMessage) :
  keeps_slots (_process_notify cfg now message).
Proof.
  unfold _process_notify, capture_all, call_handle_trusted_notify.
  keeps_slots_go.
Qed.

Lemma process_notify_stream_slots (now : Z) (message : _ParsedWSMessage) :
  keeps_slots (_process_notify_stream cfg now message).
Proof.
  unfold _process_notify_stream, capture_all, call_handle_trusted_notify.
  keeps_slots_go.
Qed.

Lemma run_process_job_slots (tasks : open_tasks) (message : _ParsedWSMessage) :
  keeps_slots (run_process_job cfg tasks message).
Proof.
  unfold run_process_job, _PROCESSOR_BY_TYPE.
  destruct (msg_type message);
    auto using process_configure_slots, process_subscribe_slots,
      process_notify_slots, process_notify_stream_slots, keeps_slots_raise.
Qed.

#[local] Hint Resolve run_process_job_slots : slots.

Lemma make_prefix_slots (now : Z) (topic sha id : bytes)
    (part_id dictionary_id compressed_length decompressed_length : Z) :
  keeps_slots (_make_receive_stream_message_prefix cfg now topic sha id part_id
                 dictionary_id compressed_length decompressed_length).
Proof.
  unfold _make_receive_stream_message_prefix,
    _make_for_send_websocket_url_and_change_counter.
  keeps_slots_go.
Qed.

Lemma expecting_acks_put_slots (ack : _Acknowledgement) :
  keeps_slots (expecting_acks_put ack).
Proof. unfold expecting_acks_put. keeps_slots_go. Qed.

Lemma websocket_send_bytes_now_slots (data : bytes) :
  keeps_slots (websocket_send_bytes_now data).
Proof. unfold websocket_send_bytes_now. keeps_slots_go. Qed.

#[local] Hint Resolve make_prefix_slots expecting_acks_put_slots
  websocket_send_bytes_now_slots : slots.

Lemma send_small_parts_slots (fuel : nat) (clock : Z → Z) (topic sha id : bytes)
    (compressor_id compressed_length decompressed_length : Z)
    (remaining : bytes) (part_id : Z) :
  keeps_slots (send_small_parts fuel cfg clock topic sha id compressor_id
                 compressed_length decompressed_length remaining part_id).
Proof.
  revert remaining part_id.
  induction fuel as [|fuel IH]; intros remaining part_id;
    cbn [send_small_parts]; keeps_slots_go.
Qed.

Lemma send_spooled_parts_slots (fuel : nat) (clock : Z → Z) (msg : _LargeMessage)
    (id : bytes) (capture_io : capturer) (stream : bytes) (tell part_id : Z) :
  keeps_slots (send_spooled_parts fuel cfg clock msg id capture_io stream tell
                 part_id).
Proof.
  revert stream tell part_id.
  induction fuel as [|fuel IH]; intros stream tell part_id;
    cbn [send_spooled_parts]; keeps_slots_go.
Qed.

Lemma send_compressed_parts_slots (fuel : nat) (clock : Z → Z)
    (msg : _LargeMessage) (id sha : bytes) (compressor_id compressed_length : Z)
    (compressed_file : bytes) (tell part_id : Z) :
  keeps_slots (send_compressed_parts fuel cfg clock msg id sha compressor_id
                 compressed_length compressed_file tell part_id).
Proof.
  revert compressed_file tell part_id.
  induction fuel as [|fuel IH]; intros compressed_file tell part_id;
    cbn [send_compressed_parts]; keeps_slots_go.
Qed.

Lemma capture_chunks_slots (capture_io : capturer) (chunks : list bytes) :
  keeps_slots (capture_chunks capture_io chunks).
Proof.
  induction chunks as [|chunk chunks IH]; cbn [capture_chunks]; keeps_slots_go.
Qed.

Lemma send_direct_parts_slots (fuel : nat) (clock : Z → Z)
    (timeout_first : Z → bool) (msg : _LargeMessage) (id : bytes)
    (capture_io : capturer) (stream : bytes) (sent_so_far part_id : Z) :
  keeps_slots (send_direct_parts fuel cfg clock timeout_first msg id capture_io
                 stream sent_so_far part_id).
Proof.
  revert stream sent_so_far part_id.
  induction fuel as [|fuel IH]; intros stream sent_so_far part_id;
    cbn [send_direct_parts]; keeps_slots_go.
Qed.

Lemma send_respooled_parts_slots (fuel : nat) (clock : Z → Z)
    (msg : _LargeMessage) (id chunk target : bytes) (sent_so_far part_id : Z) :
  keeps_slots (send_respooled_parts fuel cfg clock msg id chunk target
                 sent_so_far part_id).
Proof.
  revert target sent_so_far part_id.
  induction fuel as [|fuel IH]; intros target sent_so_far part_id;
    cbn [send_respooled_parts]; keeps_slots_go.
Qed.

#[local] Hint Resolve send_small_parts_slots send_spooled_parts_slots
  send_compressed_parts_slots capture_chunks_slots send_direct_parts_slots
  send_respooled_parts_slots : slots.

Lemma send_large_compressed_slots (now : Z) (clock : Z → Z) (id : bytes)
    (msg : _LargeMessage) (compressor : _CompressorReady) (compressor_id : Z) :
  keeps_slots (_send_large_compressed_message_optimistically cfg now clock id
                 msg compressor compressor_id).
Proof. unfold _send_large_compressed_message_optimistically. keeps_slots_go. Qed.

#[local] Hint Resolve send_large_compressed_slots : slots.

Lemma run_send_job_slots (tasks : open_tasks) (job : send_job) :
  keeps_slots (run_send_job cfg tasks job).
Proof.
  unfold run_send_job, _send_small_message, _send_large_message_from_spooled,
    _send_large_message_optimistically.
  keeps_slots_go.
Qed.

Lemma check_training_data_slots (now : Z) :
  keeps_slots (_check_training_data cfg now).
Proof. unfold _check_training_data, train_and_rotate. keeps_slots_go. Qed.

Lemma acknowledge_compressor_ready_slots (compressor : _CompressorReady) :
  keeps_slots (_acknowledge_compressor_ready cfg compressor).
Proof. unfold _acknowledge_compressor_ready. keeps_slots_go. Qed.

#[local] Hint Resolve run_send_job_slots check_training_data_slots
  acknowledge_compressor_ready_slots : slots.

Lemma slots_kept_turn (tasks : open_tasks) (s s' : _StateOpen) :
  slots_kept s s' → slots_turn tasks s s'.
Proof. intros [Hs Hp]. split; intros x Hx; left; eauto. Qed.

(** The tests of a turn that come after the two that look at the
    slots. *)
Lemma handle_open_active_compressor_slots (tasks : open_tasks) :
  keeps_slots (_handle_open_active_compressor cfg tasks).
Proof.
  assert (keeps_slots (_handle_open_training cfg tasks)) as Htraining
    by (unfold _handle_open_training; keeps_slots_go).
  assert (keeps_slots (_handle_open_read cfg tasks)) as Hread
    by (unfold _handle_open_read; keeps_slots_go).
  assert (keeps_slots (_handle_open_last_compressor cfg tasks)) as Hlast
    by (unfold _handle_open_last_compressor; keeps_slots_go).
  assert (keeps_slots (_handle_open_message cfg tasks)) as Hmessage.
  { intros s. unfold _handle_open_message.
    destruct (message_task_done tasks) as [msg|]; [|apply Hlast].
    session_step. destruct (send_task s) eqn:Hsend.
    - destruct msg; unfold pending_sends_append; session_step;
        by apply slots_of_state.
    - session_step. split; intros x Hx; cbn [snd]; session_read; congruence. }
  assert (keeps_slots (_handle_open_standard_compressor cfg tasks)) as Hstandard
    by (unfold _handle_open_standard_compressor; keeps_slots_go).
  unfold _handle_open_active_compressor; keeps_slots_go.
Qed.

(** A turn of the open session and its two slots. *)
Lemma handle_open_body_slots (tasks : open_tasks) (s : _StateOpen) :
  slots_turn tasks s (_handle_open_body cfg tasks s).2.
Proof.
  pose proof (handle_open_active_compressor_slots tasks) as Hactive.
  assert (∀ s, slots_turn tasks s (_handle_open_process cfg tasks s).2)
    as Hprocess.
  { clear s. intros s. unfold _handle_open_process. session_step.
    destruct (process_task s) as [message|] eqn:Hp;
      [|apply slots_kept_turn, Hactive].
    destruct (process_task_done tasks) eqn:Hdone;
      [|apply slots_kept_turn, Hactive].
    session_step.
    destruct (run_process_job cfg tasks message s) as [[[]|e] s1] eqn:Hrun;
      apply (keeps_slots_run _ _ _ _ (run_process_job_slots tasks message))
        in Hrun as [Hs1 Hp1].
    - session_step. split; intros x Hx; cbn [snd]; session_read.
      + left. eauto.
      + by right.
    - by apply slots_kept_turn. }
  assert (∀ s, slots_turn tasks s (_handle_open_send cfg tasks s).2) as Hsend.
  { clear s. intros s. unfold _handle_open_send. session_step.
    destruct (send_task s) as [job|] eqn:Hs; [|apply Hprocess].
    destruct (send_task_done tasks) eqn:Hdone; [|apply Hprocess].
    session_step.
    destruct (run_send_job cfg tasks job s) as [[[]|e] s1] eqn:Hrun;
      apply (keeps_slots_run _ _ _ _ (run_send_job_slots tasks job))
        in Hrun as [Hs1 Hp1].
    - session_step. split; intros x Hx; cbn [snd]; session_read.
      + by right.
      + left. eauto.
    - by apply slots_kept_turn. }
  assert (∀ s, slots_turn tasks s (_handle_open_unprocessed cfg tasks s).2)
    as Hunprocessed.
  { clear s. intros s. unfold _handle_open_unprocessed. session_step.
    destruct (process_task s) as [message|] eqn:Hp; [apply Hsend|].
    destruct (unprocessed_receives s) as [|message rest] eqn:Hu; [apply Hsend|].
    session_step.
    pose proof (process_message_asap_slots message
                  (set_unprocessed_receives rest s)) as [Hs1 Hp1].
    session_read_in Hs1. session_read_in Hp1.
    destruct (_process_message_asap cfg message
                (set_unprocessed_receives rest s)) as [[[]|e] s1];
      cbn [snd] in *; by apply slots_kept_turn. }
  unfold _handle_open_body. session_step.
  destruct (send_task s) as [job|] eqn:Hs; [apply Hunprocessed|].
  destruct (pending_sends s) as [|next_send rest] eqn:Hq; [apply Hunprocessed|].
  session_step. apply slots_kept_turn.
  split; intros x Hx; cbn [snd]; session_read; congruence.
Qed.

End slots.

(** X13. One send and one processor at a time. A turn of
    [_handle_open] that leaves the session open never replaces a send
    that is in flight, nor a processor that runs: the task that was in
    the send slot, and the one in the process slot, is still there after
    the turn, unless the turn has found it done, and then the slot is
    free. So a frame is handed to the websocket, and a request of the
    subscriber is processed, only after the one before it is done. *)
Theorem one_send_and_one_processor_at_a_time `{Externals} `{ZstdChunker}
    (cfg : Config) (tasks : open_tasks) (state state' : _StateOpen) :
  _handle_open cfg tasks state = StateOpen state' →
  (∀ job, send_task state = Some job →
     send_task state' = Some job
     ∨ (send_task_done tasks = true ∧ send_task state' = None))
  ∧ (∀ message, process_task state = Some message →
       process_task state' = Some message
       ∨ (process_task_done tasks = true ∧ process_task state' = None)).
Proof.
  intros Hturn. pose proof (handle_open_body_slots cfg tasks state) as Hslots.
  unfold _handle_open in Hturn.
  destruct (_handle_open_body cfg tasks state) as [[[]|e] s1]; try done.
  by injection Hturn as <-.
Qed.

Lemma one_send_and_one_processor_at_a_time_witness :
  let state := example_subscribed_session in
  let turn :=
    _handle_open (H := example_externals) (H0 := example_chunker) example_config
      example_idle state in
  ∃ state',
    turn = StateOpen state'
    ∧ is_Some (send_task state)
    ∧ (∀ job, send_task state = Some job →
         send_task state' = Some job
         ∨ (send_task_done example_idle = true ∧ send_task state' = None))
    ∧ (∀ message, process_task state = Some message →
         process_task state' = Some message
         ∨ (process_task_done example_idle = true ∧ process_task state' = None)).
Proof.
  intros state turn. eexists. split; [vm_compute; reflexivity|].
  split; [vm_compute; by eexists|].
  apply (one_send_and_one_processor_at_a_time (H := example_externals)
           (H0 := example_chunker) example_config example_idle state).
  vm_compute. reflexivity.
Defined.

(** ** The HTTP routes: subscriptions *)

Section routes.

Import Routes.

Lemma to_bytes_inv (n : Z) (size : nat) (value : bytes) :
  to_bytes n size = Ok value →
  from_bytes value = n ∧ length value = size ∧ 0 ≤ n < 256 ^ Z.of_nat size.
Proof.
  intros Hvalue. assert (0 ≤ n < 256 ^ Z.of_nat size) as Hn.
  { unfold to_bytes in Hvalue.
    destruct (Z.ltb_spec n 0); [done|].
    destruct (Z.leb_spec (256 ^ Z.of_nat size) n); [done|]. lia. }
  destruct (to_bytes_ok n size Hn) as (value' & Hvalue' & Hread & Hlen).
  rewrite Hvalue in Hvalue'. by injection Hvalue' as <-.
Qed.

Lemma BytesIO_read_app (head rest : bytes) (n : Z) :
  len head = n → BytesIO_read (head ++ rest) n = (head, rest).
Proof.
  intros <-. unfold BytesIO_read, len. rewrite Nat2Z.id.
  by rewrite take_app_length, drop_app_length.
Qed.

Lemma BytesIO_read_all (stream : bytes) :
  BytesIO_read stream (len stream) = (stream, []).
Proof.
  unfold BytesIO_read, len. rewrite Nat2Z.id.
  by rewrite firstn_all, drop_all.
Qed.

Lemma auth_response_ok (auth_result : string) :
  auth_response auth_result
  = if bool_decide (auth_result = "ok") then None
    else Some (status (auth_status auth_result)).
Proof.
  unfold auth_response, auth_status.
  repeat case_bool_decide; simplify_eq; done.
Qed.

Lemma db_response_ok (success db_result : string) :
  success ≠ "conflict"%string → success ≠ "unavailable"%string →
  db_response success db_result
  = if bool_decide (db_result = success) then None
    else Some (status (db_status db_result)).
Proof.
  intros Hc Hu. unfold db_response, db_status.
  repeat case_bool_decide; simplify_eq; done.
Qed.

(** X14. [POST /v1/unsubscribe] checks before it removes. For
    the body that names a url and an exact topic or a glob, the route
    asks the authorization provider once, for that url and that topic
    or glob, and answers 401, 403 or 503 to [unauthorized], [forbidden]
    and [unavailable] and 500 to any other verdict that is not [ok],
    without a call on the database. Only after [ok] it calls
    [unsubscribe_exact] or [unsubscribe_glob], once and for the same url
    and topic or glob, and answers 200 to [ok], 409 to [conflict], 503
    to [unavailable] and 500 to anything else: it never answers the 202
    of its declaration. *)
Theorem unsubscribe_request (config : Config) (auth_at : Z)
    (authorization : option string) (url : string) (t : target) (body : bytes)
    (log : list call) :
  is_text url →
  (∀ glob, t = GlobTarget glob → is_text glob) →
  unsubscribe_body url t = Ok body →
  let auth_call :=
    match t with
    | ExactTarget exact =>
        CallIsSubscribeExactAllowed url exact auth_at authorization
    | GlobTarget glob => CallIsSubscribeGlobAllowed url glob auth_at authorization
    end in
  let auth_result :=
    match t with
    | ExactTarget exact =>
        is_subscribe_exact_allowed config url exact auth_at authorization
    | GlobTarget glob =>
        is_subscribe_glob_allowed config url glob auth_at authorization
    end in
  let db_call :=
    match t with
    | ExactTarget exact => CallUnsubscribeExact url exact
    | GlobTarget glob => CallUnsubscribeGlob url glob
    end in
  let db_result :=
    match t with
    | ExactTarget exact => unsubscribe_exact config url exact
    | GlobTarget glob => unsubscribe_glob config url glob
    end in
  unsubscribe config auth_at authorization body log
  = if bool_decide (auth_result = "ok")
    then (Ok (status (if bool_decide (db_result = "ok") then 200
                      else db_status db_result)),
          log ++ [auth_call; db_call])
    else (Ok (status (auth_status auth_result)), log ++ [auth_call]).
Proof.
  intros Hurl Hglob Hbody auth_call auth_result db_call db_result.
  unfold unsubscribe_body in Hbody.
  destruct (to_bytes (len (encode_utf8 url)) 2) as [url_len|] eqn:Hul; [|done].
  apply to_bytes_inv in Hul as (Hul & Hull & Hulr).
  cbv beta iota delta [mbind result_bind Py.bind] in Hbody.
  set (match_type := match t with ExactTarget _ => "000"%byte | _ => "001"%byte end).
  set (pattern := match t with
                  | ExactTarget exact => exact
                  | GlobTarget glob => encode_utf8 glob
                  end).
  assert (∃ pattern_len,
            to_bytes (len pattern) 2 = Ok pattern_len
            ∧ body = url_len ++ encode_utf8 url ++ [match_type] ++ pattern_len
                     ++ pattern) as (pattern_len & Hpl & ->).
  { destruct t; cbn in Hbody;
      (destruct (to_bytes _ 2) as [pattern_len|] eqn:Hpl; [|done]);
      injection Hbody as <-; by eexists. }
  apply to_bytes_inv in Hpl as (Hpl & Hpll & Hplr).
  unfold unsubscribe.
  assert (len (url_len ++ encode_utf8 url ++ [match_type] ++ pattern_len ++ pattern)
          = 5 + len (encode_utf8 url) + len pattern) as Hlen.
  { unfold len. rewrite !length_app, Hull, Hpll. simpl. lia. }
  rewrite Hlen.
  destruct (Z.ltb_spec (5 + len (encode_utf8 url) + len pattern) 5);
    [unfold len in *; lia|].
  destruct (Z.ltb_spec (2 + 65535 + 1 + 2 + 65535)
              (5 + len (encode_utf8 url) + len pattern)); [lia|].
  cbn [orb].
  rewrite (BytesIO_read_app url_len) by (unfold len; rewrite Hull; done).
  rewrite Hul, (BytesIO_read_app (encode_utf8 url)) by done.
  rewrite Hurl.
  rewrite (BytesIO_read_app [match_type]) by done.
  rewrite (BytesIO_read_app pattern_len) by (unfold len; rewrite Hpll; done).
  rewrite Hpl, BytesIO_read_all.
  unfold called. cbv beta iota delta [mbind mret calls_bind calls_ret].
  subst match_type pattern auth_call auth_result db_call db_result.
  destruct t as [exact|glob].
  - change (from_bytes ["000"%byte]) with 0. cbn [Z.eqb Pos.eqb orb negb].
    rewrite auth_response_ok. case_bool_decide as Hauth; [|done].
    rewrite db_response_ok by done. rewrite <- app_assoc.
    by case_bool_decide.
  - change (from_bytes ["001"%byte]) with 1. cbn [Z.eqb Pos.eqb orb negb].
    rewrite (Hglob glob eq_refl).
    rewrite auth_response_ok. case_bool_decide as Hauth; [|done].
    rewrite db_response_ok by done. rewrite <- app_assoc.
    by case_bool_decide.
Qed.

Lemma unsubscribe_request_witness :
  let body :=
    ["000"; "003"]%byte ++ list_byte_of_string "url"
    ++ ["000"; "000"; "006"]%byte ++ list_byte_of_string "room/1" in
  unsubscribe_body "url" (ExactTarget (list_byte_of_string "room/1")) = Ok body
  ∧ unsubscribe example_config 0 (Some "tok"%string) body []
    = (Ok (status 200),
       [CallIsSubscribeExactAllowed "url" (list_byte_of_string "room/1") 0
          (Some "tok"%string);
        CallUnsubscribeExact "url" (list_byte_of_string "room/1")])
  ∧ unsubscribe example_config 0 None body []
    = (Ok (status 401),
       [CallIsSubscribeExactAllowed "url" (list_byte_of_string "room/1") 0 None]).
Proof.
  intros body.
  assert (unsubscribe_body "url" (ExactTarget (list_byte_of_string "room/1"))
          = Ok body) as Hbody by (vm_compute; reflexivity).
  split; [done|]. split.
  - by rewrite (unsubscribe_request example_config 0 (Some "tok"%string) "url"
                  (ExactTarget (list_byte_of_string "room/1")) body []
                  eq_refl ltac:(done) Hbody).
  - by rewrite (unsubscribe_request example_config 0 None "url"
                  (ExactTarget (list_byte_of_string "room/1")) body []
                  eq_refl ltac:(done) Hbody).
Defined.

Lemma BytesIO_read_short (stream : bytes) (n : Z) :
  len stream ≤ n → BytesIO_read stream n = (stream, []).
Proof.
  intros Hn. unfold BytesIO_read, len in *.
  by rewrite take_ge, drop_ge by lia.
Qed.

(** X15. [POST /v1/unsubscribe] does not hold a body to
    the lengths it declares. A body of less than 5 or of more than
    131077 bytes is answered by 400 without any call. But a body of an
    accepted size that ends within the url it declares (its first two
    bytes announce at least as many bytes as follow) is not rejected:
    the route reads what is there as the url, reads the missing type and
    the missing length as 0, and handles the request as the one to
    remove the exact subscription of that url to the empty topic. *)
Theorem unsubscribe_truncated_body (config : Config) (auth_at : Z)
    (authorization : option string) (body : bytes) (log : list call) :
  (len body < 5 ∨ 2 + 65535 + 1 + 2 + 65535 < len body →
   unsubscribe config auth_at authorization body log = (Ok (status 400), log))
  ∧ ∀ url,
      5 ≤ len body ≤ 2 + 65535 + 1 + 2 + 65535 →
      len body - 2 ≤ from_bytes (take 2 body) →
      decode_utf8 (drop 2 body) = Ok url →
      let auth_result :=
        is_subscribe_exact_allowed config url [] auth_at authorization in
      let db_result := unsubscribe_exact config url [] in
      unsubscribe config auth_at authorization body log
      = if bool_decide (auth_result = "ok")
        then (Ok (status (if bool_decide (db_result = "ok") then 200
                          else db_status db_result)),
              log ++ [CallIsSubscribeExactAllowed url [] auth_at authorization;
                      CallUnsubscribeExact url []])
        else (Ok (status (auth_status auth_result)),
              log ++ [CallIsSubscribeExactAllowed url [] auth_at authorization]).
Proof.
  split.
  - intros Hsize. unfold unsubscribe.
    destruct (Z.ltb_spec (len body) 5); [done|].
    destruct (Z.ltb_spec (2 + 65535 + 1 + 2 + 65535) (len body)); [done|]. lia.
  - intros url Hsize Hshort Hurl auth_result db_result. unfold unsubscribe.
    destruct (Z.ltb_spec (len body) 5); [lia|].
    destruct (Z.ltb_spec (2 + 65535 + 1 + 2 + 65535) (len body)); [lia|].
    cbn [orb]. unfold BytesIO_read at 1.
    change (Z.to_nat 2) with 2%nat.
    rewrite BytesIO_read_short
      by (unfold len in *; rewrite length_drop; lia).
    rewrite Hurl. unfold BytesIO_read. rewrite !take_nil, !drop_nil.
    change (from_bytes []) with 0. cbn [Z.eqb orb negb].
    rewrite !take_nil.
    unfold called. cbv beta iota delta [mbind mret calls_bind calls_ret].
    subst auth_result db_result.
    rewrite auth_response_ok. case_bool_decide as Hauth; [|done].
    rewrite db_response_ok by done. rewrite <- app_assoc.
    by case_bool_decide.
Qed.

Lemma unsubscribe_truncated_body_witness :
  let body := ["000"; "010"]%byte ++ list_byte_of_string "abc" in
  unsubscribe example_config 0 (Some "tok"%string) body []
  = (Ok (status 409),
     [CallIsSubscribeExactAllowed "abc" [] 0 (Some "tok"%string);
      CallUnsubscribeExact "abc" []])
  ∧ unsubscribe example_config 0 (Some "tok"%string) (take 4 body) []
    = (Ok (status 400), []).
Proof.
  intros body.
  destruct (unsubscribe_truncated_body example_config 0 (Some "tok"%string)
              body []) as [_ Hcut].
  destruct (unsubscribe_truncated_body example_config 0 (Some "tok"%string)
              (take 4 body) []) as [Hsmall _].
  split.
  - by rewrite (Hcut "abc"%string ltac:(by vm_compute) ltac:(by vm_compute)
                  eq_refl).
  - apply Hsmall. left. by vm_compute.
Defined.

Lemma byte_of_to_Z (x : byte) : byte_of_Z (byte_to_Z x) = x.
Proof.
  unfold byte_of_Z, byte_to_Z. rewrite N2Z.id. by rewrite Byte.of_to_N.
Qed.

Lemma digits_from_bytes (value : bytes) :
  rev (digits_le (from_bytes value) (length value)) = value.
Proof.
  induction value as [|x value IH] using rev_ind; [done|].
  rewrite length_app, Nat.add_comm. cbn [length Nat.add digits_le rev].
  rewrite from_bytes_snoc. pose proof (byte_to_Z_range x) as Hx.
  replace ((from_bytes value * 256 + byte_to_Z x) mod 256) with (byte_to_Z x)
    by (rewrite Z.add_comm, Z.mod_add by lia; by rewrite Z.mod_small).
  replace ((from_bytes value * 256 + byte_to_Z x) / 256) with (from_bytes value)
    by (rewrite Z.add_comm, Z.div_add by lia; rewrite Z.div_small; lia).
  by rewrite IH, byte_of_to_Z.
Qed.

Lemma to_bytes_from_bytes (value : bytes) :
  to_bytes (from_bytes value) (length value) = Ok value.
Proof.
  unfold to_bytes. pose proof (from_bytes_range value) as Hr. unfold len in Hr.
  destruct (Z.ltb_spec (from_bytes value) 0); [lia|].
  destruct (Z.leb_spec (256 ^ Z.of_nat (length value)) (from_bytes value)); [lia|].
  cbn [orb]. by rewrite digits_from_bytes.
Qed.

Lemma read_exact_inv (stream : bytes) (n : Z) (head rest : bytes) :
  0 ≤ n → read_exact stream n = Ok (head, rest) →
  stream = head ++ rest ∧ len head = n.
Proof.
  intros Hn. unfold read_exact.
  destruct (Z.leb_spec n (len stream)) as [Hle|]; [|done].
  intros [= <- <-]. split; [by rewrite take_drop|].
  unfold len in *. rewrite length_take. lia.
Qed.

Lemma decode_utf8_inv (value : bytes) (text : string) :
  decode_utf8 value = Ok text → encode_utf8 text = value ∧ is_text text.
Proof.
  unfold decode_utf8, is_text, encode_utf8.
  destruct (valid_utf8 value) eqn:Hvalid; [|done]. intros [= <-].
  rewrite list_byte_of_string_of_list_byte. split; [done|].
  unfold decode_utf8. by rewrite Hvalid.
Qed.

(** X16. [POST /v1/subscribe/glob] takes exactly the bodies
    that begin with a request. For a body that begins with the length
    and the bytes of a url and the length and the bytes of a glob, both
    texts, whatever follows them, the route asks the authorization
    provider once for that url and glob, answers 401, 403, 503 or 500 to
    a verdict other than [ok] without touching the database, and
    otherwise calls [subscribe_glob] once and answers 202 to [success],
    409 to [conflict], 503 to [unavailable] and 500 to anything else.
    Every other body, so one that ends before the lengths it declares
    are read, is answered by 400 without any call. *)
Theorem subscribe_request (config : Config) (auth_at : Z)
    (authorization : option string) (body : bytes) (log : list call) :
  (∀ url glob head rest,
     is_text url → is_text glob → subscribe_body url glob = Ok head →
     body = head ++ rest →
     let auth_result :=
       is_subscribe_glob_allowed config url glob auth_at authorization in
     let db_result := subscribe_glob config url glob in
     subscribe config auth_at authorization body log
     = if bool_decide (auth_result = "ok")
       then (Ok (status (if bool_decide (db_result = "success") then 202
                         else db_status db_result)),
             log ++ [CallIsSubscribeGlobAllowed url glob auth_at authorization;
                     CallSubscribeGlob url glob])
       else (Ok (status (auth_status auth_result)),
             log ++ [CallIsSubscribeGlobAllowed url glob auth_at authorization]))
  ∧ ((∀ url glob head rest,
        is_text url → is_text glob → subscribe_body url glob = Ok head →
        body ≠ head ++ rest) →
     subscribe config auth_at authorization body log = (Ok (status 400), log)).
Proof.
  split.
  - intros url glob head rest Hurl Hglob Hhead -> auth_result db_result.
    unfold subscribe_body in Hhead.
    destruct (to_bytes (len (encode_utf8 url)) 2) as [url_len|] eqn:Hul; [|done].
    destruct (to_bytes (len (encode_utf8 glob)) 2) as [glob_len|] eqn:Hgl;
      [|done].
    injection Hhead as <-. unfold subscribe.
    rewrite <- !app_assoc.
    destruct (read_length_written _ _ (glob_len ++ encode_utf8 glob ++ rest) Hul)
      as [Hr1 Hf1].
    destruct (read_length_written _ _ rest Hgl) as [Hr2 Hf2].
    rewrite Hr1. cbv beta iota delta [mbind result_bind Py.bind].
    rewrite Hf1, read_exact_app, Hurl, Hr2, Hf2, read_exact_app, Hglob.
    unfold called. cbv beta iota delta [mbind mret calls_bind calls_ret].
    subst auth_result db_result.
    rewrite auth_response_ok. case_bool_decide as Hauth; [|done].
    rewrite db_response_ok by done. rewrite <- app_assoc.
    by case_bool_decide.
  - intros Hnot. unfold subscribe.
    destruct (read_exact body 2) as [[url_len body1]|] eqn:H1; [|done].
    cbv beta iota delta [mbind result_bind Py.bind].
    destruct (read_exact body1 _) as [[url_bytes body2]|] eqn:H2; [|done].
    destruct (decode_utf8 url_bytes) as [url|] eqn:H3; [|done].
    destruct (read_exact body2 2) as [[glob_len body3]|] eqn:H4; [|done].
    destruct (read_exact body3 _) as [[glob_bytes body4]|] eqn:H5; [|done].
    destruct (decode_utf8 glob_bytes) as [glob|] eqn:H6; [|done].
    exfalso.
    apply read_exact_inv in H1 as [-> Hl1]; [|lia].
    apply read_exact_inv in H2 as [-> Hl2];
      [|pose proof (from_bytes_range url_len); lia].
    apply read_exact_inv in H4 as [-> Hl4]; [|lia].
    apply read_exact_inv in H5 as [-> Hl5];
      [|pose proof (from_bytes_range glob_len); lia].
    apply decode_utf8_inv in H3 as [<- Hurl].
    apply decode_utf8_inv in H6 as [<- Hglob].
    apply (Hnot url glob
             (url_len ++ encode_utf8 url ++ glob_len ++ encode_utf8 glob) body4
             Hurl Hglob); [|by rewrite <- !app_assoc].
    unfold subscribe_body. rewrite Hl2, Hl5.
    replace 2%nat with (length url_len) at 1 by (unfold len in Hl1; lia).
    rewrite to_bytes_from_bytes.
    cbv beta iota delta [mbind result_bind Py.bind].
    replace 2%nat with (length glob_len) at 1 by (unfold len in Hl4; lia).
    by rewrite to_bytes_from_bytes.
Qed.

Lemma subscribe_request_witness :
  let head :=
    ["000"; "003"]%byte ++ list_byte_of_string "url"
    ++ ["000"; "004"]%byte ++ list_byte_of_string "to/*" in
  subscribe_body "url" "to/*" = Ok head
  ∧ subscribe example_config 0 (Some "tok"%string)
      (head ++ list_byte_of_string "trailing") []
    = (Ok (status 202),
       [CallIsSubscribeGlobAllowed "url" "to/*" 0 (Some "tok"%string);
        CallSubscribeGlob "url" "to/*"])
  ∧ subscribe example_config 0 (Some "tok"%string) (take 8 head) []
    = (Ok (status 400), []).
Proof.
  intros head.
  assert (subscribe_body "url" "to/*" = Ok head) as Hhead
    by (vm_compute; reflexivity).
  split; [done|]. split.
  - destruct (subscribe_request example_config 0 (Some "tok"%string)
                (head ++ list_byte_of_string "trailing") []) as [Htakes _].
    by rewrite (Htakes "url"%string "to/*"%string head
                  (list_byte_of_string "trailing") eq_refl eq_refl Hhead eq_refl).
  - by vm_compute.
Defined.

End routes.

(** ** The HTTP routes: the delivery of a notification *)

Section fanout.

Import Routes.

Context `{Network} (config : Config) (clock : Z → Z) (topic data : bytes)
  (content_length : Z) (sha512 : bytes).

(** The [Authorization] of a request is set for it alone: whatever the
    one before carried, the headers are the common ones and what was set
    up for this request. *)
Lemma headers_authorization (extra : list (string * string))
    (my_authorization : option string) :
  extra = [] ∨ (∃ previous, extra = [("Authorization"%string, previous)]) →
  match my_authorization with
  | None =>
      headers_pop (delivery_base_headers topic content_length sha512 ++ extra)
        "Authorization"
  | Some my_authorization =>
      headers_set (delivery_base_headers topic content_length sha512 ++ extra)
        "Authorization" my_authorization
  end
  = delivery_base_headers topic content_length sha512
    ++ match my_authorization with
       | Some my_authorization => [("Authorization"%string, my_authorization)]
       | None => []
       end.
Proof.
  intros [->|[previous ->]]; destruct my_authorization as [a|];
    unfold headers_pop, headers_set, delivery_base_headers; cbn.
  all: repeat (case_bool_decide; try done); repeat (case_decide; try done).
  all: exfalso.
  all: match goal with
       | Hd : _ ∈ _ |- _ =>
           repeat (apply elem_of_cons in Hd as [Hd|Hd]; [done|]);
           by apply elem_of_nil in Hd
       | Hd : ¬ _ ∈ _ |- _ => apply Hd; repeat constructor
       end.
Qed.

(** The loop over the subscribers: what it calls and what it counts. *)
Lemma notify_subscribers_run (subscribers : list subscriber)
    (extra : list (string * string)) (succeeded0 attempted : Z)
    (log : list call) (result : TrustedNotifyResult) (log' : list call) :
  extra = [] ∨ (∃ previous, extra = [("Authorization"%string, previous)]) →
  notify_subscribers config clock topic data sha512 subscribers
    (delivery_base_headers topic content_length sha512 ++ extra) succeeded0
    attempted log = (Ok result, log') →
  let requests :=
    delivery_requests config clock topic content_length sha512 attempted
      (attempted_subscribers subscribers) in
  ∃ calls,
    log' = log ++ calls
    ∧ filter (λ c, is_post c = true) calls
      = (λ request, CallPost (subscriber_url request.1) request.2 data)
        <$> requests
    ∧ filter (λ c, is_unsubscribe c = true) calls
      = (λ request, unsubscribe_call topic request.1)
        <$> filter (λ request, asks_to_unsubscribe data request = true) requests
    ∧ succeeded result
      = succeeded0 + len (filter (λ request, reached data request = true) requests)
    ∧ succeeded result + failed result = attempted + len requests
    ∧ (result_type result = OK ↔ attempted_subscribers subscribers = subscribers).
Proof.
  revert extra succeeded0 attempted log.
  induction subscribers as [|subscriber subscribers IH];
    intros extra succeeded0 attempted log Hextra Hrun requests.
  { injection Hrun as <- <-. exists []. rewrite app_nil_r.
    repeat split; try done; cbn; unfold len; simpl; lia. }
  assert (subscriber = SubscriberUnavailable
          ∨ subscriber ≠ SubscriberUnavailable) as [->|Hsub]
    by (destruct subscriber; auto).
  { injection Hrun as <- <-. exists []. rewrite app_nil_r.
    repeat split; try done; cbn; unfold len; simpl; lia. }
  set (url := subscriber_url subscriber).
  set (my_authorization :=
         setup_authorization config url topic sha512 (clock (attempted + 1))).
  set (headers := delivery_headers config clock topic content_length sha512
                    (attempted + 1) subscriber).
  assert (notify_subscribers config clock topic data sha512
            (subscriber :: subscribers)
            (delivery_base_headers topic content_length sha512 ++ extra)
            succeeded0 attempted log
          = (let log1 := log ++ [CallSetupAuthorization url topic sha512
                                   (clock (attempted + 1));
                                 CallPost url headers data] in
             let next succeeded1 log2 :=
               notify_subscribers config clock topic data sha512 subscribers
                 headers succeeded1 (attempted + 1) log2 in
             match post url headers data with
             | PostClientError => next succeeded0 log1
             | PostResponse status content_type json =>
                 if status <? 400 then next (succeeded0 + 1) log1
                 else if asks_to_unsubscribe data (subscriber, headers)
                 then next succeeded0 (log1 ++ [unsubscribe_call topic subscriber])
                 else
                   match json with
                   | JsonDecodeError =>
                       if (400 <=? status) && (status <? 500)
                          && match content_type with
                             | Some content_type =>
                                 String.prefix "application/json" content_type
                             | None => false
                             end
                       then (Raise (ValueError "JSONDecodeError"), log1)
                       else next succeeded0 log1
                   | _ => next succeeded0 log1
                   end
             end)) as Hstep.
  { unfold headers, delivery_headers. fold url. fold my_authorization.
    rewrite <- (headers_authorization extra my_authorization Hextra).
    unfold asks_to_unsubscribe. cbn [fst snd]. fold url.
    destruct subscriber as [|u|u g]; [done| |];
      cbn [notify_subscribers subscriber_url] in *; subst url;
      unfold called; cbv beta iota zeta delta [mbind mret calls_bind calls_ret];
      fold my_authorization; rewrite <- !app_assoc; cbn [app];
      (destruct (post _ _ data) as [|status content_type json]; [done|]);
      (destruct (status <? 400); [done|]);
      destruct ((400 <=? status) && (status <? 500));
      destruct content_type as [content_type|];
      try destruct (String.prefix "application/json" content_type);
      destruct json; cbn [andb]; try done;
      unfold Routes.raise; by rewrite <- ?app_assoc. }
  rewrite Hstep in Hrun. clear Hstep. cbv zeta in Hrun.
  assert (attempted_subscribers (subscriber :: subscribers)
          = subscriber :: attempted_subscribers subscribers) as Hattempted
    by (by destruct subscriber).
  assert (is_post (unsubscribe_call topic subscriber) = false
          ∧ is_unsubscribe (unsubscribe_call topic subscriber) = true)
    as [Hnopost Hunsub] by (by destruct subscriber).
  subst requests. rewrite Hattempted. cbn [delivery_requests]. fold headers.
  set (requests := delivery_requests config clock topic content_length sha512
                     (attempted + 1) (attempted_subscribers subscribers)).
  assert (∀ (succeeded1 : Z) (removal : list call),
            (removal = []
             ∧ asks_to_unsubscribe data (subscriber, headers) = false)
            ∨ (removal = [unsubscribe_call topic subscriber]
               ∧ asks_to_unsubscribe data (subscriber, headers) = true) →
            succeeded1
            = succeeded0 + (if reached data (subscriber, headers) then 1 else 0) →
            notify_subscribers config clock topic data sha512 subscribers
              headers succeeded1 (attempted + 1)
              ((log ++ [CallSetupAuthorization url topic sha512
                          (clock (attempted + 1));
                        CallPost url headers data]) ++ removal)
            = (Ok result, log') →
            ∃ calls,
              log' = log ++ calls
              ∧ filter (λ c, is_post c = true) calls
                = (λ request, CallPost (subscriber_url request.1) request.2 data)
                  <$> (subscriber, headers) :: requests
              ∧ filter (λ c, is_unsubscribe c = true) calls
                = (λ request, unsubscribe_call topic request.1)
                  <$> filter (λ request, asks_to_unsubscribe data request = true)
                        ((subscriber, headers) :: requests)
              ∧ succeeded result
                = succeeded0
                  + len (filter (λ request, reached data request = true)
                           ((subscriber, headers) :: requests))
              ∧ succeeded result + failed result
                = attempted + len ((subscriber, headers) :: requests)
              ∧ (result_type result = OK
                 ↔ subscriber :: attempted_subscribers subscribers
                   = subscriber :: subscribers)) as Hcase.
  { intros succeeded1 removal Hremoval Hsucceeded Hnext.
    unfold headers, delivery_headers in Hnext.
    apply IH in Hnext
      as (calls & -> & Hposts & Hremovals & Hcount & Hsum & Hok);
      [|destruct (setup_authorization _ _ _ _ _); eauto].
    fold requests in Hposts, Hremovals, Hcount, Hsum.
    exists ([CallSetupAuthorization url topic sha512 (clock (attempted + 1));
             CallPost url headers data] ++ removal ++ calls).
    split; [by rewrite <- !app_assoc|].
    rewrite !filter_app, Hposts, Hremovals.
    rewrite !filter_cons, !filter_nil. cbn [is_post is_unsubscribe].
    rewrite Hcount, Hsucceeded.
    destruct Hremoval as [[-> Hasks]|[-> Hasks]]; rewrite Hasks;
      rewrite ?filter_cons, ?filter_nil, ?Hnopost, ?Hunsub;
      destruct (reached data (subscriber, headers));
      repeat case_decide; try done;
      unfold len in *; cbn [app fmap list_fmap fst snd length].
    all: split; [done|]. all: split; [done|].
    all: split; [lia|]. all: split; [lia|].
    all: rewrite Hok; split; [by intros ->|by intros [= ->]]. }
  assert (reached data (subscriber, headers)
          = match post url headers data with
            | PostResponse status _ _ => status <? 400
            | PostClientError => false
            end) as Hreached by done.
  assert (asks_to_unsubscribe data (subscriber, headers)
          = match post url headers data with
            | PostResponse status (Some content_type) JsonUnsubscribe =>
                (400 <=? status) && (status <? 500)
                && String.prefix "application/json" content_type
            | _ => false
            end) as Hasks by done.
  destruct (post url headers data) as [|status content_type json] eqn:Hpost.
  { rewrite <- (app_nil_r (log ++ _)) in Hrun.
    apply (Hcase succeeded0 []); [by left|rewrite Hreached; lia|done]. }
  destruct (status <? 400) eqn:Hstatus.
  { rewrite <- (app_nil_r (log ++ _)) in Hrun.
    apply (Hcase (succeeded0 + 1) []); [left|by rewrite Hreached|done].
    split; [done|]. rewrite Hasks.
    destruct content_type, json; try done.
    destruct (Z.leb_spec 400 status), (Z.ltb_spec status 400); try done; lia. }
  destruct (asks_to_unsubscribe data (subscriber, headers)) eqn:Hasked.
  { apply (Hcase succeeded0 [unsubscribe_call topic subscriber]);
      [by right|rewrite Hreached; lia|done]. }
  rewrite <- (app_nil_r (log ++ _)) in Hrun.
  apply (Hcase succeeded0 []); [by left|rewrite Hreached; lia|].
  destruct json; try done.
  destruct ((400 <=? status) && (status <? 500)); [|done].
  destruct content_type as [content_type|]; [|done].
  by destruct (String.prefix "application/json" content_type).
Qed.

End fanout.

Section delivery_fanout.

Import Routes.

(** X17. What [handle_trusted_notify] sends and counts. The
    subscribers of the topic are attempted in the order the store gives
    them, up to the first sign that the store is unavailable. Each gets
    one [POST], with the same data and the same four headers
    ([Content-Type], [Content-Length], [Repr-Digest] with the base64 of
    the digest, [X-Topic] with the base64 of the topic) and with the
    [Authorization] that was set up for it, or none: never the one of
    the subscriber before. A subscription is removed exactly when its
    subscriber answers with a status from 400 to 499 and a JSON
    dictionary whose [unsubscribe] is true: an exact one by the topic, a
    glob one by its glob. [succeeded] counts the requests answered with
    a status below 400, [succeeded + failed] is the number of
    subscribers attempted, and the result is [OK] exactly when the
    store gave no sign of being unavailable. *)
Theorem delivery_fanout `{Network} (config : Config) (clock : Z → Z)
    (topic data : bytes) (content_length : Z) (sha512 : bytes)
    (log : list call) (result : TrustedNotifyResult) (log' : list call) :
  handle_trusted_notify config clock topic data content_length sha512 log
  = (Ok result, log') →
  let subscribers := get_subscribers config topic in
  let requests :=
    delivery_requests config clock topic content_length sha512 0
      (attempted_subscribers subscribers) in
  ∃ calls,
    log' = log ++ calls
    ∧ filter (λ c, is_post c = true) calls
      = (λ request, CallPost (subscriber_url request.1) request.2 data)
        <$> requests
    ∧ filter (λ c, is_unsubscribe c = true) calls
      = (λ request, unsubscribe_call topic request.1)
        <$> filter (λ request, asks_to_unsubscribe data request = true) requests
    ∧ succeeded result
      = len (filter (λ request, reached data request = true) requests)
    ∧ succeeded result + failed result = len requests
    ∧ (result_type result = OK ↔ attempted_subscribers subscribers = subscribers).
Proof.
  intros Hrun subscribers requests. unfold handle_trusted_notify in Hrun.
  pose proof (notify_subscribers_run config clock topic data content_length
                sha512 subscribers [] 0 0 log result log') as Hloop.
  rewrite app_nil_r in Hloop. specialize (Hloop (or_introl eq_refl) Hrun).
  cbv zeta in Hloop. by rewrite !Z.add_0_l in Hloop.
Qed.

Lemma delivery_fanout_witness :
  let topic := list_byte_of_string "room/1" in
  let data := list_byte_of_string "hello" in
  let run :=
    handle_trusted_notify (H := example_network) example_config (λ _, 0) topic
      data 5 (sha512 data) [] in
  run.1 = Ok (mk_TrustedNotifyResult OK 1 1)
  ∧ ∃ calls,
      run.2 = calls
      ∧ length (filter (λ c, is_post c = true) calls) = 2%nat
      ∧ filter (λ c, is_unsubscribe c = true) calls
        = [CallUnsubscribeGlob "http://b.example/hook" "room/*"].
Proof.
  intros topic data run.
  assert (run = (Ok (mk_TrustedNotifyResult OK 1 1), run.2)) as Hrun
    by (vm_compute; reflexivity).
  split; [by rewrite Hrun|].
  destruct (delivery_fanout (H := example_network) example_config (λ _, 0) topic
              data 5 (sha512 data) [] _ run.2 Hrun)
    as (calls & Hcalls & Hposts & Hremovals & _).
  exists calls. split; [done|]. split.
  - by rewrite Hposts, length_fmap.
  - rewrite Hremovals. by vm_compute.
Defined.

End delivery_fanout.

(** ** The HTTP routes: the request to notify *)

Section notify_route.

Import Routes.

(** Where a list that begins two ways is cut. *)
Lemma app_cut {A : Type} (written left head rest : list A) :
  written ++ left = head ++ rest → (length head ≤ length written)%nat →
  ∃ tail, written = head ++ tail ∧ rest = tail ++ left.
Proof.
  intros Heq Hlen.
  apply app_eq_inv in Heq as [(k & -> & ->)|(k & -> & ->)]; [by exists k|].
  rewrite length_app in Hlen. destruct k; [|cbn in Hlen; lia].
  exists []. by rewrite !app_nil_r.
Qed.

(** The first loop writes the chunks it takes and counts their bytes; it
    ends with the stream, or with enough bytes for any head. *)
Lemma read_head_run (chunks : list bytes) (request_body : bytes)
    (read_length : Z) (written : bytes) (count : Z) (saw_end : bool)
    (left : list bytes) :
  read_length = len request_body →
  read_head chunks request_body read_length = (written, count, saw_end, left) →
  written ++ concat left = request_body ++ concat chunks
  ∧ count = len written
  ∧ (if saw_end then left = [] else 2 + 65535 + 64 + 8 ≤ count).
Proof.
  revert request_body read_length.
  induction chunks as [|chunk chunks IH]; intros request_body read_length Hl;
    cbn [read_head].
  - by intros [= <- <- <- <-].
  - assert (read_length + len chunk = len (request_body ++ chunk)) as Hl'
      by (unfold len in *; rewrite length_app; lia).
    destruct (Z.leb_spec (2 + 65535 + 64 + 8) (read_length + len chunk)).
    + intros [= <- <- <- <-]. cbn [concat]. by rewrite <- app_assoc.
    + intros Hrun. apply IH in Hrun as (Hw & Hc & He); [|done].
      cbn [concat]. by rewrite app_assoc.
Qed.

(** The loop over the rest of the stream takes all of it when it fits
    the announced length, and otherwise ends the request or counts more
    than was announced. *)
Lemma read_tail_fits (chunks : list bytes) (hashed : bytes)
    (read_length total : Z) :
  read_length + len (concat chunks) ≤ total →
  read_tail chunks hashed read_length total
  = Some (hashed ++ concat chunks, read_length + len (concat chunks)).
Proof.
  revert hashed read_length.
  induction chunks as [|chunk chunks IH]; intros hashed read_length;
    cbn [read_tail concat].
  - intros _. rewrite app_nil_r. do 2 f_equal. unfold len. cbn. lia.
  - unfold len. rewrite length_app. intros Hfits.
    destruct (Z.ltb_spec total (read_length + Z.of_nat (length chunk))); [lia|].
    fold (len chunk). rewrite IH by (unfold len; lia).
    rewrite <- app_assoc. do 2 f_equal. unfold len. lia.
Qed.

Lemma read_tail_over (chunks : list bytes) (hashed : bytes)
    (read_length total : Z) :
  total < read_length + len (concat chunks) →
  match read_tail chunks hashed read_length total with
  | None => True
  | Some (_, read_length) => total < read_length
  end.
Proof.
  revert hashed read_length.
  induction chunks as [|chunk chunks IH]; intros hashed read_length;
    cbn [read_tail concat].
  - unfold len. cbn. lia.
  - unfold len. rewrite length_app. intros Hover.
    destruct (Z.ltb_spec total (read_length + Z.of_nat (length chunk)));
      [done|].
    apply IH. unfold len. lia.
Qed.

(** The four reads of the head, on what was written of a request that
    begins with one. *)
Lemma read_head_fields (topic message_hash : bytes) (announced : Z)
    (topic_length message_length tail : bytes) :
  to_bytes (len topic) 2 = Ok topic_length →
  len message_hash = 64 →
  to_bytes announced 8 = Ok message_length →
  read_exact (topic_length ++ topic ++ message_hash ++ message_length ++ tail) 2
  = Ok (topic_length, topic ++ message_hash ++ message_length ++ tail)
  ∧ from_bytes topic_length = len topic
  ∧ read_exact (topic ++ message_hash ++ message_length ++ tail) (len topic)
    = Ok (topic, message_hash ++ message_length ++ tail)
  ∧ read_exact (message_hash ++ message_length ++ tail) 64
    = Ok (message_hash, message_length ++ tail)
  ∧ read_exact (message_length ++ tail) 8 = Ok (message_length, tail)
  ∧ from_bytes message_length = announced
  ∧ 0 ≤ announced.
Proof.
  intros Htopic Hhash Hmessage.
  destruct (read_length_written _ _ (message_hash ++ message_length ++ tail)
              Htopic) as [Hread Hfrom].
  apply to_bytes_inv in Hmessage as (Hvalue & Hsize & Hrange).
  repeat split; [done|done|apply read_exact_app| | |done|lia].
  - rewrite <- Hhash. apply read_exact_app.
  - apply read_exact_app'. unfold len. by rewrite Hsize.
Qed.

(** X18. [POST /v1/notify] on a request that begins with a
    head: the length of the topic on two bytes, the topic, a digest of
    64 bytes and the announced length of the message on eight bytes,
    followed by the message. However the stream cuts the request into
    chunks, the route asks the authorization provider once, for the
    topic and the digest of the head, and answers 401, 403, 503 or 500
    to a verdict other than [ok]. It then answers 400, having made no
    other call, unless the message has the announced length and its
    SHA-512 is the digest of the head. Only then is the message
    delivered, with the announced length and that digest: the answer is
    200 with the number of subscribers reached, or 503 when the store
    of the subscribers was unavailable. *)
Theorem notify_request `{Network} (config : Config) (clock : Z → Z)
    (auth_at : Z) (authorization : option string) (chunks : list bytes)
    (topic message_hash message : bytes) (announced : Z)
    (topic_length message_length : bytes) (log : list call) :
  to_bytes (len topic) 2 = Ok topic_length →
  len message_hash = 64 →
  to_bytes announced 8 = Ok message_length →
  concat chunks
  = topic_length ++ topic ++ message_hash ++ message_length ++ message →
  let auth_result :=
    is_notify_allowed config topic message_hash auth_at authorization in
  let asked :=
    log ++ [CallIsNotifyAllowed topic message_hash auth_at authorization] in
  notify config clock auth_at authorization chunks log
  = if bool_decide (auth_result = "ok")
    then
      if bool_decide (len message = announced ∧ sha512 message = message_hash)
      then
        match handle_trusted_notify config clock topic message announced
                message_hash asked with
        | (Ok result, log') =>
            (Ok match result_type result with
                | UNAVAILABLE => status 503
                | OK => mk_Response 200 (Some (succeeded result))
                end, log')
        | (Raise e, log') => (Raise e, log')
        end
      else (Ok (status 400), asked)
    else (Ok (status (auth_status auth_result)), asked).
Proof.
  intros Htopic Hhash Hmessage Hchunks auth_result asked. unfold notify.
  destruct (read_head chunks [] 0) as [[[written count] saw_end] left]
    eqn:Hhead.
  apply read_head_run in Hhead as (Hwritten & -> & Hend); [|done].
  cbn [app] in Hwritten. rewrite Hchunks in Hwritten.
  pose proof (to_bytes_inv _ _ _ Htopic) as (_ & Hsize & Hrange).
  pose proof (to_bytes_inv _ _ _ Hmessage) as (_ & Hsize' & _).
  assert (∃ tail, written
                  = topic_length ++ topic ++ message_hash ++ message_length
                    ++ tail
                  ∧ message = tail ++ concat left) as (tail & -> & Hrest).
  { destruct (app_cut written (concat left)
                (topic_length ++ topic ++ message_hash ++ message_length)
                message) as (tail & -> & ->).
    - by rewrite Hwritten, <- !app_assoc.
    - destruct saw_end.
      + subst left. rewrite app_nil_r in Hwritten. rewrite Hwritten.
        rewrite !length_app. lia.
      + unfold len in *. rewrite !length_app. rewrite Hsize, Hsize'.
        change (256 ^ Z.of_nat 2) with 65536 in Hrange. lia.
    - exists tail. by rewrite <- !app_assoc. }
  destruct (read_head_fields topic message_hash announced topic_length
              message_length tail Htopic Hhash Hmessage)
    as (Hr1 & Hf1 & Hr2 & Hr3 & Hr4 & Hf2 & Hpos).
  unfold lift, called.
  cbv beta iota delta [mbind mret calls_bind calls_ret].
  rewrite Hr1, Hf1, Hr2, Hr3, Hr4, Hf2.
  fold auth_result asked. rewrite auth_response_ok.
  case_bool_decide as Hauth; [|done].
  assert (len (topic_length ++ topic ++ message_hash ++ message_length ++ tail)
          = 2 + len topic + 64 + 8 + len tail) as Hcount.
  { unfold len in *. rewrite !length_app, Hsize, Hsize'. lia. }
  assert (len message = len tail + len (concat left)) as Hlen
    by (rewrite Hrest; unfold len; rewrite length_app; lia).
  rewrite Hcount.
  destruct (decide (len message ≤ announced)) as [Hfits|Hover].
  - replace (if saw_end then _ else _)
      with (Some (message, 2 + len topic + 64 + 8 + len message)).
    2:{ destruct saw_end.
        - subst left. cbn [concat] in *. rewrite app_nil_r in Hrest.
          subst tail. done.
        - rewrite read_tail_fits by lia. rewrite <- Hrest.
          do 2 f_equal. lia. }
    destruct (Z.eqb_spec (2 + len topic + 64 + 8 + len message)
                (2 + len topic + 64 + 8 + announced)) as [Heq|Hne];
      cbn [negb].
    + case_bool_decide as Hhashed; cbn [negb].
      * rewrite bool_decide_true by (split; [lia|done]).
        rewrite Hhashed.
        destruct (handle_trusted_notify _ _ _ _ _ _ _) as [[result|e] log'];
          [|done].
        by destruct (result_type result).
      * by rewrite bool_decide_false by (intros [_ ?]; done).
    + by rewrite bool_decide_false by (intros [? _]; lia).
  - rewrite bool_decide_false by (intros [? _]; lia).
    destruct saw_end.
    + subst left. cbn [concat] in *. rewrite app_nil_r in Hrest. subst tail.
      destruct (Z.eqb_spec (2 + len topic + 64 + 8 + len message)
                  (2 + len topic + 64 + 8 + announced)); [lia|done].
    + pose proof (read_tail_over left tail
                    (2 + len topic + 64 + 8 + len tail)
                    (2 + len topic + 64 + 8 + announced)) as Htail.
      destruct (read_tail _ _ _ _) as [[hashed read_length]|]; [|done].
      destruct (Z.eqb_spec read_length (2 + len topic + 64 + 8 + announced));
        [lia|done].
Qed.

Lemma notify_request_witness :
  let topic := list_byte_of_string "room/1" in
  let message := list_byte_of_string "hello" in
  let head :=
    ["000"; "006"]%byte ++ topic ++ sha512 message
    ++ ["000"; "000"; "000"; "000"; "000"; "000"; "000"; "005"]%byte in
  let run (message : bytes) :=
    notify (H := example_network) example_config (λ _, 0) 0
      (Some "tok"%string)
      [take 3 head; drop 3 head ++ take 2 message; drop 2 message] [] in
  (run message).1 = Ok (mk_Response 200 (Some 1))
  ∧ run (list_byte_of_string "help") 
    = (Ok (status 400),
       [CallIsNotifyAllowed topic (sha512 message) 0 (Some "tok"%string)]).
Proof.
  intros topic message head run.
  assert (∀ sent : bytes,
            concat [take 3 head; drop 3 head ++ take 2 sent; drop 2 sent]
            = ["000"; "006"]%byte ++ topic ++ sha512 message
              ++ ["000"; "000"; "000"; "000"; "000"; "000"; "000"; "005"]%byte
              ++ sent) as Hcut.
  { intros sent. transitivity (head ++ sent).
    - cbn [concat]. by rewrite app_nil_r, <- app_assoc, take_drop, app_assoc,
        take_drop.
    - subst head. by rewrite <- !app_assoc. }
  split.
  - unfold run.
    rewrite (notify_request (H := example_network) example_config (λ _, 0) 0
               (Some "tok"%string) _ topic (sha512 message) message 5
               ["000"; "006"]%byte
               ["000"; "000"; "000"; "000"; "000"; "000"; "000"; "005"]%byte []
               eq_refl eq_refl eq_refl (Hcut message)).
    by vm_compute.
  - unfold run.
    rewrite (notify_request (H := example_network) example_config (λ _, 0) 0
               (Some "tok"%string) _ topic (sha512 message)
               (list_byte_of_string "help") 5 ["000"; "006"]%byte
               ["000"; "000"; "000"; "000"; "000"; "000"; "000"; "005"]%byte []
               eq_refl eq_refl eq_refl (Hcut (list_byte_of_string "help"))).
    by vm_compute.
Defined.

(** X19. [POST /v1/notify] on a request that ends before
    its head does: when the stream gives fewer bytes than the two of the
    length of the topic, the topic of that length, the 64 of the digest
    and the 8 of the length of the message, the route ends with the
    exception of [read_exact], having asked no authorization and
    delivered nothing. It does not answer 400 as the route to subscribe
    does. *)
Theorem notify_truncated_head `{Network} (config : Config) (clock : Z → Z)
    (auth_at : Z) (authorization : option string) (chunks : list bytes)
    (log : list call) :
  len (concat chunks) < 2 + from_bytes (take 2 (concat chunks)) + 64 + 8 →
  ∃ e, notify config clock auth_at authorization chunks log = (Raise e, log).
Proof.
  intros Hshort. unfold notify.
  destruct (read_head chunks [] 0) as [[[written count] saw_end] left]
    eqn:Hhead.
  apply read_head_run in Hhead as (Hwritten & -> & Hend); [|done].
  cbn [app] in Hwritten. rewrite <- Hwritten in Hshort.
  pose proof (from_bytes_range (take 2 (written ++ concat left))) as Hrange.
  assert (len (take 2 (written ++ concat left)) ≤ 2) as Htwo
    by (unfold len; rewrite length_take; lia).
  assert (256 ^ len (take 2 (written ++ concat left)) ≤ 256 ^ 2) as Hpow
    by (apply Z.pow_le_mono_r; [lia|done]).
  change (256 ^ 2) with 65536 in Hpow.
  destruct saw_end.
  2:{ exfalso. unfold len in *. rewrite length_app in Hshort. lia. }
  subst left. cbn [concat] in *. rewrite app_nil_r in *.
  unfold lift. cbv beta iota delta [mbind mret calls_bind calls_ret].
  destruct (read_exact written 2) as [[topic_length body1]|e] eqn:H1;
    [|by exists e].
  apply read_exact_inv in H1 as [-> Hl1]; [|lia].
  assert (take 2 (topic_length ++ body1) = topic_length) as Htake.
  { rewrite take_app_le by (unfold len in Hl1; lia).
    apply take_ge. unfold len in Hl1. lia. }
  rewrite Htake in *.
  destruct (read_exact body1 _) as [[topic body2]|e] eqn:H2; [|by exists e].
  apply read_exact_inv in H2 as [-> Hl2]; [|lia].
  destruct (read_exact body2 64) as [[message_hash body3]|e] eqn:H3;
    [|by exists e].
  apply read_exact_inv in H3 as [-> Hl3]; [|lia].
  destruct (read_exact body3 8) as [[message_length body4]|e] eqn:H4;
    [|by exists e].
  apply read_exact_inv in H4 as [-> Hl4]; [|lia].
  exfalso. unfold len in *. rewrite !length_app in Hshort. lia.
Qed.

Lemma notify_truncated_head_witness :
  ∃ e,
    notify (H := example_network) example_config (λ _, 0) 0 (Some "tok"%string)
      [["000"]%byte; ["006"]%byte; list_byte_of_string "room/1"] []
    = (Raise e, []).
Proof.
  apply (notify_truncated_head (H := example_network) example_config (λ _, 0) 0
           (Some "tok"%string)
           [["000"]%byte; ["006"]%byte; list_byte_of_string "room/1"] []).
  by vm_compute.
Defined.

End notify_route.
